(** * Copy-trading bot: price resolution, execution, exit strategy and PnL

    A shallow embedding of the JavaScript sources of the bot
    (pumpPriceReaderRaw.js, priceService.js, graduationHandler.js,
    pumpPortalExecutor.js, jupiterExecutor.js, copyStrategy.js,
    pnlCalculator.js and the cleanup endpoint of server.js) together
    with the properties
    its specification states about them.

    JavaScript numbers are IEEE-754 binary64 values, modelled by the
    kernel's primitive [float]; BigInt values, millisecond clocks and
    counters are modelled by [Z]; a string is held as the bytes of its
    UTF-8 encoding.  Network and store accesses are calls
    to an explicit environment record and are logged, exceptions are the
    [Throw] results of a small error/state monad. *)

From Stdlib Require Import ZArith QArith Qround Floats Lia List Ascii String.
From stdpp Require Import gmap strings list.

Set Warnings "-inexact-float".
Local Open Scope Z_scope.

(** ** Exceptions and effects *)

(** The result of a JavaScript computation: a value, or a thrown error
    with its message. *)
Inductive outcome (A : Type) : Type :=
| Ok (a : A)
| Throw (msg : string).
Arguments Ok {A} a.
Arguments Throw {A} msg.

(** A computation over a mutable state [S] that may throw.  The state
    survives a throw, as the fields of a JavaScript object do. *)
Definition Eff (S A : Type) : Type := S -> outcome A * S.

Definition ret {S A} (a : A) : Eff S A := fun s => (Ok a, s).

Definition bind {S A B} (m : Eff S A) (k : A -> Eff S B) : Eff S B :=
  fun s => match m s with
           | (Ok a, s') => k a s'
           | (Throw e, s') => (Throw e, s')
           end.

Definition throw {S A} (msg : string) : Eff S A := fun s => (Throw msg, s).

(** [try { m } catch (err) { h err.message }] *)
Definition try_catch {S A} (m : Eff S A) (h : string -> Eff S A) : Eff S A :=
  fun s => match m s with
           | (Ok a, s') => (Ok a, s')
           | (Throw e, s') => h e s'
           end.

Definition get {S} : Eff S S := fun s => (Ok s, s).
Definition modify {S} (f : S -> S) : Eff S unit := fun s => (Ok tt, f s).

(** Lifts the answer of the environment (a value or an exception). *)
Definition lift {S A} (o : outcome A) : Eff S A := fun s => (o, s).

Declare Scope eff_scope.
Delimit Scope eff_scope with eff.
Notation "x <- m ;; k" := (bind m (fun x => k))
  (at level 100, m at next level, right associativity) : eff_scope.
Notation "m ;;; k" := (bind m (fun _ => k))
  (at level 100, right associativity) : eff_scope.

(** ** JavaScript numbers *)

Module JS.
Local Open Scope float_scope.

(** [Number(n)] for a BigInt or an integer-valued quantity [n]:
    the nearest binary64 value, ties to even. *)
Definition ofZ (n : Z) : float :=
  SF2Prim (binary_normalize prec emax n 0%Z false).

(** The nearest binary64 value of the rational [p/q], for [0 <= p] and
    [0 < q]: what [Number] reads from a decimal string.  The quotient
    is computed with at least 57 significant bits, the last one sticky. *)
Definition ofRatio (p q : Z) : float :=
  if (p =? 0)%Z then 0 else
  let k := Z.max 0 (Z.log2 q - Z.log2 p + 56) in
  let n := (p * 2 ^ k / q)%Z in
  let sticky := if ((p * 2 ^ k) mod q =? 0)%Z then 0%Z else 1%Z in
  SF2Prim (binary_normalize prec emax (2 * n + sticky) (- k - 1) false).

(** [!x] is false for a number exactly when it is neither zero nor NaN. *)
Definition truthy (x : float) : bool := negb (is_zero x || is_nan x).

(** [x || d] on numbers. *)
Definition or_else (x d : float) : float := if truthy x then x else d.

(** [o ?? d] and [o || d] on a possibly missing number. *)
Definition nullish (o : option float) (d : float) : float :=
  match o with Some x => x | None => d end.
Definition or_default (o : option float) (d : float) : float :=
  match o with Some x => or_else x d | None => d end.

(** [Number(x.toFixed(d))]: [toFixed] picks the integer [n] with
    [n / 10^d] nearest to [|x|] (the larger one on a tie) and prints
    it with [d] decimals; values of magnitude [1e21] and above, the
    infinities and NaN are printed as by [String] and read back
    unchanged. *)
Definition toFixed (d : nat) (x : float) : float :=
  match Prim2SF x with
  | S754_nan => nan
  | S754_infinity _ => x
  | S754_zero _ => 0
  | S754_finite s m e =>
      if 1e21 <=? abs x then x else
      let scale := (10 ^ Z.of_nat d)%Z in
      let num := (Z.pos m * scale)%Z in
      let n := if (0 <=? e)%Z then (num * 2 ^ e)%Z
               else ((2 * num + 2 ^ (- e)) / 2 ^ (1 - e))%Z in
      let r := if (n =? 0)%Z then 0 else ofRatio n scale in
      if s then - r else r
  end.

(** [Math.floor] of a finite number; [None] for NaN and the
    infinities. *)
Definition floor (x : float) : option Z :=
  match Prim2SF x with
  | S754_zero _ => Some 0%Z
  | S754_finite s m e =>
      let v := if s then Z.neg m else Z.pos m in
      Some (if (0 <=? e)%Z then (v * 2 ^ e)%Z else (v / 2 ^ (- e))%Z)
  | _ => None
  end.
(** A property of an object as JavaScript holds it: missing, a number,
    or a string (the fields of a store hash are strings). *)
Inductive value :=
| VUndefined
| VNumber (x : float)
| VString (s : string).

(** Whether a value counts as true in a condition *)
Definition truthyV (v : value) : bool :=
  match v with
  | VUndefined => false
  | VNumber x => truthy x
  | VString s => negb (String.eqb s "")
  end.

(** [a || b] and [a ?? b] on values *)
Definition orV (a b : value) : value := if truthyV a then a else b.
Definition nullishV (a b : value) : value :=
  match a with VUndefined => b | _ => a end.

(** [Number(v)]; [read] is [Number] on strings. *)
Definition toNumber (read : string -> float) (v : value) : float :=
  match v with
  | VUndefined => nan
  | VNumber x => x
  | VString s => read s
  end.
End JS.

(** ** pnlCalculator.js: fee-aware profit and loss *)

Module PnLCalculator.
Local Open Scope float_scope.

(** The argument of [calculatePnL]; a missing property is [None], and
    the last four take their destructuring defaults. *)
Record Trade := {
  entryPrice : option float;
  exitPrice : option float;
  tokenAmount : option float;
  solSpent : option float;
  executor : option string;
  slippage : option float;
  networkFee : option float;
  priorityFee : option float
}.

Record EntryBreakdown := {
  entry_price : float;
  entry_tokens : float;
  entry_solSpent : float;
  buyFeePercent : float;
  buyFeeAmount : float
}.

Record ExitBreakdown := {
  exit_price : float;
  grossValue : float;
  sellFeeAmount : float;
  sellFeePercent : float;
  valueAfterSellFee : float;
  slippageAmount : float;
  slippagePercent : float;
  valueAfterSlippage : float;
  exit_networkFee : float;
  exit_priorityFee : float;
  totalNetworkFee : float;
  exit_netReceived : float
}.

Record PnL := {
  pnlSOL : float;
  pnlPercent : float;
  priceChangePercent : float;
  netReceived : float;
  totalFeeAmount : float;
  feeImpactPercent : float;
  entry : EntryBreakdown;
  exit : ExitBreakdown;
  pnl_executor : string;
  executorLabel : string
}.

(** [!x] for a possibly missing number. *)
Definition falsy (o : option float) : bool :=
  match o with Some x => negb (JS.truthy x) | None => true end.

(** The buy fee, the sell fee and the label of an executor. *)
Definition executorFees (executor : string) : float * float * string :=
  if String.eqb executor "pumpportal" then
    (0.0175, 0.0175, "PumpPortal (Pump.fun + 0.5%)"%string)
  else if String.eqb executor "jupiter" then
    (0.003, 0.003, "Jupiter (DEX aggregator)"%string)
  else (0.01, 0.01, "Generic DEX"%string).

(** [PnLCalculator.calculatePnL(trade)], the variant that models
    slippage and network fees.  Console output is left out. *)
Definition calculatePnL (trade : Trade) : outcome PnL :=
  let executor := default "pumpportal"%string (executor trade) in
  let slippage := JS.nullish (slippage trade) 0 in
  let networkFee := JS.nullish (networkFee trade) 0.000005 in
  let priorityFee := JS.nullish (priorityFee trade) 0 in
  if falsy (entryPrice trade) || falsy (exitPrice trade)
     || falsy (tokenAmount trade) || falsy (solSpent trade)
  then Throw "Missing required fields for PnL calculation"
  else
  match entryPrice trade, exitPrice trade, tokenAmount trade, solSpent trade with
  | Some entryPrice, Some exitPrice, Some tokenAmount, Some solSpent =>
    if (tokenAmount <=? 0) || (solSpent <=? 0)
       || (entryPrice <=? 0) || (exitPrice <=? 0)
    then Throw "All values must be positive"
    else
    let '(buyFeeTotal, sellFeeTotal, executorLabel) := executorFees executor in
    (* the value of the tokens at the exit price *)
    let grossValue := tokenAmount * exitPrice in
    (* sell fee *)
    let sellFeeAmount := grossValue * sellFeeTotal in
    let valueAfterSellFee := grossValue - sellFeeAmount in
    (* slippage, when there is any *)
    let valueAfterSlippage :=
      if 0.0001 <? abs slippage
      then valueAfterSellFee - valueAfterSellFee * abs slippage
      else valueAfterSellFee in
    (* network fees *)
    let totalNetworkFee := networkFee + priorityFee in
    let netReceived := valueAfterSlippage - totalNetworkFee in
    (* final PnL *)
    let pnlSOL := netReceived - solSpent in
    let pnlPercent := (pnlSOL / solSpent) * 100 in
    let priceChangePercent := ((exitPrice - entryPrice) / entryPrice) * 100 in
    let totalFeeAmount :=
      (solSpent * buyFeeTotal) + sellFeeAmount + totalNetworkFee in
    let feeImpactPercent := (totalFeeAmount / solSpent) * 100 in
    Ok {| pnlSOL := JS.toFixed 6 pnlSOL;
          pnlPercent := JS.toFixed 2 pnlPercent;
          priceChangePercent := JS.toFixed 2 priceChangePercent;
          netReceived := JS.toFixed 6 netReceived;
          totalFeeAmount := JS.toFixed 6 totalFeeAmount;
          feeImpactPercent := JS.toFixed 2 feeImpactPercent;
          entry := {| entry_price := entryPrice;
                      entry_tokens := tokenAmount;
                      entry_solSpent := solSpent;
                      buyFeePercent := buyFeeTotal;
                      buyFeeAmount := solSpent * buyFeeTotal |};
          exit := {| exit_price := exitPrice;
                     grossValue := grossValue;
                     sellFeeAmount := sellFeeAmount;
                     sellFeePercent := sellFeeTotal;
                     valueAfterSellFee := valueAfterSellFee;
                     slippageAmount := valueAfterSellFee - valueAfterSlippage;
                     slippagePercent := slippage;
                     valueAfterSlippage := valueAfterSlippage;
                     exit_networkFee := networkFee;
                     exit_priorityFee := priorityFee;
                     totalNetworkFee := totalNetworkFee;
                     exit_netReceived := netReceived |};
          pnl_executor := executor;
          executorLabel := executorLabel |}
  | _, _, _, _ => Throw "Missing required fields for PnL calculation"
  end.

(** The position [calculateUnrealizedPnL] reads, with the alternative
    names of its amounts. *)
Record OpenPosition := {
  pos_entryPrice : JS.value;
  pos_solAmount : JS.value;
  pos_solSpent : JS.value;
  pos_tokensAmount : JS.value;
  pos_tokenAmount : JS.value;
  pos_entryTime : JS.value
}.

Record UnrealizedOptions := {
  opt_executor : option string;
  opt_estimatedSlippage : option float;
  opt_networkFee : option float;
  opt_priorityFee : option float
}.

Record Unrealized := {
  cur_price : float;
  cur_grossValue : float;
  cur_sellFeeAmount : float;
  cur_sellFeePercent : float;
  cur_valueAfterFee : float;
  cur_slippageEstimate : float;
  cur_valueAfterSlippage : float;
  cur_networkFee : float;
  cur_netReceived : float;
  unrealized_pnlSOL : float;
  unrealized_pnlPercent : float;
  holdTimeMs : float;
  unrealized_executor : string
}.

(** [PnLCalculator.calculateUnrealizedPnL(position, currentPrice, options)].
    [read] is [Number] on strings; [clock 0] and [clock 1] are the two
    readings of [Date.now()] the last line may take. *)
Definition calculateUnrealizedPnL (read : string -> float) (clock : nat -> Z)
  (position : OpenPosition) (currentPrice : float)
  (options : UnrealizedOptions) : outcome Unrealized :=
  let executor := default "pumpportal"%string (opt_executor options) in
  let estimatedSlippage := JS.nullish (opt_estimatedSlippage options) 0.02 in
  let networkFee := JS.nullish (opt_networkFee options) 0.000005 in
  let priorityFee := JS.nullish (opt_priorityFee options) 0 in
  let entryPrice := JS.toNumber read (pos_entryPrice position) in
  let solSpent :=
    JS.toNumber read (JS.orV (pos_solAmount position) (pos_solSpent position)) in
  let tokenAmount :=
    JS.toNumber read
      (JS.orV (pos_tokensAmount position) (pos_tokenAmount position)) in
  if negb (JS.truthy entryPrice) || negb (JS.truthy solSpent)
     || negb (JS.truthy tokenAmount) || negb (JS.truthy currentPrice)
  then Throw "Missing fields for unrealized PnL" else
  if (currentPrice <=? 0) || (entryPrice <=? 0)
  then Throw "Prices must be positive" else
  let sellFeeTotal :=
    if String.eqb executor "pumpportal" then 0.0175 else 0.003 in
  (* the sale, simulated *)
  let grossValue := tokenAmount * currentPrice in
  let sellFeeAmount := grossValue * sellFeeTotal in
  let valueAfterFee := grossValue - sellFeeAmount in
  let slippageAmount := valueAfterFee * estimatedSlippage in
  let valueAfterSlippage := valueAfterFee - slippageAmount in
  let totalNetworkFee := networkFee + priorityFee in
  let netReceived := valueAfterSlippage - totalNetworkFee in
  let pnlSOL := netReceived - solSpent in
  let pnlPercent := (pnlSOL / solSpent) * 100 in
  let holdTimeMs :=
    JS.ofZ (clock 0%nat)
    - (if JS.truthyV (pos_entryTime position)
       then JS.toNumber read (pos_entryTime position)
       else JS.ofZ (clock 1%nat)) in
  Ok {| cur_price := currentPrice;
        cur_grossValue := grossValue;
        cur_sellFeeAmount := sellFeeAmount;
        cur_sellFeePercent := sellFeeTotal;
        cur_valueAfterFee := valueAfterFee;
        cur_slippageEstimate := slippageAmount;
        cur_valueAfterSlippage := valueAfterSlippage;
        cur_networkFee := totalNetworkFee;
        cur_netReceived := netReceived;
        unrealized_pnlSOL := JS.toFixed 6 pnlSOL;
        unrealized_pnlPercent := JS.toFixed 2 pnlPercent;
        holdTimeMs := holdTimeMs;
        unrealized_executor := executor |}.

(** What [checkDiscrepancy] returns; the answer to an exception has
    neither [feeImpact] nor [reason]. *)
Record Discrepancy := {
  hasHighImpact : bool;
  feeImpact : option float;
  severity : string;
  reason : option string
}.

(** [PnLCalculator.checkDiscrepancy(trade)] *)
Definition checkDiscrepancy (trade : Trade) : Discrepancy :=
  match calculatePnL trade with
  | Ok result =>
      let discrepancy := abs (priceChangePercent result - pnlPercent result) in
      if (5 <? discrepancy) && (feeImpactPercent result * 2 <? discrepancy)
      then {| hasHighImpact := true; feeImpact := Some discrepancy;
              severity := "HIGH";
              reason := Some "Fees exceed expected amount"%string |}
      else {| hasHighImpact := false; feeImpact := Some discrepancy;
              severity := "OK"; reason := None |}
  | Throw _ =>
      {| hasHighImpact := false; feeImpact := None; severity := "ERROR";
         reason := None |}
  end.

(** *** Vocabulary of the properties *)

(** A field that is present and above zero. *)
Definition positive (o : option float) : bool :=
  match o with Some x => 0 <? x | None => false end.

(** The four required fields of a trade are present and above zero. *)
Definition wellFormed (trade : Trade) : bool :=
  positive (entryPrice trade) && positive (exitPrice trade)
  && positive (tokenAmount trade) && positive (solSpent trade).

(** A trade with another slippage. *)
Definition withSlippage (trade : Trade) (s : option float) : Trade :=
  {| entryPrice := entryPrice trade; exitPrice := exitPrice trade;
     tokenAmount := tokenAmount trade; solSpent := solSpent trade;
     executor := executor trade; slippage := s;
     networkFee := networkFee trade; priorityFee := priorityFee trade |}.

(** The trade that closes an open position at the current price, with
    the estimated slippage and the fees of the options. *)
Definition closingTrade (read : string -> float) (position : OpenPosition)
  (currentPrice : float) (options : UnrealizedOptions) : Trade :=
  {| entryPrice := Some (JS.toNumber read (pos_entryPrice position));
     exitPrice := Some currentPrice;
     tokenAmount :=
       Some (JS.toNumber read
               (JS.orV (pos_tokensAmount position) (pos_tokenAmount position)));
     solSpent :=
       Some (JS.toNumber read
               (JS.orV (pos_solAmount position) (pos_solSpent position)));
     executor := opt_executor options;
     slippage := Some (JS.nullish (opt_estimatedSlippage options) 0.02);
     networkFee := opt_networkFee options;
     priorityFee := opt_priorityFee options |}.

End PnLCalculator.

(** The earlier [calculatePnL] of pnlCalculator.js: the caller passes the
    fee rates, only the sell fee is charged, nothing is rounded. *)
Module PnLCalculatorBasic.
Local Open Scope float_scope.

Record Fees := { buyFee : option float; sellFee : option float }.

Record Trade := {
  entryPrice : option float;
  exitPrice : option float;
  tokenAmount : option float;
  solSpent : option float;
  fees : option Fees
}.

Record PnL := {
  pnlSOL : float;
  pnlPercent : float;
  priceChangePercent : float;
  solBeforeSellFee : float;
  sellFeeAmount : float;
  solAfterSellFee : float;
  buyFeePercent : float;
  sellFeePercent : float
}.

Definition calculatePnL (trade : Trade) : outcome PnL :=
  let fees := default {| buyFee := None; sellFee := None |} (fees trade) in
  if PnLCalculator.falsy (entryPrice trade)
     || PnLCalculator.falsy (exitPrice trade)
     || PnLCalculator.falsy (tokenAmount trade)
     || PnLCalculator.falsy (solSpent trade)
  then Throw "Missing required fields for PnL calculation"
  else
  match entryPrice trade, exitPrice trade, tokenAmount trade, solSpent trade with
  | Some entryPrice, Some exitPrice, Some tokenAmount, Some solSpent =>
    let buyFeePercent := JS.nullish (buyFee fees) 0.01 in
    let sellFeePercent := JS.nullish (sellFee fees) 0.01 in
    let solBeforeSellFee := tokenAmount * exitPrice in
    let solAfterSellFee := solBeforeSellFee * (1 - sellFeePercent) in
    let pnlSOL := solAfterSellFee - solSpent in
    let pnlPercent := (pnlSOL / solSpent) * 100 in
    let priceChangePercent := ((exitPrice - entryPrice) / entryPrice) * 100 in
    Ok {| pnlSOL := pnlSOL;
          pnlPercent := pnlPercent;
          priceChangePercent := priceChangePercent;
          solBeforeSellFee := solBeforeSellFee;
          sellFeeAmount := solBeforeSellFee * sellFeePercent;
          solAfterSellFee := solAfterSellFee;
          buyFeePercent := buyFeePercent;
          sellFeePercent := sellFeePercent |}
  | _, _, _, _ => Throw "Missing required fields for PnL calculation"
  end.

(** [PnLCalculator.calculateUnrealizedPnL(position, currentPrice,
    estimatedSlippage)] of the earlier calculator: a fee of 1%, and the
    amounts read with [??]. *)
Record Unrealized := {
  cur_price : float;
  cur_valueBeforeFee : float;
  cur_feeAmount : float;
  cur_valueAfterFee : float;
  cur_slippageEstimate : float;
  cur_valueAfterSlippage : float;
  unrealized_pnlSOL : float;
  unrealized_pnlPercent : float;
  holdTimeMs : float
}.

Definition calculateUnrealizedPnL (read : string -> float) (clock : nat -> Z)
  (position : PnLCalculator.OpenPosition) (currentPrice : float)
  (estimatedSlippage : option float) : outcome Unrealized :=
  let estimatedSlippage := JS.nullish estimatedSlippage 0.02 in
  let entryPrice := JS.toNumber read (PnLCalculator.pos_entryPrice position) in
  let solSpent :=
    JS.toNumber read
      (JS.nullishV (PnLCalculator.pos_solAmount position)
         (JS.nullishV (PnLCalculator.pos_solSpent position) (JS.VNumber 0))) in
  let tokenAmount :=
    JS.toNumber read
      (JS.nullishV (PnLCalculator.pos_tokensAmount position)
         (JS.nullishV (PnLCalculator.pos_tokenAmount position) (JS.VNumber 0))) in
  if negb (JS.truthy entryPrice) || negb (JS.truthy solSpent)
     || negb (JS.truthy tokenAmount) || negb (JS.truthy currentPrice)
  then Throw "Missing required fields for unrealized PnL" else
  let sellFeePercent := 0.01 in
  let solBeforeFee := tokenAmount * currentPrice in
  let feeAmount := solBeforeFee * sellFeePercent in
  let solAfterFee := solBeforeFee - feeAmount in
  let slippageAmount := solAfterFee * estimatedSlippage in
  let solAfterSlippage := solAfterFee - slippageAmount in
  let pnlSOL := solAfterSlippage - solSpent in
  let pnlPercent := (pnlSOL / solSpent) * 100 in
  let holdTimeMs :=
    JS.ofZ (clock 0%nat)
    - (if JS.truthyV (PnLCalculator.pos_entryTime position)
       then JS.toNumber read (PnLCalculator.pos_entryTime position)
       else JS.ofZ (clock 1%nat)) in
  Ok {| cur_price := currentPrice;
        cur_valueBeforeFee := solBeforeFee;
        cur_feeAmount := feeAmount;
        cur_valueAfterFee := solAfterFee;
        cur_slippageEstimate := slippageAmount;
        cur_valueAfterSlippage := solAfterSlippage;
        unrealized_pnlSOL := pnlSOL;
        unrealized_pnlPercent := pnlPercent;
        holdTimeMs := holdTimeMs |}.

(** [PnLCalculator.checkDiscrepancy(trade)] of the earlier calculator:
    the pair [(hasDiscrepancy, discrepancy)]; an exception of
    [calculatePnL] is not caught. *)
Definition checkDiscrepancy (trade : Trade) : outcome (bool * float) :=
  match calculatePnL trade with
  | Ok result =>
      let discrepancy := abs (priceChangePercent result - pnlPercent result) in
      Ok (3 <? discrepancy, discrepancy)
  | Throw message => Throw message
  end.

End PnLCalculatorBasic.

(** ** The settlement network as the price readers see it *)

(** [connection.getAccountInfo] answers with an account or [null]. *)
Record AccountInfo := { data : option (list Byte.byte) }.

Record Solana := {
  (** whether [new PublicKey(s)] accepts the string *)
  isPublicKey : string -> bool;
  (** the program-derived address of the seeds ['bonding-curve', mint]
      under the Pump.fun program, in base58 *)
  findBondingCurveAddress : string -> string;
  getAccountInfo : string -> outcome (option AccountInfo)
}.

(** ** Node's Buffer reads *)

Module Buffer.

Definition byteValue (b : Byte.byte) : Z := Z.of_N (Byte.to_N b).

Fixpoint littleEndian (bs : list Byte.byte) : Z :=
  match bs with
  | [] => 0
  | b :: rest => byteValue b + 256 * littleEndian rest
  end.

(** [data.readBigUInt64LE(offset)]; a read past the end throws. *)
Definition readBigUInt64LE (data : list Byte.byte) (offset : nat) : outcome Z :=
  let bs := take 8 (drop offset data) in
  if (length bs =? 8)%nat then Ok (littleEndian bs)
  else Throw "ERR_OUT_OF_RANGE".

(** [data.readUInt8(offset)] *)
Definition readUInt8 (data : list Byte.byte) (offset : nat) : outcome Z :=
  match data !! offset with
  | Some b => Ok (byteValue b)
  | None => Throw "ERR_OUT_OF_RANGE"
  end.

(** [data.subarray(0, 8).equals(expected)] *)
Definition startsWith8 (data expected : list Byte.byte) : bool :=
  bool_decide (byteValue <$> take 8 data = byteValue <$> expected).

End Buffer.

(** Sequencing of computations that may throw, without state. *)
Definition obind {A B} (o : outcome A) (k : A -> outcome B) : outcome B :=
  match o with Ok a => k a | Throw e => Throw e end.

Notation "x <-! o ;; k" := (obind o (fun x => k))
  (at level 100, o at next level, right associativity).

(** ** pumpPriceReaderRaw.js: the bonding-curve reader *)

Module PumpPriceReaderRaw.
Local Open Scope float_scope.

Definition BONDING_CURVE_DISCRIMINATOR : list Byte.byte :=
  [Byte.x17; Byte.xb7; Byte.xf8; Byte.x37; Byte.x60; Byte.xd8; Byte.xac; Byte.x60].

Definition VIRTUAL_TOKEN_RESERVES : nat := 8.
Definition VIRTUAL_SOL_RESERVES : nat := 16.
Definition REAL_TOKEN_RESERVES : nat := 24.
Definition REAL_SOL_RESERVES : nat := 32.
Definition TOKEN_TOTAL_SUPPLY : nat := 40.
Definition COMPLETE : nat := 48.

Definition SOL_DECIMALS : Z := 1000000000.
Definition TOKEN_DECIMALS : Z := 1000000.
Definition INITIAL_REAL_TOKEN_RESERVES : Z := 793100000000000.

Record Reserves := {
  virtualTokenReserves : Z;
  virtualSolReserves : Z;
  realTokenReserves : Z;
  realSolReserves : Z;
  tokenTotalSupply : Z
}.

Record PriceData := {
  price : option float;
  bondingProgress : float;
  graduated : bool;
  curveAddress : string;
  reserves : Reserves
}.

(** The body of the [try] block of [getPrice]: [Ok None] is the early
    [return null] for a missing account. *)
Definition getPrice_body (rpc : Solana) (mintStr : string)
  : outcome (option PriceData) :=
  if negb (isPublicKey rpc mintStr) then Throw "Invalid public key input" else
  let curveAddress := findBondingCurveAddress rpc mintStr in
  accountInfo <-! getAccountInfo rpc curveAddress ;;
  match accountInfo with
  | None => Ok None
  | Some {| data := None |} => Ok None
  | Some {| data := Some data |} =>
    if negb (Buffer.startsWith8 data BONDING_CURVE_DISCRIMINATOR)
    then Throw "Invalid bonding curve discriminator" else
    virtualTokenReserves <-! Buffer.readBigUInt64LE data VIRTUAL_TOKEN_RESERVES ;;
    virtualSolReserves <-! Buffer.readBigUInt64LE data VIRTUAL_SOL_RESERVES ;;
    realTokenReserves <-! Buffer.readBigUInt64LE data REAL_TOKEN_RESERVES ;;
    realSolReserves <-! Buffer.readBigUInt64LE data REAL_SOL_RESERVES ;;
    tokenTotalSupply <-! Buffer.readBigUInt64LE data TOKEN_TOTAL_SUPPLY ;;
    completeByte <-! Buffer.readUInt8 data COMPLETE ;;
    let complete := negb (completeByte =? 0)%Z in
    let reserves :=
      {| virtualTokenReserves := virtualTokenReserves;
         virtualSolReserves := virtualSolReserves;
         realTokenReserves := realTokenReserves;
         realSolReserves := realSolReserves;
         tokenTotalSupply := tokenTotalSupply |} in
    if complete then
      Ok (Some {| price := None; bondingProgress := 1; graduated := true;
                  curveAddress := curveAddress; reserves := reserves |})
    else
    if (virtualTokenReserves <=? 0)%Z || (virtualSolReserves <=? 0)%Z
    then Throw "Invalid reserves (zero or negative)" else
    (* BigInt products, converted to numbers only for the division *)
    let numerator := (virtualSolReserves * TOKEN_DECIMALS)%Z in
    let denominator := (virtualTokenReserves * SOL_DECIMALS)%Z in
    let price := JS.ofZ numerator / JS.ofZ denominator in
    if negb (is_finite price) || (price <=? 0) then Throw "Invalid price" else
    let bondingProgress :=
      if (realTokenReserves <? INITIAL_REAL_TOKEN_RESERVES)%Z then
        1 - JS.ofZ (realTokenReserves * 10000 / INITIAL_REAL_TOKEN_RESERVES)
            / 10000
      else 0 in
    Ok (Some {| price := Some price; bondingProgress := bondingProgress;
                graduated := false; curveAddress := curveAddress;
                reserves := reserves |})
  end.

(** [PumpPriceReaderRaw.getPrice(mintStr)]: any exception is logged and
    turned into [null]. *)
Definition getPrice (rpc : Solana) (mintStr : string) : option PriceData :=
  match getPrice_body rpc mintStr with
  | Ok r => r
  | Throw _ => None
  end.

End PumpPriceReaderRaw.

(** The fields of a bonding-curve account, at the offsets of the
    layout: the discriminator, the virtual token and SOL reserves, the
    real token reserves and the completion byte. *)
Record CurveFields (bytes : list Byte.byte) (vt vs rt : Z) (flag : Z) : Prop := {
  curve_discriminator :
    Buffer.startsWith8 bytes PumpPriceReaderRaw.BONDING_CURVE_DISCRIMINATOR
    = true;
  curve_virtualToken : Buffer.readBigUInt64LE bytes 8 = Ok vt;
  curve_virtualSol : Buffer.readBigUInt64LE bytes 16 = Ok vs;
  curve_realToken : Buffer.readBigUInt64LE bytes 24 = Ok rt;
  curve_complete : Buffer.readUInt8 bytes 48 = Ok flag
}.

(** ** priceService.js: the price resolver, with jupiterPriceService.js *)

Module PriceService.
Local Open Scope float_scope.
Local Open Scope eff_scope.

Definition LAMPORTS_PER_SOL : float := 1e9.
(** [10 ** PUMP_TOKEN_DECIMALS], with [PUMP_TOKEN_DECIMALS = 6] *)
Definition TOKEN_UNIT : float := 1000000.
Definition INITIAL_REAL_TOKEN_RESERVES : Z := 793100000000000.

(** The object [getPrice] returns and caches.  A property that an object
    literal leaves out is [None] ([stale]: [false]). *)
Record Quote := {
  mint : string;
  price : option float;
  source : string;
  bondingProgress : option float;
  graduated : option bool;
  ts : Z;
  error : option string;
  stale : bool
}.

Record FailedAttempts := { count : Z; lastAttempt : Z }.

Inductive NetCall :=
| GetAccountInfo (address : string)
| JupiterQuote (mint : string)
| DexScreenerTokens (mint : string).

(** A pair of the answer of DexScreener.  [liquidityUsd] is the number
    [liquidity.usd] counts as in a subtraction (NaN for a value that
    spells no number), [None] when [liquidity] or [usd] is missing or
    null. *)
Record DexPair := {
  liquidityUsd : option float;
  priceNative : option float;
  priceUsd : option float
}.

(** The answer of DexScreener: [res.ok], [res.status] and the [pairs] of
    the body ([res.json()] may throw). *)
Record DexResponse := {
  ok : bool;
  status : Z;
  pairs : outcome (option (list DexPair))
}.

Record World := {
  rpc : Solana;
  (** the successive readings of [Date.now()] *)
  clock : nat -> Z;
  (** the [outAmount] of Jupiter's quote for a mint at the i-th attempt
      of [fetchWithRetry]; [Throw] for a network error, a status that is
      not ok or an unreadable body *)
  jupiterQuote : string -> nat -> outcome (option Z);
  dexScreener : string -> outcome DexResponse;
  (** [Array.prototype.sort] on pairs that the comparator does not order
      consistently: the order is then left to the engine, which answers,
      for the liquidities of the pairs, the index of the pair it brings
      to the front *)
  sortHead : list float -> nat
}.

Record JupiterEntry := { cachedPrice : float; timestamp : Z }.

Record State := {
  priceCache : gmap string Quote;
  failedAttempts : gmap string FailedAttempts;
  jupiterCache : gmap string JupiterEntry;
  calls : list NetCall;
  tick : nat
}.

Definition set_priceCache (f : gmap string Quote -> gmap string Quote)
  (s : State) : State :=
  {| priceCache := f (priceCache s); failedAttempts := failedAttempts s;
     jupiterCache := jupiterCache s; calls := calls s; tick := tick s |}.

Definition set_failedAttempts
  (f : gmap string FailedAttempts -> gmap string FailedAttempts)
  (s : State) : State :=
  {| priceCache := priceCache s; failedAttempts := f (failedAttempts s);
     jupiterCache := jupiterCache s; calls := calls s; tick := tick s |}.

Definition set_jupiterCache
  (f : gmap string JupiterEntry -> gmap string JupiterEntry)
  (s : State) : State :=
  {| priceCache := priceCache s; failedAttempts := failedAttempts s;
     jupiterCache := f (jupiterCache s); calls := calls s; tick := tick s |}.

Definition logCall (c : NetCall) (s : State) : State :=
  {| priceCache := priceCache s; failedAttempts := failedAttempts s;
     jupiterCache := jupiterCache s; calls := calls s ++ [c];
     tick := tick s |}.

Definition nextTick (s : State) : State :=
  {| priceCache := priceCache s; failedAttempts := failedAttempts s;
     jupiterCache := jupiterCache s; calls := calls s;
     tick := S (tick s) |}.

(** A network call: the request is logged, the environment answers. *)
Definition call {A} (c : NetCall) (answer : outcome A) : Eff State A :=
  fun s => (answer, logCall c s).

(** [Date.now()] *)
Definition now_ms (W : World) : Eff State Z :=
  fun s => (Ok (clock W (tick s)), nextTick s).

(** *** jupiterPriceService.js *)

Record JupiterPrice := {
  jup_price : option float;
  jup_source : option string;
  jup_error : option string
}.

(** [fetchWithRetry(url)] from attempt [i] on, with [remaining] attempts
    left: the last failure is rethrown. *)
Fixpoint fetchWithRetry (W : World) (mint : string) (remaining i : nat)
  : Eff State (option Z) :=
  match remaining with
  | O => ret None
  | S rest =>
      try_catch (call (JupiterQuote mint) (jupiterQuote W mint i))
        (fun err => if (rest =? 0)%nat then throw err
                    else fetchWithRetry W mint rest (S i))
  end.

(** [JupiterPriceService.getPrice(mint, forceFresh)] *)
Definition jupiterGetPrice (W : World) (mint : string) (forceFresh : bool)
  : Eff State JupiterPrice :=
  try_catch
    (now <- now_ms W ;;
     st <- get ;;
     let fresh :=
       if forceFresh then None else
       match jupiterCache st !! mint with
       | Some old => if (now - timestamp old <? 5000)%Z then Some old else None
       | None => None
       end in
     match fresh with
     | Some old =>
         ret {| jup_price := Some (cachedPrice old);
                jup_source := Some "cache"%string; jup_error := None |}
     | None =>
         outAmount <- fetchWithRetry W mint 3 0 ;;
         match outAmount with
         | None => throw "Quote has no outAmount"
         | Some amount =>
             let price := JS.ofZ amount / 1000000 in
             modify (set_jupiterCache
                       (insert mint {| cachedPrice := price; timestamp := now |})) ;;;
             ret {| jup_price := Some price;
                    jup_source := Some "jupiter"%string; jup_error := None |}
         end
     end)
    (fun err =>
       st <- get ;;
       match jupiterCache st !! mint with
       | Some old =>
           ret {| jup_price := Some (cachedPrice old);
                  jup_source := Some "cache-fallback"%string;
                  jup_error := None |}
       | None =>
           ret {| jup_price := None; jup_source := None;
                  jup_error := Some err |}
       end).

(** [x && x.price] for a possibly missing price *)
Definition hasPrice (p : option float) : bool :=
  match p with Some x => JS.truthy x | None => false end.

(** [PriceService.getPriceForGraduated(mintStr)] *)
Definition getPriceForGraduated (W : World) (mintStr : string)
  : Eff State JupiterPrice :=
  try_catch
    (jup <- jupiterGetPrice W mintStr true ;;
     if hasPrice (jup_price jup) then
       ret {| jup_price := jup_price jup;
              jup_source := Some (default "jupiter"%string (jup_source jup));
              jup_error := None |}
     else
       ret {| jup_price := None; jup_source := Some "jupiter"%string;
              jup_error := jup_error jup |})
    (fun err =>
       ret {| jup_price := None; jup_source := Some "jupiter"%string;
              jup_error := Some err |}).

(** *** The bonding curve as the service reads it *)

Record PumpFunPrice := {
  pump_price : float;
  pump_bondingProgress : float;
  pump_graduated : bool
}.

(** The [try] block of [getPumpFunPrice]; a discriminator that does not
    match is only logged. *)
Definition getPumpFunPrice_body (W : World) (curveAddress : string)
  : Eff State (option PumpFunPrice) :=
  accountInfo <- call (GetAccountInfo curveAddress)
                      (getAccountInfo (rpc W) curveAddress) ;;
  match accountInfo with
  | None => ret None
  | Some {| data := None |} => ret None
  | Some {| data := Some data |} =>
    lift (
    virtualTokenReserves <-! Buffer.readBigUInt64LE data 8 ;;
    virtualSolReserves <-! Buffer.readBigUInt64LE data 16 ;;
    realTokenReserves <-! Buffer.readBigUInt64LE data 24 ;;
    realSolReserves <-! Buffer.readBigUInt64LE data 32 ;;
    tokenTotalSupply <-! Buffer.readBigUInt64LE data 40 ;;
    completeByte <-! Buffer.readUInt8 data 48 ;;
    let complete := negb (completeByte =? 0)%Z in
    if (virtualTokenReserves <=? 0)%Z || (virtualSolReserves <=? 0)%Z
    then Throw "Invalid bonding curve state (zero reserves)" else
    let virtualSol := JS.ofZ virtualSolReserves / LAMPORTS_PER_SOL in
    let virtualTokens := JS.ofZ virtualTokenReserves / TOKEN_UNIT in
    let price := virtualSol / virtualTokens in
    let bondingProgress :=
      if (realTokenReserves <? INITIAL_REAL_TOKEN_RESERVES)%Z then
        1 - JS.ofZ (realTokenReserves * 10000 / INITIAL_REAL_TOKEN_RESERVES)
            / 10000
      else 0 in
    Ok (Some {| pump_price := price;
                pump_bondingProgress := bondingProgress;
                pump_graduated := complete |}))
  end.

(** [PriceService.getPumpFunPrice(tokenMint)] *)
Definition getPumpFunPrice (W : World) (tokenMint : string)
  : Eff State (option PumpFunPrice) :=
  let curveAddress := findBondingCurveAddress (rpc W) tokenMint in
  try_catch (getPumpFunPrice_body W curveAddress) (fun _ => ret None).

(** *** DexScreener *)

Definition liquidity (p : DexPair) : float := JS.nullish (liquidityUsd p) 0.

(** The comparator [(a, b) => liquidity(b) - liquidity(a)] as the sort
    reads it: an answer that is NaN counts as 0. *)
Definition compareLiquidity (a b : DexPair) : float :=
  let v := liquidity b - liquidity a in
  if is_nan v then 0 else v.

(** Whether the comparator orders the pairs consistently: no liquidity
    is NaN, or any two pairs compare as equal.  (A NaN compares as equal
    to every number, which two numbers that differ do not.) *)
Definition consistentLiquidity (pairs : list DexPair) : bool :=
  forallb (fun p => negb (is_nan (liquidity p))) pairs
  || forallb (fun a => forallb (fun b => compareLiquidity a b =? 0) pairs)
             pairs.

(** The head of [pairs.sort((a, b) => liquidity(b) - liquidity(a))].
    For a consistent comparator the sort is stable, so the head is the
    first pair of the greatest liquidity; otherwise the order is
    implementation-defined and the head is the pair the engine brings
    to the front. *)
Definition bestPair (W : World) (first : DexPair) (others : list DexPair)
  : DexPair :=
  if consistentLiquidity (first :: others)
  then fold_left
         (fun best p => if liquidity best <? liquidity p then p else best)
         others first
  else nth (sortHead W (map liquidity (first :: others))) (first :: others)
           first.

(** [Number(best.priceNative || best.priceUsd || 0)]; both prices come
    as strings, read here as the numbers they spell. *)
Definition pairPrice (best : DexPair) : float :=
  match priceNative best, priceUsd best with
  | Some x, _ => x
  | None, Some y => y
  | None, None => 0
  end.

(** [PriceService.getPriceFromDexScreener(mintStr)]: the price, or [None]
    for the answers [{ price: null, error }]. *)
Definition getPriceFromDexScreener (W : World) (mintStr : string)
  : Eff State (option float) :=
  try_catch
    (res <- call (DexScreenerTokens mintStr) (dexScreener W mintStr) ;;
     if negb (ok res) then
       if (status res =? 404)%Z then ret None
       else throw "DexScreener HTTP error"
     else
     body <- lift (pairs res) ;;
     match body with
     | None | Some [] => ret None
     | Some (first :: others) =>
         let price := pairPrice (bestPair W first others) in
         if negb (JS.truthy price) || negb (is_finite price)
         then throw "Invalid DexScreener price"
         else ret (Some price)
     end)
    (fun _ => ret None).

(** *** Failure bookkeeping *)

(** [recordFailedAttempt(mintStr)] *)
Definition recordFailedAttempt (W : World) (mintStr : string) : Eff State unit :=
  now <- now_ms W ;;
  st <- get ;;
  let current :=
    default {| count := 0; lastAttempt := 0 |} (failedAttempts st !! mintStr) in
  modify (set_failedAttempts
            (insert mintStr {| count := (count current + 1)%Z;
                               lastAttempt := now |})).

(** [resetFailedAttempts(mintStr)] *)
Definition resetFailedAttempts (mintStr : string) : Eff State unit :=
  modify (set_failedAttempts (delete mintStr)).

Definition maxFailedAttempts : Z := 3.
Definition failedAttemptsResetMs : Z := 60000.
Definition cacheMs : Z := 5000.

(** [{ ...cached, stale: true }] *)
Definition markStale (q : Quote) : Quote :=
  {| mint := mint q; price := price q; source := source q;
     bondingProgress := bondingProgress q; graduated := graduated q;
     ts := ts q; error := error q; stale := true |}.

(** The answer while an instrument is skipped and nothing is cached. *)
Definition skippedQuote (cacheKey : string) (now : Z) : Quote :=
  {| mint := cacheKey; price := None; source := "skipped";
     bondingProgress := None; graduated := None; ts := now;
     error := Some "Too many failed attempts"%string; stale := false |}.

(** The answer when every source failed and nothing is cached. *)
Definition noneQuote (cacheKey : string) (now : Z) : Quote :=
  {| mint := cacheKey; price := None; source := "none";
     bondingProgress := None; graduated := Some false; ts := now;
     error := Some "No price source available"%string; stale := false |}.

(** The first part of [getPrice]: the look at the failure counter.
    [Some q] is an early [return q]. *)
Definition checkFailedAttempts (cacheKey : string) (now : Z) (forceFresh : bool)
  : Eff State (option Quote) :=
  st <- get ;;
  match (if forceFresh then None else failedAttempts st !! cacheKey) with
  | Some failed =>
      if (failedAttemptsResetMs <? now - lastAttempt failed)%Z then
        modify (set_failedAttempts (delete cacheKey)) ;;; ret None
      else if (maxFailedAttempts <=? count failed)%Z then
        match priceCache st !! cacheKey with
        | Some cached => ret (Some cached)
        | None => ret (Some (skippedQuote cacheKey now))
        end
      else ret None
  | None => ret None
  end.

(** The second part: the cache, while it is fresh. *)
Definition checkCache (cacheKey : string) (now : Z) (forceFresh : bool)
  : Eff State (option Quote) :=
  st <- get ;;
  match (if forceFresh then None else priceCache st !! cacheKey) with
  | Some cached =>
      if (now - ts cached <? cacheMs)%Z then ret (Some cached) else ret None
  | None => ret None
  end.

(** Storing a result: [priceCache.set] and [resetFailedAttempts]. *)
Definition succeed (cacheKey : string) (result : Quote) : Eff State Quote :=
  modify (set_priceCache (insert cacheKey result)) ;;;
  resetFailedAttempts cacheKey ;;;
  ret result.

(** The result built from the bonding curve. *)
Definition pumpQuote (cacheKey : string) (now : Z) (p : PumpFunPrice) : Quote :=
  {| mint := cacheKey; price := Some (pump_price p); source := "pump.fun";
     bondingProgress := Some (pump_bondingProgress p);
     graduated := Some false; ts := now; error := None; stale := false |}.

(** The result built from Jupiter or from DexScreener. *)
Definition dexQuote (cacheKey : string) (now : Z) (source : string)
  (price : option float) : Quote :=
  {| mint := cacheKey; price := price; source := source;
     bondingProgress := None; graduated := Some true; ts := now;
     error := None; stale := false |}.

(** [pump && pump.price && !pump.graduated] *)
Definition usable (pump : option PumpFunPrice) : bool :=
  match pump with
  | Some p => JS.truthy (pump_price p) && negb (pump_graduated p)
  | None => false
  end.

(** The three sources in turn, and the fallback when all of them fail. *)
Definition resolveFresh (W : World) (cacheKey : string) (now : Z)
  : Eff State Quote :=
  (* 1) the Pump.fun bonding curve *)
  fromPump <-
    try_catch
      (pump <- getPumpFunPrice W cacheKey ;;
       match pump with
       | Some p =>
           if usable pump then
             q <- succeed cacheKey (pumpQuote cacheKey now p) ;;
             ret (Some q)
           else ret None
       | None => ret None
       end)
      (fun _ => ret None) ;;
  match fromPump with
  | Some q => ret q
  | None =>
  (* 2) Jupiter *)
  jup <- getPriceForGraduated W cacheKey ;;
  if hasPrice (jup_price jup) then
    succeed cacheKey
      (dexQuote cacheKey now (default "jupiter"%string (jup_source jup))
                (jup_price jup))
  else
  (* 3) DexScreener *)
  dex <- getPriceFromDexScreener W cacheKey ;;
  if hasPrice dex then
    succeed cacheKey (dexQuote cacheKey now "dexscreener" dex)
  else
  (* every source failed *)
  recordFailedAttempt W cacheKey ;;;
  st <- get ;;
  match priceCache st !! cacheKey with
  | Some cached => ret (markStale cached)
  | None => ret (noneQuote cacheKey now)
  end
  end.

(** [PriceService.getPrice(mintStr, { forceFresh })].  [mint.toBase58()]
    gives the string back for every string the constructor accepts. *)
Definition getPrice (W : World) (mintStr : string) (forceFresh : bool)
  : Eff State Quote :=
  if negb (isPublicKey (rpc W) mintStr) then throw "Invalid public key input"
  else
  now <- now_ms W ;;
  let cacheKey := mintStr in
  skipped <- checkFailedAttempts cacheKey now forceFresh ;;
  match skipped with
  | Some q => ret q
  | None =>
      cached <- checkCache cacheKey now forceFresh ;;
      match cached with
      | Some q => ret q
      | None => resolveFresh W cacheKey now
      end
  end.

(** *** Vocabulary of the properties *)

(** [s'] comes from [s] by network calls alone: the price cache and the
    failure counters are the same, the log has grown by [added]. *)
Definition onlyCalls (s s' : State) (added : list NetCall) : Prop :=
  priceCache s' = priceCache s /\
  failedAttempts s' = failedAttempts s /\
  calls s' = calls s ++ added.

(** The state after a result was stored for [k]. *)
Definition stored (k : string) (q : Quote) (s s' : State) : Prop :=
  priceCache s' = <[k := q]> (priceCache s) /\
  failedAttempts s' = delete k (failedAttempts s).

(** The state after a failure was recorded for [k]. *)
Definition recorded (k : string) (s s' : State) : Prop :=
  priceCache s' = priceCache s /\
  exists t,
    failedAttempts s'
    = <[k := {| count := count (default {| count := 0; lastAttempt := 0 |}
                                        (failedAttempts s !! k)) + 1;
                lastAttempt := t |}]> (failedAttempts s).

(** Every cached quote carries a price. *)
Definition cachePriced (s : State) : Prop :=
  forall k q, priceCache s !! k = Some q -> price q <> None.

(** *** Utilities of the service *)

(** [PriceService.calculateCurrentValue(tokensAmount, price)]; [read] is
    [Number] on strings. *)
Definition calculateCurrentValue (read : string -> float)
  (tokensAmount : JS.value) (price : float) : float :=
  JS.toNumber read tokensAmount * price.

(** [PriceService.hasPriceAvailable(mintStr)] *)
Definition hasPriceAvailable (W : World) (mintStr : string) : Eff State bool :=
  priceData <- getPrice W mintStr false ;;
  ret (hasPrice (price priceData)
       && negb (String.eqb (source priceData) "none")).

(** [PriceService.clearCache()]: the two maps of the service are
    emptied, the cache of the Jupiter service is not. *)
Definition clearCache : Eff State unit :=
  modify (fun s => set_failedAttempts (fun _ => ∅) (set_priceCache (fun _ => ∅) s)).

(** *** Further vocabulary *)

(** A quote as the resolver builds it from a source that answered: it
    names its mint, has a usable price, no error and no stale mark, and
    says "not graduated" exactly when it comes from the bonding curve. *)
Definition fromSource (k : string) (q : Quote) : Prop :=
  mint q = k /\ hasPrice (price q) = true /\ stale q = false /\
  error q = None /\
  ((source q = "pump.fun"%string /\ graduated q = Some false
    /\ bondingProgress q <> None)
   \/ ((source q = "jupiter" \/ source q = "cache-fallback"
        \/ source q = "dexscreener")%string
       /\ graduated q = Some true /\ bondingProgress q = None)).

(** Every cached quote is one built from a source for its key. *)
Definition cacheSound (s : State) : Prop :=
  forall k q, priceCache s !! k = Some q -> fromSource k q.

(** The state after the network calls [l], nothing else changed. *)
Definition logCalls (l : list NetCall) (s : State) : State :=
  {| priceCache := priceCache s; failedAttempts := failedAttempts s;
     jupiterCache := jupiterCache s; calls := calls s ++ l; tick := tick s |}.

(** The answer of the Jupiter service with a price. *)
Definition jupiterAnswer (p : float) (src : string) : JupiterPrice :=
  {| jup_price := Some p; jup_source := Some src; jup_error := None |}.

End PriceService.

(** ** graduationHandler.js: marking the positions of graduated tokens *)

Module GraduationHandler.
Local Open Scope float_scope.
Local Open Scope eff_scope.

(** What [hasGraduated] answers: [{ graduated, reason }]. *)
Record GraduationStatus := { graduated : bool; reason : option string }.

(** The price data the handler reads from its price service: the price
    ([None] when missing or null), whether [graduated] is truthy, and
    the source. *)
Record PriceData := {
  price : option float;
  data_graduated : bool;
  source : option string
}.

(** The three methods the handler probes with
    [typeof this.priceService.m === 'function']; a method the service
    does not have is [None].  A method answers by the mint and the
    number of calls made to the service so far; its answer may be
    [null] ([None]). *)
Record Service := {
  svc_hasGraduated :
    option (string -> nat -> outcome (option GraduationStatus));
  svc_getPriceWithFallback :
    option (string -> nat -> outcome (option PriceData));
  svc_getPriceFromDEX :
    option (string -> nat -> outcome (option PriceData))
}.

(** [getPriceService()]: the instance of the class [PriceService] of
    priceService.js.  The class defines [getPrice],
    [getPriceForGraduated], [findBondingCurveAddress], [getPumpFunPrice],
    [getPriceFromDexScreener], [recordFailedAttempt],
    [resetFailedAttempts], [calculateCurrentValue], [hasPriceAvailable]
    and [clearCache], and none of the three methods the handler
    probes. *)
Definition getPriceService : Service :=
  {| svc_hasGraduated := None;
     svc_getPriceWithFallback := None;
     svc_getPriceFromDEX := None |}.

Inductive Command :=
| SMEMBERS
| HGETALL (key : string)
| HSET (key : string).

(** What the handler does outside its own memory.  The text of an alert
    is not kept, only the mint it is about. *)
Inductive Event :=
| Redis (c : Command)
| HasGraduatedCall (mint : string)
| PriceWithFallbackCall (mint : string)
| PriceFromDEXCall (mint : string)
| TelegramAlert (mint : string)
| Sleep (ms : Z).

Record World := {
  service : Service;
  (** the store commands that are rejected *)
  failing : Command -> bool;
  (** [parseFloat(s)] and [x.toString()] *)
  parseFloat : string -> float;
  numberToString : float -> string;
  (** the successive readings of [Date.now()] *)
  clock : nat -> Z;
  (** whether [process.env.TELEGRAM_OWNER_CHAT_ID] is set, and what
      importing telegram.js and sending an alert gives *)
  telegramChat : bool;
  sendTelegramAlert : string -> outcome unit
}.

(** The set [open_positions], in the order [SMEMBERS] lists it, the
    hashes of the store, what was done so far, and the numbers of calls
    to the price service and of clock readings. *)
Record State := {
  open_positions : list string;
  hashes : gmap string (gmap string string);
  events : list Event;
  asked : nat;
  tick : nat
}.

Definition emit (e : Event) (s : State) : State :=
  {| open_positions := open_positions s; hashes := hashes s;
     events := events s ++ [e]; asked := asked s; tick := tick s |}.

(** A store command that reads. *)
Definition redis {A} (W : World) (c : Command) (read : State -> A)
  : Eff State A :=
  fun s =>
    if failing W c then (Throw "Connection is closed.", emit (Redis c) s)
    else (Ok (read s), emit (Redis c) s).

(** [redis.smembers('open_positions')] *)
Definition smembers (W : World) : Eff State (list string) :=
  redis W SMEMBERS open_positions.

(** [redis.hgetall(key)]: the empty object for a key that is absent *)
Definition hgetall (W : World) (key : string)
  : Eff State (gmap string string) :=
  redis W (HGETALL key) (fun s => default ∅ (hashes s !! key)).

(** The hash once the fields are written, the first of the list first. *)
Definition writeFields (fields : list (string * string))
  (hash : gmap string string) : gmap string string :=
  fold_left (fun h fv => <[fst fv := snd fv]> h) fields hash.

(** [redis.hset(key, fields)] *)
Definition hset (W : World) (key : string) (fields : list (string * string))
  : Eff State unit :=
  fun s =>
    if failing W (HSET key)
    then (Throw "Connection is closed.", emit (Redis (HSET key)) s)
    else (Ok tt,
          {| open_positions := open_positions s;
             hashes :=
               <[key := writeFields fields (default ∅ (hashes s !! key))]>
                 (hashes s);
             events := events s ++ [Redis (HSET key)];
             asked := asked s; tick := tick s |}).

(** A call of a method of the price service. *)
Definition ask {A} (e : Event) (method : nat -> outcome A) : Eff State A :=
  fun s =>
    (method (asked s),
     {| open_positions := open_positions s; hashes := hashes s;
        events := events s ++ [e]; asked := S (asked s); tick := tick s |}).

(** [Date.now()] *)
Definition now_ms (W : World) : Eff State Z :=
  fun s =>
    (Ok (clock W (tick s)),
     {| open_positions := open_positions s; hashes := hashes s;
        events := events s; asked := asked s; tick := S (tick s) |}).

(** [await new Promise((resolve) => setTimeout(resolve, ms))] *)
Definition sleep (ms : Z) : Eff State unit := modify (emit (Sleep ms)).

(** A string that is present and not empty. *)
Definition truthyText (o : option string) : bool :=
  match o with
  | Some text => negb (String.eqb text "")
  | None => false
  end.

(** [!!priceData.graduated || priceData.source === 'jupiter_dex'] *)
Definition fromDex (d : PriceData) : bool :=
  data_graduated d || bool_decide (source d = Some "jupiter_dex"%string).

(** [priceData.price] is truthy *)
Definition hasPrice (d : PriceData) : bool :=
  match price d with
  | Some p => JS.truthy p
  | None => false
  end.

Definition notGraduated : GraduationStatus :=
  {| graduated := false; reason := None |}.

(** [GraduationHandler.hasGraduated(mint)] *)
Definition hasGraduated (W : World) (mint : string)
  : Eff State (option GraduationStatus) :=
  try_catch
    (match svc_hasGraduated (service W) with
     | Some method => ask (HasGraduatedCall mint) (method mint)
     | None =>
         match svc_getPriceWithFallback (service W) with
         | Some method =>
             priceData <- ask (PriceWithFallbackCall mint) (method mint) ;;
             match priceData with
             | None => ret (Some notGraduated)
             | Some d =>
                 let graduated := fromDex d in
                 let reason :=
                   if graduated
                   then ("source="
                         ++ (if truthyText (source d)
                             then default "" (source d) else "unknown"))%string
                   else "no dex markets"%string in
                 ret (Some {| graduated := graduated; reason := Some reason |})
             end
         | None => ret (Some notGraduated)
         end
     end)
    (fun _ => ret (Some notGraduated)).

(** [GraduationHandler.getDEXPrice(mint)] *)
Definition getDEXPrice (W : World) (mint : string)
  : Eff State (option float) :=
  try_catch
    (priceData <-
       match svc_getPriceFromDEX (service W) with
       | Some method => ask (PriceFromDEXCall mint) (method mint)
       | None =>
           match svc_getPriceWithFallback (service W) with
           | Some method =>
               data <- ask (PriceWithFallbackCall mint) (method mint) ;;
               match data with
               | Some d =>
                   if hasPrice d && fromDex d then ret (Some d) else ret None
               | None => ret None
               end
           | None => ret None
           end
       end ;;
     match priceData with
     | Some d => if hasPrice d then ret (price d) else ret None
     | None => ret None
     end)
    (fun _ => ret None).

(** The alert, sent when a chat is configured. *)
Definition alert (W : World) (mint : string) : Eff State unit :=
  if telegramChat W
  then modify (emit (TelegramAlert mint)) ;;; lift (sendTelegramAlert W mint)
  else ret tt.

(** [parseFloat(position.entryPrice)], NaN for a missing field *)
Definition entryPriceOf (W : World) (position : gmap string string) : float :=
  match position !! "entryPrice"%string with
  | Some text => parseFloat W text
  | None => nan
  end.

(** [GraduationHandler.handleGraduatedPosition(mint, position)] *)
Definition handleGraduatedPosition (W : World) (mint : string)
  (position : gmap string string) : Eff State unit :=
  try_catch
    (let entryPrice := entryPriceOf W position in
     dexPrice <- getDEXPrice W mint ;;
     match dexPrice with
     | Some p =>
         if JS.truthy p then
           now <- now_ms W ;;
           hset W ("position:" ++ mint)
             [("executedDex", "Jupiter");
              ("graduated", "true");
              ("graduationPrice", numberToString W p);
              ("graduationTime", numberToString W (JS.ofZ now))]%string ;;;
           alert W mint
         else
           now <- now_ms W ;;
           hset W ("position:" ++ mint)
             [("graduated", "true");
              ("graduationTime", numberToString W (JS.ofZ now));
              ("executedDex", "Jupiter");
              ("graduationPrice", numberToString W entryPrice)]%string ;;;
           alert W mint
     | None =>
         now <- now_ms W ;;
         hset W ("position:" ++ mint)
           [("graduated", "true");
            ("graduationTime", numberToString W (JS.ofZ now));
            ("executedDex", "Jupiter");
            ("graduationPrice", numberToString W entryPrice)]%string ;;;
         alert W mint
     end)
    (fun _ => ret tt).

(** The body of the loop over the open positions, for one mint. *)
Definition checkPosition (W : World) (mint : string) : Eff State unit :=
  position <- hgetall W ("position:" ++ mint) ;;
  if negb (bool_decide (position !! "strategy"%string = Some "copy"%string))
  then ret tt else
  if truthyText (position !! "executedDex"%string)
     && negb (bool_decide (position !! "executedDex"%string
                           = Some "Pump.fun"%string))
  then ret tt else
  if bool_decide (position !! "graduated"%string = Some "true"%string)
  then ret tt else
  graduationStatus <- hasGraduated W mint ;;
  match graduationStatus with
  | None => throw "Cannot read properties of null (reading 'graduated')"
  | Some status =>
      if graduated status then handleGraduatedPosition W mint position
      else ret tt
  end.

Fixpoint forEach (W : World) (mints : list string) : Eff State unit :=
  match mints with
  | [] => ret tt
  | mint :: rest => checkPosition W mint ;;; forEach W rest
  end.

(** One turn of the loop of [monitorOpenPositions]. *)
Definition monitorPass (W : World) : Eff State unit :=
  try_catch
    (openPositions <- smembers W ;;
     forEach W openPositions ;;;
     sleep 10000)
    (fun _ => sleep 5000).

(** [GraduationHandler.monitorOpenPositions()], stopped after the given
    number of turns. *)
Fixpoint monitorOpenPositions (W : World) (turns : nat) : Eff State unit :=
  match turns with
  | O => ret tt
  | S rest => monitorPass W ;;; monitorOpenPositions W rest
  end.

(** *** Vocabulary of the properties *)

(** A position the loop asks the price service about: one of the copy
    strategy, bought on Pump.fun (or without venue), not yet marked. *)
Definition eligible (position : gmap string string) : bool :=
  bool_decide (position !! "strategy"%string = Some "copy"%string)
  && negb (truthyText (position !! "executedDex"%string)
           && negb (bool_decide (position !! "executedDex"%string
                                 = Some "Pump.fun"%string)))
  && negb (bool_decide (position !! "graduated"%string = Some "true"%string)).

(** The hash of a position once marked with a price and a time. *)
Definition marked (graduationPrice graduationTime : string)
  (position : gmap string string) : gmap string string :=
  <["graduated"%string := "true"%string]>
    (<["executedDex"%string := "Jupiter"%string]>
       (<["graduationPrice"%string := graduationPrice]>
          (<["graduationTime"%string := graduationTime]> position))).

(** The hash stored under a key, empty when there is none. *)
Definition stored (s : State) (key : string) : gmap string string :=
  default ∅ (hashes s !! key).

(** An event that reaches neither the price service nor Telegram. *)
Definition quiet (e : Event) : bool :=
  match e with
  | Redis _ | Sleep _ => true
  | _ => false
  end.

(** The price data [getDEXPrice] accepts at the n-th call of the
    service: the answer of [getPriceFromDEX] when the service has this
    method; otherwise the answer of [getPriceWithFallback], when it
    comes from a DEX. *)
Definition dexData (W : World) (mint : string) (n : nat) (d : PriceData)
  : Prop :=
  (exists method,
     svc_getPriceFromDEX (service W) = Some method /\
     method mint n = Ok (Some d))
  \/ (svc_getPriceFromDEX (service W) = None /\
      exists method,
        svc_getPriceWithFallback (service W) = Some method /\
        method mint n = Ok (Some d) /\ fromDex d = true).

(** Nothing happened between two states but store commands and waits:
    the store, the number of calls to the price service and the clock
    are as they were. *)
Definition idle (s s' : State) : Prop :=
  open_positions s' = open_positions s /\ hashes s' = hashes s /\
  asked s' = asked s /\ tick s' = tick s /\
  exists l, events s' = events s ++ l /\ forallb quiet l = true.

(** What the loop may have done to the store between two states: the
    set of open positions is the same and every hash is as it was, or
    is the marked hash of an open position that was eligible. *)
Definition marksOnly (s s' : State) : Prop :=
  open_positions s' = open_positions s /\
  forall key,
    hashes s' !! key = hashes s !! key
    \/ (exists mint,
          key = ("position:" ++ mint)%string /\ In mint (open_positions s)) /\
       eligible (stored s key) = true /\
       exists graduationPrice graduationTime,
         hashes s' !! key
         = Some (marked graduationPrice graduationTime (stored s key)).

End GraduationHandler.

(** ** copyStrategy.js: entry and exit decisions *)

Module CopyStrategy.
Local Open Scope float_scope.

(** The fields the constructor reads from the environment; counts and
    durations are the integers [parseInt] reads, percentages the numbers
    [parseFloat] reads. *)
Record Config := {
  minWalletsToBuy : Z;
  minWalletsToSell : Z;
  takeProfitEnabled : bool;
  takeProfitPercent : float;
  trailingStopEnabled : bool;
  trailingStopPercent : float;
  stopLossEnabled : bool;
  stopLoss : float;
  maxHoldEnabled : bool;
  maxHoldSeconds : Z;
  cooldownSeconds : Z;
  blockRebuys : bool;
  rebuyWindow : Z
}.

(** The configuration when no variable is set. *)
Definition defaultConfig : Config :=
  {| minWalletsToBuy := 1; minWalletsToSell := 1;
     takeProfitEnabled := true; takeProfitPercent := 25;
     trailingStopEnabled := true; trailingStopPercent := 12;
     stopLossEnabled := true; stopLoss := 15;
     maxHoldEnabled := false; maxHoldSeconds := 240;
     cooldownSeconds := 60;
     blockRebuys := true; rebuyWindow := 300 |}.

(** What [shouldCopy] reads from [process.env] at each call:
    [DRY_RUN !== 'false'] and [MAX_POSITIONS]. *)
Record Env := { dryRun : bool; maxPositions : Z }.

(** The hash [position:<mint>], its numbers as [parseFloat] and
    [parseInt] read them.  [maxPrice] is [None] when the field is absent
    or empty, [entryTime] when it spells no integer. *)
Record Position := {
  pos_mint : string;
  walletSource : option string;
  entryPrice : float;
  maxPrice : option float;
  entryTime : option Z
}.

(** An item of a [trades:<date>] list once [JSON.parse] has read it. *)
Record ClosedTrade := {
  trade_mint : option string;
  trade_walletSource : option string;
  closedAt : option Z
}.

(** The keys of the store the strategy reads.  An item of a trade list
    that [JSON.parse] rejects is [None]. *)
Record Store := {
  open_positions : gset string;
  positions : gmap string Position;
  trades : gmap string (list (option ClosedTrade));
  copy_cooldown : gmap string string;
  sellers : gmap string (list string)
}.

Inductive RedisCmd :=
| SISMEMBER (mint : string)
| HGETALL (mint : string)
| LRANGE (dateKey : string)
| GET (mint : string)
| SCARD
| SMEMBERS (mint : string).

(** The store and the commands that fail (a lost connection, a wrong
    type): a failing command rejects, which [await] rethrows. *)
Record Redis := { store : Store; failing : RedisCmd -> bool }.

(** One reading of the clock: [Date.now()] and, for [i] days back, the
    date [toISOString] prints (the calls of one decision are taken to
    read the same instant). *)
Record Clock := { now : Z; dateKey : nat -> string }.

Definition command {A} (R : Redis) (c : RedisCmd) (answer : A) : outcome A :=
  if failing R c then Throw "redis command failed" else Ok answer.

Definition sismember (R : Redis) (mint : string) : outcome bool :=
  command R (SISMEMBER mint) (bool_decide (mint ∈ open_positions (store R))).

(** [hgetall]: the wallet of the hash; a missing key is an empty hash. *)
Definition hgetall_walletSource (R : Redis) (mint : string)
  : outcome (option string) :=
  command R (HGETALL mint)
    (match positions (store R) !! mint with
     | Some p => walletSource p
     | None => None
     end).

Definition lrange (R : Redis) (key : string)
  : outcome (list (option ClosedTrade)) :=
  command R (LRANGE key) (default [] (trades (store R) !! key)).

(** The test applied to each item of a trade list. *)
Definition isRecentTrade (cfg : Config) (clk : Clock)
  (mint walletAddress : string) (item : option ClosedTrade) : bool :=
  match item with
  | None => false
  | Some trade =>
      bool_decide (trade_mint trade = Some mint)
      && bool_decide (trade_walletSource trade = Some walletAddress)
      && (let timeSinceClosed := (now clk - default 0 (closedAt trade))%Z in
          let windowMs := (rebuyWindow cfg * 1000)%Z in
          (timeSinceClosed <? windowMs)%Z)
  end.

(** The loop over the days [i = first .. first + days - 1]. *)
Fixpoint scanHistory (cfg : Config) (R : Redis) (clk : Clock)
  (mint walletAddress : string) (first days : nat) : outcome bool :=
  match days with
  | O => Ok false
  | S rest =>
      dayTrades <-! lrange R (dateKey clk first) ;;
      if existsb (isRecentTrade cfg clk mint walletAddress) dayTrades
      then Ok true
      else scanHistory cfg R clk mint walletAddress (S first) rest
  end.

(** The [try] block of [isRebuySignal]. *)
Definition isRebuySignal_body (cfg : Config) (R : Redis) (clk : Clock)
  (mint : string) (walletAddress : option string) : outcome bool :=
  match walletAddress with
  | None => Ok false
  | Some "" => Ok false
  | Some wallet =>
      (* 1: an open position of this mint from that wallet *)
      hasOpenPosition <-! sismember R mint ;;
      fromWallet <-!
        (if hasOpenPosition : bool then
           source <-! hgetall_walletSource R mint ;;
           Ok (bool_decide (source = Some wallet))
         else Ok false) ;;
      if fromWallet : bool then Ok true else
      (* 2: today's history *)
      todayTrades <-! lrange R (dateKey clk 0) ;;
      if existsb (isRecentTrade cfg clk mint wallet) todayTrades
      then Ok true else
      (* 3: the seven days before *)
      scanHistory cfg R clk mint wallet 1 7
  end.

(** [CopyStrategy.isRebuySignal(mint, walletAddress)] *)
Definition isRebuySignal (cfg : Config) (R : Redis) (clk : Clock)
  (mint : string) (walletAddress : option string) : bool :=
  match isRebuySignal_body cfg R clk mint walletAddress with
  | Ok b => b
  | Throw _ => false
  end.

Record CopySignal := {
  mint : string;
  copyAmount : option float;
  upvotes : Z;
  buyers : list string;
  walletAddress : option string
}.

Inductive Reason :=
| low_upvotes (upvotes needed : Z)
| rebuy_blocked
| cooldown
| duplicate_position
| max_positions
| error.

Inductive CopyDecision :=
| Copy (amount : float) (confidence : Z) (upvotes : Z)
       (buyers : list string) (mode : string)
| NoCopy (reason : Reason).

(** [calculateConfidence(upvotes)] *)
Definition calculateConfidence (upvotes : Z) : Z :=
  if (upvotes =? 1)%Z then 30
  else if (upvotes =? 2)%Z then 70
  else if (3 <=? upvotes)%Z then 95
  else 50.

(** The [try] block of [shouldCopy]. *)
Definition shouldCopy_body (cfg : Config) (env : Env) (R : Redis) (clk : Clock)
  (copySignal : CopySignal) : outcome CopyDecision :=
  let mint := mint copySignal in
  let upvotes := upvotes copySignal in
  (* 1: in live mode, enough wallets *)
  if negb (dryRun env) && (upvotes <? minWalletsToBuy cfg)%Z
  then Ok (NoCopy (low_upvotes upvotes (minWalletsToBuy cfg))) else
  (* 2: no re-entry per wallet and mint *)
  isRebuy <-!
    (if blockRebuys cfg
     then Ok (isRebuySignal cfg R clk mint (walletAddress copySignal))
     else Ok false) ;;
  if isRebuy : bool then Ok (NoCopy rebuy_blocked) else
  (* 3: cooldown of the token *)
  cooldownValue <-! command R (GET mint) (copy_cooldown (store R) !! mint) ;;
  if bool_decide (cooldownValue ≠ None ∧ cooldownValue ≠ Some ""%string)
  then Ok (NoCopy cooldown) else
  (* 4: one position per token *)
  hasPosition <-! sismember R mint ;;
  if hasPosition : bool then Ok (NoCopy duplicate_position) else
  (* 5: the number of open positions *)
  openPositions <-!
    command R SCARD (Z.of_nat (size (open_positions (store R)))) ;;
  if (maxPositions env <=? openPositions)%Z then Ok (NoCopy max_positions) else
  match copyAmount copySignal with
  | None => Throw "Cannot read properties of undefined (reading 'toFixed')"
  | Some amount =>
      Ok (Copy amount (calculateConfidence upvotes) upvotes
            (buyers copySignal)
            (if dryRun env then "paper" else "live")%string)
  end.

(** [CopyStrategy.shouldCopy(copySignal)] *)
Definition shouldCopy (cfg : Config) (env : Env) (R : Redis) (clk : Clock)
  (copySignal : CopySignal) : CopyDecision :=
  match shouldCopy_body cfg env R clk copySignal with
  | Ok d => d
  | Throw _ => NoCopy error
  end.

(** [CopyStrategy.countSellers(mint)] *)
Definition countSellers (R : Redis) (mint : string) : nat :=
  match command R (SMEMBERS mint) (default [] (sellers (store R) !! mint)) with
  | Ok members => length members
  | Throw _ => 0%nat
  end.

Inductive ExitReason :=
| take_profit
| trailing_stop
| stop_loss
| traders_sold
| max_hold_time.

(** The object [shouldExit] returns, without its description text. *)
Inductive ExitDecision :=
| Exit (reason : ExitReason) (pnl : float) (exitType : string)
       (priority : nat) (sellCount : option nat)
| Holding (pnl maxPnl : float) (holdTime : float) (sellCount : nat)
| NoExit.

(** [CopyStrategy.shouldExit(position, currentPrice)]; a missing
    position makes the first property read throw, which the [catch]
    answers with [{ exit: false }]. *)
Definition shouldExit (cfg : Config) (R : Redis) (clk : Clock)
  (position : option Position) (currentPrice : float) : ExitDecision :=
  match position with
  | None => NoExit
  | Some position =>
    let entryPrice := entryPrice position in
    let maxPrice := default entryPrice (maxPrice position) in
    let pnlPercent := ((currentPrice - entryPrice) / entryPrice) * 100 in
    let maxPnlPercent := ((maxPrice - entryPrice) / entryPrice) * 100 in
    let holdTime :=
      match entryTime position with
      | Some entryTime => JS.ofZ (now clk - entryTime) / 1000
      | None => nan
      end in
    (* 1: take profit *)
    if takeProfitEnabled cfg && (takeProfitPercent cfg <=? pnlPercent)
    then Exit take_profit pnlPercent "automatic" 1 None else
    (* 2: trailing stop *)
    if trailingStopEnabled cfg && (0 <? maxPnlPercent)
       && (currentPrice <=? maxPrice * (1 - trailingStopPercent cfg / 100))
    then Exit trailing_stop pnlPercent "automatic" 2 None else
    (* 3: stop loss *)
    if stopLossEnabled cfg && (pnlPercent <=? - stopLoss cfg)
    then Exit stop_loss pnlPercent "automatic" 3 None else
    (* 4: the traders are selling *)
    let sellCount := countSellers R (pos_mint position) in
    if (minWalletsToSell cfg <=? Z.of_nat sellCount)%Z
    then Exit traders_sold pnlPercent "signal" 4 (Some sellCount) else
    (* 5: maximal holding time *)
    if maxHoldEnabled cfg && (JS.ofZ (maxHoldSeconds cfg) <=? holdTime)
    then Exit max_hold_time pnlPercent "timeout" 5 None else
    Holding pnlPercent maxPnlPercent (JS.toFixed 0 holdTime) sellCount
  end.

(** *** Vocabulary of the properties *)

Definition pnlPercentOf (position : Position) (currentPrice : float) : float :=
  ((currentPrice - entryPrice position) / entryPrice position) * 100.

Definition maxPriceOf (position : Position) : float :=
  default (entryPrice position) (maxPrice position).

Definition maxPnlPercentOf (position : Position) : float :=
  ((maxPriceOf position - entryPrice position) / entryPrice position) * 100.

Definition holdTimeOf (clk : Clock) (position : Position) : float :=
  match entryTime position with
  | Some entryTime => JS.ofZ (now clk - entryTime) / 1000
  | None => nan
  end.

(** An exit trigger: its reason, its rank, its kind and whether it
    fires. *)
Record Trigger := {
  trigger_reason : ExitReason;
  trigger_priority : nat;
  trigger_type : string;
  trigger_sellCount : option nat;
  fires : bool
}.

(** The five triggers in the order of their ranks, each with the
    condition under which it fires: the switch that enables it, where it
    has one, and its threshold. *)
Definition triggers (cfg : Config) (R : Redis) (clk : Clock)
  (position : Position) (currentPrice : float) : list Trigger :=
  let pnl := pnlPercentOf position currentPrice in
  let sellCount := countSellers R (pos_mint position) in
  [ {| trigger_reason := take_profit; trigger_priority := 1;
       trigger_type := "automatic"; trigger_sellCount := None;
       fires := takeProfitEnabled cfg && (takeProfitPercent cfg <=? pnl) |};
    {| trigger_reason := trailing_stop; trigger_priority := 2;
       trigger_type := "automatic"; trigger_sellCount := None;
       fires := trailingStopEnabled cfg
                && (0 <? maxPnlPercentOf position)
                && (currentPrice
                    <=? maxPriceOf position
                        * (1 - trailingStopPercent cfg / 100)) |};
    {| trigger_reason := stop_loss; trigger_priority := 3;
       trigger_type := "automatic"; trigger_sellCount := None;
       fires := stopLossEnabled cfg && (pnl <=? - stopLoss cfg) |};
    {| trigger_reason := traders_sold; trigger_priority := 4;
       trigger_type := "signal"; trigger_sellCount := Some sellCount;
       fires := (minWalletsToSell cfg <=? Z.of_nat sellCount)%Z |};
    {| trigger_reason := max_hold_time; trigger_priority := 5;
       trigger_type := "timeout"; trigger_sellCount := None;
       fires := maxHoldEnabled cfg
                && (JS.ofZ (maxHoldSeconds cfg) <=? holdTimeOf clk position) |} ].

(** The first trigger of a list that fires. *)
Definition firstFiring (l : list Trigger) : option Trigger := List.find fires l.

(** The trades of the list of [i] days back. *)
Definition history (R : Redis) (clk : Clock) (i : nat)
  : list (option ClosedTrade) :=
  default [] (trades (store R) !! dateKey clk i).

(** A record of a closed trade of [mint] copied from [wallet]. *)
Definition isTradeOf (mint wallet : string) (trade : ClosedTrade) : Prop :=
  trade_mint trade = Some mint /\ trade_walletSource trade = Some wallet.

(** The store answers every command. *)
Definition reachable (R : Redis) : Prop := forall c, failing R c = false.



End CopyStrategy.

(** ** The network as the executors see it *)

Module Rpc.

(** An entry of [preTokenBalances] or [postTokenBalances]; [uiAmount] is
    [None] when [uiTokenAmount] or its [uiAmount] is missing or null. *)
Record TokenBalance := { accountIndex : Z; uiAmount : option float }.

Record TxMeta := {
  err : option string;
  preTokenBalances : option (list TokenBalance);
  postTokenBalances : option (list TokenBalance);
  preBalances : option (list float);
  postBalances : option (list float)
}.

(** A confirmed transaction: its [meta] and the key lists of
    [transaction.message].  A key is the base58 text [toBase58()] gives,
    [None] for an entry without that method. *)
Record Transaction := {
  meta : option TxMeta;
  staticAccountKeys : option (list (option string));
  accountKeys : option (list (option string))
}.

(** A sell amount is a number or a string such as ["100%"]. *)
Inductive Amount :=
| Num (x : float)
| Str (s : string).

Record TradeRequest := {
  action : string;
  req_mint : string;
  amount : Amount;
  denominatedInSol : string;
  slippage : float;
  priorityFee : float;
  pool : string
}.

(** The answer of the trade-local endpoint: an unsigned transaction. *)
Record LocalResponse := {
  status : Z;
  body : option (list Byte.byte)
}.

(** The answer of the Lightning endpoint: a JSON body. *)
Record LightningData := { data_signature : option string }.
Record LightningResponse := {
  lightning_status : Z;
  lightning_data : option LightningData
}.

Record SignatureStatus := {
  status_err : option string;
  confirmationStatus : option string
}.

Inductive NetCall :=
| PostTradeLocal (request : TradeRequest)
| PostTrade (request : TradeRequest)
| SendTransaction (unsigned : list Byte.byte)
| GetSignatureStatus (signature : string)
| GetTransaction (signature : string).

Record World := {
  postTradeLocal : TradeRequest -> outcome LocalResponse;
  postTrade : TradeRequest -> outcome LightningResponse;
  (** [VersionedTransaction.deserialize] accepts the bytes *)
  deserializes : list Byte.byte -> bool;
  (** the signature [connection.sendTransaction] answers for the
      transaction once signed *)
  sendTransaction : list Byte.byte -> outcome string;
  (** the value of [getSignatureStatus] at the i-th poll *)
  getSignatureStatus : string -> nat -> outcome (option SignatureStatus);
  getTransaction : string -> outcome (option Transaction);
  (** the successive values of [Math.random()] and [Date.now()] *)
  random : nat -> float;
  clock : nat -> Z;
  (** [Number(s)] for a string *)
  toNumber : string -> float
}.

(** The calls made so far and the numbers of random values and clock
    readings consumed. *)
Record State := { calls : list NetCall; drawn : nat; tick : nat }.

Definition call {A} (c : NetCall) (answer : outcome A) : Eff State A :=
  fun s => (answer, {| calls := calls s ++ [c]; drawn := drawn s;
                       tick := tick s |}).

(** [Math.random()] *)
Definition math_random (W : World) : Eff State float :=
  fun s => (Ok (random W (drawn s)),
            {| calls := calls s; drawn := S (drawn s); tick := tick s |}).

(** [Date.now()] *)
Definition now_ms (W : World) : Eff State Z :=
  fun s => (Ok (clock W (tick s)),
            {| calls := calls s; drawn := drawn s; tick := S (tick s) |}).

(** The object the executors return; a property an object literal leaves
    out is [None] ([simulated]: [false]). *)
Record ExecutionResult := {
  success : bool;
  simulated : bool;
  result_action : string;
  result_mint : string;
  signature : option string;
  solSpent : option float;
  tokensReceived : option float;
  requestedTokens : option Amount;
  tokensSold : option Amount;
  solReceived : option float;
  timestamp : option Z;
  error : option string
}.

Definition failure (action mint message : string) : ExecutionResult :=
  {| success := false; simulated := false; result_action := action;
     result_mint := mint; signature := None; solSpent := None;
     tokensReceived := None; requestedTokens := None; tokensSold := None;
     solReceived := None; timestamp := None; error := Some message |}.

(** A result without its signature and its timestamp. *)
Definition unstamped (r : ExecutionResult) : ExecutionResult :=
  {| success := success r; simulated := simulated r;
     result_action := result_action r; result_mint := result_mint r;
     signature := None; solSpent := solSpent r;
     tokensReceived := tokensReceived r;
     requestedTokens := requestedTokens r; tokensSold := tokensSold r;
     solReceived := solReceived r; timestamp := None; error := error r |}.

(** The characters [trim] removes are the white space and the line
    terminators of the language: U+0009 to U+000D, U+0020, U+00A0,
    U+1680, U+2000 to U+200A, U+2028, U+2029, U+202F, U+205F, U+3000 and
    U+FEFF.  A string is held as the bytes of its UTF-8 encoding, so
    that each of them is one, two or three bytes. *)

(** The blanks of one byte: U+0009 to U+000D and U+0020. *)
Definition isSpace (c : ascii) : bool :=
  let n := nat_of_ascii c in
  (n =? 32)%nat || ((9 <=? n)%nat && (n <=? 13)%nat).

(** The blank of two bytes: U+00A0, [C2 A0]. *)
Definition isSpace2 (b1 b2 : ascii) : bool :=
  (nat_of_ascii b1 =? 194)%nat && (nat_of_ascii b2 =? 160)%nat.

(** The blanks of three bytes: U+1680 [E1 9A 80], U+2000 to U+200A
    [E2 80 80] to [E2 80 8A], U+2028 [E2 80 A8], U+2029 [E2 80 A9],
    U+202F [E2 80 AF], U+205F [E2 81 9F], U+3000 [E3 80 80] and U+FEFF
    [EF BB BF]. *)
Definition isSpace3 (b1 b2 b3 : ascii) : bool :=
  let n1 := nat_of_ascii b1 in
  let n2 := nat_of_ascii b2 in
  let n3 := nat_of_ascii b3 in
  ((n1 =? 225) && (n2 =? 154) && (n3 =? 128))%nat
  || ((n1 =? 226) && (n2 =? 128)
      && (((128 <=? n3) && (n3 <=? 138))
          || (n3 =? 168) || (n3 =? 169) || (n3 =? 175)))%nat
  || ((n1 =? 226) && (n2 =? 129) && (n3 =? 159))%nat
  || ((n1 =? 227) && (n2 =? 128) && (n3 =? 128))%nat
  || ((n1 =? 239) && (n2 =? 187) && (n3 =? 191))%nat.

(** The bytes of a string, last byte first, once the blanks at its end
    are removed. *)
Fixpoint dropSpaces (l : list ascii) : list ascii :=
  match l with
  | [] => []
  | c :: rest =>
      if isSpace c then dropSpaces rest else
      match rest with
      | [] => l
      | c1 :: rest1 =>
          if isSpace2 c1 c then dropSpaces rest1 else
          match rest1 with
          | [] => l
          | c2 :: rest2 =>
              if isSpace3 c2 c1 c then dropSpaces rest2 else l
          end
      end
  end.

(** [typeof a === 'string' && a.trim().endsWith('%')] *)
Definition isPercent (a : Amount) : bool :=
  match a with
  | Num _ => false
  | Str s =>
      match dropSpaces (rev (list_ascii_of_string s)) with
      | c :: _ => Ascii.eqb c "%"%char
      | [] => false
      end
  end.

(** The index [findIndex] gives for the wallet in a key list, [-1] when
    it is not there. *)
Fixpoint findIndex (wallet : string) (keys : list (option string)) : Z :=
  match keys with
  | [] => -1
  | k :: rest =>
      if bool_decide (k = Some wallet) then 0
      else let i := findIndex wallet rest in
           if (i <? 0)%Z then -1 else (i + 1)%Z
  end.

(** The state after the network calls [l], nothing else changed. *)
Definition afterCalls (l : list NetCall) (s : State) : State :=
  {| calls := calls s ++ l; drawn := drawn s; tick := tick s |}.

End Rpc.

(** ** pumpPortalExecutor.js, Local API: sign, send and verify *)

Module PumpPortalExecutor.
Import Rpc.
Local Open Scope float_scope.
Local Open Scope eff_scope.

(** [this.dryRun] and [this.wallet.publicKey.toBase58()] *)
Record Executor := { dryRun : bool; walletPubkey : string }.

(** What [parseTx] and [getTxDetails] return: [{ failed: true, error }]
    or the three amounts. *)
Inductive TxDetails :=
| Failed (error : string)
| Parsed (tokensReceived tokensSold solReceived : float).

(** [preTokenBalances.find(p => p.accountIndex === index)] *)
Definition findBalance (pre : list TokenBalance) (index : Z)
  : option TokenBalance :=
  List.find (fun p => (accountIndex p =? index)%Z) pre.

(** The sum of the changes of all token balances of the transaction. *)
Definition tokensDeltaOf (pre post : list TokenBalance) : float :=
  fold_left
    (fun tokensDelta postBal =>
       let preAmount :=
         match findBalance pre (accountIndex postBal) with
         | Some preBal => JS.or_default (uiAmount preBal) 0
         | None => 0
         end in
       let postAmount := JS.or_default (uiAmount postBal) 0 in
       tokensDelta + (postAmount - preAmount))
    post 0.

(** The index of the wallet among the static keys or, failing that,
    among the legacy keys. *)
Definition walletIndexOf (wallet : string) (tx : Transaction) : Z :=
  let walletIndex :=
    match staticAccountKeys tx with
    | Some (k :: rest) => findIndex wallet (k :: rest)
    | _ => (-1)%Z
    end in
  if (walletIndex =? -1)%Z then
    match accountKeys tx with
    | Some legacyKeys => findIndex wallet legacyKeys
    | None => walletIndex
    end
  else walletIndex.

(** The change of the wallet's balance, in SOL. *)
Definition solDeltaOf (wallet : string) (tx : Transaction)
  (pre post : list float) : float :=
  let walletIndex := walletIndexOf wallet tx in
  if (0 <=? walletIndex)%Z then
    let preSOL := JS.or_default (pre !! Z.to_nat walletIndex) 0 / 1e9 in
    let postSOL := JS.or_default (post !! Z.to_nat walletIndex) 0 / 1e9 in
    postSOL - preSOL
  else 0.

(** [PumpPortalExecutor.parseTx(tx)] *)
Definition parseTx (ex : Executor) (tx : option Transaction) : TxDetails :=
  match tx with
  | None => Failed "No meta in transaction"
  | Some tx =>
    match meta tx with
    | None => Failed "No meta in transaction"
    | Some m =>
      match err m with
      | Some e => Failed e
      | None =>
        let tokensDelta :=
          match postTokenBalances m, preTokenBalances m with
          | Some post, Some pre => tokensDeltaOf pre post
          | _, _ => 0
          end in
        let solDelta :=
          match postBalances m, preBalances m with
          | Some post, Some pre => solDeltaOf (walletPubkey ex) tx pre post
          | _, _ => 0
          end in
        let tokensReceived := abs tokensDelta in
        let tokensSold := if tokensDelta <? 0 then abs tokensDelta else 0 in
        let solReceived := if 0 <? solDelta then solDelta else 0 in
        (* no movement of tokens nor of SOL: a failure *)
        if (negb (JS.truthy tokensReceived) || (tokensReceived =? 0))
           && (negb (JS.truthy tokensSold) || (tokensSold =? 0))
           && (negb (JS.truthy solReceived) || (abs solReceived <? 1e-9))
        then Failed "No token/SOL movement detected for wallet (likely failed tx)"
        else Parsed tokensReceived tokensSold solReceived
      end
    end
  end.

(** [PumpPortalExecutor.getTxDetails(signature)] *)
Definition getTxDetails (W : World) (ex : Executor) (signature : string)
  : Eff State TxDetails :=
  try_catch
    (tx <- call (GetTransaction signature) (getTransaction W signature) ;;
     match tx with
     | None => ret (Failed "Transaction not found")
     | Some t =>
         match meta t with
         | Some {| err := Some e |} => ret (Failed e)
         | _ => ret (parseTx ex tx)
         end
     end)
    (fun message => ret (Failed message)).

Definition isConfirmed (st : SignatureStatus) : bool :=
  bool_decide (confirmationStatus st = Some "confirmed"%string)
  || bool_decide (confirmationStatus st = Some "finalized"%string).

(** [waitForConfirmation(signature)] from poll [i] on, with [remaining]
    polls left.  The error thrown for a status with [err] is caught by
    the [catch] of the same iteration. *)
Fixpoint waitForConfirmation (W : World) (signature : string)
  (remaining i : nat) : Eff State bool :=
  match remaining with
  | O => ret false
  | S rest =>
      confirmed <-
        try_catch
          (value <- call (GetSignatureStatus signature)
                         (getSignatureStatus W signature i) ;;
           match value with
           | Some st =>
               match status_err st with
               | Some _ => throw "Transaction failed on-chain (status.err set)"
               | None => ret (isConfirmed st)
               end
           | None => ret false
           end)
          (fun _ => ret false) ;;
      if confirmed : bool then ret true
      else waitForConfirmation W signature rest (S i)
  end.

Definition chars : string := "abcdef0123456789".

(** [chars[Math.floor(x * chars.length)]], ["undefined"] out of range *)
Definition pickChar (x : float) : string :=
  match JS.floor (x * 16) with
  | Some k =>
      if (k <? 0)%Z then "undefined"
      else match String.get (Z.to_nat k) chars with
           | Some c => String c EmptyString
           | None => "undefined"
           end
  | None => "undefined"
  end.

(** The loop of [fakeSignature()] with [n] characters to go. *)
Fixpoint fakeSignature_loop (W : World) (n : nat) (sig : string)
  : Eff State string :=
  match n with
  | O => ret sig
  | S rest =>
      x <- math_random W ;;
      fakeSignature_loop W rest (sig ++ pickChar x)
  end.

(** [PumpPortalExecutor.fakeSignature()] *)
Definition fakeSignature (W : World) : Eff State string :=
  fakeSignature_loop W 88 "".

(** [PumpPortalExecutor.simulateBuy(mint, solAmount)] *)
Definition simulateBuy (W : World) (mint : string) (solAmount : float)
  : Eff State ExecutionResult :=
  let avgPrice := 0.000001 in
  let tokens := solAmount / avgPrice in
  sig <- fakeSignature W ;;
  now <- now_ms W ;;
  ret {| success := true; simulated := true; result_action := "buy";
         result_mint := mint; signature := Some sig;
         solSpent := Some solAmount; tokensReceived := Some tokens;
         requestedTokens := None; tokensSold := None; solReceived := None;
         timestamp := Some now; error := None |}.

(** [amountTokens * avgPrice], a string being read as a number first *)
Definition amountNumber (W : World) (a : Amount) : float :=
  match a with Num x => x | Str s => toNumber W s end.

(** [PumpPortalExecutor.simulateSell(mint, amountTokens)] *)
Definition simulateSell (W : World) (mint : string) (amountTokens : Amount)
  : Eff State ExecutionResult :=
  let sol :=
    if isPercent amountTokens then 0
    else amountNumber W amountTokens * 0.000001 in
  sig <- fakeSignature W ;;
  now <- now_ms W ;;
  ret {| success := true; simulated := true; result_action := "sell";
         result_mint := mint; signature := Some sig;
         solSpent := None; tokensReceived := None;
         requestedTokens := None; tokensSold := Some amountTokens;
         solReceived := Some sol;
         timestamp := Some now; error := None |}.

(** The steps both orders share: ask for the unsigned transaction, sign
    it, send it, wait, and read the transaction back. *)
Definition submit (W : World) (ex : Executor) (payload : TradeRequest)
  (label : string) : Eff State (string * TxDetails) :=
  response <- call (PostTradeLocal payload) (postTradeLocal W payload) ;;
  match (if (status response =? 200)%Z then body response else None) with
  | None => throw ("API Error (" ++ label ++ ")")
  | Some txBuffer =>
      if negb (deserializes W txBuffer)
      then throw "Failed to deserialize transaction" else
      signature <- call (SendTransaction txBuffer) (sendTransaction W txBuffer) ;;
      _ <- waitForConfirmation W signature 30 0 ;;
      txDetails <- getTxDetails W ex signature ;;
      ret (signature, txDetails)
  end.

(** [PumpPortalExecutor.buyToken(mint, solAmount, slippage, priorityFee)] *)
Definition buyToken (W : World) (ex : Executor) (mint : string)
  (solAmount : float) (slippage priorityFee : option float)
  : Eff State ExecutionResult :=
  try_catch
    (if dryRun ex then simulateBuy W mint solAmount else
     let payload :=
       {| action := "buy"; req_mint := mint; amount := Num solAmount;
          denominatedInSol := "true";
          slippage := JS.nullish slippage 10;
          priorityFee := JS.nullish priorityFee 0.0005;
          pool := "pump" |} in
     sent <- submit W ex payload "BUY" ;;
     let '(signature, txDetails) := sent in
     match txDetails with
     | Failed reason => throw ("On-chain BUY failed: " ++ reason)
     | Parsed tokensReceived _ _ =>
         if negb (JS.truthy tokensReceived) || (tokensReceived <=? 0)
         then throw "On-chain BUY has zero tokensReceived. Treating as failed."
         else
         now <- now_ms W ;;
         ret {| success := true; simulated := false; result_action := "buy";
                result_mint := mint; signature := Some signature;
                solSpent := Some solAmount;
                tokensReceived := Some tokensReceived;
                requestedTokens := None; tokensSold := None;
                solReceived := None; timestamp := Some now; error := None |}
     end)
    (fun message => ret (failure "buy" mint message)).

(** [PumpPortalExecutor.sellToken(mint, amountTokens, slippage, priorityFee)] *)
Definition sellToken (W : World) (ex : Executor) (mint : string)
  (amountTokens : Amount) (slippage priorityFee : option float)
  : Eff State ExecutionResult :=
  try_catch
    (if dryRun ex then simulateSell W mint amountTokens else
     let sellAmountField :=
       if isPercent amountTokens then amountTokens else Str "100%" in
     let payload :=
       {| action := "sell"; req_mint := mint; amount := sellAmountField;
          denominatedInSol := "false";
          slippage := JS.nullish slippage 10;
          priorityFee := JS.nullish priorityFee 0.0005;
          pool := "pump" |} in
     sent <- submit W ex payload "SELL" ;;
     let '(signature, txDetails) := sent in
     match txDetails with
     | Failed reason => throw ("On-chain SELL failed: " ++ reason)
     | Parsed _ tokensSold solReceived =>
         if negb (JS.truthy tokensSold) || (tokensSold <=? 0)
         then throw "On-chain SELL has zero tokensSold. Treating as failed."
         else
         if negb (JS.truthy solReceived) || (solReceived <=? 0)
         then throw "On-chain SELL has zero solReceived. Treating as failed."
         else
         now <- now_ms W ;;
         ret {| success := true; simulated := false; result_action := "sell";
                result_mint := mint; signature := Some signature;
                solSpent := None; tokensReceived := None;
                requestedTokens := Some amountTokens;
                tokensSold := Some (Num tokensSold);
                solReceived := Some solReceived;
                timestamp := Some now; error := None |}
     end)
    (fun message => ret (failure "sell" mint message)).

(** *** Vocabulary of the properties *)

(** The poll [i] of a signature shows it confirmed or finalized, and
    without error. *)
Definition settled (W : World) (signature : string) (i : nat) : bool :=
  match getSignatureStatus W signature i with
  | Ok (Some st) =>
      match status_err st with
      | Some _ => false
      | None => isConfirmed st
      end
  | _ => false
  end.

(** The request of a live buy and of a live sell. *)
Definition buyRequest (mint : string) (solAmount : float)
  (slippage priorityFee : option float) : TradeRequest :=
  {| action := "buy"; req_mint := mint; amount := Num solAmount;
     denominatedInSol := "true";
     slippage := JS.nullish slippage 10;
     priorityFee := JS.nullish priorityFee 0.0005;
     pool := "pump" |}.

Definition sellRequest (mint : string) (amountTokens : Amount)
  (slippage priorityFee : option float) : TradeRequest :=
  {| action := "sell"; req_mint := mint;
     amount := if isPercent amountTokens then amountTokens else Str "100%";
     denominatedInSol := "false";
     slippage := JS.nullish slippage 10;
     priorityFee := JS.nullish priorityFee 0.0005;
     pool := "pump" |}.

(** What a live order does for its request and what it answers.  The
    order never throws and draws no random number.  Its answer is the
    failure object, which carries an error and no signature, or a
    success stamped with the time of the call.  After the request it
    calls nothing more, or, for an answer with the status 200 whose body
    deserializes, sends the transaction; once the transaction is sent it
    polls the signature 1 to 30 times and reads the transaction back,
    and a success carries that signature. *)
Definition liveOrder (W : World) (act mint : string) (request : TradeRequest)
  (s : State) (run : outcome ExecutionResult * State) : Prop :=
  exists r s' rest,
    run = (Ok r, s') /\
    calls s' = calls s ++ PostTradeLocal request :: rest /\
    drawn s' = drawn s /\
    ((exists message, r = failure act mint message) /\ tick s' = tick s
     \/ success r = true /\ error r = None /\
        tick s' = S (tick s) /\ timestamp r = Some (clock W (tick s))) /\
    (rest = [] /\ success r = false
     \/ exists response unsigned,
          postTradeLocal W request = Ok response /\
          status response = 200%Z /\ body response = Some unsigned /\
          deserializes W unsigned = true /\
          (rest = [SendTransaction unsigned] /\ success r = false /\
           (exists message, sendTransaction W unsigned = Throw message)
           \/ exists sent n,
                sendTransaction W unsigned = Ok sent /\
                (1 <= n <= 30)%nat /\
                rest = SendTransaction unsigned
                       :: repeat (GetSignatureStatus sent) n
                       ++ [GetTransaction sent] /\
                (success r = true -> signature r = Some sent))).

End PumpPortalExecutor.

(** ** pumpPortalExecutor.js, Lightning API: the endpoint signs and sends *)

Module PumpPortalLightning.
Import Rpc.
Local Open Scope float_scope.
Local Open Scope eff_scope.

Record Executor := { dryRun : bool; walletPubkey : string }.

(** The object [parseTx] returns: [{}] for a missing transaction. *)
Record TxDetails := {
  parsed_tokensReceived : option float;
  parsed_solReceived : option float
}.

(** [accountKeys.findIndex(k => k.toBase58() === wallet)]; an entry
    without [toBase58] makes the callback throw. *)
Fixpoint findIndexStrict (wallet : string) (keys : list (option string))
  : outcome Z :=
  match keys with
  | [] => Ok (-1)%Z
  | None :: _ => Throw "k.toBase58 is not a function"
  | Some k :: rest =>
      if String.eqb k wallet then Ok 0%Z
      else i <-! findIndexStrict wallet rest ;;
           Ok (if (i <? 0)%Z then (-1)%Z else (i + 1)%Z)
  end.

(** [balances[0]?.uiTokenAmount?.uiAmount ?? 0] *)
Definition firstAmount (balances : list TokenBalance) : float :=
  match balances with
  | b :: _ => JS.nullish (uiAmount b) 0
  | [] => 0
  end.

(** [balances[walletIndex] / 1e9], NaN for a missing entry *)
Definition balanceAt (balances : list float) (walletIndex : Z) : float :=
  match balances !! Z.to_nat walletIndex with
  | Some lamports => lamports / 1e9
  | None => nan
  end.

(** [PumpPortalExecutor.parseTx(tx)] of the Lightning variant *)
Definition parseTx (ex : Executor) (tx : option Transaction)
  : outcome TxDetails :=
  match tx with
  | None => Ok {| parsed_tokensReceived := None; parsed_solReceived := None |}
  | Some tx =>
    let tokensReceived :=
      match meta tx with
      | Some {| postTokenBalances := Some post; preTokenBalances := Some pre |} =>
          firstAmount post - firstAmount pre
      | _ => 0
      end in
    solReceived <-!
      match meta tx with
      | Some {| postBalances := Some post; preBalances := Some pre |} =>
          match accountKeys tx with
          | None => Throw "Cannot read properties of undefined (reading 'findIndex')"
          | Some keys =>
              walletIndex <-! findIndexStrict (walletPubkey ex) keys ;;
              if (0 <=? walletIndex)%Z
              then Ok (balanceAt post walletIndex - balanceAt pre walletIndex)
              else Ok 0
          end
      | _ => Ok 0
      end ;;
    Ok {| parsed_tokensReceived := Some tokensReceived;
          parsed_solReceived := Some solReceived |}
  end.

(** [getTxDetails(signature)]: [null] when anything throws. *)
Definition getTxDetails (W : World) (ex : Executor) (signature : string)
  : Eff State (option TxDetails) :=
  try_catch
    (tx <- call (GetTransaction signature) (getTransaction W signature) ;;
     details <- lift (parseTx ex tx) ;;
     ret (Some details))
    (fun _ => ret None).

(** [waitForConfirmation(signature)] from poll [i] on. *)
Fixpoint waitForConfirmation (W : World) (signature : string)
  (remaining i : nat) : Eff State bool :=
  match remaining with
  | O => ret false
  | S rest =>
      confirmed <-
        try_catch
          (value <- call (GetSignatureStatus signature)
                         (getSignatureStatus W signature i) ;;
           ret (match value with
                | Some st => PumpPortalExecutor.isConfirmed st
                | None => false
                end))
          (fun _ => ret false) ;;
      if confirmed : bool then ret true
      else waitForConfirmation W signature rest (S i)
  end.

Definition base58Alphabet : string :=
  "123456789ABCDEFGHJKLMNPQRSTUVWXYZabcdefghijkmnopqrstuvwxyz".

Definition base58Digit (d : Z) : ascii :=
  default "1"%char (String.get (Z.to_nat d) base58Alphabet).

Fixpoint base58Digits (fuel : nat) (n : Z) (acc : list ascii) : list ascii :=
  match fuel with
  | O => acc
  | S rest =>
      if (n =? 0)%Z then acc
      else base58Digits rest (n / 58)%Z (base58Digit (n mod 58)%Z :: acc)
  end.

Fixpoint leadingZeros (bytes : list Z) : nat :=
  match bytes with
  | b :: rest => if (b =? 0)%Z then S (leadingZeros rest) else O
  | [] => O
  end.

(** [bs58.encode(bytes)] *)
Definition bs58encode (bytes : list Z) : string :=
  let n := fold_left (fun acc b => (acc * 256 + b)%Z) bytes 0%Z in
  string_of_list_ascii
    (repeat "1"%char (leadingZeros bytes)
     ++ base58Digits (2 * length bytes) n []).

(** [Math.floor(x * 256)] stored into a [Uint8Array] *)
Definition randomByte (x : float) : Z :=
  match JS.floor (x * 256) with
  | Some k => (k mod 256)%Z
  | None => 0%Z
  end.

Fixpoint randomBytes (W : World) (n : nat) : Eff State (list Z) :=
  match n with
  | O => ret []
  | S rest =>
      x <- math_random W ;;
      bytes <- randomBytes W rest ;;
      ret (randomByte x :: bytes)
  end.

(** [fakeSignature()] of the Lightning variant *)
Definition fakeSignature (W : World) : Eff State string :=
  arr <- randomBytes W 64 ;;
  ret (bs58encode arr).

Definition simulateBuy (W : World) (mint : string) (solAmount : float)
  : Eff State ExecutionResult :=
  let avgPrice := 0.000001 in
  let tokens := solAmount / avgPrice in
  sig <- fakeSignature W ;;
  now <- now_ms W ;;
  ret {| success := true; simulated := true; result_action := "buy";
         result_mint := mint; signature := Some sig;
         solSpent := Some solAmount; tokensReceived := Some tokens;
         requestedTokens := None; tokensSold := None; solReceived := None;
         timestamp := Some now; error := None |}.

Definition simulateSell (W : World) (mint : string) (amountTokens : Amount)
  : Eff State ExecutionResult :=
  let avgPrice := 0.000001 in
  let sol := PumpPortalExecutor.amountNumber W amountTokens * avgPrice in
  sig <- fakeSignature W ;;
  now <- now_ms W ;;
  ret {| success := true; simulated := true; result_action := "sell";
         result_mint := mint; signature := Some sig;
         solSpent := None; tokensReceived := None;
         requestedTokens := None; tokensSold := Some amountTokens;
         solReceived := Some sol;
         timestamp := Some now; error := None |}.

(** The request, and the signature read from the answer;
    [signature.slice] throws when the answer carries none. *)
Definition send (W : World) (payload : TradeRequest) : Eff State string :=
  response <- call (PostTrade payload) (postTrade W payload) ;;
  match (if (lightning_status response =? 200)%Z
         then lightning_data response else None) with
  | None => throw "API Error: Unknown"
  | Some d =>
      match data_signature d with
      | None => throw "Cannot read properties of undefined (reading 'slice')"
      | Some signature => ret signature
      end
  end.

(** [buyToken] of the Lightning variant *)
Definition buyToken (W : World) (ex : Executor) (mint : string)
  (solAmount : float) (slippage priorityFee : option float)
  : Eff State ExecutionResult :=
  try_catch
    (if dryRun ex then simulateBuy W mint solAmount else
     let payload :=
       {| action := "buy"; req_mint := mint; amount := Num solAmount;
          denominatedInSol := "true";
          slippage := JS.nullish slippage 10;
          priorityFee := JS.nullish priorityFee 0.0005;
          pool := "pump" |} in
     signature <- send W payload ;;
     _ <- waitForConfirmation W signature 30 0 ;;
     tx <- getTxDetails W ex signature ;;
     now <- now_ms W ;;
     ret {| success := true; simulated := false; result_action := "buy";
            result_mint := mint; signature := Some signature;
            solSpent := Some solAmount;
            tokensReceived :=
              Some (JS.or_default
                      (match tx with
                       | Some d => parsed_tokensReceived d
                       | None => None
                       end) 0);
            requestedTokens := None; tokensSold := None;
            solReceived := None; timestamp := Some now; error := None |})
    (fun message => ret (failure "buy" mint message)).

(** [sellToken] of the Lightning variant *)
Definition sellToken (W : World) (ex : Executor) (mint : string)
  (amountTokens : Amount) (slippage priorityFee : option float)
  : Eff State ExecutionResult :=
  try_catch
    (if dryRun ex then simulateSell W mint amountTokens else
     let payload :=
       {| action := "sell"; req_mint := mint; amount := amountTokens;
          denominatedInSol := "false";
          slippage := JS.nullish slippage 10;
          priorityFee := JS.nullish priorityFee 0.0005;
          pool := "pump" |} in
     signature <- send W payload ;;
     _ <- waitForConfirmation W signature 30 0 ;;
     tx <- getTxDetails W ex signature ;;
     now <- now_ms W ;;
     ret {| success := true; simulated := false; result_action := "sell";
            result_mint := mint; signature := Some signature;
            solSpent := None; tokensReceived := None;
            requestedTokens := None; tokensSold := Some amountTokens;
            solReceived :=
              Some (JS.or_default
                      (match tx with
                       | Some d => parsed_solReceived d
                       | None => None
                       end) 0);
            timestamp := Some now; error := None |})
    (fun message => ret (failure "sell" mint message)).

(** *** Vocabulary of the properties *)

(** The poll [i] of a signature shows it confirmed or finalized. *)
Definition confirmedAt (W : World) (signature : string) (i : nat) : bool :=
  match getSignatureStatus W signature i with
  | Ok (Some st) => PumpPortalExecutor.isConfirmed st
  | _ => false
  end.

(** The endpoint accepted the order: it answered with the status 200
    and a body that carries a signature. *)
Definition accepted (W : World) (payload : TradeRequest) (signature : string)
  : Prop :=
  exists response d,
    postTrade W payload = Ok response /\
    lightning_status response = 200%Z /\
    lightning_data response = Some d /\
    data_signature d = Some signature.

(** The request of a live sell: the amount goes as the caller gave it. *)
Definition sellRequest (mint : string) (amountTokens : Amount)
  (slippage priorityFee : option float) : TradeRequest :=
  {| action := "sell"; req_mint := mint; amount := amountTokens;
     denominatedInSol := "false";
     slippage := JS.nullish slippage 10;
     priorityFee := JS.nullish priorityFee 0.0005;
     pool := "pump" |}.

(** What a live order does for its request and what it answers.  The
    order never throws.  It succeeds exactly when the endpoint accepted
    the request; it then carries the signature of the endpoint, after 1
    to 30 polls of that signature and one reading of the transaction.
    A failure made the request and no other call, and carries an error
    and no signature. *)
Definition liveOrder (W : World) (request : TradeRequest)
  (s : State) (run : outcome ExecutionResult * State) : Prop :=
  exists r s',
    run = (Ok r, s') /\
    (success r = true <-> exists sent, accepted W request sent) /\
    (forall sent,
       accepted W request sent ->
       signature r = Some sent /\ error r = None /\
       timestamp r = Some (clock W (tick s)) /\
       exists n,
         (1 <= n <= 30)%nat /\
         s' = {| calls := calls s ++ PostTrade request
                          :: repeat (GetSignatureStatus sent) n
                          ++ [GetTransaction sent];
                 drawn := drawn s; tick := S (tick s) |}) /\
    (success r = false ->
     s' = afterCalls [PostTrade request] s /\
     signature r = None /\ error r <> None).

End PumpPortalLightning.

(** ** jupiterExecutor.js: selling graduated tokens through Jupiter *)

Module JupiterExecutor.
Local Open Scope float_scope.
Local Open Scope eff_scope.

(** [this.dryRun] and [this.wallet.publicKey.toBase58()] *)
Record Executor := { dryRun : bool; walletPubkey : string }.

(** The body of Jupiter's quote: [outAmount] is the integer the field
    spells, [None] when the field is missing or empty. *)
Record QuoteResponse := { outAmount : option Z }.

(** The body of Jupiter's swap answer: the transaction that
    [swapTransaction] encodes, [None] when the field is missing or
    empty. *)
Record SwapResponse := { swapTransaction : option (list Byte.byte) }.

Inductive NetCall :=
| GetParsedAccountInfo (mint : string)
| GetQuote (inputMint : string) (amount : Z) (slippageBps : float)
| PostSwap (quoteResponse : QuoteResponse)
| SendTransaction (unsigned : list Byte.byte)
| GetSignatureStatus (signature : string)
| GetTransaction (signature : string).

Record World := {
  (** whether [new PublicKey(s)] accepts the string *)
  isPublicKey : string -> bool;
  (** [info.value?.data?.parsed?.info?.decimals] when it is a number *)
  getParsedAccountInfo : string -> outcome (option Z);
  (** [10 ** decimals] *)
  power10 : Z -> float;
  (** [response.data] of the quote and of the swap request *)
  getQuote : string -> Z -> float -> outcome (option QuoteResponse);
  postSwap : QuoteResponse -> outcome (option SwapResponse);
  deserializes : list Byte.byte -> bool;
  sendTransaction : list Byte.byte -> outcome string;
  (** the value of [getSignatureStatus] at the i-th poll *)
  getSignatureStatus : string -> nat -> outcome (option Rpc.SignatureStatus);
  getTransaction : string -> outcome (option Rpc.Transaction);
  (** the successive values of [Math.random()] and [Date.now()] *)
  random : nat -> float;
  clock : nat -> Z
}.

Record State := { calls : list NetCall; drawn : nat; tick : nat }.

Definition call {A} (c : NetCall) (answer : outcome A) : Eff State A :=
  fun s => (answer, {| calls := calls s ++ [c]; drawn := drawn s;
                       tick := tick s |}).

Definition math_random (W : World) : Eff State float :=
  fun s => (Ok (random W (drawn s)),
            {| calls := calls s; drawn := S (drawn s); tick := tick s |}).

Definition now_ms (W : World) : Eff State Z :=
  fun s => (Ok (clock W (tick s)),
            {| calls := calls s; drawn := drawn s; tick := S (tick s) |}).

(** The object [swapToken] returns; a property an object literal leaves
    out is [None] ([simulated]: [false]). *)
Record SwapResult := {
  success : bool;
  simulated : bool;
  result_mint : string;
  signature : option string;
  decimals : option Z;
  tokensSold : option float;
  baseUnits : option Z;
  expectedSOL : option float;
  solReceived : option float;
  timestamp : option Z;
  error : option string
}.

Definition failure (mint message : string) : SwapResult :=
  {| success := false; simulated := false; result_mint := mint;
     signature := None; decimals := None; tokensSold := None;
     baseUnits := None; expectedSOL := None; solReceived := None;
     timestamp := None; error := Some message |}.

(** [JupiterExecutor.getTokenDecimals(mint)] *)
Definition getTokenDecimals (W : World) (mint : string) : Eff State Z :=
  try_catch
    (if negb (isPublicKey W mint) then throw "Invalid public key input" else
     decimals <- call (GetParsedAccountInfo mint) (getParsedAccountInfo W mint) ;;
     match decimals with
     | Some d => ret d
     | None => ret 6%Z
     end)
    (fun _ => ret 6%Z).

(** [JupiterExecutor.waitForConfirmation(signature)] from poll [i] on *)
Fixpoint waitForConfirmation (W : World) (signature : string)
  (remaining i : nat) : Eff State bool :=
  match remaining with
  | O => ret false
  | S rest =>
      confirmed <-
        try_catch
          (value <- call (GetSignatureStatus signature)
                         (getSignatureStatus W signature i) ;;
           ret (match value with
                | Some st => PumpPortalExecutor.isConfirmed st
                | None => false
                end))
          (fun _ => ret false) ;;
      if confirmed : bool then ret true
      else waitForConfirmation W signature rest (S i)
  end.

(** [JupiterExecutor.parseSwapTx(signature)]: the [solReceived] of the
    object it returns.  Reading a balance list that is missing throws,
    which the [catch] turns into 0. *)
Definition parseSwapTx (W : World) (ex : Executor) (signature : string)
  : Eff State float :=
  try_catch
    (tx <- call (GetTransaction signature) (getTransaction W signature) ;;
     match tx with
     | None => ret 0
     | Some t =>
         match Rpc.meta t with
         | None => ret 0
         | Some m =>
             let walletIndex :=
               PumpPortalExecutor.walletIndexOf (walletPubkey ex) t in
             if (0 <=? walletIndex)%Z then
               match Rpc.preBalances m, Rpc.postBalances m with
               | Some pre, Some post =>
                   let preSOL :=
                     JS.or_default (pre !! Z.to_nat walletIndex) 0 / 1e9 in
                   let postSOL :=
                     JS.or_default (post !! Z.to_nat walletIndex) 0 / 1e9 in
                   ret (postSOL - preSOL)
               | _, _ =>
                   throw "Cannot read properties of undefined"
               end
             else ret 0
         end
     end)
    (fun _ => ret 0).

(** What [getSwapQuote] returns. *)
Record SwapQuote := {
  quote_decimals : Z;
  quote_baseUnits : Z;
  quote_expectedSOL : float;
  quoteResponse : QuoteResponse
}.

(** [JupiterExecutor.getSwapQuote(mint, uiTokenAmount, slippageBps)];
    [BigInt] throws for a number that is not finite. *)
Definition getSwapQuote (W : World) (mint : string) (uiTokenAmount : float)
  (slippageBps : float) : Eff State SwapQuote :=
  if negb (JS.truthy uiTokenAmount) || (uiTokenAmount <=? 0)
  then throw "Invalid token amount for quote" else
  decimals <- getTokenDecimals W mint ;;
  let factor := power10 W decimals in
  match JS.floor (uiTokenAmount * factor) with
  | None => throw "The number cannot be converted to a BigInt"
  | Some baseUnits =>
      data <- call (GetQuote mint baseUnits slippageBps)
                   (getQuote W mint baseUnits slippageBps) ;;
      match data with
      | Some response =>
          match outAmount response with
          | Some outAmountLamports =>
              ret {| quote_decimals := decimals; quote_baseUnits := baseUnits;
                     quote_expectedSOL := JS.ofZ outAmountLamports / 1e9;
                     quoteResponse := response |}
          | None => throw "Quote: Jupiter did not return outAmount"
          end
      | None => throw "Quote: Jupiter did not return outAmount"
      end
  end.

Fixpoint randomBytes (W : World) (n : nat) : Eff State (list Z) :=
  match n with
  | O => ret []
  | S rest =>
      x <- math_random W ;;
      bytes <- randomBytes W rest ;;
      ret (PumpPortalLightning.randomByte x :: bytes)
  end.

(** [JupiterExecutor.fakeSignature()] *)
Definition fakeSignature (W : World) : Eff State string :=
  arr <- randomBytes W 64 ;;
  ret (PumpPortalLightning.bs58encode arr).

(** [JupiterExecutor.swapToken(mint, uiTokenAmount, slippageBps)] *)
Definition swapToken (W : World) (ex : Executor) (mint : string)
  (uiTokenAmount : float) (slippageBps : float) : Eff State SwapResult :=
  try_catch
    (if dryRun ex then
       sig <- fakeSignature W ;;
       ret {| success := true; simulated := true; result_mint := mint;
              signature := Some sig; decimals := None;
              tokensSold := Some uiTokenAmount; baseUnits := None;
              expectedSOL := Some 0; solReceived := Some 0;
              timestamp := None; error := None |}
     else
     quote <- getSwapQuote W mint uiTokenAmount slippageBps ;;
     swapRes <- call (PostSwap (quoteResponse quote))
                     (postSwap W (quoteResponse quote)) ;;
     match swapRes with
     | Some {| swapTransaction := Some swapTxBuf |} =>
         if negb (deserializes W swapTxBuf)
         then throw "Failed to deserialize transaction" else
         sig <- call (SendTransaction swapTxBuf) (sendTransaction W swapTxBuf) ;;
         _ <- waitForConfirmation W sig 30 0 ;;
         received <- parseSwapTx W ex sig ;;
         now <- now_ms W ;;
         ret {| success := true; simulated := false; result_mint := mint;
                signature := Some sig;
                decimals := Some (quote_decimals quote);
                tokensSold := Some uiTokenAmount;
                baseUnits := Some (quote_baseUnits quote);
                expectedSOL := Some (quote_expectedSOL quote);
                solReceived := Some received;
                timestamp := Some now; error := None |}
     | _ => throw "Jupiter did not return swapTransaction"
     end)
    (fun message => ret (failure mint message)).

(** *** Vocabulary of the properties *)

(** The state after the network calls [l], nothing else changed. *)
Definition afterCalls (l : list NetCall) (s : State) : State :=
  {| calls := calls s ++ l; drawn := drawn s; tick := tick s |}.

(** The decimals [getTokenDecimals] answers for a mint. *)
Definition decimalsOf (W : World) (mint : string) : Z :=
  if isPublicKey W mint then
    match getParsedAccountInfo W mint with
    | Ok (Some d) => d
    | _ => 6%Z
    end
  else 6%Z.

(** The calls [getTokenDecimals] makes for a mint. *)
Definition decimalsCalls (W : World) (mint : string) : list NetCall :=
  if isPublicKey W mint then [GetParsedAccountInfo mint] else [].

(** The change of the balance of the wallet in the transaction the node
    answers for a signature, in SOL; 0 when it cannot be read. *)
Definition walletDelta (W : World) (ex : Executor) (signature : string)
  : float :=
  match getTransaction W signature with
  | Ok (Some t) =>
      match Rpc.meta t with
      | Some {| Rpc.preBalances := Some pre; Rpc.postBalances := Some post |} =>
          PumpPortalExecutor.solDeltaOf (walletPubkey ex) t pre post
      | _ => 0
      end
  | _ => 0
  end.

(** The poll [i] of a signature shows it confirmed or finalized. *)
Definition confirmedAt (W : World) (signature : string) (i : nat) : bool :=
  match getSignatureStatus W signature i with
  | Ok (Some st) => PumpPortalExecutor.isConfirmed st
  | _ => false
  end.

(** The amount is one the quote accepts: a number above zero. *)
Definition validAmount (uiTokenAmount : float) : bool :=
  JS.truthy uiTokenAmount && negb (uiTokenAmount <=? 0).

(** Every step of a live swap up to the sending went through: the
    amount is valid and gives the base units, Jupiter quoted them with
    an [outAmount] and answered the swap request with a transaction
    that deserializes, and the node took the transaction under the
    signature. *)
Definition swapSent (W : World) (mint : string) (uiTokenAmount : float)
  (slippageBps : float) (units : Z) (response : QuoteResponse) (out : Z)
  (unsigned : list Byte.byte) (sent : string) : Prop :=
  validAmount uiTokenAmount = true /\
  JS.floor (uiTokenAmount * power10 W (decimalsOf W mint)) = Some units /\
  getQuote W mint units slippageBps = Ok (Some response) /\
  outAmount response = Some out /\
  postSwap W response = Ok (Some {| swapTransaction := Some unsigned |}) /\
  deserializes W unsigned = true /\
  sendTransaction W unsigned = Ok sent.

End JupiterExecutor.

(** ** jupiterPriceService.js: the swap of the price service *)

Module JupiterPriceService.
Local Open Scope float_scope.
Local Open Scope eff_scope.

(** The body of Jupiter's quote: [outAmount] is the integer the field
    spells, [None] when the field is missing or empty. *)
Record QuoteResponse := {
  outAmount : option Z;
  priceImpact : option float
}.

(** The body of Jupiter's swap answer: the transaction that
    [swapTransaction] encodes, [None] when the field is missing or
    empty. *)
Record SwapData := { swapTransaction : option (list Byte.byte) }.

(** The requests: the quote of an amount ([None] for an amount that is
    not finite), the swap of a quote, and the transaction. *)
Inductive NetCall :=
| FetchQuote (inputMint : string) (amount : option Z) (slippageBps : float)
| FetchSwap (quoteResponse : QuoteResponse)
| SendTransaction (unsigned : list Byte.byte).

Record World := {
  (** the body of the answer at the i-th attempt of [fetchWithRetry]
      ([None]: the body [null]); [Throw] for a network error, a status
      that is not ok or an unreadable body *)
  fetchQuote : string -> option Z -> float -> nat
               -> outcome (option QuoteResponse);
  fetchSwap : QuoteResponse -> nat -> outcome (option SwapData);
  deserializes : list Byte.byte -> bool;
  sendTransaction : list Byte.byte -> outcome string
}.

Record State := { calls : list NetCall }.

Definition call {A} (c : NetCall) (answer : outcome A) : Eff State A :=
  fun s => (answer, {| calls := calls s ++ [c] |}).

(** [fetchWithRetry(url, options)] from attempt [i] on, with [remaining]
    attempts left: the last failure is rethrown. *)
Fixpoint fetchWithRetry {A} (c : NetCall) (answer : nat -> outcome (option A))
  (remaining i : nat) : Eff State (option A) :=
  match remaining with
  | O => ret None
  | S rest =>
      try_catch (call c (answer i))
        (fun err => if (rest =? 0)%nat then throw err
                    else fetchWithRetry c answer rest (S i))
  end.

(** The object [swapToken] returns; a property an object literal leaves
    out is [None]. *)
Record SwapResult := {
  success : bool;
  signature : option string;
  solReceived : option float;
  expectedSOL : option float;
  result_priceImpact : option float;
  result_tokenAmount : option float;
  error : option string
}.

Definition failure (message : string) : SwapResult :=
  {| success := false; signature := None; solReceived := None;
     expectedSOL := None; result_priceImpact := None;
     result_tokenAmount := None; error := Some message |}.

(** [JupiterPriceService.swapToken(mint, tokenAmount, slippageBps)] *)
Definition swapToken (W : World) (mint : string) (tokenAmount : float)
  (slippageBps : float) : Eff State SwapResult :=
  try_catch
    (let amount := JS.floor tokenAmount in
     quoteResponse <-
       fetchWithRetry (FetchQuote mint amount slippageBps)
         (fetchQuote W mint amount slippageBps) 3 0 ;;
     match quoteResponse with
     | None => throw "Cannot read properties of null (reading 'outAmount')"
     | Some quote =>
         match outAmount quote with
         | None => throw "Jupiter quote failed"
         | Some out =>
             swapData <-
               fetchWithRetry (FetchSwap quote) (fetchSwap W quote) 3 0 ;;
             match swapData with
             | None =>
                 throw "Cannot read properties of null (reading 'swapTransaction')"
             | Some data =>
                 match swapTransaction data with
                 | None => throw "Jupiter swap API returned no transaction"
                 | Some swapTxBuf =>
                     if negb (deserializes W swapTxBuf)
                     then throw "Failed to deserialize transaction" else
                     sig <- call (SendTransaction swapTxBuf)
                                 (sendTransaction W swapTxBuf) ;;
                     ret {| success := true; signature := Some sig;
                            solReceived := Some (JS.ofZ out / 1e9);
                            expectedSOL := Some (JS.ofZ out / 1e9);
                            result_priceImpact := priceImpact quote;
                            result_tokenAmount := Some tokenAmount;
                            error := None |}
                 end
             end
         end
     end)
    (fun message => ret (failure message)).

(** *** Vocabulary of the properties *)

Definition afterCalls (l : list NetCall) (s : State) : State :=
  {| calls := calls s ++ l |}.

(** [fetchWithRetry] ends at its k-th attempt with the answer [a]: the
    attempts before failed, and the k-th is the first to answer. *)
Definition answeredAt {A} (answer : nat -> outcome (option A)) (k : nat)
  (a : option A) : Prop :=
  (1 <= k <= 3)%nat /\
  (forall j, (j < k - 1)%nat -> exists e, answer j = Throw e) /\
  answer (k - 1)%nat = Ok a.

(** Every step of the swap went through: the quote answered with an
    [outAmount] at its k-th attempt, the swap request with a transaction
    that deserializes at its j-th, and the node took the transaction
    under the signature. *)
Definition swapSent (W : World) (mint : string) (tokenAmount : float)
  (slippageBps : float) (k j : nat) (quote : QuoteResponse) (out : Z)
  (unsigned : list Byte.byte) (sent : string) : Prop :=
  answeredAt (fetchQuote W mint (JS.floor tokenAmount) slippageBps) k
    (Some quote) /\
  outAmount quote = Some out /\
  answeredAt (fetchSwap W quote) j
    (Some {| swapTransaction := Some unsigned |}) /\
  deserializes W unsigned = true /\
  sendTransaction W unsigned = Ok sent.

End JupiterPriceService.

(** ** server.js: the cleanup endpoint *)

Module Server.
Local Open Scope eff_scope.

Inductive Command :=
| SMEMBERS
| HGETALL (key : string)
| SREM (member : string)
| SCARD.

(** Whether the connection object exists, and the store commands that are
    rejected. *)
Record World := {
  connected : bool;
  failing : Command -> bool
}.

(** The set [open_positions] and the hashes of the store. *)
Record Store := {
  open_positions : gset string;
  hashes : gmap string (gmap string string)
}.

(** What the endpoint answers: [{ success: true, cleaned, remaining }],
    [{ error: 'Redis not available' }], or the status 500 with the
    message of the error. *)
Inductive Response :=
| Cleaned (cleaned remaining : Z)
| NotAvailable
| ServerError (message : string).

Definition command {A} (W : World) (c : Command) (run : Store -> A * Store)
  : Eff Store A :=
  fun s =>
    if failing W c then (Throw "Connection is closed.", s)
    else (Ok (fst (run s)), snd (run s)).

(** [redis.smembers('open_positions')] *)
Definition smembers (W : World) : Eff Store (list string) :=
  command W SMEMBERS (fun s => (elements (open_positions s), s)).

(** [redis.hgetall(key)]: the empty object for a key that is absent *)
Definition hgetall (W : World) (key : string) : Eff Store (gmap string string) :=
  command W (HGETALL key) (fun s => (default ∅ (hashes s !! key), s)).

(** [redis.srem('open_positions', member)] *)
Definition srem (W : World) (member : string) : Eff Store unit :=
  command W (SREM member)
    (fun s => (tt, {| open_positions := open_positions s ∖ {[member]};
                      hashes := hashes s |})).

(** [redis.scard('open_positions')] *)
Definition scard (W : World) : Eff Store Z :=
  command W SCARD (fun s => (Z.of_nat (size (open_positions s)), s)).

(** [!position || Object.keys(position).length === 0 ||
     position.status === 'closed'] *)
Definition stale (position : gmap string string) : bool :=
  (size position =? 0)%nat
  || bool_decide (position !! "status"%string = Some "closed"%string).

(** The loop over the members, with the count so far. *)
Fixpoint cleanLoop (W : World) (mints : list string) (cleaned : Z)
  : Eff Store Z :=
  match mints with
  | [] => ret cleaned
  | mint :: rest =>
      position <- hgetall W ("position:" ++ mint) ;;
      if stale position
      then srem W mint ;;; cleanLoop W rest (cleaned + 1)%Z
      else cleanLoop W rest cleaned
  end.

(** The handler of [POST /cleanup] *)
Definition cleanup (W : World) : Eff Store Response :=
  try_catch
    (if negb (connected W) then ret NotAvailable else
     openPositions <- smembers W ;;
     cleaned <- cleanLoop W openPositions 0%Z ;;
     remaining <- scard W ;;
     ret (Cleaned cleaned remaining))
    (fun message => ret (ServerError message)).

(** *** Vocabulary of the properties *)

(** The hash of the position of a mint, empty when there is none. *)
Definition positionOf (s : Store) (mint : string) : gmap string string :=
  default ∅ (hashes s !! ("position:" ++ mint)%string).

End Server.

(** ** The realized PnL of the specification, over exact rationals *)

Module PnLReference.
Local Open Scope Q_scope.

(** The percentage the specification describes: the gross proceeds,
    less the venue's fee, then less slippage, then less the fixed
    network and priority fees, against the currency spent. *)
Definition pnlPercent
  (quantity exitPrice currencySpent venueFee slippage fixedFee priorityFee : Q)
  : Q :=
  let gross := quantity * exitPrice in
  let afterFee := gross - gross * venueFee in
  let afterSlippage := afterFee - afterFee * slippage in
  let netReceived := afterSlippage - (fixedFee + priorityFee) in
  (netReceived - currencySpent) / currencySpent * 100.

(** The number of hundredths nearest to a non-negative rational, the
    larger one on a tie. *)
Definition hundredths (q : Q) : Z := Qfloor (q * 100 + (1 # 2)).

End PnLReference.

(** ** Inputs of the examples *)

Module Examples.
Local Open Scope float_scope.

(** The round trip of the specification: bought at 0.0001, sold at
    0.00015, a million tokens for 100 of currency, on the default
    (PumpPortal) venue, with no slippage and no priority fee. *)
Definition roundTrip : PnLCalculator.Trade :=
  {| PnLCalculator.entryPrice := Some 0.0001;
     PnLCalculator.exitPrice := Some 0.00015;
     PnLCalculator.tokenAmount := Some 1000000;
     PnLCalculator.solSpent := Some 100;
     PnLCalculator.executor := None;
     PnLCalculator.slippage := Some 0;
     PnLCalculator.networkFee := None;
     PnLCalculator.priorityFee := Some 0 |}.

(** The same round trip for the earlier calculator, the caller passing
    the 1.75% fee of each side. *)
Definition basicRoundTrip : PnLCalculatorBasic.Trade :=
  {| PnLCalculatorBasic.entryPrice := Some 0.0001;
     PnLCalculatorBasic.exitPrice := Some 0.00015;
     PnLCalculatorBasic.tokenAmount := Some 1000000;
     PnLCalculatorBasic.solSpent := Some 100;
     PnLCalculatorBasic.fees :=
       Some {| PnLCalculatorBasic.buyFee := Some 0.0175;
               PnLCalculatorBasic.sellFee := Some 0.0175 |} |}.

(** The round trip with a network fee below zero. *)
Definition refundedRoundTrip : PnLCalculator.Trade :=
  {| PnLCalculator.entryPrice := Some 0.0001;
     PnLCalculator.exitPrice := Some 0.00015;
     PnLCalculator.tokenAmount := Some 1000000;
     PnLCalculator.solSpent := Some 100;
     PnLCalculator.executor := None;
     PnLCalculator.slippage := Some 0;
     PnLCalculator.networkFee := Some (-1);
     PnLCalculator.priorityFee := Some 0 |}.

(** The bytes of an unsigned integer, least significant first. *)
Fixpoint encodeLE (width : nat) (n : Z) : list Byte.byte :=
  match width with
  | O => []
  | S rest =>
      default Byte.x00 (Byte.of_N (Z.to_N (n mod 256)))
      :: encodeLE rest (n / 256)
  end.

(** A bonding-curve account with a million tokens (6 decimals) against
    30 SOL of virtual reserves, and the given completion byte. *)
Definition curveAccount (complete : Byte.byte) : list Byte.byte :=
  PumpPriceReaderRaw.BONDING_CURVE_DISCRIMINATOR
  ++ encodeLE 8 1000000000000
  ++ encodeLE 8 30000000000
  ++ encodeLE 8 500000000000000
  ++ encodeLE 8 2000000000
  ++ encodeLE 8 1000000000000000
  ++ [complete].

(** A network on which every key is valid, the curve of a mint lives at
    the address ["curve:" ++ mint] and holds [curveAccount complete]. *)
Definition curveRpc (complete : Byte.byte) : Solana :=
  {| isPublicKey := fun _ => true;
     findBondingCurveAddress := fun m => ("curve:" ++ m)%string;
     getAccountInfo := fun _ =>
       Ok (Some {| data := Some (curveAccount complete) |}) |}.

(** A clear bonding-curve account whose virtual reserves are
    1073000000000000 tokens and 30000000014 lamports, the network that
    holds it and a world on that network. *)
Definition unevenAccount : list Byte.byte :=
  PumpPriceReaderRaw.BONDING_CURVE_DISCRIMINATOR
  ++ encodeLE 8 1073000000000000
  ++ encodeLE 8 30000000014
  ++ encodeLE 8 500000000000000
  ++ encodeLE 8 2000000000
  ++ encodeLE 8 1000000000000000
  ++ [Byte.x00].

Definition unevenRpc : Solana :=
  {| isPublicKey := fun _ => true;
     findBondingCurveAddress := fun m => ("curve:" ++ m)%string;
     getAccountInfo := fun _ => Ok (Some {| data := Some unevenAccount |}) |}.

(** Nothing cached, nothing failed, nothing called yet. *)
Definition emptyState : PriceService.State :=
  {| PriceService.priceCache := ∅; PriceService.failedAttempts := ∅;
     PriceService.jupiterCache := ∅; PriceService.calls := [];
     PriceService.tick := 0 |}.

(** A world whose bonding curves hold [curveAccount complete], where
    Jupiter and DexScreener cannot be reached, and whose clock advances
    by a second at each reading. *)
Definition curveWorld (complete : Byte.byte) : PriceService.World :=
  {| PriceService.rpc := curveRpc complete;
     PriceService.clock := fun n => (1000 * Z.of_nat n)%Z;
     PriceService.jupiterQuote := fun _ _ => Throw "fetch failed";
     PriceService.dexScreener := fun _ => Throw "fetch failed";
     PriceService.sortHead := fun _ => 0%nat |}.

(** The world of [unevenRpc], Jupiter and DexScreener out of reach. *)
Definition unevenWorld : PriceService.World :=
  {| PriceService.rpc := unevenRpc;
     PriceService.clock := fun n => (1000 * Z.of_nat n)%Z;
     PriceService.jupiterQuote := fun _ _ => Throw "fetch failed";
     PriceService.dexScreener := fun _ => Throw "fetch failed";
     PriceService.sortHead := fun _ => 0%nat |}.

(** The same world once the curve account is gone too. *)
Definition deadWorld : PriceService.World :=
  {| PriceService.rpc :=
       {| isPublicKey := fun _ => true;
          findBondingCurveAddress := fun m => ("curve:" ++ m)%string;
          getAccountInfo := fun _ => Ok None |};
     PriceService.clock := fun n => (5000 + 1000 * Z.of_nat n)%Z;
     PriceService.jupiterQuote := fun _ _ => Throw "fetch failed";
     PriceService.dexScreener := fun _ => Throw "fetch failed";
     PriceService.sortHead := fun _ => 0%nat |}.

(** The state after one resolution of ["Mint"] on the live curve
    followed by [n] resolutions in the dead world. *)
Fixpoint afterFailures (n : nat) : PriceService.State :=
  match n with
  | O => snd (PriceService.getPrice (curveWorld Byte.x00) "Mint" false emptyState)
  | S k => snd (PriceService.getPrice deadWorld "Mint" false (afterFailures k))
  end.

(** The state after [n] resolutions of ["Mint"] in the dead world, from
    the empty state. *)
Fixpoint afterMisses (n : nat) : PriceService.State :=
  match n with
  | O => emptyState
  | S k => snd (PriceService.getPrice deadWorld "Mint" false (afterMisses k))
  end.

(** A position bought at 100 that has reached 150. *)
Definition risen : CopyStrategy.Position :=
  {| CopyStrategy.pos_mint := "Mint"; CopyStrategy.walletSource := Some "Wallet"%string;
     CopyStrategy.entryPrice := 100; CopyStrategy.maxPrice := Some 150;
     CopyStrategy.entryTime := Some 0%Z |}.

(** A store with that position open and no history. *)
Definition openStore : CopyStrategy.Store :=
  {| CopyStrategy.open_positions := {["Mint"%string]};
     CopyStrategy.positions := {["Mint"%string := risen]};
     CopyStrategy.trades := ∅; CopyStrategy.copy_cooldown := ∅;
     CopyStrategy.sellers := ∅ |}.

(** A store without open position whose list of today holds one trade
    of ["Mint"] from ["Wallet"], closed at the given time. *)
Definition closedStore (closedAt : Z) : CopyStrategy.Store :=
  {| CopyStrategy.open_positions := ∅;
     CopyStrategy.positions := ∅;
     CopyStrategy.trades :=
       {["2026-01-01"%string :=
           [Some {| CopyStrategy.trade_mint := Some "Mint"%string;
                    CopyStrategy.trade_walletSource := Some "Wallet"%string;
                    CopyStrategy.closedAt := Some closedAt |}]]};
     CopyStrategy.copy_cooldown := ∅;
     CopyStrategy.sellers := ∅ |}.

Definition online (st : CopyStrategy.Store) : CopyStrategy.Redis :=
  {| CopyStrategy.store := st; CopyStrategy.failing := fun _ => false |}.




(** Ten minutes past midnight on the first of January; the days before
    are named by their distance. *)
Definition newYear : CopyStrategy.Clock :=
  {| CopyStrategy.now := 600000;
     CopyStrategy.dateKey := fun i =>
       match i with
       | 0 => "2026-01-01" | 1 => "2025-12-31" | 2 => "2025-12-30"
       | 3 => "2025-12-29" | 4 => "2025-12-28" | 5 => "2025-12-27"
       | 6 => "2025-12-26" | 7 => "2025-12-25" | _ => "2025-12-24"
       end%nat%string |}.

(** A signal to buy ["Mint"], seen from ["Wallet"], with the given
    number of corroborating wallets. *)
Definition signal (upvotes : Z) : CopyStrategy.CopySignal :=
  {| CopyStrategy.mint := "Mint"; CopyStrategy.copyAmount := Some 0.1;
     CopyStrategy.upvotes := upvotes; CopyStrategy.buyers := [];
     CopyStrategy.walletAddress := Some "Wallet"%string |}.

Definition paper : CopyStrategy.Env :=
  {| CopyStrategy.dryRun := true; CopyStrategy.maxPositions := 2 |}.

Definition live : CopyStrategy.Env :=
  {| CopyStrategy.dryRun := false; CopyStrategy.maxPositions := 2 |}.

(** The default configuration with one switch changed. *)
Definition withoutTrailingStop : CopyStrategy.Config :=
  {| CopyStrategy.minWalletsToBuy := 1; CopyStrategy.minWalletsToSell := 1;
     CopyStrategy.takeProfitEnabled := true; CopyStrategy.takeProfitPercent := 25;
     CopyStrategy.trailingStopEnabled := false;
     CopyStrategy.trailingStopPercent := 12;
     CopyStrategy.stopLossEnabled := true; CopyStrategy.stopLoss := 15;
     CopyStrategy.maxHoldEnabled := false; CopyStrategy.maxHoldSeconds := 240;
     CopyStrategy.cooldownSeconds := 60;
     CopyStrategy.blockRebuys := true; CopyStrategy.rebuyWindow := 300 |}.

Definition withoutRebuyBlock : CopyStrategy.Config :=
  {| CopyStrategy.minWalletsToBuy := 1; CopyStrategy.minWalletsToSell := 1;
     CopyStrategy.takeProfitEnabled := true; CopyStrategy.takeProfitPercent := 25;
     CopyStrategy.trailingStopEnabled := true;
     CopyStrategy.trailingStopPercent := 12;
     CopyStrategy.stopLossEnabled := true; CopyStrategy.stopLoss := 15;
     CopyStrategy.maxHoldEnabled := false; CopyStrategy.maxHoldSeconds := 240;
     CopyStrategy.cooldownSeconds := 60;
     CopyStrategy.blockRebuys := false; CopyStrategy.rebuyWindow := 300 |}.

(** Thresholds that a loss of 18% meets both: a profit target of -20%
    and a stop loss of 15%; the profit target on or off. *)
Definition contradictory (takeProfit : bool) : CopyStrategy.Config :=
  {| CopyStrategy.minWalletsToBuy := 1; CopyStrategy.minWalletsToSell := 1;
     CopyStrategy.takeProfitEnabled := takeProfit;
     CopyStrategy.takeProfitPercent := -20;
     CopyStrategy.trailingStopEnabled := true;
     CopyStrategy.trailingStopPercent := 12;
     CopyStrategy.stopLossEnabled := true; CopyStrategy.stopLoss := 15;
     CopyStrategy.maxHoldEnabled := false; CopyStrategy.maxHoldSeconds := 240;
     CopyStrategy.cooldownSeconds := 60;
     CopyStrategy.blockRebuys := true; CopyStrategy.rebuyWindow := 300 |}.

(** A position bought at 100 that never rose. *)
Definition flat : CopyStrategy.Position :=
  {| CopyStrategy.pos_mint := "Mint"; CopyStrategy.walletSource := Some "Wallet"%string;
     CopyStrategy.entryPrice := 100; CopyStrategy.maxPrice := None;
     CopyStrategy.entryTime := Some 0%Z |}.

(** Nothing called, no random value drawn, the clock not yet read. *)
Definition freshExecutor : Rpc.State :=
  {| Rpc.calls := []; Rpc.drawn := 0; Rpc.tick := 0 |}.

Definition liveExecutor : PumpPortalLightning.Executor :=
  {| PumpPortalLightning.dryRun := false;
     PumpPortalLightning.walletPubkey := "Wallet" |}.

(** The amount ["100%"] followed by a no-break space (U+00A0, the bytes
    [C2 A0]). *)
Definition percentWithBlank : string :=
  ("100%" ++ String (ascii_of_nat 194) (String (ascii_of_nat 160) EmptyString))%string.

Definition paperExecutor : PumpPortalExecutor.Executor :=
  {| PumpPortalExecutor.dryRun := true;
     PumpPortalExecutor.walletPubkey := "Wallet" |}.

(** A transaction of the wallet in which no token balance and no
    lamport balance changes. *)
Definition idleTransaction : Rpc.Transaction :=
  {| Rpc.meta :=
       Some {| Rpc.err := None;
               Rpc.preTokenBalances :=
                 Some [{| Rpc.accountIndex := 1; Rpc.uiAmount := Some 5 |}];
               Rpc.postTokenBalances :=
                 Some [{| Rpc.accountIndex := 1; Rpc.uiAmount := Some 5 |}];
               Rpc.preBalances := Some [1000000000; 2039280];
               Rpc.postBalances := Some [1000000000; 2039280] |};
     Rpc.staticAccountKeys := Some [Some "Wallet"%string; Some "Token"%string];
     Rpc.accountKeys := Some [Some "Wallet"%string; Some "Token"%string] |}.

(** A network on which the Lightning endpoint answers every order with
    the signature ["Sig"], the signature is never confirmed, and the
    node answers [getTransaction] with the given value.  The random
    values are 0 for the first 88 draws and 0.5 afterwards; the clock
    advances by a second at each reading. *)
Definition lightningWorld (found : option Rpc.Transaction) : Rpc.World :=
  {| Rpc.postTradeLocal := fun _ => Throw "connect ECONNREFUSED";
     Rpc.postTrade := fun _ =>
       Ok {| Rpc.lightning_status := 200;
             Rpc.lightning_data :=
               Some {| Rpc.data_signature := Some "Sig"%string |} |};
     Rpc.deserializes := fun _ => true;
     Rpc.sendTransaction := fun _ => Throw "connect ECONNREFUSED";
     Rpc.getSignatureStatus := fun _ _ => Ok None;
     Rpc.getTransaction := fun _ => Ok found;
     Rpc.random := fun i => if (i <? 88)%nat then 0 else 0.5;
     Rpc.clock := fun n => (1000 * Z.of_nat n)%Z;
     Rpc.toNumber := fun _ => nan |}.

(** The string of [n] copies of a character. *)
Fixpoint copies (n : nat) (c : ascii) : string :=
  match n with
  | O => EmptyString
  | S k => String c (copies k c)
  end.

End Examples.

(** ** Further inputs of the examples *)

Module Scenarios.
Local Open Scope float_scope.

(** An open position of a million tokens bought at 0.0001 for 100 SOL,
    its fields held as numbers. *)
Definition heldPosition : PnLCalculator.OpenPosition :=
  {| PnLCalculator.pos_entryPrice := JS.VNumber 0.0001;
     PnLCalculator.pos_solAmount := JS.VNumber 100;
     PnLCalculator.pos_solSpent := JS.VUndefined;
     PnLCalculator.pos_tokensAmount := JS.VNumber 1000000;
     PnLCalculator.pos_tokenAmount := JS.VUndefined;
     PnLCalculator.pos_entryTime := JS.VNumber 0 |}.

(** No option given: PumpPortal, 2% of slippage, the base network fee. *)
Definition defaultOptions : PnLCalculator.UnrealizedOptions :=
  {| PnLCalculator.opt_executor := None;
     PnLCalculator.opt_estimatedSlippage := None;
     PnLCalculator.opt_networkFee := None;
     PnLCalculator.opt_priorityFee := None |}.

(** A network whose curve accounts hold only the first [n] bytes of the
    account of the examples. *)
Definition truncatedRpc (n : nat) : Solana :=
  {| isPublicKey := fun _ => true;
     findBondingCurveAddress := fun m => ("curve:" ++ m)%string;
     getAccountInfo := fun _ =>
       Ok (Some {| data := Some (take n (Examples.curveAccount Byte.x00)) |}) |}.

(** A world without curve accounts in which Jupiter and DexScreener
    cannot be reached; the clock reads 3 seconds plus an hour at each
    reading. *)
Definition slowWorld : PriceService.World :=
  {| PriceService.rpc :=
       {| isPublicKey := fun _ => true;
          findBondingCurveAddress := fun m => ("curve:" ++ m)%string;
          getAccountInfo := fun _ => Ok None |};
     PriceService.clock := fun n => (3000 + 3600000 * Z.of_nat n)%Z;
     PriceService.jupiterQuote := fun _ _ => Throw "fetch failed";
     PriceService.dexScreener := fun _ => Throw "fetch failed";
     PriceService.sortHead := fun _ => 0%nat |}.

(** The state of a service whose Jupiter cache holds the price 0.5 of
    ["Mint"], read at time 0, and nothing else. *)
Definition jupiterCached : PriceService.State :=
  {| PriceService.priceCache := ∅; PriceService.failedAttempts := ∅;
     PriceService.jupiterCache :=
       {["Mint"%string := {| PriceService.cachedPrice := 0.5;
                             PriceService.timestamp := 0 |}]};
     PriceService.calls := []; PriceService.tick := 0 |}.

(** A world like [slowWorld] in which DexScreener lists two pairs of
    every mint: one with a liquidity of 1000 and the native price 0.001,
    one with a liquidity of 5000 and the native price 0.002. *)
Definition listedWorld : PriceService.World :=
  {| PriceService.rpc := PriceService.rpc slowWorld;
     PriceService.clock := PriceService.clock slowWorld;
     PriceService.jupiterQuote := fun _ _ => Throw "fetch failed";
     PriceService.dexScreener := fun _ =>
       Ok {| PriceService.ok := true; PriceService.status := 200;
             PriceService.pairs :=
               Ok (Some [ {| PriceService.liquidityUsd := Some 1000;
                             PriceService.priceNative := Some 0.001;
                             PriceService.priceUsd := Some 0.2 |};
                          {| PriceService.liquidityUsd := Some 5000;
                             PriceService.priceNative := Some 0.002;
                             PriceService.priceUsd := Some 0.4 |} ]) |};
     PriceService.sortHead := fun _ => 0%nat |}.

(** A store that holds nothing. *)
Definition idleStore : CopyStrategy.Store :=
  {| CopyStrategy.open_positions := ∅; CopyStrategy.positions := ∅;
     CopyStrategy.trades := ∅; CopyStrategy.copy_cooldown := ∅;
     CopyStrategy.sellers := ∅ |}.

(** A handler whose price service is the one of the repository, on a
    store that answers every command; a chat is configured. *)
Definition shippedHandler : GraduationHandler.World :=
  {| GraduationHandler.service := GraduationHandler.getPriceService;
     GraduationHandler.failing := fun _ => false;
     GraduationHandler.parseFloat := fun _ => 0.0001;
     GraduationHandler.numberToString := fun _ => "0.0001"%string;
     GraduationHandler.clock := fun n => (1000 * Z.of_nat n)%Z;
     GraduationHandler.telegramChat := true;
     GraduationHandler.sendTelegramAlert := fun _ => Ok tt |}.

(** A store with one open position of the copy strategy, bought on
    Pump.fun and not marked. *)
Definition copyPositionStore : GraduationHandler.State :=
  {| GraduationHandler.open_positions := ["Mint"%string];
     GraduationHandler.hashes :=
       {["position:Mint"%string :=
           {["strategy"%string := "copy"%string;
             "executedDex"%string := "Pump.fun"%string;
             "entryPrice"%string := "0.0001"%string]}]};
     GraduationHandler.events := [];
     GraduationHandler.asked := 0;
     GraduationHandler.tick := 0 |}.

Definition liveJupiter : JupiterExecutor.Executor :=
  {| JupiterExecutor.dryRun := false;
     JupiterExecutor.walletPubkey := "Wallet" |}.

(** A transaction of the wallet that pays the fee of a swap which brings
    nothing: the balance goes from 1 SOL to 0.999995 SOL. *)
Definition feeOnlyTransaction : Rpc.Transaction :=
  {| Rpc.meta :=
       Some {| Rpc.err := None;
               Rpc.preTokenBalances := None;
               Rpc.postTokenBalances := None;
               Rpc.preBalances := Some [1000000000; 0];
               Rpc.postBalances := Some [999995000; 0] |};
     Rpc.staticAccountKeys := Some [Some "Wallet"%string; Some "Token"%string];
     Rpc.accountKeys := None |}.

(** A network on which mints have 6 decimals, Jupiter quotes every
    amount at 0.5 SOL and answers the swap request with a transaction of
    one byte, the node takes it under the signature ["Sig"], never
    shows it confirmed, and answers [getTransaction] with
    [feeOnlyTransaction]. *)
Definition jupiterWorld : JupiterExecutor.World :=
  {| JupiterExecutor.isPublicKey := fun _ => true;
     JupiterExecutor.getParsedAccountInfo := fun _ => Ok (Some 6%Z);
     JupiterExecutor.power10 := fun d => JS.ofZ (10 ^ d);
     JupiterExecutor.getQuote := fun _ _ _ =>
       Ok (Some {| JupiterExecutor.outAmount := Some 500000000%Z |});
     JupiterExecutor.postSwap := fun _ =>
       Ok (Some {| JupiterExecutor.swapTransaction := Some [Byte.x01] |});
     JupiterExecutor.deserializes := fun _ => true;
     JupiterExecutor.sendTransaction := fun _ => Ok "Sig"%string;
     JupiterExecutor.getSignatureStatus := fun _ _ => Ok None;
     JupiterExecutor.getTransaction := fun _ => Ok (Some feeOnlyTransaction);
     JupiterExecutor.random := fun _ => 0;
     JupiterExecutor.clock := fun n => (1000 * Z.of_nat n)%Z |}.

Definition freshJupiter : JupiterExecutor.State :=
  {| JupiterExecutor.calls := []; JupiterExecutor.drawn := 0;
     JupiterExecutor.tick := 0 |}.

(** A network on which Jupiter fails the first quote request, then
    quotes 0.5 SOL, answers the swap request with a transaction of one
    byte, and the node takes it under the signature ["Sig"]. *)
Definition retryWorld : JupiterPriceService.World :=
  {| JupiterPriceService.fetchQuote := fun _ _ _ i =>
       match i with
       | O => Throw "HTTP 429: Too Many Requests"
       | _ => Ok (Some {| JupiterPriceService.outAmount := Some 500000000%Z;
                          JupiterPriceService.priceImpact := None |})
       end;
     JupiterPriceService.fetchSwap := fun _ _ =>
       Ok (Some {| JupiterPriceService.swapTransaction := Some [Byte.x01] |});
     JupiterPriceService.deserializes := fun _ => true;
     JupiterPriceService.sendTransaction := fun _ => Ok "Sig"%string |}.

(** A position that has reached 150 and whose entry price does not
    spell a number. *)
Definition unpriced : CopyStrategy.Position :=
  {| CopyStrategy.pos_mint := "Mint";
     CopyStrategy.walletSource := Some "Wallet"%string;
     CopyStrategy.entryPrice := nan; CopyStrategy.maxPrice := Some 150;
     CopyStrategy.entryTime := Some 0%Z |}.

Definition liveLocal : PumpPortalExecutor.Executor :=
  {| PumpPortalExecutor.dryRun := false;
     PumpPortalExecutor.walletPubkey := "Wallet" |}.

(** A transaction of the wallet that pays a tenth of a SOL and brings
    1000 tokens into a token account that did not exist before. *)
Definition boughtTransaction : Rpc.Transaction :=
  {| Rpc.meta :=
       Some {| Rpc.err := None;
               Rpc.preTokenBalances := Some [];
               Rpc.postTokenBalances :=
                 Some [{| Rpc.accountIndex := 1; Rpc.uiAmount := Some 1000 |}];
               Rpc.preBalances := Some [1000000000; 0];
               Rpc.postBalances := Some [900000000; 2039280] |};
     Rpc.staticAccountKeys := Some [Some "Wallet"%string; Some "Token"%string];
     Rpc.accountKeys := None |}.

(** A network on which the Local endpoint answers every order with an
    unsigned transaction of one byte, the node accepts it under the
    signature ["Sig"], shows it confirmed at the third poll, and answers
    [getTransaction] with [boughtTransaction]. *)
Definition localWorld : Rpc.World :=
  {| Rpc.postTradeLocal := fun _ =>
       Ok {| Rpc.status := 200; Rpc.body := Some [Byte.x01] |};
     Rpc.postTrade := fun _ => Throw "connect ECONNREFUSED";
     Rpc.deserializes := fun _ => true;
     Rpc.sendTransaction := fun _ => Ok "Sig"%string;
     Rpc.getSignatureStatus := fun _ i =>
       if (i <? 2)%nat then Ok None
       else Ok (Some {| Rpc.status_err := None;
                        Rpc.confirmationStatus := Some "confirmed"%string |});
     Rpc.getTransaction := fun _ => Ok (Some boughtTransaction);
     Rpc.random := fun _ => 0;
     Rpc.clock := fun n => (1000 * Z.of_nat n)%Z;
     Rpc.toNumber := fun _ => nan |}.

End Scenarios.

(** * Properties *)

Example ofZ_30 : JS.ofZ 30 = 30%float.
Proof. reflexivity. Qed.

Example ofRatio_4737 : JS.ofRatio 4737 100 = 47.37%float.
Proof. reflexivity. Qed.

Example toFixed_half_up : JS.toFixed 2 47.375%float = 47.38%float.
Proof. reflexivity. Qed.

Example toFixed_negative : JS.toFixed 2 (-1.005)%float = (-1)%float.
Proof. reflexivity. Qed.

Example toFixed_tiny_negative :
  Prim2SF (JS.toFixed 2 (-0.001)%float) = S754_zero true.
Proof. reflexivity. Qed.


(** ** The bonding-curve reader *)

Section RawReader.
Import PumpPriceReaderRaw.
Local Open Scope float_scope.

Lemma readBigUInt64LE_in_range (bytes : list Byte.byte) (offset : nat) :
  (offset + 8 <= length bytes)%nat ->
  exists v, Buffer.readBigUInt64LE bytes offset = Ok v.
Proof.
  intros Hlen. unfold Buffer.readBigUInt64LE.
  assert (length (take 8 (drop offset bytes)) = 8%nat) as ->.
  { rewrite length_take, length_drop. lia. }
  eauto.
Qed.

Lemma readUInt8_length (bytes : list Byte.byte) (offset : nat) (v : Z) :
  Buffer.readUInt8 bytes offset = Ok v -> (offset < length bytes)%nat.
Proof.
  unfold Buffer.readUInt8. destruct (bytes !! offset) eqn:H; [| discriminate].
  intros _. eapply lookup_lt_Some; eauto.
Qed.

Lemma getPrice_body_fields rpc mintStr bytes vt vs rt flag :
  isPublicKey rpc mintStr = true ->
  getAccountInfo rpc (findBondingCurveAddress rpc mintStr)
    = Ok (Some {| data := Some bytes |}) ->
  CurveFields bytes vt vs rt flag ->
  exists rs ts,
    getPrice_body rpc mintStr =
    let reserves :=
      {| virtualTokenReserves := vt; virtualSolReserves := vs;
         realTokenReserves := rt; realSolReserves := rs;
         tokenTotalSupply := ts |} in
    let curveAddress := findBondingCurveAddress rpc mintStr in
    if negb (flag =? 0)%Z then
      Ok (Some {| price := None; bondingProgress := 1; graduated := true;
                  curveAddress := curveAddress; reserves := reserves |})
    else if (vt <=? 0)%Z || (vs <=? 0)%Z
    then Throw "Invalid reserves (zero or negative)"
    else
      let price := JS.ofZ (vs * TOKEN_DECIMALS) / JS.ofZ (vt * SOL_DECIMALS) in
      if negb (is_finite price) || (price <=? 0) then Throw "Invalid price"
      else
        Ok (Some {| price := Some price;
                    bondingProgress :=
                      (if (rt <? INITIAL_REAL_TOKEN_RESERVES)%Z then
                         1 - JS.ofZ (rt * 10000 / INITIAL_REAL_TOKEN_RESERVES)
                             / 10000
                       else 0);
                    graduated := false; curveAddress := curveAddress;
                    reserves := reserves |}).
Proof.
  intros Hkey Hacc [Hdisc Hvt Hvs Hrt Hflag].
  pose proof (readUInt8_length _ _ _ Hflag) as Hlen.
  destruct (readBigUInt64LE_in_range bytes 32 ltac:(lia)) as [rs Hrs].
  destruct (readBigUInt64LE_in_range bytes 40 ltac:(lia)) as [ts Hts].
  exists rs, ts. unfold getPrice_body.
  rewrite Hkey. cbn [negb]. rewrite Hacc. cbn [obind].
  rewrite Hdisc. cbn [negb].
  unfold VIRTUAL_TOKEN_RESERVES, VIRTUAL_SOL_RESERVES, REAL_TOKEN_RESERVES,
    REAL_SOL_RESERVES, TOKEN_TOTAL_SUPPLY, COMPLETE.
  rewrite Hvt, Hvs, Hrt, Hrs, Hts, Hflag. cbn [obind].
  reflexivity.
Qed.

End RawReader.

(** ** The price resolver *)

Section Resolver.
Import PriceService.
Local Open Scope Z_scope.

Lemma onlyCalls_refl s : onlyCalls s s [].
Proof. unfold onlyCalls. rewrite app_nil_r. auto. Qed.

Lemma onlyCalls_trans s1 s2 s3 l1 l2 :
  onlyCalls s1 s2 l1 -> onlyCalls s2 s3 l2 -> onlyCalls s1 s3 (l1 ++ l2).
Proof.
  unfold onlyCalls. intros (Hc1 & Hf1 & Hl1) (Hc2 & Hf2 & Hl2).
  rewrite Hc2, Hc1, Hf2, Hf1, Hl2, Hl1, app_assoc. auto.
Qed.

Lemma onlyCalls_logCall c s : onlyCalls s (logCall c s) [c].
Proof. unfold onlyCalls, logCall. cbn. auto. Qed.

Lemma onlyCalls_nextTick s : onlyCalls s (nextTick s) [].
Proof. unfold onlyCalls, nextTick. cbn. rewrite app_nil_r. auto. Qed.

Lemma onlyCalls_set_jupiterCache f s : onlyCalls s (set_jupiterCache f s) [].
Proof. unfold onlyCalls, set_jupiterCache. cbn. rewrite app_nil_r. auto. Qed.

Lemma fetchWithRetry_onlyCalls W mint remaining :
  forall i s r s',
    fetchWithRetry W mint (S remaining) i s = (r, s') ->
    exists added, onlyCalls s s' (JupiterQuote mint :: added).
Proof.
  induction remaining as [| rest IH]; intros i s r s' H; cbn in H;
    unfold try_catch, call in H.
  - destruct (jupiterQuote W mint i) as [a | e];
      injection H as <- <-; eexists; apply onlyCalls_logCall.
  - destruct (jupiterQuote W mint i) as [a | e].
    + injection H as <- <-. eexists. apply onlyCalls_logCall.
    + apply IH in H as [added H]. eexists.
      apply (onlyCalls_trans _ _ _ [_] _ (onlyCalls_logCall _ s) H).
Qed.

Lemma jupiterGetPrice_onlyCalls W mint s r s' :
  jupiterGetPrice W mint true s = (r, s') ->
  (exists added, onlyCalls s s' (JupiterQuote mint :: added)) /\
  exists j, r = Ok j /\
    (jup_source j = Some "jupiter"%string
     \/ jup_source j = Some "cache-fallback"%string
     \/ jup_price j = None).
Proof.
  unfold jupiterGetPrice, try_catch, bind, now_ms, get, modify, ret, throw.
  intros H.
  destruct (fetchWithRetry W mint 3 0 (nextTick s)) as [[[amount |] | e] s1] eqn:Hfetch;
    apply fetchWithRetry_onlyCalls in Hfetch as [added Hfetch];
    pose proof (onlyCalls_trans _ _ _ _ _ (onlyCalls_nextTick s) Hfetch) as Hs1;
    cbn [app] in Hs1.
  - injection H as <- <-. split.
    + eexists.
      pose proof (onlyCalls_trans _ _ _ _ _ Hs1
                    (onlyCalls_set_jupiterCache
                       (insert mint {| cachedPrice := (JS.ofZ amount / 1000000)%float;
                                       timestamp := clock W (tick s) |}) s1)) as Hs2.
      rewrite app_nil_r in Hs2. exact Hs2.
    + eexists. split; [reflexivity |]. cbn. auto.
  - destruct (jupiterCache s1 !! mint); injection H as <- <-;
      (split; [eauto | eexists; split; [reflexivity | cbn; auto]]).
  - destruct (jupiterCache s1 !! mint); injection H as <- <-;
      (split; [eauto | eexists; split; [reflexivity | cbn; auto]]).
Qed.

Lemma getPriceForGraduated_onlyCalls W mint s r s' :
  getPriceForGraduated W mint s = (r, s') ->
  (exists added, onlyCalls s s' (JupiterQuote mint :: added)) /\
  exists j, r = Ok j /\
    (hasPrice (jup_price j) = true ->
     jup_source j = Some "jupiter"%string
     \/ jup_source j = Some "cache-fallback"%string).
Proof.
  unfold getPriceForGraduated, try_catch, bind, ret. intros H.
  destruct (jupiterGetPrice W mint true s) as [r0 s0] eqn:Hjup.
  apply jupiterGetPrice_onlyCalls in Hjup as [Hframe (j & -> & Hsrc)].
  destruct (hasPrice (jup_price j)) eqn:Hprice; injection H as <- <-;
    (split; [exact Hframe |]); eexists; (split; [reflexivity |]); cbn.
  - intros _. destruct Hsrc as [-> | [-> | Hnone]]; cbn; auto.
    rewrite Hnone in Hprice. discriminate.
  - discriminate.
Qed.

Lemma getPumpFunPrice_onlyCalls W mint s r s' :
  getPumpFunPrice W mint s = (r, s') ->
  onlyCalls s s' [GetAccountInfo (findBondingCurveAddress (rpc W) mint)] /\
  exists p, r = Ok p.
Proof.
  unfold getPumpFunPrice, getPumpFunPrice_body, try_catch, bind, call, ret, lift.
  intros H.
  destruct (getAccountInfo (rpc W) (findBondingCurveAddress (rpc W) mint))
    as [[[[bytes |]] |] | e];
    try (injection H as <- <-; split; [apply onlyCalls_logCall | eauto]).
  match type of H with
  | match ?o with _ => _ end = _ => destruct o
  end; injection H as <- <-; (split; [apply onlyCalls_logCall | eauto]).
Qed.

Lemma getPriceFromDexScreener_onlyCalls W mint s r s' :
  getPriceFromDexScreener W mint s = (r, s') ->
  onlyCalls s s' [DexScreenerTokens mint] /\ exists p, r = Ok p.
Proof.
  unfold getPriceFromDexScreener, try_catch, bind, call, ret, lift, throw.
  intros H.
  destruct (dexScreener W mint) as [res | e];
    [| injection H as <- <-; split; [apply onlyCalls_logCall | eauto]].
  destruct (ok res); cbn [negb] in H.
  - destruct (pairs res) as [[[| first others] |] | e];
      try (injection H as <- <-; split; [apply onlyCalls_logCall | eauto]).
    destruct (negb (JS.truthy (pairPrice (bestPair W first others)))
              || negb (is_finite (pairPrice (bestPair W first others))));
      injection H as <- <-; (split; [apply onlyCalls_logCall | eauto]).
  - destruct (status res =? 404);
      injection H as <- <-; (split; [apply onlyCalls_logCall | eauto]).
Qed.

(** The ways [resolveFresh] ends: it never throws, it first reads the
    bonding curve, and it answers from the curve, from a later source,
    or with the stale cache or a quote without price. *)
Lemma resolveFresh_cases W k now s r s' :
  resolveFresh W k now s = (r, s') ->
  exists pump added q,
    fst (getPumpFunPrice W k s) = Ok pump /\
    calls s' = calls s
               ++ GetAccountInfo (findBondingCurveAddress (rpc W) k) :: added /\
    r = Ok q /\
    ((exists p, pump = Some p /\ usable pump = true /\
        q = pumpQuote k now p /\ stored k q s s')
     \/ (usable pump = false /\ In (JupiterQuote k) added /\
         exists src p, q = dexQuote k now src (Some p) /\
           (src = "jupiter" \/ src = "cache-fallback" \/ src = "dexscreener")%string /\
           JS.truthy p = true /\ stored k q s s')
     \/ (usable pump = false /\ In (JupiterQuote k) added /\ recorded k s s' /\
         ((exists c, priceCache s !! k = Some c /\ q = markStale c)
          \/ (priceCache s !! k = None /\ q = noneQuote k now)))).
Proof.
  unfold resolveFresh. unfold bind at 1. unfold try_catch at 1.
  unfold bind at 1. intros H.
  destruct (getPumpFunPrice W k s) as [rp s1] eqn:Hpump.
  pose proof Hpump as Hpump'.
  apply getPumpFunPrice_onlyCalls in Hpump' as [(Hc1 & Hf1 & Hl1) [pump ->]].
  exists pump.
  assert (usable pump = true \/ usable pump = false) as [Huse | Huse]
    by (destruct (usable pump); auto).
  - destruct pump as [p |]; [| discriminate]. rewrite Huse in H.
    cbn in H. injection H as <- <-.
    exists [], (pumpQuote k now p). cbn.
    repeat split; auto.
    left. exists p. unfold stored. cbn. rewrite Hc1, Hf1. auto.
  - assert (exists s2 added2 jup,
              onlyCalls s1 s2 (JupiterQuote k :: added2) /\
              getPriceForGraduated W k s1 = (Ok jup, s2)) as (s2 & added2 & jup & Hs2 & Hjup).
    { destruct (getPriceForGraduated W k s1) as [rj s2] eqn:Hjup.
      pose proof Hjup as Hjup'.
      apply getPriceForGraduated_onlyCalls in Hjup' as [[added2 Hs2] (j & -> & _)].
      eauto. }
    assert ((bind (getPriceForGraduated W k)
               (fun jup =>
                  if hasPrice (jup_price jup)
                  then succeed k (dexQuote k now (default "jupiter"%string (jup_source jup))
                                           (jup_price jup))
                  else bind (getPriceFromDexScreener W k)
                         (fun dex =>
                            if hasPrice dex
                            then succeed k (dexQuote k now "dexscreener" dex)
                            else bind (recordFailedAttempt W k)
                                   (fun _ => bind get
                                      (fun st =>
                                         match priceCache st !! k with
                                         | Some cached => ret (markStale cached)
                                         | None => ret (noneQuote k now)
                                         end))))) s1 = (r, s')) as H'.
    { destruct pump as [p |]; cbn in Huse |- *.
      - unfold usable in H. rewrite Huse in H. exact H.
      - exact H. }
    clear H. unfold bind at 1 in H'. rewrite Hjup in H'.
    destruct Hs2 as (Hc2 & Hf2 & Hl2).
    pose proof (getPriceForGraduated_onlyCalls _ _ _ _ _ Hjup) as [_ (j & Hj & Hsrc)].
    injection Hj as <-.
    destruct (hasPrice (jup_price jup)) eqn:Hprice.
    + cbn in H'. injection H' as <- <-.
      destruct (jup_price jup) as [pj |] eqn:Hpj; [| discriminate].
      exists (JupiterQuote k :: added2). eexists. cbn. rewrite Hl2, Hl1, <- app_assoc. cbn.
      repeat split; auto.
      right; left. split; [exact Huse |]. split; [left; reflexivity |].
      exists (default "jupiter"%string (jup_source jup)), pj.
      split; [reflexivity |].
      split; [destruct (Hsrc eq_refl) as [-> | ->]; cbn; auto |].
      split; [exact Hprice |].
      unfold stored. cbn. rewrite Hc2, Hc1, Hf2, Hf1. auto.
    + unfold bind at 1 in H'.
      destruct (getPriceFromDexScreener W k s2) as [rd s3] eqn:Hdex.
      apply getPriceFromDexScreener_onlyCalls in Hdex as [(Hc3 & Hf3 & Hl3) [dex ->]].
      destruct (hasPrice dex) eqn:Hdprice.
      * cbn in H'. injection H' as <- <-.
        destruct dex as [pd |]; [| discriminate].
        exists (JupiterQuote k :: added2 ++ [DexScreenerTokens k]). eexists. cbn.
        rewrite Hl3, Hl2, Hl1, <- !app_assoc. cbn.
        repeat split; auto.
        right; left. split; [exact Huse |]. split; [left; reflexivity |].
        exists "dexscreener"%string, pd.
        split; [reflexivity |]. split; [auto |]. split; [exact Hdprice |].
        unfold stored. cbn. rewrite Hc3, Hc2, Hc1, Hf3, Hf2, Hf1. auto.
      * cbn in H'.
        exists (JupiterQuote k :: added2 ++ [DexScreenerTokens k]).
        assert (recorded k s (set_failedAttempts
                 (insert k {| count := count (default {| count := 0; lastAttempt := 0 |}
                                                    (failedAttempts s3 !! k)) + 1;
                              lastAttempt := clock W (tick s3) |}) (nextTick s3))) as Hrec.
        { unfold recorded. cbn. rewrite Hc3, Hc2, Hc1, Hf3, Hf2, Hf1.
          split; [reflexivity | eexists; reflexivity]. }
        rewrite Hc3, Hc2, Hc1 in H'.
        destruct (priceCache s !! k) as [c |] eqn:Hcache;
          injection H' as <- <-; eexists; cbn;
          rewrite Hl3, Hl2, Hl1, <- !app_assoc; cbn;
          (repeat split; auto);
          right; right; (split; [exact Huse |]);
          (split; [left; reflexivity |]); (split; [exact Hrec |]); eauto.
Qed.

(** The ways [getPrice] ends for a valid key: in the backoff, on the
    fresh cache, or through the sources. *)
Lemma getPrice_cases W m ff s r s' :
  isPublicKey (rpc W) m = true ->
  getPrice W m ff s = (r, s') ->
  let now := clock W (tick s) in
  (ff = false /\
   (exists f, failedAttempts s !! m = Some f /\
      now - lastAttempt f <= failedAttemptsResetMs /\
      maxFailedAttempts <= count f) /\
   s' = nextTick s /\
   r = Ok (default (skippedQuote m now) (priceCache s !! m)))
  \/ (ff = false /\
      (exists c, priceCache s !! m = Some c /\ now - ts c < cacheMs /\ r = Ok c) /\
      calls s' = calls s /\ priceCache s' = priceCache s)
  \/ (exists s1, priceCache s1 = priceCache s /\ calls s1 = calls s /\
        (failedAttempts s1 = failedAttempts s
         \/ failedAttempts s1 = delete m (failedAttempts s)) /\
        (ff = false -> forall c, priceCache s !! m = Some c -> cacheMs <= now - ts c) /\
        resolveFresh W m now s1 = (r, s')).
Proof.
  intros Hkey H now. unfold getPrice in H. rewrite Hkey in H. cbn [negb] in H.
  unfold bind at 1 in H. unfold now_ms in H. fold now in H.
  unfold bind at 1 in H. unfold checkFailedAttempts in H.
  unfold bind at 1 in H. unfold get at 1 in H.
  assert (forall s1, priceCache s1 = priceCache (nextTick s) ->
            calls s1 = calls (nextTick s) ->
            bind (checkCache m now ff)
              (fun cached => match cached with
                             | Some q => ret q
                             | None => resolveFresh W m now
                             end) s1 = (r, s') ->
            (ff = false /\
             (exists c, priceCache s !! m = Some c /\ now - ts c < cacheMs /\ r = Ok c) /\
             calls s' = calls s /\ priceCache s' = priceCache s)
            \/ ((ff = false -> forall c, priceCache s !! m = Some c -> cacheMs <= now - ts c) /\
                resolveFresh W m now s1 = (r, s'))) as Hcache.
  { intros s1 Hc Hl H1. unfold bind at 1 in H1. unfold checkCache in H1.
    unfold bind at 1 in H1. unfold get at 1 in H1. rewrite Hc in H1. cbn in H1.
    destruct ff.
    - cbn in H1. right. split; [discriminate | exact H1].
    - destruct (priceCache s !! m) as [c |] eqn:Hlook.
      + destruct (now - ts c <? cacheMs) eqn:Hage.
        * cbn in H1. injection H1 as <- <-. left.
          split; [reflexivity |]. split; [| split; [exact Hl | exact Hc]].
          exists c. split; [reflexivity |]. split; [lia | reflexivity].
        * cbn in H1. right. split; [| exact H1].
          intros _ c' [= <-]. lia.
      + cbn in H1. right. split; [| exact H1]. intros _ c' [=]. }
  destruct ff.
  - cbn in H. right; right.
    specialize (Hcache (nextTick s) eq_refl eq_refl H) as [(Habs & _) | [Hage Hfresh]];
      [discriminate |].
    exists (nextTick s). cbn. auto.
  - cbn in H. destruct (failedAttempts s !! m) as [f |] eqn:Hf.
    + destruct (failedAttemptsResetMs <? now - lastAttempt f) eqn:Hold.
      * cbn in H.
        apply (Hcache (set_failedAttempts (delete m) (nextTick s))
                 ltac:(reflexivity) ltac:(reflexivity))
          in H as [Hhit | [Hage Hfresh]];
          [right; left; exact Hhit |].
        right; right. exists (set_failedAttempts (delete m) (nextTick s)).
        cbn. auto.
      * destruct (maxFailedAttempts <=? count f) eqn:Hmany.
        -- left. split; [reflexivity |]. split; [exists f; split; [reflexivity | lia] |].
           destruct (priceCache s !! m); cbn in H; injection H as <- <-; auto.
        -- cbn in H.
           specialize (Hcache (nextTick s) eq_refl eq_refl H) as [Hhit | [Hage Hfresh]];
             [right; left; exact Hhit |].
           right; right. exists (nextTick s). cbn. auto.
    + cbn in H.
      specialize (Hcache (nextTick s) eq_refl eq_refl H) as [Hhit | [Hage Hfresh]];
        [right; left; exact Hhit |].
      right; right. exists (nextTick s). cbn. auto.
Qed.

Lemma getPrice_valid W m ff s :
  isPublicKey (rpc W) m = true ->
  getPrice W m ff s
  = bind (checkFailedAttempts m (clock W (tick s)) ff)
      (fun skipped =>
         match skipped with
         | Some q => ret q
         | None =>
             bind (checkCache m (clock W (tick s)) ff)
               (fun cached =>
                  match cached with
                  | Some q => ret q
                  | None => resolveFresh W m (clock W (tick s))
                  end)
         end) (nextTick s).
Proof. intros Hkey. unfold getPrice. rewrite Hkey. reflexivity. Qed.



Lemma checkFailedAttempts_forced m now s :
  checkFailedAttempts m now true s = (Ok None, s).
Proof. reflexivity. Qed.



Lemma getPumpFunPrice_fields W m s bytes vt vs rt flag :
  getAccountInfo (rpc W) (findBondingCurveAddress (rpc W) m)
    = Ok (Some {| data := Some bytes |}) ->
  CurveFields bytes vt vs rt flag ->
  fst (getPumpFunPrice W m s)
  = Ok (if (vt <=? 0) || (vs <=? 0) then None
        else Some {| pump_price :=
                       (JS.ofZ vs / LAMPORTS_PER_SOL / (JS.ofZ vt / TOKEN_UNIT))%float;
                     pump_bondingProgress :=
                       (if (rt <? INITIAL_REAL_TOKEN_RESERVES)%Z
                        then 1 - JS.ofZ (rt * 10000 / INITIAL_REAL_TOKEN_RESERVES)
                                 / 10000
                        else 0)%float;
                     pump_graduated := negb (flag =? 0) |}).
Proof.
  intros Hacc [Hdisc Hvt Hvs Hrt Hflag].
  pose proof (readUInt8_length _ _ _ Hflag) as Hlen.
  destruct (readBigUInt64LE_in_range bytes 32 ltac:(lia)) as [rs Hrs].
  destruct (readBigUInt64LE_in_range bytes 40 ltac:(lia)) as [supply Hsupply].
  unfold getPumpFunPrice, getPumpFunPrice_body, try_catch, bind, call, lift.
  rewrite Hacc, Hvt, Hvs, Hrt, Hrs, Hsupply, Hflag. cbn [obind].
  destruct ((vt <=? 0) || (vs <=? 0)); reflexivity.
Qed.

(** In the backoff a cached quote is returned as it is. *)
Lemma backoff_returns_cache W m s f c :
  isPublicKey (rpc W) m = true ->
  failedAttempts s !! m = Some f ->
  maxFailedAttempts <= count f ->
  clock W (tick s) - lastAttempt f <= failedAttemptsResetMs ->
  priceCache s !! m = Some c ->
  getPrice W m false s = (Ok c, nextTick s).
Proof.
  intros Hkey Hf Hcount Hage Hcache.
  rewrite getPrice_valid by exact Hkey. unfold bind at 1.
  unfold checkFailedAttempts, bind, get.
  cbn [failedAttempts priceCache nextTick]. rewrite Hf, Hcache.
  destruct (failedAttemptsResetMs <? clock W (tick s) - lastAttempt f) eqn:Hold; [lia |].
  destruct (maxFailedAttempts <=? count f) eqn:Hmany; [| lia].
  reflexivity.
Qed.

(** C7, on the failure-backoff path.  A price is resolved from the
    bonding curve at time 0; the three next resolutions, from 6 seconds
    on, find every source failing and return the cached quote marked
    stale.  The resolution after them, at 15 seconds, is in the backoff:
    it returns the cached quote, now 15 seconds old, without the stale
    mark and without any network call. *)
Theorem backoff_returns_unmarked_stale_quote :
  exists q s',
    getPrice Examples.deadWorld "Mint" false (Examples.afterFailures 3) = (Ok q, s') /\
    priceCache (Examples.afterFailures 3) !! "Mint"%string = Some q /\
    failedAttempts (Examples.afterFailures 3) !! "Mint"%string
    = Some {| count := 3; lastAttempt := 14000 |} /\
    clock Examples.deadWorld (tick (Examples.afterFailures 3)) - ts q = 15000 /\
    calls s' = calls (Examples.afterFailures 3) /\
    price q <> None /\
    stale q = false.
Proof.
  eexists. eexists. split; [vm_compute; reflexivity |].
  repeat split; try (vm_compute; reflexivity). discriminate.
Qed.

(** X9. On the path where every source
    has failed, the cached quote is returned with the stale mark: a
    resolution that consulted the network and left a failure entry for
    the mint returns the quote it found cached, marked stale. *)
Lemma all_sources_failed_marks_stale W m ff s q s' c :
  isPublicKey (rpc W) m = true ->
  getPrice W m ff s = (Ok q, s') ->
  calls s' <> calls s ->
  failedAttempts s' !! m <> None ->
  priceCache s !! m = Some c ->
  q = markStale c /\ stale q = true.
Proof.
  intros Hkey H Hcalls Hfailed Hcache.
  apply getPrice_cases in H as [(_ & _ & -> & _) | [(_ & _ & Hsame & _) | H]];
    [| | | exact Hkey].
  - exfalso. apply Hcalls. reflexivity.
  - exfalso. exact (Hcalls Hsame).
  - destruct H as (s1 & Hc1 & _ & _ & _ & H).
    apply resolveFresh_cases in H as (pump & added & q' & _ & _ & [= <-] & Hcase).
    destruct Hcase as [(p & _ & _ & _ & _ & Hdel) |
                       [(_ & _ & src & p & _ & _ & _ & _ & Hdel) |
                        (_ & _ & _ & [(c' & Hc' & ->) | (Hnone & _)])]].
    + exfalso. apply Hfailed. rewrite Hdel. apply lookup_delete_eq.
    + exfalso. apply Hfailed. rewrite Hdel. apply lookup_delete_eq.
    + rewrite Hc1, Hcache in Hc'. injection Hc' as <-. auto.
    + rewrite Hc1, Hcache in Hnone. discriminate.
Qed.

(** A quote without price comes with the source "none" or "skipped" and
    an error text, as long as every cached quote has a price; and the
    resolver keeps that so. *)
Lemma null_price_is_explained W m ff s q s' :
  isPublicKey (rpc W) m = true ->
  cachePriced s ->
  getPrice W m ff s = (Ok q, s') ->
  cachePriced s' /\
  (price q = None ->
   (source q = "none" \/ source q = "skipped")%string /\ error q <> None).
Proof.
  intros Hkey Hinv H.
  assert (forall s0 q0, price q0 <> None ->
            priceCache s0 = <[m := q0]> (priceCache s) -> cachePriced s0) as Hins.
  { intros s0 q0 Hq0 Hs0 k c Hk. rewrite Hs0 in Hk.
    destruct (decide (m = k)) as [-> | Hne].
    - rewrite lookup_insert_eq in Hk. injection Hk as <-. exact Hq0.
    - rewrite lookup_insert_ne in Hk by exact Hne. exact (Hinv _ _ Hk). }
  assert (forall s0, priceCache s0 = priceCache s -> cachePriced s0) as Hsame.
  { intros s0 Hs0 k c Hk. rewrite Hs0 in Hk. exact (Hinv _ _ Hk). }
  apply getPrice_cases in H
    as [(_ & _ & -> & Hq) | [(_ & (c & Hc & _ & Hq) & _ & Hcache) | H]];
    [| | | exact Hkey].
  - split; [apply Hsame; reflexivity |]. injection Hq as ->.
    destruct (priceCache s !! m) as [c |] eqn:Hc; cbn.
    + intros Hnone. exfalso. exact (Hinv _ _ Hc Hnone).
    + intros _. split; [auto | discriminate].
  - injection Hq as ->. split; [exact (Hsame _ Hcache) |].
    intros Hnone. exfalso. exact (Hinv _ _ Hc Hnone).
  - destruct H as (s1 & Hc1 & _ & _ & _ & H).
    apply resolveFresh_cases in H as (pump & added & q' & _ & _ & [= <-] & Hcase).
    destruct Hcase as [(p & _ & _ & -> & Hst & _) |
                       [(_ & _ & src & p & -> & _ & _ & Hst & _) |
                        (_ & _ & (Hrec & _) & [(c & Hc & ->) | (_ & ->)])]].
    + rewrite Hc1 in Hst. split; [eapply Hins; [| exact Hst]; discriminate |].
      discriminate.
    + rewrite Hc1 in Hst. split; [eapply Hins; [| exact Hst]; discriminate |].
      discriminate.
    + rewrite Hc1 in Hrec, Hc. split; [exact (Hsame _ Hrec) |].
      cbn. intros Hnone. exfalso. exact (Hinv _ _ Hc Hnone).
    + rewrite Hc1 in Hrec. split; [exact (Hsame _ Hrec) |].
      intros _. cbn. split; [auto | discriminate].
Qed.

(** What the resolver does once the curve of the instrument is read:
    the result of [getPumpFunPrice] decides. *)
Lemma getPrice_through_curve W m ff s r s' pump :
  isPublicKey (rpc W) m = true ->
  (forall s0, fst (getPumpFunPrice W m s0) = Ok pump) ->
  getPrice W m ff s = (r, s') ->
  let now := clock W (tick s) in
  exists q, r = Ok q /\
    ((calls s' = calls s /\ ff = false /\
      ((failedAttempts s !! m <> None /\
        q = default (skippedQuote m now) (priceCache s !! m))
       \/ priceCache s !! m = Some q))
     \/ (exists p, pump = Some p /\ usable pump = true /\ q = pumpQuote m now p)
     \/ (usable pump = false /\ In (JupiterQuote m) (calls s') /\
         calls s' <> calls s /\
         ((exists src p, q = dexQuote m now src (Some p) /\
             (src = "jupiter" \/ src = "cache-fallback" \/ src = "dexscreener")%string)
          \/ (exists c, priceCache s !! m = Some c /\ q = markStale c)
          \/ (priceCache s !! m = None /\ q = noneQuote m now)))).
Proof.
  intros Hkey Hpump H now.
  apply getPrice_cases in H
    as [(Hff & (f & Hf & _) & -> & ->) | [(Hff & (c & Hc & _ & ->) & Hsame & _) | H]];
    [| | | exact Hkey]; fold now.
  - eexists. split; [reflexivity |]. left.
    split; [reflexivity |]. split; [exact Hff |]. left.
    split; [rewrite Hf; discriminate | reflexivity].
  - eexists. split; [reflexivity |]. left. auto.
  - destruct H as (s1 & Hc1 & Hl1 & _ & _ & H).
    apply resolveFresh_cases in H as (pump' & added & q & Hp & Hl & -> & Hcase).
    rewrite Hpump in Hp. injection Hp as <-.
    exists q. split; [reflexivity |]. right.
    destruct Hcase as [(p & -> & Huse & -> & _) |
                       [(Huse & Hin & src & p & -> & Hsrc & _) |
                        (Huse & Hin & _ & Hq)]].
    + left. eauto.
    + right. split; [exact Huse |]. rewrite Hl, Hl1.
      split; [apply in_or_app; right; right; exact Hin |].
      split; [intros Heq; symmetry in Heq;
              apply (f_equal (@length _)) in Heq;
              rewrite length_app in Heq; cbn in Heq; lia |].
      left. eauto.
    + right. split; [exact Huse |]. rewrite Hl, Hl1.
      split; [apply in_or_app; right; right; exact Hin |].
      split; [intros Heq; symmetry in Heq;
              apply (f_equal (@length _)) in Heq;
              rewrite length_app in Heq; cbn in Heq; lia |].
      right. rewrite Hc1 in Hq. exact Hq.
Qed.

(** C4. For a bonding-curve account that is not complete, the raw reader
    scales the two virtual reserves to a common denominator in integer
    arithmetic and divides once: its price is the number of
    [virtualSol * 10^6] over the number of [virtualToken * 10^9].  The
    resolver reads the curve with [getPumpFunPrice], which turns each
    reserve into a number first and divides in floating point: whenever
    it gets to read the curve (a forced call, or nothing cached and no
    failure recorded) and the price is not zero and not NaN, its quote
    has the price [(virtualSol / 10^9) / (virtualToken / 10^6)], the
    source "pump.fun" and [graduated = false].  With a million tokens (6
    decimals) against 30 SOL (in lamports) both prices are
    [30 / 1000000 = 3e-5]. *)
Theorem bonding_curve_price :
  (forall rpc m bytes vt vs rt,
     isPublicKey rpc m = true ->
     getAccountInfo rpc (findBondingCurveAddress rpc m)
       = Ok (Some {| data := Some bytes |}) ->
     CurveFields bytes vt vs rt 0 ->
     0 < vt -> 0 < vs ->
     let quotient := (JS.ofZ (vs * 1000000) / JS.ofZ (vt * 1000000000))%float in
     is_finite quotient = true -> (quotient <=? 0)%float = false ->
     exists p, PumpPriceReaderRaw.getPrice rpc m = Some p /\
       PumpPriceReaderRaw.price p = Some quotient /\
       PumpPriceReaderRaw.graduated p = false)
  /\ (forall W m ff s bytes vt vs rt,
        isPublicKey (rpc W) m = true ->
        getAccountInfo (rpc W) (findBondingCurveAddress (rpc W) m)
          = Ok (Some {| data := Some bytes |}) ->
        CurveFields bytes vt vs rt 0 ->
        0 < vt -> 0 < vs ->
        let quotient :=
          (JS.ofZ vs / LAMPORTS_PER_SOL / (JS.ofZ vt / TOKEN_UNIT))%float in
        JS.truthy quotient = true ->
        ff = true \/ (failedAttempts s !! m = None /\ priceCache s !! m = None) ->
        exists q s', getPrice W m ff s = (Ok q, s') /\
          price q = Some quotient /\ graduated q = Some false /\
          source q = "pump.fun"%string)
  /\ (forall rpc m bytes rt,
        isPublicKey rpc m = true ->
        getAccountInfo rpc (findBondingCurveAddress rpc m)
          = Ok (Some {| data := Some bytes |}) ->
        CurveFields bytes 1000000000000 30000000000 rt 0 ->
        exists p, PumpPriceReaderRaw.getPrice rpc m = Some p /\
          PumpPriceReaderRaw.price p = Some (30 / 1000000)%float /\
          PumpPriceReaderRaw.price p = Some 3e-5%float /\
          PumpPriceReaderRaw.graduated p = false)
  /\ (forall W m ff s bytes rt,
        isPublicKey (rpc W) m = true ->
        getAccountInfo (rpc W) (findBondingCurveAddress (rpc W) m)
          = Ok (Some {| data := Some bytes |}) ->
        CurveFields bytes 1000000000000 30000000000 rt 0 ->
        ff = true \/ (failedAttempts s !! m = None /\ priceCache s !! m = None) ->
        exists q s', getPrice W m ff s = (Ok q, s') /\
          price q = Some 3e-5%float /\ graduated q = Some false /\
          source q = "pump.fun"%string).
Proof.
  assert (forall rpc m bytes vt vs rt,
     isPublicKey rpc m = true ->
     getAccountInfo rpc (findBondingCurveAddress rpc m)
       = Ok (Some {| data := Some bytes |}) ->
     CurveFields bytes vt vs rt 0 ->
     0 < vt -> 0 < vs ->
     let quotient := (JS.ofZ (vs * 1000000) / JS.ofZ (vt * 1000000000))%float in
     is_finite quotient = true -> (quotient <=? 0)%float = false ->
     exists p, PumpPriceReaderRaw.getPrice rpc m = Some p /\
       PumpPriceReaderRaw.price p = Some quotient /\
       PumpPriceReaderRaw.graduated p = false) as Hraw.
  { intros rpc m bytes vt vs rt Hkey Hacc Hfields Hvt Hvs quotient Hfin Hpos.
    destruct (getPrice_body_fields _ _ _ _ _ _ _ Hkey Hacc Hfields)
      as (rs & supply & Hbody).
    unfold PumpPriceReaderRaw.getPrice. rewrite Hbody. cbn zeta.
    change (negb (0 =? 0)) with false. cbn iota.
    destruct (vt <=? 0) eqn:H1; [lia |]. destruct (vs <=? 0) eqn:H2; [lia |].
    cbn [orb].
    unfold PumpPriceReaderRaw.TOKEN_DECIMALS, PumpPriceReaderRaw.SOL_DECIMALS.
    fold quotient. rewrite Hfin, Hpos. cbn [negb orb].
    eexists. split; [reflexivity |]. cbn. auto. }
  assert (forall W m ff s bytes vt vs rt,
        isPublicKey (rpc W) m = true ->
        getAccountInfo (rpc W) (findBondingCurveAddress (rpc W) m)
          = Ok (Some {| data := Some bytes |}) ->
        CurveFields bytes vt vs rt 0 ->
        0 < vt -> 0 < vs ->
        let quotient :=
          (JS.ofZ vs / LAMPORTS_PER_SOL / (JS.ofZ vt / TOKEN_UNIT))%float in
        JS.truthy quotient = true ->
        ff = true \/ (failedAttempts s !! m = None /\ priceCache s !! m = None) ->
        exists q s', getPrice W m ff s = (Ok q, s') /\
          price q = Some quotient /\ graduated q = Some false /\
          source q = "pump.fun"%string)
    as Hresolver.
  { intros W m ff s bytes vt vs rt Hkey Hacc Hfields Hvt Hvs quotient Htruthy
           Hstart.
    pose proof (fun s0 => getPumpFunPrice_fields W m s0 _ _ _ _ _ Hacc Hfields)
      as Hpump.
    destruct (vt <=? 0) eqn:H1; [lia |]. destruct (vs <=? 0) eqn:H2; [lia |].
    cbn [orb] in Hpump.
    destruct (getPrice W m ff s) as [r s'] eqn:H.
    eapply getPrice_through_curve in H as (q & -> & Hcase);
      [| exact Hkey | exact Hpump].
    exists q, s'. split; [reflexivity |].
    destruct Hcase as [(_ & -> & Hold) | [(p & [= <-] & _ & ->) | (Huse & _)]].
    - destruct Hstart as [Hff | [Hnofail Hnocache]]; [discriminate |].
      destruct Hold as [[Hfail _] | Hcached]; [contradiction |].
      rewrite Hnocache in Hcached. discriminate.
    - cbn. auto.
    - exfalso. cbn in Huse. fold quotient in Huse. rewrite Htruthy in Huse.
      discriminate. }
  split; [exact Hraw |]. split; [exact Hresolver |]. split.
  - intros rpc m bytes rt Hkey Hacc Hfields.
    destruct (Hraw rpc m bytes _ _ rt Hkey Hacc Hfields) as (p & Hp & Hprice & Hgrad);
      [lia | lia | reflexivity | reflexivity |].
    exists p. repeat split; assumption.
  - intros W m ff s bytes rt Hkey Hacc Hfields Hstart.
    destruct (Hresolver W m ff s bytes _ _ rt Hkey Hacc Hfields)
      as (q & s' & Hq & Hprice & Hgrad & Hsrc);
      [lia | lia | reflexivity | exact Hstart |].
    exists q, s'. repeat split; assumption.
Qed.

(** The theorem on the account of the examples. *)
Lemma bonding_curve_price_witness :
  CurveFields (Examples.curveAccount Byte.x00)
              1000000000000 30000000000 500000000000000 0 /\
  (exists p, PumpPriceReaderRaw.getPrice (Examples.curveRpc Byte.x00) "Mint" = Some p /\
     PumpPriceReaderRaw.price p = Some (30 / 1000000)%float /\
     PumpPriceReaderRaw.price p = Some 3e-5%float /\
     PumpPriceReaderRaw.graduated p = false) /\
  (exists q s',
     getPrice (Examples.curveWorld Byte.x00) "Mint" false Examples.emptyState
     = (Ok q, s') /\
     price q = Some (30000000000 / 1000000000 / (1000000000000 / 1000000))%float /\
     graduated q = Some false /\
     source q = "pump.fun"%string) /\
  (exists q s',
     getPrice (Examples.curveWorld Byte.x00) "Mint" true Examples.emptyState
     = (Ok q, s') /\
     price q = Some 3e-5%float /\ graduated q = Some false /\
     source q = "pump.fun"%string) /\
  (exists p, PumpPriceReaderRaw.getPrice Examples.unevenRpc "Mint" = Some p /\
     PumpPriceReaderRaw.price p
     = Some (JS.ofZ (30000000014 * 1000000)
             / JS.ofZ (1073000000000000 * 1000000000))%float /\
     PumpPriceReaderRaw.graduated p = false) /\
  (exists q s',
     getPrice Examples.unevenWorld "Mint" true Examples.emptyState = (Ok q, s') /\
     price q
     = Some (JS.ofZ 30000000014 / LAMPORTS_PER_SOL
             / (JS.ofZ 1073000000000000 / TOKEN_UNIT))%float /\
     graduated q = Some false /\
     source q = "pump.fun"%string).
Proof.
  assert (CurveFields (Examples.curveAccount Byte.x00)
            1000000000000 30000000000 500000000000000 0) as Hfields
    by (split; reflexivity).
  assert (CurveFields Examples.unevenAccount
            1073000000000000 30000000014 500000000000000 0) as Huneven
    by (split; reflexivity).
  split; [exact Hfields |]. split; [| split; [| split; [| split]]];
    [| | | exact (proj1 bonding_curve_price Examples.unevenRpc "Mint"%string
                    _ _ _ _ eq_refl eq_refl Huneven eq_refl eq_refl
                    eq_refl eq_refl)
         | exact (proj1 (proj2 bonding_curve_price) Examples.unevenWorld
                    "Mint"%string true Examples.emptyState _ _ _ _
                    eq_refl eq_refl Huneven eq_refl eq_refl eq_refl
                    (or_introl eq_refl))].
  - exact (proj1 (proj2 (proj2 bonding_curve_price)) (Examples.curveRpc Byte.x00)
             "Mint"%string _ _ eq_refl eq_refl Hfields).
  - exact (proj1 (proj2 bonding_curve_price) (Examples.curveWorld Byte.x00)
             "Mint"%string false Examples.emptyState _ _ _ _ eq_refl eq_refl
             Hfields eq_refl eq_refl eq_refl (or_intror (conj eq_refl eq_refl))).
  - exact (proj2 (proj2 (proj2 bonding_curve_price)) (Examples.curveWorld Byte.x00)
             "Mint"%string true Examples.emptyState _ _ eq_refl eq_refl Hfields
             (or_introl eq_refl)).
Defined.

(** C4 as stated fails for the resolver: its price is not the quotient
    of the reserves scaled in integer arithmetic.  On a clear curve with
    the virtual reserves 1073000000000000 (tokens) and 30000000014
    (lamports) the raw reader answers with that quotient and the
    resolver, reading the same account, with a number that differs from
    it in the last place. *)
Lemma resolver_price_not_integer_scaled :
  CurveFields Examples.unevenAccount
              1073000000000000 30000000014 500000000000000 0 /\
  exists p q s',
    PumpPriceReaderRaw.getPrice Examples.unevenRpc "Mint" = Some p /\
    getPrice Examples.unevenWorld "Mint" false Examples.emptyState = (Ok q, s') /\
    PumpPriceReaderRaw.graduated p = false /\ graduated q = Some false /\
    source q = "pump.fun"%string /\
    PumpPriceReaderRaw.price p
    = Some (JS.ofZ (30000000014 * 1000000)
            / JS.ofZ (1073000000000000 * 1000000000))%float /\
    PumpPriceReaderRaw.price p = Some 2.7958993489282385e-08%float /\
    price q = Some 2.7958993489282388e-08%float /\
    (2.7958993489282385e-08 =? 2.7958993489282388e-08)%float = false.
Proof.
  split; [split; reflexivity |].
  eexists. eexists. eexists.
  split; [vm_compute; reflexivity |]. split; [vm_compute; reflexivity |].
  repeat split; vm_compute; reflexivity.
Qed.

(** What holds of a bonding-curve account whose completion byte is set.
    The raw reader answers with no price and [graduated = true].  The
    resolver never builds a quote from the price of such a curve: a
    quote of source "pump.fun" can only be one it had cached; once it
    reads the curve it goes on to Jupiter, and every quote it then
    returns with a price and without the stale mark has
    [graduated = true]. *)
Theorem graduated_curve_price_not_used :
  (forall rpc m bytes vt vs rt flag,
     isPublicKey rpc m = true ->
     getAccountInfo rpc (findBondingCurveAddress rpc m)
       = Ok (Some {| data := Some bytes |}) ->
     CurveFields bytes vt vs rt flag ->
     flag <> 0 ->
     exists p, PumpPriceReaderRaw.getPrice rpc m = Some p /\
       PumpPriceReaderRaw.price p = None /\
       PumpPriceReaderRaw.graduated p = true)
  /\ (forall W m ff s r s' bytes vt vs rt flag,
        isPublicKey (rpc W) m = true ->
        getAccountInfo (rpc W) (findBondingCurveAddress (rpc W) m)
          = Ok (Some {| data := Some bytes |}) ->
        CurveFields bytes vt vs rt flag ->
        flag <> 0 ->
        getPrice W m ff s = (r, s') ->
        exists q, r = Ok q /\
          (source q = "pump.fun"%string ->
           exists c, priceCache s !! m = Some c /\ (q = c \/ q = markStale c)) /\
          (calls s' <> calls s -> In (JupiterQuote m) (calls s')) /\
          (calls s' <> calls s -> price q <> None -> stale q = false ->
           graduated q = Some true)).
Proof.
  split.
  - intros rpc m bytes vt vs rt flag Hkey Hacc Hfields Hflag.
    destruct (getPrice_body_fields _ _ _ _ _ _ _ Hkey Hacc Hfields)
      as (rs & supply & Hbody).
    unfold PumpPriceReaderRaw.getPrice. rewrite Hbody. cbn zeta.
    destruct (flag =? 0) eqn:Hz; [lia |]. cbn [negb].
    eexists. split; [reflexivity |]. cbn. auto.
  - intros W m ff s r s' bytes vt vs rt flag Hkey Hacc Hfields Hflag H.
    eapply getPrice_through_curve in H as (q & -> & Hcase);
      [| exact Hkey
       | intros s0; exact (getPumpFunPrice_fields W m s0 _ _ _ _ _ Hacc Hfields)].
    exists q. split; [reflexivity |].
    assert (usable
              (if (vt <=? 0) || (vs <=? 0) then None
               else Some {| pump_price :=
                       (JS.ofZ vs / LAMPORTS_PER_SOL / (JS.ofZ vt / TOKEN_UNIT))%float;
                     pump_bondingProgress :=
                       (if (rt <? INITIAL_REAL_TOKEN_RESERVES)%Z
                        then 1 - JS.ofZ (rt * 10000 / INITIAL_REAL_TOKEN_RESERVES)
                                 / 10000
                        else 0)%float;
                     pump_graduated := negb (flag =? 0) |}) = false) as Hunusable.
    { destruct ((vt <=? 0) || (vs <=? 0)); [reflexivity |]. cbn.
      destruct (flag =? 0) eqn:Hz; [lia |]. apply andb_false_r. }
    destruct Hcase as [(Hsame & _ & Hold) |
                       [(p & _ & Huse & _) | (_ & Hin & Hcalls & Hq)]].
    + split; [| split]; [| intros Hne; contradiction..].
      intros Hsrc. destruct Hold as [[_ ->] | Hcached].
      * destruct (priceCache s !! m) as [c |]; [eauto | discriminate].
      * eauto.
    + rewrite Hunusable in Huse. discriminate.
    + split; [| split; [auto |]].
      * intros Hsrc.
        destruct Hq as [(src & p & -> & Hcase) | [(c & Hc & ->) | (_ & ->)]].
        -- cbn in Hsrc. subst src. destruct Hcase as [? | [? | ?]]; discriminate.
        -- eauto.
        -- discriminate.
      * intros _ Hprice Hstale.
        destruct Hq as [(src & p & -> & _) | [(c & _ & ->) | (_ & ->)]].
        -- reflexivity.
        -- discriminate.
        -- exfalso. apply Hprice. reflexivity.
Qed.

(** The theorem on the completed account of the examples. *)
Lemma graduated_curve_price_not_used_witness :
  CurveFields (Examples.curveAccount Byte.x01)
              1000000000000 30000000000 500000000000000 1 /\
  (exists p,
     PumpPriceReaderRaw.getPrice (Examples.curveRpc Byte.x01) "Mint" = Some p /\
     PumpPriceReaderRaw.price p = None /\
     PumpPriceReaderRaw.graduated p = true) /\
  (exists q,
     fst (getPrice (Examples.curveWorld Byte.x01) "Mint" false Examples.emptyState)
     = Ok q /\
     source q <> "pump.fun"%string /\
     In (JupiterQuote "Mint") (calls (snd (getPrice (Examples.curveWorld Byte.x01)
                                             "Mint" false Examples.emptyState)))).
Proof.
  assert (CurveFields (Examples.curveAccount Byte.x01)
            1000000000000 30000000000 500000000000000 1) as Hfields
    by (split; reflexivity).
  split; [exact Hfields |]. split.
  - apply (proj1 graduated_curve_price_not_used (Examples.curveRpc Byte.x01)
             "Mint"%string _ _ _ _ 1 eq_refl eq_refl Hfields).
    discriminate.
  - destruct (proj2 graduated_curve_price_not_used
                (Examples.curveWorld Byte.x01) "Mint"%string false
                Examples.emptyState _ _ _ _ _ _ 1 eq_refl eq_refl Hfields
                ltac:(discriminate) (surjective_pairing _))
      as (q & Hq & Hsource & Hcalls & _).
    exists q. split; [exact Hq |]. split.
    + intros Hpump. destruct (Hsource Hpump) as (c & Hc & _).
      vm_compute in Hc. discriminate.
    + apply Hcalls. vm_compute. discriminate.
Defined.

(** C5, when the later sources miss.  The completion byte of the
    bonding-curve account is set and the raw reader reports the curve as
    graduated.  The resolver reads that account, finds the curve
    complete and goes on to Jupiter and to DexScreener, which do not
    answer; the quote it returns has no price, the source "none", and
    says [graduated = false]. *)
Theorem graduated_curve_reported_not_graduated :
  Buffer.readUInt8 (Examples.curveAccount Byte.x01) 48 = Ok 1 /\
  (exists p,
     PumpPriceReaderRaw.getPrice (Examples.curveRpc Byte.x01) "Mint" = Some p /\
     PumpPriceReaderRaw.graduated p = true) /\
  (exists pump s0,
     getPumpFunPrice (Examples.curveWorld Byte.x01) "Mint" Examples.emptyState
     = (Ok (Some pump), s0) /\
     pump_graduated pump = true) /\
  exists q s',
    getPrice (Examples.curveWorld Byte.x01) "Mint" false Examples.emptyState
    = (Ok q, s') /\
    calls s' = [GetAccountInfo "curve:Mint"; JupiterQuote "Mint";
                JupiterQuote "Mint"; JupiterQuote "Mint";
                DexScreenerTokens "Mint"] /\
    price q = None /\
    source q = "none"%string /\
    graduated q = Some false.
Proof.
  split; [reflexivity |].
  split; [eexists; split; vm_compute; reflexivity |].
  split; [eexists; eexists; split; vm_compute; reflexivity |].
  eexists. eexists.
  split; [vm_compute; reflexivity |]. repeat split; vm_compute; reflexivity.
Qed.

End Resolver.

(** ** The exit decision *)

Section ExitDecision.
Import CopyStrategy.
Local Open Scope float_scope.

(** C2, as the code has it.  The exit decision is the first of the five
    triggers, ranked profit target (1), trailing stop (2), stop loss
    (3), traders selling (4) and maximal holding time (5), that fires;
    the profit target, the trailing stop, the stop loss and the holding
    time fire only when the configuration enables them.  The trailing
    stop needs a maximal PnL percentage above zero and a current price
    at or below [maxPrice * (1 - trailingStopPercent / 100)].  When the
    profit target is enabled and met, the decision is the profit target
    with rank 1, whether or not the stop loss is met too. *)
Theorem shouldExit_priority_order :
  (forall cfg R clk position currentPrice,
     map trigger_priority (triggers cfg R clk position currentPrice)
     = [1; 2; 3; 4; 5]%nat /\
     shouldExit cfg R clk (Some position) currentPrice
     = match firstFiring (triggers cfg R clk position currentPrice) with
       | Some t =>
           Exit (trigger_reason t) (pnlPercentOf position currentPrice)
                (trigger_type t) (trigger_priority t) (trigger_sellCount t)
       | None =>
           Holding (pnlPercentOf position currentPrice)
                   (maxPnlPercentOf position)
                   (JS.toFixed 0 (holdTimeOf clk position))
                   (countSellers R (pos_mint position))
       end)
  /\ (forall cfg R clk position currentPrice reason pnl exitType priority sellCount,
        shouldExit cfg R clk (Some position) currentPrice
        = Exit reason pnl exitType priority sellCount ->
        reason = trailing_stop ->
        trailingStopEnabled cfg = true /\
        (0 <? maxPnlPercentOf position) = true /\
        (currentPrice
         <=? maxPriceOf position * (1 - trailingStopPercent cfg / 100)) = true)
  /\ (forall cfg R clk position currentPrice,
        takeProfitEnabled cfg = true ->
        (takeProfitPercent cfg <=? pnlPercentOf position currentPrice) = true ->
        shouldExit cfg R clk (Some position) currentPrice
        = Exit take_profit (pnlPercentOf position currentPrice) "automatic" 1 None).
Proof.
  split; [| split].
  - intros cfg R clk position currentPrice. split; [reflexivity |].
    unfold shouldExit, firstFiring, triggers, pnlPercentOf, maxPnlPercentOf,
      maxPriceOf, holdTimeOf. cbn [List.find fires].
    repeat match goal with
           | |- context [if ?b then _ else _] => destruct b; cbn; try reflexivity
           end.
  - intros cfg R clk position currentPrice reason pnl exitType priority sellCount
      H ->.
    unfold shouldExit in H. fold (maxPriceOf position) in H.
    fold (pnlPercentOf position currentPrice) in H.
    fold (maxPnlPercentOf position) in H.
    destruct (takeProfitEnabled cfg
              && (takeProfitPercent cfg <=? pnlPercentOf position currentPrice));
      [discriminate |].
    destruct (trailingStopEnabled cfg) eqn:Hon; cbn [andb] in H.
    + destruct (0 <? maxPnlPercentOf position) eqn:Harmed; cbn [andb] in H.
      * destruct (currentPrice
                  <=? maxPriceOf position * (1 - trailingStopPercent cfg / 100))
          eqn:Hprice; [auto |].
        exfalso. revert H.
        repeat match goal with
               | |- context [if ?b then _ else _] => destruct b
               end; discriminate.
      * exfalso. revert H.
        repeat match goal with
               | |- context [if ?b then _ else _] => destruct b
               end; discriminate.
    + exfalso. revert H.
      repeat match goal with
             | |- context [if ?b then _ else _] => destruct b
             end; discriminate.
  - intros cfg R clk position currentPrice Hon Hmet.
    unfold shouldExit. fold (pnlPercentOf position currentPrice).
    rewrite Hon, Hmet. reflexivity.
Qed.

(** The last part of the theorem on thresholds that a loss of 18% meets
    both. *)
Lemma shouldExit_priority_order_witness :
  (takeProfitPercent (Examples.contradictory true)
   <=? pnlPercentOf Examples.flat 82) = true /\
  (pnlPercentOf Examples.flat 82 <=? - stopLoss (Examples.contradictory true)) = true /\
  shouldExit (Examples.contradictory true) (Examples.online Examples.openStore)
             Examples.newYear (Some Examples.flat) 82
  = Exit take_profit (pnlPercentOf Examples.flat 82) "automatic" 1 None.
Proof.
  split; [reflexivity |]. split; [reflexivity |].
  exact (proj2 (proj2 shouldExit_priority_order) (Examples.contradictory true)
           (Examples.online Examples.openStore) Examples.newYear Examples.flat 82
           eq_refl eq_refl).
Defined.

(** C2 as stated fails where a trigger is disabled.  With the trailing
    stop disabled, a position that has been in profit (bought at 100,
    maximum 150) and has fallen to 120, below 150 * (1 - 12/100) = 132,
    is held.  With the profit target disabled, a position meeting both
    the profit target (-20%) and the stop loss (15%) at -18% is closed
    by the stop loss, rank 3. *)
Lemma disabled_trigger_does_not_fire :
  ((0 <? maxPnlPercentOf Examples.risen) = true /\
   (120 <=? maxPriceOf Examples.risen
            * (1 - trailingStopPercent Examples.withoutTrailingStop / 100)) = true /\
   shouldExit Examples.withoutTrailingStop (Examples.online Examples.openStore)
              Examples.newYear (Some Examples.risen) 120
   = Holding 20 50 600 0)
  /\ ((takeProfitPercent (Examples.contradictory false)
       <=? pnlPercentOf Examples.flat 82) = true /\
      (pnlPercentOf Examples.flat 82
       <=? - stopLoss (Examples.contradictory false)) = true /\
      shouldExit (Examples.contradictory false) (Examples.online Examples.openStore)
                 Examples.newYear (Some Examples.flat) 82
      = Exit stop_loss (-18) "automatic" 3 None).
Proof. repeat split; vm_compute; reflexivity. Qed.

End ExitDecision.

(** ** The anti-rebuy guard *)

Section Rebuy.
Import CopyStrategy.
Local Open Scope Z_scope.

Lemma command_reachable {A} R c (answer : A) :
  reachable R -> command R c answer = Ok answer.
Proof. intros H. unfold command. rewrite H. reflexivity. Qed.

Lemma isRecentTrade_recent cfg clk mint wallet t :
  isTradeOf mint wallet t ->
  now clk - default 0 (closedAt t) < rebuyWindow cfg * 1000 ->
  isRecentTrade cfg clk mint wallet (Some t) = true.
Proof.
  intros [Hm Hw] Hage. unfold isRecentTrade.
  rewrite !bool_decide_eq_true_2 by assumption. cbn.
  apply Z.ltb_lt. exact Hage.
Qed.

Lemma isRecentTrade_old cfg clk mint wallet item :
  (forall t, item = Some t -> isTradeOf mint wallet t ->
             rebuyWindow cfg * 1000 <= now clk - default 0 (closedAt t)) ->
  isRecentTrade cfg clk mint wallet item = false.
Proof.
  intros Hold. destruct item as [t |]; [| reflexivity]. cbn.
  destruct (bool_decide (trade_mint t = Some mint)) eqn:Hm; [| reflexivity].
  destruct (bool_decide (trade_walletSource t = Some wallet)) eqn:Hw; [| reflexivity].
  apply bool_decide_eq_true_1 in Hm, Hw. cbn.
  apply Z.ltb_ge. apply (Hold t eq_refl). split; assumption.
Qed.

Lemma existsb_recent cfg clk mint wallet l t :
  In (Some t) l ->
  isRecentTrade cfg clk mint wallet (Some t) = true ->
  existsb (isRecentTrade cfg clk mint wallet) l = true.
Proof. intros Hin Ht. apply existsb_exists. eauto. Qed.

Lemma existsb_old cfg clk mint wallet l :
  (forall item, In item l -> isRecentTrade cfg clk mint wallet item = false) ->
  existsb (isRecentTrade cfg clk mint wallet) l = false.
Proof.
  intros Hall. induction l as [| item l IH]; [reflexivity |]. cbn.
  rewrite (Hall item) by (left; reflexivity). cbn.
  apply IH. intros x Hx. apply Hall. right. exact Hx.
Qed.

Lemma scanHistory_recent cfg R clk mint wallet t days :
  forall first i,
    reachable R ->
    (first <= i < first + days)%nat ->
    In (Some t) (history R clk i) ->
    isRecentTrade cfg clk mint wallet (Some t) = true ->
    scanHistory cfg R clk mint wallet first days = Ok true.
Proof.
  induction days as [| days IH]; intros first i Hup Hi Hin Ht; [lia |].
  cbn. unfold lrange. rewrite command_reachable by exact Hup. cbn.
  fold (history R clk first).
  destruct (existsb (isRecentTrade cfg clk mint wallet) (history R clk first))
    eqn:Hday; [reflexivity |].
  apply (IH (S first) i); try assumption.
  destruct (decide (i = first)) as [-> | Hne]; [| lia].
  rewrite (existsb_recent _ _ _ _ _ _ Hin Ht) in Hday. discriminate.
Qed.

Lemma scanHistory_old cfg R clk mint wallet days :
  forall first,
    reachable R ->
    (forall i item, (first <= i < first + days)%nat ->
       In item (history R clk i) ->
       isRecentTrade cfg clk mint wallet item = false) ->
    scanHistory cfg R clk mint wallet first days = Ok false.
Proof.
  induction days as [| days IH]; intros first Hup Hall; [reflexivity |].
  cbn. unfold lrange. rewrite command_reachable by exact Hup. cbn.
  fold (history R clk first).
  rewrite existsb_old by (intros item Hitem; apply (Hall first); [lia | exact Hitem]).
  apply IH; [exact Hup |]. intros i item Hi. apply Hall. lia.
Qed.

(** The guard answers yes for a recent trade of the pair in the list of
    today or of one of the seven days before. *)
Lemma isRebuySignal_recent cfg R clk mint wallet t i :
  reachable R -> wallet <> ""%string -> (i <= 7)%nat ->
  In (Some t) (history R clk i) ->
  isTradeOf mint wallet t ->
  now clk - default 0 (closedAt t) < rebuyWindow cfg * 1000 ->
  isRebuySignal cfg R clk mint (Some wallet) = true.
Proof.
  intros Hup Hw Hi Hin Ht Hage.
  pose proof (isRecentTrade_recent cfg clk mint wallet t Ht Hage) as Hrecent.
  unfold isRebuySignal, isRebuySignal_body.
  destruct wallet as [| a w]; [contradiction |].
  unfold sismember, hgetall_walletSource, lrange.
  rewrite !command_reachable by exact Hup. cbn [obind].
  destruct (bool_decide (mint ∈ open_positions (store R))).
  - cbn [obind].
    destruct (bool_decide _); [reflexivity |].
    fold (history R clk 0).
    destruct (existsb _ (history R clk 0)) eqn:Htoday; [reflexivity |].
    destruct (decide (i = 0%nat)) as [-> | Hne].
    + rewrite (existsb_recent _ _ _ _ _ _ Hin Hrecent) in Htoday. discriminate.
    + rewrite (scanHistory_recent cfg R clk mint _ t 7 1 i); auto. lia.
  - fold (history R clk 0).
    destruct (existsb _ (history R clk 0)) eqn:Htoday; [reflexivity |].
    destruct (decide (i = 0%nat)) as [-> | Hne].
    + rewrite (existsb_recent _ _ _ _ _ _ Hin Hrecent) in Htoday. discriminate.
    + rewrite (scanHistory_recent cfg R clk mint _ t 7 1 i); auto. lia.
Qed.

(** The guard answers no when no position of the mint is open from the
    wallet and every trade of the pair in the eight lists was closed at
    least a window ago. *)
Lemma isRebuySignal_old cfg R clk mint wallet :
  reachable R ->
  (mint ∈ open_positions (store R) ->
   forall p, positions (store R) !! mint = Some p -> walletSource p <> Some wallet) ->
  (forall i t, (i <= 7)%nat -> In (Some t) (history R clk i) ->
     isTradeOf mint wallet t ->
     rebuyWindow cfg * 1000 <= now clk - default 0 (closedAt t)) ->
  isRebuySignal cfg R clk mint (Some wallet) = false.
Proof.
  intros Hup Hopen Hold.
  assert (forall i item, (i <= 7)%nat -> In item (history R clk i) ->
            isRecentTrade cfg clk mint wallet item = false) as Hitems.
  { intros i item Hi Hin. apply isRecentTrade_old.
    intros t -> Ht. exact (Hold i t Hi Hin Ht). }
  unfold isRebuySignal, isRebuySignal_body.
  destruct wallet as [| a w]; [reflexivity |].
  unfold sismember, hgetall_walletSource, lrange.
  rewrite !command_reachable by exact Hup. cbn [obind].
  fold (history R clk 0).
  assert (existsb (isRecentTrade cfg clk mint (String a w)) (history R clk 0) = false)
    as Htoday by (apply existsb_old; intros item; apply Hitems; lia).
  assert (scanHistory cfg R clk mint (String a w) 1 7 = Ok false) as Hscan
    by (apply scanHistory_old; [exact Hup |]; intros i item Hi; apply Hitems; lia).
  destruct (bool_decide (mint ∈ open_positions (store R))) eqn:Hin.
  - apply bool_decide_eq_true_1 in Hin. cbn [obind].
    destruct (positions (store R) !! mint) as [p |] eqn:Hp.
    + rewrite bool_decide_eq_false_2 by exact (Hopen Hin p eq_refl).
      rewrite Htoday, Hscan. reflexivity.
    + rewrite bool_decide_eq_false_2 by discriminate.
      rewrite Htoday, Hscan. reflexivity.
  - rewrite Htoday, Hscan. reflexivity.
Qed.

(** C8, as the code has it.  Let rebuy blocking be enabled, the window
    be 300 seconds and the store answer.  A signal for X from a wallet
    W that passes the vote check (paper mode, or enough corroborating
    wallets) is rejected with the reason rebuy_blocked when the list of
    today or of one of the seven days before holds a trade of (X, W)
    closed 30 seconds ago.  The guard does not answer yes for (X, W)
    when no position of X is open from W and every trade of (X, W) in
    those lists was closed 400 seconds ago.  The guard also answers yes
    for an open position of X copied from W. *)
Theorem rebuy_window_blocks :
  (forall cfg env R clk sig wallet t i,
     blockRebuys cfg = true -> rebuyWindow cfg = 300 -> reachable R ->
     dryRun env = true \/ minWalletsToBuy cfg <= upvotes sig ->
     walletAddress sig = Some wallet -> wallet <> ""%string ->
     (i <= 7)%nat ->
     In (Some t) (history R clk i) ->
     isTradeOf (mint sig) wallet t ->
     closedAt t = Some (now clk - 30000) ->
     shouldCopy cfg env R clk sig = NoCopy rebuy_blocked)
  /\ (forall cfg R clk mint wallet,
        rebuyWindow cfg = 300 -> reachable R ->
        (mint ∈ open_positions (store R) ->
         forall p, positions (store R) !! mint = Some p ->
                   walletSource p <> Some wallet) ->
        (forall i t, (i <= 7)%nat -> In (Some t) (history R clk i) ->
           isTradeOf mint wallet t -> closedAt t = Some (now clk - 400000)) ->
        isRebuySignal cfg R clk mint (Some wallet) = false)
  /\ (forall cfg R clk mint wallet p,
        reachable R -> wallet <> ""%string ->
        mint ∈ open_positions (store R) ->
        positions (store R) !! mint = Some p ->
        walletSource p = Some wallet ->
        isRebuySignal cfg R clk mint (Some wallet) = true).
Proof.
  split; [| split].
  - intros cfg env R clk sig wallet t i Hblock Hwindow Hup Hvotes Hwallet Hne
      Hi Hin Ht Hclosed.
    unfold shouldCopy, shouldCopy_body.
    assert (negb (dryRun env) && (upvotes sig <? minWalletsToBuy cfg) = false)
      as ->.
    { destruct Hvotes as [-> | Hv]; [reflexivity |].
      apply andb_false_iff. right. apply Z.ltb_ge. exact Hv. }
    rewrite Hblock, Hwallet. cbn [obind].
    rewrite (isRebuySignal_recent cfg R clk (mint sig) wallet t i); auto.
    rewrite Hclosed, Hwindow. cbn. lia.
  - intros cfg R clk mint wallet Hwindow Hup Hopen Hold.
    apply isRebuySignal_old; [exact Hup | exact Hopen |].
    intros i t Hi Hin Ht. rewrite (Hold i t Hi Hin Ht), Hwindow. cbn. lia.
  - intros cfg R clk mint wallet p Hup Hne Hopen Hp Hsource.
    unfold isRebuySignal, isRebuySignal_body.
    destruct wallet as [| a w]; [contradiction |].
    unfold sismember, hgetall_walletSource.
    rewrite !command_reachable by exact Hup. cbn [obind].
    rewrite bool_decide_eq_true_2 by exact Hopen. cbn [obind].
    rewrite Hp, Hsource, bool_decide_eq_true_2 by reflexivity. reflexivity.
Qed.

(** The trade closed 30 seconds ago, and the one closed 400 seconds ago. *)
Lemma rebuy_window_blocks_witness :
  shouldCopy defaultConfig Examples.paper
             (Examples.online (Examples.closedStore (600000 - 30000)))
             Examples.newYear (Examples.signal 1)
  = NoCopy rebuy_blocked /\
  isRebuySignal defaultConfig
                (Examples.online (Examples.closedStore (600000 - 400000)))
                Examples.newYear "Mint" (Some "Wallet"%string)
  = false.
Proof.
  split.
  - apply (proj1 rebuy_window_blocks defaultConfig Examples.paper
             (Examples.online (Examples.closedStore (600000 - 30000)))
             Examples.newYear (Examples.signal 1) "Wallet"%string
             {| trade_mint := Some "Mint"%string;
                trade_walletSource := Some "Wallet"%string;
                closedAt := Some (600000 - 30000) |} 0%nat);
      try reflexivity.
    + intros c. reflexivity.
    + left. reflexivity.
    + discriminate.
    + lia.
    + vm_compute. left. reflexivity.
    + split; reflexivity.
  - apply (proj1 (proj2 rebuy_window_blocks)); try reflexivity.
    + intros c. reflexivity.
    + intros Hin. apply elem_of_empty in Hin. contradiction.
    + intros i t Hi Hin _.
      destruct i as [| [| [| [| [| [| [| [| i]]]]]]]]; [| | | | | | | | lia];
        vm_compute in Hin; try contradiction.
      destruct Hin as [[= <-] | []]. reflexivity.
Defined.

(** C8 as stated fails with rebuy blocking switched off: the signal is
    approved although the pair was closed 30 seconds ago.  In live mode
    with fewer corroborating wallets than required, the signal is
    rejected for that reason, not as a rebuy. *)
Lemma rebuy_not_blocked_when_disabled :
  rebuyWindow Examples.withoutRebuyBlock = 300 /\
  shouldCopy Examples.withoutRebuyBlock Examples.paper
             (Examples.online (Examples.closedStore (600000 - 30000)))
             Examples.newYear (Examples.signal 1)
  = Copy 0.1 30 1 [] "paper" /\
  shouldCopy defaultConfig Examples.live
             (Examples.online (Examples.closedStore (600000 - 30000)))
             Examples.newYear (Examples.signal 0)
  = NoCopy (low_upvotes 0 1).
Proof. repeat split; vm_compute; reflexivity. Qed.









End Rebuy.

(** ** The executors *)

Section Executors.
Import Rpc.
Local Open Scope float_scope.

(** A number that is truthy and not at most zero is above zero. *)
Lemma truthy_not_le_zero_pos (x : float) :
  JS.truthy x = true -> (x <=? 0) = false -> (0 <? x) = true.
Proof.
  unfold JS.truthy, is_zero, is_nan.
  rewrite FloatAxioms.ltb_spec, FloatAxioms.leb_spec, !FloatAxioms.eqb_spec.
  change (Prim2SF 0) with (S754_zero false).
  change (Prim2SF PrimFloat.zero) with (S754_zero false).
  destruct (Prim2SF x) as [[|] | [|] | | [|] m e]; cbn; congruence.
Qed.

(** X23. A successful order of the Local
    API executor outside dry-run mode reports verified amounts above
    zero: the tokens received for a buy, the tokens sold and the SOL
    received for a sell. *)
Lemma local_success_means_movement :
  (forall W ex mint solAmount slippage priorityFee s r s',
     PumpPortalExecutor.dryRun ex = false ->
     PumpPortalExecutor.buyToken W ex mint solAmount slippage priorityFee s
     = (Ok r, s') ->
     success r = true ->
     exists received, tokensReceived r = Some received /\ (0 <? received) = true)
  /\ (forall W ex mint amountTokens slippage priorityFee s r s',
        PumpPortalExecutor.dryRun ex = false ->
        PumpPortalExecutor.sellToken W ex mint amountTokens slippage priorityFee s
        = (Ok r, s') ->
        success r = true ->
        exists sold received,
          tokensSold r = Some (Num sold) /\ (0 <? sold) = true /\
          solReceived r = Some received /\ (0 <? received) = true).
Proof.
  split.
  - intros W ex mint solAmount slippage priorityFee s r s' Hlive H Hok.
    unfold PumpPortalExecutor.buyToken in H. rewrite Hlive in H.
    unfold try_catch in H. unfold bind at 1 in H.
    match type of H with
    | context [PumpPortalExecutor.submit ?w ?e ?p ?l s] =>
        destruct (PumpPortalExecutor.submit w e p l s)
          as [[[signature [reason | received sold sol]] | message] s1]
    end.
    + cbn in H. injection H as <- <-. discriminate.
    + destruct (negb (JS.truthy received) || (received <=? 0)) eqn:Hcheck.
      * cbn in H. injection H as <- <-. discriminate.
      * cbn in H. injection H as <- <-. cbn.
        apply orb_false_iff in Hcheck as [Htruthy Hle].
        apply negb_false_iff in Htruthy.
        eexists. split; [reflexivity |].
        apply truthy_not_le_zero_pos; assumption.
    + cbn in H. injection H as <- <-. discriminate.
  - intros W ex mint amountTokens slippage priorityFee s r s' Hlive H Hok.
    unfold PumpPortalExecutor.sellToken in H. rewrite Hlive in H.
    unfold try_catch in H. unfold bind at 1 in H.
    match type of H with
    | context [PumpPortalExecutor.submit ?w ?e ?p ?l s] =>
        destruct (PumpPortalExecutor.submit w e p l s)
          as [[[signature [reason | received sold sol]] | message] s1]
    end.
    + cbn in H. injection H as <- <-. discriminate.
    + destruct (negb (JS.truthy sold) || (sold <=? 0)) eqn:Hsold.
      * cbn in H. injection H as <- <-. discriminate.
      * destruct (negb (JS.truthy sol) || (sol <=? 0)) eqn:Hsol.
        -- cbn in H. injection H as <- <-. discriminate.
        -- cbn in H. injection H as <- <-. cbn.
           apply orb_false_iff in Hsold as [Hsold1 Hsold2].
           apply orb_false_iff in Hsol as [Hsol1 Hsol2].
           apply negb_false_iff in Hsold1, Hsol1.
           exists sold, sol.
           repeat split; try reflexivity;
             apply truthy_not_le_zero_pos; assumption.
    + cbn in H. injection H as <- <-. discriminate.
Qed.

(** C1, on the Lightning API executor.  Outside dry-run mode the
    endpoint answers a buy with a signature; the signature is never
    confirmed and the node does not know the transaction, or knows a
    transaction in which no balance moves.  Both orders are reported
    with [success = true] and zero tokens received; the sell of the
    same kind is reported with [success = true] and zero SOL received. *)
Theorem lightning_success_without_movement :
  (exists r s',
     PumpPortalLightning.buyToken (Examples.lightningWorld None)
       Examples.liveExecutor "Mint" 0.1 None None Examples.freshExecutor
     = (Ok r, s') /\
     simulated r = false /\ success r = true /\ tokensReceived r = Some 0)
  /\ (exists r s',
        PumpPortalLightning.buyToken
          (Examples.lightningWorld (Some Examples.idleTransaction))
          Examples.liveExecutor "Mint" 0.1 None None Examples.freshExecutor
        = (Ok r, s') /\
        simulated r = false /\ success r = true /\ tokensReceived r = Some 0)
  /\ (exists r s',
        PumpPortalLightning.sellToken
          (Examples.lightningWorld (Some Examples.idleTransaction))
          Examples.liveExecutor "Mint" (Str "100%") None None
          Examples.freshExecutor
        = (Ok r, s') /\
        simulated r = false /\ success r = true /\ solReceived r = Some 0).
Proof.
  repeat split; eexists; eexists;
    (split; [vm_compute; reflexivity | repeat split; reflexivity]).
Qed.

(** The Local API executor refuses the transaction in which nothing
    moves. *)
Lemma local_rejects_idle_transaction :
  PumpPortalExecutor.parseTx
    {| PumpPortalExecutor.dryRun := false;
       PumpPortalExecutor.walletPubkey := "Wallet" |}
    (Some Examples.idleTransaction)
  = PumpPortalExecutor.Failed
      "No token/SOL movement detected for wallet (likely failed tx)".
Proof. vm_compute. reflexivity. Qed.

Lemma fakeSignature_loop_state W n :
  forall sig s,
    exists sig',
      PumpPortalExecutor.fakeSignature_loop W n sig s
      = (Ok sig', {| calls := calls s; drawn := (drawn s + n)%nat;
                     tick := tick s |}).
Proof.
  induction n as [| n IH]; intros sig s; cbn.
  - exists sig. unfold ret. rewrite Nat.add_0_r. destruct s; reflexivity.
  - unfold bind, math_random.
    destruct (IH (sig ++ PumpPortalExecutor.pickChar (random W (drawn s)))%string
                 {| calls := calls s; drawn := S (drawn s); tick := tick s |})
      as [sig' Hsig'].
    exists sig'. rewrite Hsig'. cbn. rewrite Nat.add_succ_r. reflexivity.
Qed.

Lemma simulateBuy_result W mint solAmount s :
  exists sig,
    PumpPortalExecutor.simulateBuy W mint solAmount s
    = (Ok {| success := true; simulated := true; result_action := "buy";
             result_mint := mint; signature := Some sig;
             solSpent := Some solAmount;
             tokensReceived := Some (solAmount / 0.000001);
             requestedTokens := None; tokensSold := None; solReceived := None;
             timestamp := Some (clock W (tick s)); error := None |},
       {| calls := calls s; drawn := (drawn s + 88)%nat; tick := S (tick s) |}).
Proof.
  unfold PumpPortalExecutor.simulateBuy, PumpPortalExecutor.fakeSignature.
  destruct (fakeSignature_loop_state W 88 "" s) as [sig Hsig].
  exists sig. unfold bind at 1. rewrite Hsig. reflexivity.
Qed.

Lemma simulateSell_result W mint amountTokens s :
  exists sig,
    PumpPortalExecutor.simulateSell W mint amountTokens s
    = (Ok {| success := true; simulated := true; result_action := "sell";
             result_mint := mint; signature := Some sig;
             solSpent := None; tokensReceived := None;
             requestedTokens := None; tokensSold := Some amountTokens;
             solReceived :=
               Some (if isPercent amountTokens then 0
                     else PumpPortalExecutor.amountNumber W amountTokens
                          * 0.000001);
             timestamp := Some (clock W (tick s)); error := None |},
       {| calls := calls s; drawn := (drawn s + 88)%nat; tick := S (tick s) |}).
Proof.
  unfold PumpPortalExecutor.simulateSell, PumpPortalExecutor.fakeSignature.
  destruct (fakeSignature_loop_state W 88 "" s) as [sig Hsig].
  exists sig. unfold bind at 1. rewrite Hsig. reflexivity.
Qed.

(** [trim] removes the blanks at the end of an amount before the
    percent sign is looked for, the no-break space included; a dry-run
    sell of such an amount receives 0. *)
Example isPercent_after_trim :
  isPercent (Str Examples.percentWithBlank) = true /\
  isPercent (Str " 50 % ") = true /\
  isPercent (Str "100") = false /\
  exists res s',
    PumpPortalExecutor.sellToken (Examples.lightningWorld None)
      Examples.paperExecutor "Mint" (Str Examples.percentWithBlank) None None
      Examples.freshExecutor
    = (Ok res, s') /\
    solReceived res = Some 0%float.
Proof.
  repeat split; try reflexivity.
  eexists. eexists. split; vm_compute; reflexivity.
Qed.

(** C9, as the code has it.  In dry-run mode a buy and a sell make no
    network call and return a synthetic result computed from the fixed
    price 0.000001: the tokens received are [solAmount / 0.000001], the
    SOL received is [amountTokens * 0.000001] (0 for a percentage).  Two
    such calls with the same arguments, whatever the network, the state
    of the random generator and the clock, return results that agree on
    everything but the signature and the timestamp. *)
Theorem dry_run_is_synthetic :
  (forall W W' ex ex' mint solAmount slippage priorityFee s s' r t r' t',
     PumpPortalExecutor.dryRun ex = true ->
     PumpPortalExecutor.dryRun ex' = true ->
     PumpPortalExecutor.buyToken W ex mint solAmount slippage priorityFee s
     = (r, t) ->
     PumpPortalExecutor.buyToken W' ex' mint solAmount slippage priorityFee s'
     = (r', t') ->
     exists res res',
       r = Ok res /\ r' = Ok res' /\
       calls t = calls s /\ calls t' = calls s' /\
       success res = true /\
       tokensReceived res = Some (solAmount / 0.000001) /\
       unstamped res = unstamped res')
  /\ (forall W W' ex ex' mint amountTokens slippage priorityFee s s' r t r' t',
        PumpPortalExecutor.dryRun ex = true ->
        PumpPortalExecutor.dryRun ex' = true ->
        toNumber W' = toNumber W ->
        PumpPortalExecutor.sellToken W ex mint amountTokens slippage priorityFee s
        = (r, t) ->
        PumpPortalExecutor.sellToken W' ex' mint amountTokens slippage priorityFee s'
        = (r', t') ->
        exists res res',
          r = Ok res /\ r' = Ok res' /\
          calls t = calls s /\ calls t' = calls s' /\
          success res = true /\
          tokensSold res = Some amountTokens /\
          solReceived res
          = Some (if isPercent amountTokens then 0
                  else PumpPortalExecutor.amountNumber W amountTokens * 0.000001) /\
          unstamped res = unstamped res').
Proof.
  split.
  - intros W W' ex ex' mint solAmount slippage priorityFee s s' r t r' t'
      Hdry Hdry' H H'.
    unfold PumpPortalExecutor.buyToken, try_catch in H, H'.
    rewrite Hdry in H. rewrite Hdry' in H'.
    destruct (simulateBuy_result W mint solAmount s) as [sig Hsim].
    destruct (simulateBuy_result W' mint solAmount s') as [sig' Hsim'].
    rewrite Hsim in H. rewrite Hsim' in H'.
    injection H as <- <-. injection H' as <- <-.
    eexists. eexists. repeat split; reflexivity.
  - intros W W' ex ex' mint amountTokens slippage priorityFee s s' r t r' t'
      Hdry Hdry' Hnumber H H'.
    unfold PumpPortalExecutor.sellToken, try_catch in H, H'.
    rewrite Hdry in H. rewrite Hdry' in H'.
    destruct (simulateSell_result W mint amountTokens s) as [sig Hsim].
    destruct (simulateSell_result W' mint amountTokens s') as [sig' Hsim'].
    rewrite Hsim in H. rewrite Hsim' in H'.
    injection H as <- <-. injection H' as <- <-.
    eexists. eexists. repeat split; try reflexivity.
    unfold unstamped, PumpPortalExecutor.amountNumber. cbn.
    rewrite Hnumber. reflexivity.
Qed.

(** Two dry-run buys in a row on one executor. *)
Lemma dry_run_is_synthetic_witness :
  exists res res',
    fst (PumpPortalExecutor.buyToken (Examples.lightningWorld None)
           Examples.paperExecutor "Mint" 1 None None Examples.freshExecutor)
    = Ok res /\
    fst (PumpPortalExecutor.buyToken (Examples.lightningWorld None)
           Examples.paperExecutor "Mint" 1 None None
           (snd (PumpPortalExecutor.buyToken (Examples.lightningWorld None)
                   Examples.paperExecutor "Mint" 1 None None
                   Examples.freshExecutor)))
    = Ok res' /\
    success res = true /\
    tokensReceived res = Some (1 / 0.000001) /\
    unstamped res = unstamped res'.
Proof.
  destruct (proj1 dry_run_is_synthetic
              (Examples.lightningWorld None) (Examples.lightningWorld None)
              Examples.paperExecutor Examples.paperExecutor
              "Mint"%string 1 None None
              Examples.freshExecutor
              (snd (PumpPortalExecutor.buyToken (Examples.lightningWorld None)
                      Examples.paperExecutor "Mint" 1 None None
                      Examples.freshExecutor))
              _ _ _ _ eq_refl eq_refl
              (surjective_pairing _) (surjective_pairing _))
    as (res & res' & H1 & H2 & _ & _ & Hok & Htokens & Hsame).
  exists res, res'. auto.
Defined.

(** C9 as stated fails on the signature: two dry-run buys with the same
    arguments, one after the other on the same executor, return
    different signatures (and timestamps), because each signature is
    drawn from [Math.random()]. *)
Lemma dry_run_signatures_differ :
  exists r1 s1 r2 s2,
    PumpPortalExecutor.buyToken (Examples.lightningWorld None)
      Examples.paperExecutor "Mint" 1 None None Examples.freshExecutor
    = (Ok r1, s1) /\
    PumpPortalExecutor.buyToken (Examples.lightningWorld None)
      Examples.paperExecutor "Mint" 1 None None s1
    = (Ok r2, s2) /\
    success r1 = true /\ success r2 = true /\
    signature r1 = Some (Examples.copies 88 "a") /\
    signature r2 = Some (Examples.copies 88 "2") /\
    timestamp r1 = Some 0%Z /\ timestamp r2 = Some 1000%Z.
Proof.
  eexists. eexists. eexists. eexists.
  split; [vm_compute; reflexivity |].
  split; [vm_compute; reflexivity |].
  repeat split; vm_compute; reflexivity.
Qed.

End Executors.

(** ** Facts on binary64 numbers *)

Section Numbers.
Local Open Scope float_scope.

Lemma Prim2SF_zero : Prim2SF 0 = S754_zero false.
Proof. reflexivity. Qed.

(** A number above zero is a positive finite number or [+Infinity]. *)
Lemma positive_cases (x : float) :
  (0 <? x) = true ->
  Prim2SF x = S754_infinity false \/ exists m e, Prim2SF x = S754_finite false m e.
Proof.
  rewrite FloatAxioms.ltb_spec. rewrite Prim2SF_zero.
  destruct (Prim2SF x) as [[|] | [|] | | [|] m e]; cbn; try discriminate; eauto.
Qed.

Lemma positive_truthy (x : float) : (0 <? x) = true -> JS.truthy x = true.
Proof.
  intros H. unfold JS.truthy, is_zero, is_nan.
  rewrite !FloatAxioms.eqb_spec.
  change (Prim2SF PrimFloat.zero) with (S754_zero false).
  destruct (positive_cases x H) as [-> | (m & e & ->)]; cbn.
  - reflexivity.
  - rewrite Z.compare_refl, Pos.compare_cont_refl. reflexivity.
Qed.

Lemma positive_not_le (x : float) : (0 <? x) = true -> (x <=? 0) = false.
Proof.
  intros H. rewrite FloatAxioms.leb_spec, Prim2SF_zero.
  destruct (positive_cases x H) as [-> | (m & e & ->)]; reflexivity.
Qed.

Lemma abs_positive (x : float) : (0 <? x) = true -> abs x = x.
Proof.
  intros H. apply Prim2SF_inj. rewrite FloatAxioms.abs_spec.
  destruct (positive_cases x H) as [-> | (m & e & ->)]; reflexivity.
Qed.

Lemma abs_opp (x : float) : abs (- x) = abs x.
Proof.
  apply Prim2SF_inj. rewrite !FloatAxioms.abs_spec, FloatAxioms.opp_spec.
  destruct (Prim2SF x); reflexivity.
Qed.

(** Above a number that is above zero. *)
Lemma above_positive (a x : float) :
  (0 <? a) = true -> (a <? x) = true -> (0 <? x) = true.
Proof.
  intros Ha. rewrite !FloatAxioms.ltb_spec, Prim2SF_zero.
  destruct (positive_cases a Ha) as [-> | (m & e & ->)];
    destruct (Prim2SF x) as [[|] | [|] | | [|] m' e']; cbn; congruence.
Qed.

Lemma truthy_positive_or_negative (x : float) :
  JS.truthy x = true -> (0 <? x) = true \/ (x <=? 0) = true.
Proof.
  unfold JS.truthy, is_zero, is_nan.
  rewrite FloatAxioms.ltb_spec, FloatAxioms.leb_spec, !FloatAxioms.eqb_spec.
  change (Prim2SF 0) with (S754_zero false).
  change (Prim2SF PrimFloat.zero) with (S754_zero false).
  destruct (Prim2SF x) as [[|] | [|] | | [|] m e]; cbn; auto.
Qed.

End Numbers.

(** ** Profit and loss: validation, slippage and open positions *)

Section PnLValidation.
Import PnLCalculator.
Local Open Scope float_scope.

Lemma positive_Some (o : option float) :
  positive o = true -> exists x, o = Some x /\ (0 <? x) = true.
Proof. destruct o as [x |]; [eauto | discriminate]. Qed.

Lemma required_positive (o : option float) :
  falsy o = false ->
  (forall x, o = Some x -> (x <=? 0) = false) ->
  positive o = true.
Proof.
  destruct o as [x |]; [| discriminate]. cbn. intros Htruthy Hle.
  apply negb_false_iff in Htruthy.
  apply truthy_not_le_zero_pos; [assumption | apply Hle; reflexivity].
Qed.

Lemma calculatePnL_Ok_wellFormed trade r :
  calculatePnL trade = Ok r -> wellFormed trade = true.
Proof.
  unfold calculatePnL, wellFormed. intros H.
  destruct (falsy (entryPrice trade)) eqn:H1; [discriminate |].
  destruct (falsy (exitPrice trade)) eqn:H2; [discriminate |].
  destruct (falsy (tokenAmount trade)) eqn:H3; [discriminate |].
  destruct (falsy (solSpent trade)) eqn:H4; [discriminate |].
  cbn [orb] in H.
  destruct (entryPrice trade) as [entryPx |]; [| discriminate].
  destruct (exitPrice trade) as [exitPx |]; [| discriminate].
  destruct (tokenAmount trade) as [quantity |]; [| discriminate].
  destruct (solSpent trade) as [spent |]; [| discriminate].
  destruct (quantity <=? 0) eqn:L3; [discriminate |].
  destruct (spent <=? 0) eqn:L4; [discriminate |].
  destruct (entryPx <=? 0) eqn:L1; [discriminate |].
  destruct (exitPx <=? 0) eqn:L2; [discriminate |].
  rewrite !required_positive; try assumption; try reflexivity;
    intros x [= <-]; assumption.
Qed.

Lemma wellFormed_fields trade :
  wellFormed trade = true ->
  exists entryPx exitPx quantity spent,
    entryPrice trade = Some entryPx /\ exitPrice trade = Some exitPx /\
    tokenAmount trade = Some quantity /\ solSpent trade = Some spent /\
    (0 <? entryPx) = true /\ (0 <? exitPx) = true /\
    (0 <? quantity) = true /\ (0 <? spent) = true.
Proof.
  unfold wellFormed. intros H.
  apply andb_prop in H as [H H4]. apply andb_prop in H as [H H3].
  apply andb_prop in H as [H1 H2].
  apply positive_Some in H1 as (e & -> & He), H2 as (x & -> & Hx),
      H3 as (q & -> & Hq), H4 as (sp & -> & Hsp).
  exists e, x, q, sp. repeat split; assumption.
Qed.

Lemma wellFormed_calculatePnL_Ok trade :
  wellFormed trade = true -> exists r, calculatePnL trade = Ok r.
Proof.
  intros H.
  destruct (wellFormed_fields trade H)
    as (e & x & q & sp & He & Hx & Hq & Hsp & Pe & Px & Pq & Psp).
  unfold calculatePnL. rewrite He, Hx, Hq, Hsp. cbn [falsy].
  rewrite !positive_truthy by assumption. cbn [negb orb].
  rewrite !positive_not_le by assumption. cbn [orb].
  destruct (executorFees _) as [[buyFee sellFee] label]. eauto.
Qed.

(** X1. [calculatePnL] computes a result exactly for the trades whose
    entry price, exit price, token amount and SOL spent are all present
    and above zero; for every other trade (a missing field, a zero, a
    NaN, a negative number) it throws. *)
Theorem calculatePnL_accepts_positive_trades_only :
  forall trade,
    (wellFormed trade = true <-> exists r, calculatePnL trade = Ok r) /\
    (wellFormed trade = false <-> exists message, calculatePnL trade = Throw message).
Proof.
  intros trade. split; split.
  - apply wellFormed_calculatePnL_Ok.
  - intros [r H]. exact (calculatePnL_Ok_wellFormed _ _ H).
  - intros Hbad. destruct (calculatePnL trade) as [r | message] eqn:H; [| eauto].
    apply calculatePnL_Ok_wellFormed in H. congruence.
  - intros [message H]. destruct (wellFormed trade) eqn:Hwf; [| reflexivity].
    apply wellFormed_calculatePnL_Ok in Hwf as [r Hr]. congruence.
Qed.

End PnLValidation.

Section PnLSlippage.
Import PnLCalculator.
Local Open Scope float_scope.

(** X2. Slippage is charged by its magnitude and only above 0.0001: a
    trade with the slippage [- s] gets the amounts of the trade with the
    slippage [s], and a slippage whose magnitude is not above 0.0001 (a
    NaN included) leaves the value after the sell fee as it is. *)
Theorem calculatePnL_slippage_by_magnitude :
  forall trade s r,
    calculatePnL (withSlippage trade (Some s)) = Ok r ->
    (exists r',
       calculatePnL (withSlippage trade (Some (- s))) = Ok r' /\
       pnlSOL r' = pnlSOL r /\ pnlPercent r' = pnlPercent r /\
       netReceived r' = netReceived r /\
       valueAfterSlippage (exit r') = valueAfterSlippage (exit r) /\
       slippagePercent (exit r') = - s) /\
    ((0.0001 <? abs s) = false ->
     valueAfterSlippage (exit r) = valueAfterSellFee (exit r)).
Proof.
  intros trade s r H. unfold calculatePnL in *. cbn [withSlippage entryPrice exitPrice
    tokenAmount solSpent executor slippage networkFee priorityFee JS.nullish] in *.
  rewrite abs_opp.
  destruct (falsy (entryPrice trade) || falsy (exitPrice trade)
            || falsy (tokenAmount trade) || falsy (solSpent trade));
    [discriminate |].
  destruct (entryPrice trade) as [entryPx |]; [| discriminate].
  destruct (exitPrice trade) as [exitPx |]; [| discriminate].
  destruct (tokenAmount trade) as [quantity |]; [| discriminate].
  destruct (solSpent trade) as [spent |]; [| discriminate].
  destruct ((quantity <=? 0) || (spent <=? 0) || (entryPx <=? 0)
            || (exitPx <=? 0)); [discriminate |].
  destruct (executorFees _) as [[buyFee sellFee] label].
  injection H as <-. split.
  - eexists. split; [reflexivity |]. cbn. repeat split; reflexivity.
  - intros Hsmall. cbn. rewrite Hsmall. reflexivity.
Qed.

(** The theorem on the round trip of the specification with 2% of
    slippage. *)
Lemma calculatePnL_slippage_by_magnitude_witness :
  exists r r',
    calculatePnL (withSlippage Examples.roundTrip (Some 0.02)) = Ok r /\
    calculatePnL (withSlippage Examples.roundTrip (Some (- 0.02))) = Ok r' /\
    pnlPercent r' = pnlPercent r /\ pnlPercent r = 44.43.
Proof.
  eexists.
  destruct (proj1 (calculatePnL_slippage_by_magnitude Examples.roundTrip 0.02 _
                     eq_refl)) as (r' & Hr' & _ & Hpct & _).
  exists r'. split; [reflexivity |]. split; [exact Hr' |].
  split; [exact Hpct | reflexivity].
Defined.

End PnLSlippage.

(** ** Profit and loss: the order of the deductions *)

Section PnLOrder.
Import PnLCalculator.
Local Open Scope float_scope.

(** C3. For every trade whose entry price, exit price, token amount and
    currency spent are present and above zero, [calculatePnL] returns a
    result, and that result starts from the gross proceeds
    [tokenAmount * exitPrice] and subtracts, in this order: the sell fee
    of the venue (1.75% for PumpPortal, 0.3% for Jupiter, 1% for any
    other); the slippage, by its magnitude and only when that magnitude
    is above 0.0001; the sum of the network fee (0.000005 by default)
    and the priority fee, as given.  The percentage is the net received
    less the currency spent, over the currency spent, times 100, rounded
    to two decimals.  On the round trip of the specification it is
    47.37, the two-decimal rounding of the exact value 47.374995 that
    the same order gives by hand.  The earlier [calculatePnL] returns a
    result for every trade whose four amounts are present, not zero and
    not NaN: it charges the sell fee the caller passes (1% by default),
    has no slippage and no network fee, and does not round. *)
Theorem calculatePnL_fee_order :
  (forall trade, wellFormed trade = true ->
     exists r quantity exitPx spent,
       calculatePnL trade = Ok r /\
       tokenAmount trade = Some quantity /\
       exitPrice trade = Some exitPx /\
       solSpent trade = Some spent /\
       let x := exit r in
       let slip := JS.nullish (slippage trade) 0 in
       grossValue x = quantity * exitPx /\
       sellFeePercent x
         = snd (fst (executorFees (default "pumpportal"%string (executor trade)))) /\
       sellFeeAmount x = grossValue x * sellFeePercent x /\
       valueAfterSellFee x = grossValue x - sellFeeAmount x /\
       valueAfterSlippage x
         = (if 0.0001 <? abs slip
            then valueAfterSellFee x - valueAfterSellFee x * abs slip
            else valueAfterSellFee x) /\
       exit_netReceived x
         = valueAfterSlippage x
           - (JS.nullish (networkFee trade) 0.000005
              + JS.nullish (priorityFee trade) 0) /\
       pnlPercent r
         = JS.toFixed 2 ((exit_netReceived x - spent) / spent * 100))
  /\ (forall venue,
        snd (fst (executorFees venue))
        = if String.eqb venue "pumpportal" then 0.0175
          else if String.eqb venue "jupiter" then 0.003 else 0.01)
  /\ (exists r, calculatePnL Examples.roundTrip = Ok r /\
        pnlPercent r = 47.37 /\
        PnLReference.pnlPercent 1000000 (15 # 100000) 100 (175 # 10000) 0
                                (5 # 1000000) 0 == 47374995 # 1000000 /\
        PnLReference.hundredths (47374995 # 1000000) = 4737%Z /\
        pnlPercent r = JS.ofRatio 4737 100)
  /\ (forall trade,
        falsy (PnLCalculatorBasic.entryPrice trade) = false ->
        falsy (PnLCalculatorBasic.exitPrice trade) = false ->
        falsy (PnLCalculatorBasic.tokenAmount trade) = false ->
        falsy (PnLCalculatorBasic.solSpent trade) = false ->
        exists r quantity exitPx spent,
          PnLCalculatorBasic.calculatePnL trade = Ok r /\
          PnLCalculatorBasic.tokenAmount trade = Some quantity /\
          PnLCalculatorBasic.exitPrice trade = Some exitPx /\
          PnLCalculatorBasic.solSpent trade = Some spent /\
          PnLCalculatorBasic.sellFeePercent r
            = JS.nullish
                (PnLCalculatorBasic.sellFee
                   (default {| PnLCalculatorBasic.buyFee := None;
                               PnLCalculatorBasic.sellFee := None |}
                            (PnLCalculatorBasic.fees trade))) 0.01 /\
          PnLCalculatorBasic.solBeforeSellFee r = quantity * exitPx /\
          PnLCalculatorBasic.solAfterSellFee r
            = PnLCalculatorBasic.solBeforeSellFee r
              * (1 - PnLCalculatorBasic.sellFeePercent r) /\
          PnLCalculatorBasic.pnlPercent r
            = (PnLCalculatorBasic.solAfterSellFee r - spent) / spent * 100).
Proof.
  split; [| split; [| split]].
  - intros trade Hwf.
    destruct (wellFormed_fields trade Hwf)
      as (e & x & q & sp & He & Hx & Hq & Hsp & Pe & Px & Pq & Psp).
    unfold calculatePnL. rewrite He, Hx, Hq, Hsp. cbn [falsy].
    rewrite !positive_truthy by assumption. cbn [negb orb].
    rewrite !positive_not_le by assumption. cbn [orb].
    destruct (executorFees (default "pumpportal"%string (executor trade)))
      as [[buyFee sellFee] label] eqn:Hfees.
    eexists. exists q, x, sp. split; [reflexivity |].
    cbn. repeat split; reflexivity.
  - intros venue. unfold executorFees.
    destruct (String.eqb venue "pumpportal"); [reflexivity |].
    destruct (String.eqb venue "jupiter"); reflexivity.
  - eexists. split; [vm_compute; reflexivity |].
    repeat split; vm_compute; reflexivity.
  - intros trade H1 H2 H3 H4. unfold PnLCalculatorBasic.calculatePnL.
    rewrite H1, H2, H3, H4. cbn [orb].
    destruct (PnLCalculatorBasic.entryPrice trade) as [e |]; [| discriminate].
    destruct (PnLCalculatorBasic.exitPrice trade) as [x |]; [| discriminate].
    destruct (PnLCalculatorBasic.tokenAmount trade) as [q |]; [| discriminate].
    destruct (PnLCalculatorBasic.solSpent trade) as [sp |]; [| discriminate].
    eexists. exists q, x, sp. split; [reflexivity |].
    cbn. repeat split; reflexivity.
Qed.

(** The theorem at the round trip of the specification. *)
Lemma calculatePnL_fee_order_witness :
  wellFormed Examples.roundTrip = true /\
  exists r, calculatePnL Examples.roundTrip = Ok r /\
    grossValue (exit r) = 1000000 * 0.00015 /\
    valueAfterSellFee (exit r) = grossValue (exit r) - sellFeeAmount (exit r) /\
    valueAfterSlippage (exit r) = valueAfterSellFee (exit r) /\
    exit_netReceived (exit r) = valueAfterSlippage (exit r) - (0.000005 + 0) /\
    pnlPercent r
      = JS.toFixed 2 ((exit_netReceived (exit r) - 100) / 100 * 100) /\
    exists r',
      PnLCalculatorBasic.calculatePnL Examples.basicRoundTrip = Ok r' /\
      PnLCalculatorBasic.solBeforeSellFee r' = 1000000 * 0.00015 /\
      PnLCalculatorBasic.solAfterSellFee r'
      = PnLCalculatorBasic.solBeforeSellFee r' * (1 - 0.0175) /\
      PnLCalculatorBasic.pnlPercent r'
      = (PnLCalculatorBasic.solAfterSellFee r' - 100) / 100 * 100.
Proof.
  split; [reflexivity |].
  destruct calculatePnL_fee_order as (Hsteps & _ & _ & Hbasic).
  destruct (Hsteps Examples.roundTrip eq_refl)
    as (r & q & p & s & Hr & Hq & Hp & Hs & Hgross & _ & _ & Hfee & Hslip
        & Hnet & Hpct).
  exists r. split; [exact Hr |].
  injection Hq as <-. injection Hp as <-. injection Hs as <-.
  split; [exact Hgross |]. split; [exact Hfee |]. split; [exact Hslip |].
  split; [exact Hnet |]. split; [exact Hpct |].
  destruct (Hbasic Examples.basicRoundTrip eq_refl eq_refl eq_refl eq_refl)
    as (r' & q' & p' & s' & Hr' & Hq' & Hp' & Hs' & Hrate & Hgross' & Hafter
        & Hpct').
  exists r'. split; [exact Hr' |].
  injection Hq' as <-. injection Hp' as <-. injection Hs' as <-.
  split; [exact Hgross' |]. split; [| exact Hpct'].
  rewrite Hafter, Hrate. reflexivity.
Defined.

(** Three runs in which a step of the order does not reduce the
    proceeds.  A slippage of 0.00005 is below the threshold: the value
    after slippage is the value after the sell fee, and the percentage
    is the 47.37 of the trade without slippage.  A network fee below
    zero raises the net received above the value after slippage.  The
    earlier calculator has neither a slippage nor a network-fee step and
    does not round: on the round trip it returns 47.375, whose
    two-decimal rounding 47.38 is not the 47.37 of the reference. *)
Lemma calculatePnL_step_not_reducing :
  (exists r,
     calculatePnL (withSlippage Examples.roundTrip (Some 0.00005)) = Ok r /\
     valueAfterSlippage (exit r) = valueAfterSellFee (exit r) /\
     slippageAmount (exit r) = 0 /\
     pnlPercent r = 47.37) /\
  (exists r,
     calculatePnL Examples.refundedRoundTrip = Ok r /\
     (valueAfterSlippage (exit r) <? exit_netReceived (exit r)) = true /\
     pnlPercent r = 48.38) /\
  (exists r,
     PnLCalculatorBasic.calculatePnL Examples.basicRoundTrip = Ok r /\
     PnLCalculatorBasic.pnlPercent r = 47.375 /\
     JS.toFixed 2 (PnLCalculatorBasic.pnlPercent r) = 47.38 /\
     (47.38 =? 47.37) = false).
Proof.
  split; [| split]; eexists; (split; [vm_compute; reflexivity |]);
    repeat split; vm_compute; reflexivity.
Qed.

End PnLOrder.

Section PnLOpenPositions.
Import PnLCalculator.
Local Open Scope float_scope.

(** X3. The unrealized PnL of an open position is the realized PnL of
    closing it at the current price: whenever [calculatePnL] accepts the
    closing trade, on the PumpPortal or the Jupiter executor and with an
    estimated slippage above 0.0001, [calculateUnrealizedPnL] returns
    the same net amount, PnL in SOL, PnL percentage and fee rate.  For
    any other executor it charges 0.3% where [calculatePnL] charges 1%. *)
Theorem unrealized_is_realized_at_current_price :
  forall read clock position currentPrice options r,
    calculatePnL (closingTrade read position currentPrice options) = Ok r ->
    exists u,
      calculateUnrealizedPnL read clock position currentPrice options = Ok u /\
      let executor := default "pumpportal"%string (opt_executor options) in
      let slip := JS.nullish (opt_estimatedSlippage options) 0.02 in
      (executor = "pumpportal"%string \/ executor = "jupiter"%string ->
       cur_sellFeePercent u = sellFeePercent (exit r) /\
       ((0.0001 <? slip) = true ->
        cur_netReceived u = exit_netReceived (exit r) /\
        unrealized_pnlSOL u = pnlSOL r /\
        unrealized_pnlPercent u = pnlPercent r)) /\
      (executor <> "pumpportal"%string -> executor <> "jupiter"%string ->
       cur_sellFeePercent u = 0.003 /\ sellFeePercent (exit r) = 0.01).
Proof.
  intros read clock position currentPrice options r H.
  pose proof (calculatePnL_Ok_wellFormed _ _ H) as Hwf.
  destruct (wellFormed_fields _ Hwf)
    as (e & x & q & sp & He & Hx & Hq & Hsp & Pe & Px & Pq & Psp).
  cbn [closingTrade entryPrice exitPrice tokenAmount solSpent] in He, Hx, Hq, Hsp.
  injection He as <-. injection Hx as <-. injection Hq as <-. injection Hsp as <-.
  unfold calculateUnrealizedPnL.
  rewrite !positive_truthy by assumption. cbn [negb orb].
  rewrite !positive_not_le by assumption. cbn [orb].
  eexists. split; [reflexivity |]. cbn zeta.
  cbn [cur_sellFeePercent cur_netReceived unrealized_pnlSOL unrealized_pnlPercent].
  unfold calculatePnL in H.
  cbn [closingTrade entryPrice exitPrice tokenAmount solSpent executor slippage
         networkFee priorityFee falsy JS.nullish] in H.
  rewrite !positive_truthy in H by assumption. cbn [negb orb] in H.
  rewrite !positive_not_le in H by assumption. cbn [orb] in H.
  unfold executorFees in H.
  destruct (String.eqb_spec (default "pumpportal"%string (opt_executor options))
              "pumpportal") as [Hpump | Hpump].
  - injection H as <-. cbn. split.
    + intros _. split; [reflexivity |]. intros Hslip.
      rewrite (abs_positive (JS.nullish (opt_estimatedSlippage options) 0.02))
        by (eapply above_positive; [| exact Hslip]; reflexivity).
      rewrite Hslip.
      repeat split; reflexivity.
    + intros Hne. contradiction.
  - destruct (String.eqb_spec (default "pumpportal"%string (opt_executor options))
                "jupiter") as [Hjup | Hjup].
    + injection H as <-. cbn. split.
      * intros _. split; [reflexivity |]. intros Hslip.
        rewrite (abs_positive (JS.nullish (opt_estimatedSlippage options) 0.02))
          by (eapply above_positive; [| exact Hslip]; reflexivity).
        rewrite Hslip.
        repeat split; reflexivity.
      * intros _ Hne. contradiction.
    + injection H as <-. cbn. split.
      * intros [Heq | Heq]; contradiction.
      * intros _ _. split; reflexivity.
Qed.

(** The theorem on a million tokens bought at 0.0001 for 100 SOL and
    now quoted at 0.00015, with the default options. *)
Lemma unrealized_is_realized_at_current_price_witness :
  exists u r,
    calculateUnrealizedPnL (fun _ => nan) (fun n => Z.of_nat n)
      Scenarios.heldPosition 0.00015 Scenarios.defaultOptions = Ok u /\
    calculatePnL (closingTrade (fun _ => nan) Scenarios.heldPosition 0.00015
                    Scenarios.defaultOptions) = Ok r /\
    unrealized_pnlSOL u = pnlSOL r /\
    unrealized_pnlPercent u = pnlPercent r /\
    pnlPercent r = 44.43.
Proof.
  destruct (unrealized_is_realized_at_current_price
              (fun _ => nan) (fun n => Z.of_nat n)
              Scenarios.heldPosition 0.00015 Scenarios.defaultOptions _ eq_refl)
    as (u & Hu & Hsame & _).
  destruct (Hsame (or_introl eq_refl)) as (_ & Hamounts).
  destruct (Hamounts eq_refl) as (_ & Hsol & Hpct).
  exists u. eexists. split; [exact Hu |]. split; [reflexivity |].
  split; [exact Hsol |]. split; [exact Hpct | reflexivity].
Defined.

(** X4. [checkDiscrepancy] answers with the severity "ERROR" exactly for
    the trades [calculatePnL] rejects, those with a required field
    missing or not above zero.  For the others it reports the distance
    between the price change and the PnL percentage, and a high impact
    exactly when that distance is above 5 and above twice the fee
    impact.  The earlier [checkDiscrepancy] has no guard: it throws
    whenever its [calculatePnL] does, and flags a distance above 3. *)
Theorem checkDiscrepancy_severity :
  (forall trade,
     (severity (checkDiscrepancy trade) = "ERROR"%string
      <-> wellFormed trade = false) /\
     (hasHighImpact (checkDiscrepancy trade) = true
      <-> severity (checkDiscrepancy trade) = "HIGH"%string) /\
     (forall r, calculatePnL trade = Ok r ->
        let distance := abs (priceChangePercent r - pnlPercent r) in
        feeImpact (checkDiscrepancy trade) = Some distance /\
        hasHighImpact (checkDiscrepancy trade)
        = (5 <? distance) && (feeImpactPercent r * 2 <? distance)))
  /\ (forall trade,
        match PnLCalculatorBasic.calculatePnL trade with
        | Ok r =>
            let distance :=
              abs (PnLCalculatorBasic.priceChangePercent r
                   - PnLCalculatorBasic.pnlPercent r) in
            PnLCalculatorBasic.checkDiscrepancy trade
            = Ok (3 <? distance, distance)
        | Throw message =>
            PnLCalculatorBasic.checkDiscrepancy trade = Throw message
        end).
Proof.
  split.
  - intros trade. unfold checkDiscrepancy.
    destruct (calculatePnL trade) as [r | message] eqn:H.
    + pose proof (calculatePnL_Ok_wellFormed _ _ H) as Hwf.
      destruct ((5 <? abs (priceChangePercent r - pnlPercent r))
                && (feeImpactPercent r * 2 <? abs (priceChangePercent r - pnlPercent r)))
        eqn:Hhigh; cbn;
        (split; [split; [discriminate | congruence] |]);
        (split; [split; congruence |]);
        intros r' [= <-]; cbn; rewrite Hhigh; auto.
    + cbn. split; [| split; [split; discriminate | discriminate]].
      split; [| reflexivity]. intros _.
      destruct (wellFormed trade) eqn:Hwf; [| reflexivity].
      apply wellFormed_calculatePnL_Ok in Hwf as [r Hr]. congruence.
  - intros trade. unfold PnLCalculatorBasic.checkDiscrepancy.
    destruct (PnLCalculatorBasic.calculatePnL trade); reflexivity.
Qed.

End PnLOpenPositions.

Section CurveReaders.
Import PumpPriceReaderRaw.
Local Open Scope float_scope.

Lemma byteValue_range (b : Byte.byte) : (0 <= Buffer.byteValue b < 256)%Z.
Proof.
  unfold Buffer.byteValue. pose proof (Byte.to_N_bounded b). lia.
Qed.

Lemma littleEndian_range (bs : list Byte.byte) :
  (0 <= Buffer.littleEndian bs < 256 ^ Z.of_nat (length bs))%Z.
Proof.
  induction bs as [| b bs IH]; cbn [Buffer.littleEndian length].
  - cbn. lia.
  - rewrite Nat2Z.inj_succ, Z.pow_succ_r by lia.
    pose proof (byteValue_range b). lia.
Qed.

(** An unsigned 64-bit read gives a number below [2^64], and needs
    eight bytes from the offset on. *)
Lemma readBigUInt64LE_Ok (bytes : list Byte.byte) (offset : nat) (v : Z) :
  Buffer.readBigUInt64LE bytes offset = Ok v ->
  (0 <= v < 2 ^ 64)%Z /\ (offset + 8 <= length bytes)%nat.
Proof.
  unfold Buffer.readBigUInt64LE.
  destruct (length (take 8 (drop offset bytes)) =? 8)%nat eqn:Hlen; [| discriminate].
  apply Nat.eqb_eq in Hlen. intros [= <-].
  pose proof (littleEndian_range (take 8 (drop offset bytes))) as Hr.
  rewrite Hlen in Hr. change (256 ^ Z.of_nat 8)%Z with (2 ^ 64)%Z in Hr.
  split; [exact Hr |].
  rewrite length_take, length_drop in Hlen. lia.
Qed.

(** The progress of the bonding curve, as both readers compute it. *)
Lemma bondingProgress_range (rt : Z) :
  (0 <= rt)%Z ->
  let progress :=
    if (rt <? INITIAL_REAL_TOKEN_RESERVES)%Z
    then 1 - JS.ofZ (rt * 10000 / INITIAL_REAL_TOKEN_RESERVES) / 10000
    else 0 in
  (0 <=? progress) = true /\ (progress <=? 1) = true /\
  ((rt <? INITIAL_REAL_TOKEN_RESERVES)%Z = true -> (0 <? progress) = true).
Proof.
  intros Hrt. cbn zeta.
  destruct (rt <? INITIAL_REAL_TOKEN_RESERVES)%Z eqn:Hlt;
    [| split; [reflexivity | split; [reflexivity | discriminate]]].
  apply Z.ltb_lt in Hlt. unfold INITIAL_REAL_TOKEN_RESERVES in *.
  set (q := (rt * 10000 / 793100000000000)%Z).
  assert (0 <= q < 10000)%Z as Hq.
  { subst q. split.
    - apply Z.div_pos; lia.
    - apply Z.div_lt_upper_bound; lia. }
  assert (forallb (fun n => let p := 1 - JS.ofZ (Z.of_nat n) / 10000 in
                            (0 <? p) && (p <=? 1)) (seq 0 (Z.to_nat 10000)) = true) as Hall
    by (vm_compute; reflexivity).
  rewrite forallb_forall in Hall.
  specialize (Hall (Z.to_nat q)).
  rewrite Z2Nat.id in Hall by lia. cbn zeta in Hall.
  assert (In (Z.to_nat q) (seq 0 (Z.to_nat 10000))) as Hin by (apply in_seq; lia).
  apply Hall in Hin. apply andb_prop in Hin as [Hpos Hle].
  split; [| split; [exact Hle | intros _; exact Hpos]].
  rewrite FloatAxioms.leb_spec. rewrite FloatAxioms.ltb_spec in Hpos.
  unfold SFleb, SFltb in *.
  destruct (SFcompare _ _) as [[| |] |]; try discriminate; reflexivity.
Qed.


Lemma finite_not_le_zero_positive (x : float) :
  is_finite x = true -> (x <=? 0) = false -> (0 <? x) = true.
Proof.
  unfold is_finite, is_nan. intros Hfin Hle.
  apply negb_true_iff, orb_false_iff in Hfin as [Hnan _].
  apply negb_false_iff in Hnan. revert Hnan Hle.
  rewrite FloatAxioms.eqb_spec, FloatAxioms.leb_spec, FloatAxioms.ltb_spec.
  change (Prim2SF 0) with (S754_zero false).
  destruct (Prim2SF x) as [[|] | [|] | | [|] m e]; cbn; congruence.
Qed.

(** What a record returned by the raw reader says of the account. *)
Lemma getPrice_Some_inv rpc m p :
  getPrice rpc m = Some p ->
  exists bytes vt vs rt rs supply flag,
    isPublicKey rpc m = true /\
    getAccountInfo rpc (findBondingCurveAddress rpc m)
      = Ok (Some {| data := Some bytes |}) /\
    CurveFields bytes vt vs rt flag /\
    Buffer.readBigUInt64LE bytes 32 = Ok rs /\
    Buffer.readBigUInt64LE bytes 40 = Ok supply /\
    curveAddress p = findBondingCurveAddress rpc m /\
    reserves p = {| virtualTokenReserves := vt; virtualSolReserves := vs;
                    realTokenReserves := rt; realSolReserves := rs;
                    tokenTotalSupply := supply |} /\
    ((flag <> 0%Z /\ graduated p = true /\ price p = None /\ bondingProgress p = 1)
     \/ (flag = 0%Z /\ graduated p = false /\ (0 < vt)%Z /\ (0 < vs)%Z /\
         let quotient := JS.ofZ (vs * 1000000) / JS.ofZ (vt * 1000000000) in
         price p = Some quotient /\
         is_finite quotient = true /\ (quotient <=? 0) = false /\
         bondingProgress p
         = if (rt <? INITIAL_REAL_TOKEN_RESERVES)%Z
           then 1 - JS.ofZ (rt * 10000 / INITIAL_REAL_TOKEN_RESERVES) / 10000
           else 0)).
Proof.
  unfold getPrice, getPrice_body. intros H.
  destruct (isPublicKey rpc m) eqn:Hkey; [| discriminate]. cbn [negb] in H.
  destruct (getAccountInfo rpc (findBondingCurveAddress rpc m))
    as [[[[bytes |]] |] | e] eqn:Hacc; try discriminate. cbn [obind] in H.
  destruct (Buffer.startsWith8 bytes BONDING_CURVE_DISCRIMINATOR) eqn:Hdisc;
    [| discriminate]. cbn [negb] in H.
  unfold VIRTUAL_TOKEN_RESERVES, VIRTUAL_SOL_RESERVES, REAL_TOKEN_RESERVES,
    REAL_SOL_RESERVES, TOKEN_TOTAL_SUPPLY, COMPLETE in H.
  destruct (Buffer.readBigUInt64LE bytes 8) as [vt |] eqn:Hvt; [| discriminate].
  destruct (Buffer.readBigUInt64LE bytes 16) as [vs |] eqn:Hvs; [| discriminate].
  destruct (Buffer.readBigUInt64LE bytes 24) as [rt |] eqn:Hrt; [| discriminate].
  destruct (Buffer.readBigUInt64LE bytes 32) as [rs |] eqn:Hrs; [| discriminate].
  destruct (Buffer.readBigUInt64LE bytes 40) as [supply |] eqn:Hsupply; [| discriminate].
  destruct (Buffer.readUInt8 bytes 48) as [flag |] eqn:Hflag; [| discriminate].
  cbn [obind] in H.
  exists bytes, vt, vs, rt, rs, supply, flag.
  split; [first [reflexivity | assumption] |].
  split; [first [reflexivity | assumption] |].
  split; [split; first [reflexivity | assumption] |].
  split; [first [reflexivity | assumption] |].
  split; [first [reflexivity | assumption] |].
  destruct (flag =? 0)%Z eqn:Hz; cbn [negb] in H.
  - apply Z.eqb_eq in Hz.
    destruct (vt <=? 0)%Z eqn:H1; [discriminate |].
    destruct (vs <=? 0)%Z eqn:H2; [discriminate |]. cbn [orb] in H.
    unfold TOKEN_DECIMALS, SOL_DECIMALS in H.
    destruct (is_finite (JS.ofZ (vs * 1000000) / JS.ofZ (vt * 1000000000)))
      eqn:Hfin; [| discriminate].
    destruct (JS.ofZ (vs * 1000000) / JS.ofZ (vt * 1000000000) <=? 0)
      eqn:Hle; [discriminate |].
    cbn [negb orb] in H. injection H as <-. cbn.
    split; [reflexivity |]. split; [reflexivity |]. right.
    repeat split; try reflexivity; try assumption; lia.
  - apply Z.eqb_neq in Hz. injection H as <-. cbn.
    split; [reflexivity |]. split; [reflexivity |]. left. auto.
Qed.

(** X5. A record the raw reader returns is one of two kinds.  For an
    account whose completion byte is set it has no price, the progress 1
    and [graduated = true].  Otherwise both virtual reserves are above
    zero, the price is their quotient, a finite number above zero, the
    progress lies between 0 and 1, and [graduated = false].  In both
    cases the record names the curve address of the mint and its five
    reserves are the unsigned 64-bit numbers of the account. *)
Theorem raw_reader_record_sound :
  forall rpc m p,
    getPrice rpc m = Some p ->
    curveAddress p = findBondingCurveAddress rpc m /\
    (let r := reserves p in
     0 <= virtualTokenReserves r < 2 ^ 64 /\ 0 <= virtualSolReserves r < 2 ^ 64 /\
     0 <= realTokenReserves r < 2 ^ 64 /\ 0 <= realSolReserves r < 2 ^ 64 /\
     0 <= tokenTotalSupply r < 2 ^ 64)%Z /\
    ((graduated p = true /\ price p = None /\ bondingProgress p = 1)
     \/ (graduated p = false /\
         (0 < virtualTokenReserves (reserves p))%Z /\
         (0 < virtualSolReserves (reserves p))%Z /\
         (exists x, price p = Some x /\
            x = JS.ofZ (virtualSolReserves (reserves p) * 1000000)
                / JS.ofZ (virtualTokenReserves (reserves p) * 1000000000) /\
            is_finite x = true /\ (0 <? x) = true) /\
         (0 <=? bondingProgress p) = true /\ (bondingProgress p <=? 1) = true)).
Proof.
  intros rpc m p H.
  destruct (getPrice_Some_inv _ _ _ H)
    as (bytes & vt & vs & rt & rs & supply & flag & _ & _ & [_ Hvt Hvs Hrt _]
        & Hrs & Hsupply & Haddr & Hres & Hcase).
  apply readBigUInt64LE_Ok in Hvt as [Hvt _], Hvs as [Hvs _], Hrt as [Hrt _],
      Hrs as [Hrs _], Hsupply as [Hsupply _].
  split; [exact Haddr |]. rewrite Hres. cbn.
  split; [auto 6 |].
  destruct Hcase as [(_ & Hg & Hp & Hb) | (_ & Hg & Pvt & Pvs & Hp & Hfin & Hle & Hb)].
  - left. auto.
  - right. split; [exact Hg |]. split; [exact Pvt |]. split; [exact Pvs |].
    split.
    + eexists. split; [exact Hp |]. split; [reflexivity |].
      split; [exact Hfin |]. apply finite_not_le_zero_positive; assumption.
    + rewrite Hb. pose proof (bondingProgress_range rt ltac:(lia)) as (H0 & H1 & _).
      auto.
Qed.

(** The theorem on the account of the examples. *)
Lemma raw_reader_record_sound_witness :
  exists p,
    getPrice (Examples.curveRpc Byte.x00) "Mint" = Some p /\
    curveAddress p = "curve:Mint"%string /\
    graduated p = false /\
    (0 <=? bondingProgress p) = true /\ (bondingProgress p <=? 1) = true.
Proof.
  eexists. split; [reflexivity |].
  destruct (raw_reader_record_sound (Examples.curveRpc Byte.x00) "Mint"%string
              _ eq_refl) as (Haddr & _ & [(Hg & _) | (Hg & _ & _ & _ & H0 & H1)]).
  - discriminate.
  - auto.
Defined.

(** X6. The raw reader answers [null], and never throws, when the mint
    is not a public key, when the node fails or has no account or no
    data for the curve, when the account does not start with the
    discriminator of a bonding curve, when it is shorter than the 49
    bytes of the layout, and when the curve is not complete and one of
    its virtual reserves is zero. *)
Theorem raw_reader_answers_null :
  forall rpc m,
    (isPublicKey rpc m = false -> getPrice rpc m = None) /\
    (forall answer,
       getAccountInfo rpc (findBondingCurveAddress rpc m) = answer ->
       (exists message, answer = Throw message) \/ answer = Ok None
       \/ answer = Ok (Some {| data := None |}) ->
       getPrice rpc m = None) /\
    (forall bytes,
       getAccountInfo rpc (findBondingCurveAddress rpc m)
         = Ok (Some {| data := Some bytes |}) ->
       Buffer.startsWith8 bytes BONDING_CURVE_DISCRIMINATOR = false
       \/ (length bytes < 49)%nat
       \/ (exists vt vs rt, CurveFields bytes vt vs rt 0 /\ (vt = 0 \/ vs = 0)%Z) ->
       getPrice rpc m = None).
Proof.
  intros rpc m. split; [| split].
  - intros Hkey. unfold getPrice, getPrice_body. rewrite Hkey. reflexivity.
  - intros answer Hacc Hcase. unfold getPrice, getPrice_body.
    destruct (isPublicKey rpc m); [| reflexivity]. cbn [negb].
    rewrite Hacc.
    destruct Hcase as [[message ->] | [-> | ->]]; reflexivity.
  - intros bytes Hacc Hcase.
    destruct (getPrice rpc m) as [p |] eqn:H; [| reflexivity]. exfalso.
    destruct (getPrice_Some_inv _ _ _ H)
      as (bytes' & vt & vs & rt & rs & supply & flag & _ & Hacc'
          & [Hdisc Hvt Hvs Hrt Hflag] & _ & _ & _ & _ & Hkind).
    rewrite Hacc in Hacc'. injection Hacc' as <-.
    destruct Hcase as [Hbad | [Hshort | (vt' & vs' & rt' & [_ Hvt' Hvs' _ Hflag'] & Hzero)]].
    + congruence.
    + apply readUInt8_length in Hflag. lia.
    + rewrite Hvt in Hvt'. rewrite Hvs in Hvs'. rewrite Hflag in Hflag'.
      injection Hvt' as <-. injection Hvs' as <-. injection Hflag' as ->.
      destruct Hkind as [(Hne & _) | (_ & _ & Pvt & Pvs & _)]; lia.
Qed.

(** The theorem on an account cut after its reserves. *)
Lemma raw_reader_answers_null_witness :
  getPrice (Scenarios.truncatedRpc 48) "Mint" = None.
Proof.
  apply (proj2 (proj2 (raw_reader_answers_null (Scenarios.truncatedRpc 48)
                         "Mint"%string))
           (take 48 (Examples.curveAccount Byte.x00)) eq_refl).
  right; left. vm_compute. lia.
Defined.

End CurveReaders.

Section ResolverQuotes.
Import PriceService.
Local Open Scope Z_scope.

(** X7. The two readers of the bonding curve agree.  Whenever the raw
    reader returns a record, the reader of the price service, on the
    same network, does not fail either; for a curve that is not complete
    it returns a price with the same progress and [graduated = false],
    and for a complete curve whatever it returns says [graduated = true]
    and is not used by the resolver. *)
Theorem curve_readers_agree :
  forall W m s p,
    PumpPriceReaderRaw.getPrice (rpc W) m = Some p ->
    exists o,
      fst (getPumpFunPrice W m s) = Ok o /\
      (PumpPriceReaderRaw.graduated p = false ->
       exists q, o = Some q /\ pump_graduated q = false /\
         pump_bondingProgress q = PumpPriceReaderRaw.bondingProgress p) /\
      (PumpPriceReaderRaw.graduated p = true ->
       usable o = false /\ forall q, o = Some q -> pump_graduated q = true).
Proof.
  intros W m s p H.
  destruct (getPrice_Some_inv _ _ _ H)
    as (bytes & vt & vs & rt & rs & supply & flag & _ & Hacc & Hfields
        & _ & _ & _ & _ & Hkind).
  rewrite (getPumpFunPrice_fields W m s _ _ _ _ _ Hacc Hfields).
  eexists. split; [reflexivity |].
  destruct Hkind as [(Hflag & Hg & _) | (-> & Hg & Pvt & Pvs & _ & _ & _ & Hb)].
  - split; [congruence |]. intros _.
    destruct ((vt <=? 0) || (vs <=? 0)); [split; [reflexivity | discriminate] |].
    destruct (flag =? 0) eqn:Hz; [lia |]. cbn. split.
    + apply andb_false_r.
    + intros q [= <-]. reflexivity.
  - split; [| congruence]. intros _.
    destruct (vt <=? 0) eqn:H1; [lia |]. destruct (vs <=? 0) eqn:H2; [lia |].
    cbn [orb]. eexists. split; [reflexivity |]. cbn. rewrite Hb. auto.
Qed.

(** The theorem on the two accounts of the examples. *)
Lemma curve_readers_agree_witness :
  (exists q,
     fst (getPumpFunPrice (Examples.curveWorld Byte.x00) "Mint" Examples.emptyState)
     = Ok (Some q) /\ pump_graduated q = false) /\
  usable (match fst (getPumpFunPrice (Examples.curveWorld Byte.x01) "Mint"
                       Examples.emptyState) with
          | Ok o => o
          | Throw _ => None
          end) = false.
Proof.
  split.
  - destruct (curve_readers_agree (Examples.curveWorld Byte.x00) "Mint"%string
                Examples.emptyState _ eq_refl) as (o & Ho & Hlive & _).
    destruct (Hlive eq_refl) as (q & -> & Hq & _). eauto.
  - destruct (curve_readers_agree (Examples.curveWorld Byte.x01) "Mint"%string
                Examples.emptyState _ eq_refl) as (o & Ho & _ & Hdone).
    rewrite Ho. exact (proj1 (Hdone eq_refl)).
Defined.

Lemma fromSource_pumpQuote k now p :
  JS.truthy (pump_price p) = true -> fromSource k (pumpQuote k now p).
Proof.
  intros Hp. unfold fromSource, pumpQuote. cbn.
  split; [reflexivity |]. split; [exact Hp |]. split; [reflexivity |].
  split; [reflexivity |]. left.
  split; [reflexivity |]. split; [reflexivity | discriminate].
Qed.

Lemma fromSource_dexQuote k now src p :
  (src = "jupiter" \/ src = "cache-fallback" \/ src = "dexscreener")%string ->
  JS.truthy p = true -> fromSource k (dexQuote k now src (Some p)).
Proof.
  intros Hsrc Hp. unfold fromSource, dexQuote. cbn.
  split; [reflexivity |]. split; [exact Hp |]. split; [reflexivity |].
  split; [reflexivity |]. right. auto.
Qed.

Lemma cacheSound_insert k q s s' :
  cacheSound s -> fromSource k q ->
  priceCache s' = <[k := q]> (priceCache s) -> cacheSound s'.
Proof.
  intros Hinv Hq Hs' k' q' Hk'. rewrite Hs' in Hk'.
  destruct (decide (k = k')) as [<- | Hne].
  - rewrite lookup_insert_eq in Hk'. injection Hk' as <-. exact Hq.
  - rewrite lookup_insert_ne in Hk' by exact Hne. exact (Hinv _ _ Hk').
Qed.

Lemma cacheSound_same s s' :
  cacheSound s -> priceCache s' = priceCache s -> cacheSound s'.
Proof. intros Hinv Hs' k q Hk. rewrite Hs' in Hk. exact (Hinv _ _ Hk). Qed.

(** The kinds of quotes [getPrice] returns for a valid mint. *)
Lemma getPrice_kinds W m ff s :
  isPublicKey (rpc W) m = true ->
  exists q s',
    getPrice W m ff s = (Ok q, s') /\
    (cacheSound s ->
     cacheSound s' /\
     (fromSource m q
      \/ (exists c, priceCache s !! m = Some c /\ q = markStale c)
      \/ (mint q = m /\ price q = None /\ error q <> None /\
          (source q = "none" \/ source q = "skipped")%string))).
Proof.
  intros Hkey. destruct (getPrice W m ff s) as [r s'] eqn:H.
  apply getPrice_cases in H
    as [(_ & _ & -> & ->) | [(_ & (c & Hc & _ & ->) & _ & Hcache) | H]];
    [| | | exact Hkey].
  - eexists. eexists. split; [reflexivity |]. intros Hinv.
    split; [exact (cacheSound_same _ _ Hinv eq_refl) |].
    destruct (priceCache s !! m) as [c |] eqn:Hc; cbn.
    + left. exact (Hinv _ _ Hc).
    + right; right. repeat split; auto; discriminate.
  - eexists. eexists. split; [reflexivity |]. intros Hinv.
    split; [exact (cacheSound_same _ _ Hinv Hcache) |].
    left. exact (Hinv _ _ Hc).
  - destruct H as (s1 & Hc1 & _ & _ & _ & H).
    apply resolveFresh_cases in H as (pump & added & q & _ & _ & -> & Hcase).
    exists q, s'. split; [reflexivity |]. intros Hinv.
    destruct Hcase as [(p & -> & Huse & -> & Hst & _) |
                       [(_ & _ & src & p & -> & Hsrc & Hp & Hst & _) |
                        (_ & _ & (Hrec & _) & [(c & Hc & ->) | (_ & ->)])]].
    + apply andb_prop in Huse as [Hp _].
      pose proof (fromSource_pumpQuote m (clock W (tick s)) p Hp) as Hq.
      rewrite Hc1 in Hst.
      split; [exact (cacheSound_insert _ _ _ _ Hinv Hq Hst) | left; exact Hq].
    + pose proof (fromSource_dexQuote m (clock W (tick s)) src p Hsrc Hp) as Hq.
      rewrite Hc1 in Hst.
      split; [exact (cacheSound_insert _ _ _ _ Hinv Hq Hst) | left; exact Hq].
    + rewrite Hc1 in Hrec, Hc.
      split; [exact (cacheSound_same _ _ Hinv Hrec) |]. right; left. eauto.
    + rewrite Hc1 in Hrec.
      split; [exact (cacheSound_same _ _ Hinv Hrec) |]. right; right.
      cbn. repeat split; auto; discriminate.
Qed.

(** X8. The price service throws exactly for a mint
    that is not a public key, and then touches nothing.  For every other
    mint it returns a quote, and, when every cached quote was built from
    a source, so is every quote cached afterwards and the quote returned
    is of one of three kinds: one built from a source for this mint
    (fresh, or taken from the cache), the cached quote with the stale
    mark, or a quote without price, of source "none" or "skipped", with
    an error text. *)
Theorem getPrice_quote_sound :
  forall W m ff s,
    (isPublicKey (rpc W) m = false ->
     exists message, getPrice W m ff s = (Throw message, s)) /\
    (isPublicKey (rpc W) m = true ->
     exists q s',
       getPrice W m ff s = (Ok q, s') /\
       (cacheSound s ->
        cacheSound s' /\
        (fromSource m q
         \/ (exists c, priceCache s !! m = Some c /\ q = markStale c)
         \/ (mint q = m /\ price q = None /\ error q <> None /\
             (source q = "none" \/ source q = "skipped")%string)))).
Proof.
  intros W m ff s. split.
  - intros Hkey. unfold getPrice. rewrite Hkey. eexists. reflexivity.
  - apply getPrice_kinds.
Qed.

Lemma cacheSound_empty : cacheSound Examples.emptyState.
Proof. intros k q Hk. cbn in Hk. rewrite lookup_empty in Hk. discriminate. Qed.

(** The theorem on the first resolution of the examples. *)
Lemma getPrice_quote_sound_witness :
  exists q s',
    getPrice (Examples.curveWorld Byte.x00) "Mint" false Examples.emptyState
    = (Ok q, s') /\
    cacheSound s' /\ source q = "pump.fun"%string.
Proof.
  destruct (proj2 (getPrice_quote_sound (Examples.curveWorld Byte.x00)
                     "Mint"%string false Examples.emptyState) eq_refl)
    as (q & s' & H & Hsound).
  exists q, s'. split; [exact H |].
  split; [exact (proj1 (Hsound cacheSound_empty)) |].
  vm_compute in H. injection H as <- _. reflexivity.
Defined.

End ResolverQuotes.

Section ResolverCache.
Import PriceService.
Local Open Scope Z_scope.

(** The witness of [all_sources_failed_marks_stale]: the resolution that
    follows the first one of the examples, six seconds later, when no
    source answers any more. *)
Lemma all_sources_failed_marks_stale_witness :
  exists q c,
    fst (getPrice Examples.deadWorld "Mint" false (Examples.afterFailures 0)) = Ok q /\
    priceCache (Examples.afterFailures 0) !! "Mint"%string = Some c /\
    q = markStale c /\ stale q = true.
Proof.
  destruct (getPrice Examples.deadWorld "Mint" false (Examples.afterFailures 0))
    as [[q | e] s'] eqn:Hrun; [| exfalso; vm_compute in Hrun; discriminate].
  destruct (priceCache (Examples.afterFailures 0) !! "Mint"%string)
    as [c |] eqn:Hc; [| exfalso; vm_compute in Hc; discriminate].
  exists q, c. split; [reflexivity |]. split; [reflexivity |].
  apply (all_sources_failed_marks_stale Examples.deadWorld "Mint"%string false
           (Examples.afterFailures 0) q s' c eq_refl Hrun).
  - vm_compute in Hrun. injection Hrun as _ <-. vm_compute. discriminate.
  - vm_compute in Hrun. injection Hrun as _ <-. vm_compute. discriminate.
  - exact Hc.
Defined.

(** X10. A quote cached less than five seconds ago is returned as it is,
    without any network call and without touching the cache, whatever
    the failure counter says, when the call does not force a fresh
    price. *)
Theorem fresh_cache_is_served :
  forall W m s c,
    isPublicKey (rpc W) m = true ->
    priceCache s !! m = Some c ->
    clock W (tick s) - ts c < 5000 ->
    exists s',
      getPrice W m false s = (Ok c, s') /\
      calls s' = calls s /\ priceCache s' = priceCache s.
Proof.
  intros W m s c Hkey Hc Hage.
  destruct (getPrice W m false s) as [r s'] eqn:H.
  apply getPrice_cases in H
    as [(_ & _ & -> & ->) | [(_ & (c' & Hc' & _ & ->) & Hcalls & Hcache) | H]];
    [| | | exact Hkey].
  - rewrite Hc. cbn. eexists. split; [reflexivity |]. auto.
  - rewrite Hc in Hc'. injection Hc' as <-. eauto.
  - destruct H as (s1 & _ & _ & _ & Hold & _).
    specialize (Hold eq_refl c Hc). unfold cacheMs in Hold. lia.
Qed.

(** The theorem on a second call one second after the first resolution
    of the examples. *)
Lemma fresh_cache_is_served_witness :
  exists c s',
    priceCache (Examples.afterFailures 0) !! "Mint"%string = Some c /\
    getPrice (Examples.curveWorld Byte.x00) "Mint" false (Examples.afterFailures 0)
    = (Ok c, s') /\
    calls s' = calls (Examples.afterFailures 0).
Proof.
  eexists.
  destruct (fresh_cache_is_served (Examples.curveWorld Byte.x00) "Mint"%string
              (Examples.afterFailures 0) _ eq_refl
              ltac:(vm_compute; reflexivity) ltac:(vm_compute; reflexivity))
    as (s' & H & Hcalls & _).
  exists s'. split; [vm_compute; reflexivity |]. split; assumption.
Defined.

(** X11. A call that forces a fresh price ignores the failure counter
    and the cache: its first network call reads the bonding curve of the
    mint, and it never gives the answer of the failure backoff. *)
Theorem forced_call_reads_the_curve :
  forall W m s r s',
    isPublicKey (rpc W) m = true ->
    getPrice W m true s = (r, s') ->
    exists q added,
      r = Ok q /\
      calls s'
      = calls s ++ GetAccountInfo (findBondingCurveAddress (rpc W) m) :: added /\
      q <> skippedQuote m (clock W (tick s)).
Proof.
  intros W m s r s' Hkey H.
  apply getPrice_cases in H as [(Hff & _) | [(Hff & _) | H]];
    [discriminate | discriminate | | exact Hkey].
  destruct H as (s1 & Hc1 & Hl1 & _ & _ & H).
  apply resolveFresh_cases in H as (pump & added & q & _ & Hcalls & -> & Hcase).
  exists q, added. split; [reflexivity |]. rewrite Hcalls, Hl1.
  split; [reflexivity |].
  destruct Hcase as [(p & _ & _ & -> & _) |
                     [(_ & _ & src & p & -> & Hsrc & _) |
                      (_ & _ & _ & [(c & Hc & ->) | (_ & ->)])]];
    discriminate.
Qed.

(** The theorem in the backoff of the examples: three failures on the
    counter, and the forced call still goes to the network. *)
Lemma forced_call_reads_the_curve_witness :
  failedAttempts (Examples.afterMisses 3) !! "Mint"%string
  = Some {| count := 3; lastAttempt := 13000 |} /\
  exists q added,
    fst (getPrice Examples.deadWorld "Mint" true (Examples.afterMisses 3)) = Ok q /\
    calls (snd (getPrice Examples.deadWorld "Mint" true (Examples.afterMisses 3)))
    = calls (Examples.afterMisses 3) ++ GetAccountInfo "curve:Mint" :: added.
Proof.
  split; [vm_compute; reflexivity |].
  destruct (forced_call_reads_the_curve Examples.deadWorld "Mint"%string
              (Examples.afterMisses 3) _ _ eq_refl (surjective_pairing _))
    as (q & added & Hq & Hcalls & _).
  exists q, added. split; assumption.
Defined.

End ResolverCache.

Section JupiterService.
Import PriceService.
Local Open Scope Z_scope.

Lemma logCalls_nil s : logCalls [] s = s.
Proof. destruct s. unfold logCalls. cbn. rewrite app_nil_r. reflexivity. Qed.

Lemma logCalls_logCall c l s : logCalls l (logCall c s) = logCalls (c :: l) s.
Proof. unfold logCalls, logCall. cbn. rewrite <- app_assoc. reflexivity. Qed.

Lemma logCall_logCalls c s : logCall c s = logCalls [c] s.
Proof. reflexivity. Qed.

Lemma fetchWithRetry_step W m rest i s :
  fetchWithRetry W m (S rest) i s
  = match jupiterQuote W m i with
    | Ok a => (Ok a, logCall (JupiterQuote m) s)
    | Throw e =>
        if (rest =? 0)%nat then (Throw e, logCall (JupiterQuote m) s)
        else fetchWithRetry W m rest (S i) (logCall (JupiterQuote m) s)
    end.
Proof.
  cbn [fetchWithRetry]. unfold try_catch, call, throw.
  destruct (jupiterQuote W m i); [reflexivity |].
  destruct (rest =? 0)%nat; reflexivity.
Qed.

(** The attempts of [fetchWithRetry] from attempt [i] on. *)
Lemma fetchWithRetry_attempts_from W m remaining :
  forall i s,
    exists k,
      (1 <= k <= S remaining)%nat /\
      fetchWithRetry W m (S remaining) i s
      = (jupiterQuote W m (i + k - 1), logCalls (repeat (JupiterQuote m) k) s) /\
      (forall j, (j < k - 1)%nat -> exists e, jupiterQuote W m (i + j) = Throw e) /\
      ((k < S remaining)%nat -> exists a, jupiterQuote W m (i + k - 1) = Ok a).
Proof.
  induction remaining as [| rest IH]; intros i s; rewrite fetchWithRetry_step.
  - exists 1%nat. split; [lia |]. replace (i + 1 - 1)%nat with i by lia.
    split; [destruct (jupiterQuote W m i); reflexivity |].
    split; [intros j Hj; lia | intros Hk; lia].
  - destruct (jupiterQuote W m i) as [a | e] eqn:Hfirst.
    + exists 1%nat. split; [lia |]. replace (i + 1 - 1)%nat with i by lia.
      rewrite Hfirst. split; [reflexivity |].
      split; [intros j Hj; lia | eauto].
    + cbn [Nat.eqb].
      destruct (IH (S i) (logCall (JupiterQuote m) s)) as (k & Hk & Hrun & Hthrows & Hok).
      exists (S k). split; [lia |].
      replace (i + S k - 1)%nat with (S i + k - 1)%nat by lia.
      split; [rewrite Hrun, logCalls_logCall; reflexivity |]. split.
      * intros j Hj. destruct j as [| j].
        -- rewrite Nat.add_0_r. eauto.
        -- replace (i + S j)%nat with (S i + j)%nat by lia. apply Hthrows. lia.
      * intros Hlt. apply Hok. lia.
Qed.

(** X12. [fetchWithRetry] asks Jupiter at least once and at most three
    times: it stops at the first attempt that answers, every attempt
    before failed, and after a third failure it rethrows that failure. *)
Theorem fetchWithRetry_attempts :
  forall W m s,
    exists k,
      (1 <= k <= 3)%nat /\
      fetchWithRetry W m 3 0 s
      = (jupiterQuote W m (k - 1), logCalls (repeat (JupiterQuote m) k) s) /\
      (forall j, (j < k - 1)%nat -> exists e, jupiterQuote W m j = Throw e) /\
      ((k < 3)%nat -> exists a, jupiterQuote W m (k - 1) = Ok a).
Proof.
  intros W m s.
  destruct (fetchWithRetry_attempts_from W m 2 0 s) as (k & Hk & Hrun & Hthrows & Hok).
  exists k. cbn [Nat.add] in *. auto.
Qed.


Lemma jupiterGetPrice_fetch W m ff s :
  (ff = true \/
   forall old, jupiterCache s !! m = Some old ->
               5000 <= clock W (tick s) - timestamp old) ->
  jupiterGetPrice W m ff s
  = match fetchWithRetry W m 3 0 (nextTick s) with
    | (Ok (Some amount), s1) =>
        let price := (JS.ofZ amount / 1000000)%float in
        (Ok (jupiterAnswer price "jupiter"),
         set_jupiterCache
           (insert m {| cachedPrice := price; timestamp := clock W (tick s) |}) s1)
    | (_, s1) =>
        (Ok match jupiterCache s1 !! m with
            | Some old => jupiterAnswer (cachedPrice old) "cache-fallback"
            | None =>
                {| jup_price := None; jup_source := None;
                   jup_error :=
                     Some match fst (fetchWithRetry W m 3 0 (nextTick s)) with
                          | Throw e => e
                          | Ok _ => "Quote has no outAmount"%string
                          end |}
            end, s1)
    end.
Proof.
  intros Hmiss.
  unfold jupiterGetPrice, try_catch, bind, now_ms, get, modify, ret, throw.
  assert ((if ff then None
           else match jupiterCache (nextTick s) !! m with
                | Some old =>
                    if clock W (tick s) - timestamp old <? 5000
                    then Some old else None
                | None => None
                end) = None) as ->.
  { destruct ff; [reflexivity |]. cbn [jupiterCache nextTick].
    destruct Hmiss as [Hff | Hold]; [discriminate |].
    destruct (jupiterCache s !! m) as [old |] eqn:Hc; [| reflexivity].
    specialize (Hold old eq_refl).
    destruct (clock W (tick s) - timestamp old <? 5000) eqn:Hage; [lia | reflexivity]. }
  destruct (fetchWithRetry W m 3 0 (nextTick s)) as [[[amount |] | e] s1];
    cbn [fst]; try reflexivity;
    destruct (jupiterCache s1 !! m); reflexivity.
Qed.

(** What [getPrice] of the Jupiter service answers once it asks
    Jupiter. *)
Lemma jupiterGetPrice_asks W m ff s :
  ff = true \/
  (forall old, jupiterCache s !! m = Some old ->
               5000 <= clock W (tick s) - timestamp old) ->
  exists k,
    (1 <= k <= 3)%nat /\
    let s1 := logCalls (repeat (JupiterQuote m) k) (nextTick s) in
    match jupiterQuote W m (k - 1) with
    | Ok (Some amount) =>
        let price := (JS.ofZ amount / 1000000)%float in
        jupiterGetPrice W m ff s
        = (Ok (jupiterAnswer price "jupiter"),
           set_jupiterCache
             (insert m {| cachedPrice := price; timestamp := clock W (tick s) |})
             s1)
    | _ =>
        exists j,
          jupiterGetPrice W m ff s = (Ok j, s1) /\
          match jupiterCache s !! m with
          | Some old => j = jupiterAnswer (cachedPrice old) "cache-fallback"
          | None => jup_price j = None /\ jup_error j <> None
          end
    end.
Proof.
  intros Hmiss. rewrite (jupiterGetPrice_fetch W m ff s Hmiss).
  destruct (fetchWithRetry_attempts_from W m 2 0 (nextTick s))
    as (k & Hk & -> & _ & _).
  exists k. split; [exact Hk |]. cbn zeta. cbn [Nat.add].
  destruct (jupiterQuote W m (k - 1)) as [[amount |] | e]; cbn [fst].
  - reflexivity.
  - eexists. split; [reflexivity |]. cbn [jupiterCache logCalls nextTick].
    destruct (jupiterCache s !! m); [reflexivity |]. cbn. split; [reflexivity | discriminate].
  - eexists. split; [reflexivity |]. cbn [jupiterCache logCalls nextTick].
    destruct (jupiterCache s !! m); [reflexivity |]. cbn. split; [reflexivity | discriminate].
Qed.

(** X13. The Jupiter price service never throws.
    Unless a fresh price is forced, a price cached less than five
    seconds ago is answered from the cache without a network call.
    Otherwise Jupiter is asked, up to three times: an answer with an
    [outAmount] gives the price [outAmount / 1000000], which is cached
    with the time of the call; when the last attempt fails or its answer
    has no [outAmount], the cached price is answered whatever its age,
    with the source "cache-fallback", and without a cached price the
    answer has no price and carries the error. *)
Theorem jupiter_getPrice_answers :
  forall W m ff s,
    let now := clock W (tick s) in
    (forall old,
       ff = false -> jupiterCache s !! m = Some old -> now - timestamp old < 5000 ->
       jupiterGetPrice W m ff s
       = (Ok (jupiterAnswer (cachedPrice old) "cache"), nextTick s)) /\
    (ff = true \/
     (forall old, jupiterCache s !! m = Some old -> 5000 <= now - timestamp old) ->
     exists k,
       (1 <= k <= 3)%nat /\
       let s1 := logCalls (repeat (JupiterQuote m) k) (nextTick s) in
       match jupiterQuote W m (k - 1) with
       | Ok (Some amount) =>
           let price := (JS.ofZ amount / 1000000)%float in
           jupiterGetPrice W m ff s
           = (Ok (jupiterAnswer price "jupiter"),
              set_jupiterCache
                (insert m {| cachedPrice := price; timestamp := now |}) s1)
       | _ =>
           exists j,
             jupiterGetPrice W m ff s = (Ok j, s1) /\
             match jupiterCache s !! m with
             | Some old => j = jupiterAnswer (cachedPrice old) "cache-fallback"
             | None => jup_price j = None /\ jup_error j <> None
             end
       end).
Proof.
  intros W m ff s now. split.
  - intros old -> Hc Hage.
    unfold jupiterGetPrice, try_catch, bind, now_ms, get, ret.
    cbn [jupiterCache nextTick]. rewrite Hc. fold now.
    destruct (now - timestamp old <? 5000) eqn:Hcmp; [reflexivity | lia].
  - apply jupiterGetPrice_asks.
Qed.

(** The theorem on a service that cached the price 0.5 at time 0 and is
    asked again, without forcing, three seconds later. *)
Lemma jupiter_getPrice_answers_witness :
  jupiterGetPrice Scenarios.slowWorld "Mint" false Scenarios.jupiterCached
  = (Ok (jupiterAnswer 0.5 "cache"), nextTick Scenarios.jupiterCached).
Proof.
  apply (proj1 (jupiter_getPrice_answers Scenarios.slowWorld "Mint"%string false
                  Scenarios.jupiterCached)
           {| cachedPrice := 0.5; timestamp := 0 |});
    [reflexivity | reflexivity | vm_compute; reflexivity].
Defined.

End JupiterService.

Section ResolverFallback.
Import PriceService.
Local Open Scope Z_scope.

(** X14. A price that the Jupiter service cached long ago can come back
    as a fresh quote.  When a call forces a fresh price, the mint has no
    curve account, every attempt to reach Jupiter fails and the Jupiter
    service holds a usable price for the mint, of whatever age, the
    resolver returns that price with the source "cache-fallback", the
    time of the call, [graduated = true] and no stale mark; it caches
    the quote and clears the failure counter of the mint. *)
Theorem jupiter_fallback_is_served_as_fresh :
  forall W m s old,
    isPublicKey (rpc W) m = true ->
    getAccountInfo (rpc W) (findBondingCurveAddress (rpc W) m) = Ok None ->
    (forall i, (i < 3)%nat -> exists e, jupiterQuote W m i = Throw e) ->
    jupiterCache s !! m = Some old ->
    JS.truthy (cachedPrice old) = true ->
    let q := dexQuote m (clock W (tick s)) "cache-fallback" (Some (cachedPrice old)) in
    exists s',
      getPrice W m true s = (Ok q, s') /\
      priceCache s' !! m = Some q /\ failedAttempts s' !! m = None /\
      stale q = false /\ ts q = clock W (tick s).
Proof.
  intros W m s old Hkey Hacc Hdown Hold Hprice q.
  rewrite getPrice_valid by exact Hkey. unfold bind at 1.
  rewrite checkFailedAttempts_forced. unfold bind at 1.
  unfold checkCache, bind at 1, get at 1, ret at 1.
  unfold resolveFresh. unfold bind at 1. unfold try_catch at 1. unfold bind at 1.
  unfold getPumpFunPrice, getPumpFunPrice_body, try_catch at 1, bind at 1, call at 1.
  rewrite Hacc. unfold ret at 1. unfold ret at 1.
  unfold bind at 1. unfold getPriceForGraduated, try_catch at 1, bind at 1.
  set (s1 := logCall _ (nextTick s)).
  destruct (jupiterGetPrice_asks W m true s1 (or_introl eq_refl))
    as (k & Hk & Hjup).
  destruct (Hdown (k - 1)%nat ltac:(lia)) as [e He]. rewrite He in Hjup.
  destruct Hjup as (j & Hjup & Hj).
  assert (jupiterCache s1 !! m = Some old) as Hold1 by exact Hold.
  rewrite Hold1 in Hj. subst j. rewrite Hjup.
  cbn [jupiterAnswer jup_price hasPrice]. rewrite Hprice.
  unfold ret at 1. cbn [jup_price jup_source default hasPrice]. rewrite Hprice.
  unfold succeed, resetFailedAttempts, bind, modify, ret.
  eexists. split; [reflexivity |].
  cbn [priceCache failedAttempts set_priceCache set_failedAttempts].
  rewrite lookup_insert_eq, lookup_delete_eq. auto.
Qed.

(** The theorem on a price cached an hour before the call. *)
Lemma jupiter_fallback_is_served_as_fresh_witness :
  exists q s',
    getPrice Scenarios.slowWorld "Mint" true
      (snd (jupiterGetPrice Scenarios.slowWorld "Mint" false Scenarios.jupiterCached))
    = (Ok q, s') /\
    price q = Some 0.5%float /\ source q = "cache-fallback"%string /\
    ts q = 3603000 /\ stale q = false.
Proof.
  destruct (jupiter_fallback_is_served_as_fresh Scenarios.slowWorld "Mint"%string
              (snd (jupiterGetPrice Scenarios.slowWorld "Mint" false
                      Scenarios.jupiterCached))
              {| cachedPrice := 0.5; timestamp := 0 |}
              eq_refl eq_refl
              (fun i _ => ex_intro _ "fetch failed"%string eq_refl)
              ltac:(vm_compute; reflexivity) eq_refl)
    as (s' & H & _ & _ & Hstale & Hts).
  eexists. exists s'. split; [exact H |].
  split; [reflexivity |]. split; [reflexivity |]. split; [exact Hts | exact Hstale].
Defined.

End ResolverFallback.

Section ResolverFrame.
Import PriceService.
Local Open Scope Z_scope.




End ResolverFrame.

Section NumberOrder.
Local Open Scope float_scope.

Lemma compare_cont_Lt m1 m2 : Pos.compare_cont Eq m1 m2 = Lt <-> (m1 < m2)%positive.
Proof. fold (Pos.compare m1 m2). apply Pos.compare_lt_iff. Qed.

Lemma compare_cont_Gt m1 m2 : Pos.compare_cont Eq m1 m2 = Gt <-> (m2 < m1)%positive.
Proof. fold (Pos.compare m1 m2). apply Pos.compare_gt_iff. Qed.

Lemma compare_cont_Eq m1 m2 : Pos.compare_cont Eq m1 m2 = Eq <-> m1 = m2.
Proof. fold (Pos.compare m1 m2). apply Pos.compare_eq_iff. Qed.

Lemma SFcompare_Lt_trans x y z :
  SFcompare x y = Some Lt -> SFcompare y z = Some Lt -> SFcompare x z = Some Lt.
Proof.
  destruct x as [sx | sx | | sx mx ex], y as [sy | sy | | sy my ey],
      z as [sz | sz | | sz mz ez]; cbn;
    try discriminate;
    repeat match goal with
           | s : bool |- _ => destruct s
           end; try discriminate; try reflexivity;
    destruct (Z.compare_spec ex ey), (Z.compare_spec ey ez), (Z.compare_spec ex ez);
    try discriminate; try reflexivity; try lia; subst;
    destruct (Pos.compare_cont Eq mx my) eqn:Hm1,
             (Pos.compare_cont Eq my mz) eqn:Hm2,
             (Pos.compare_cont Eq mx mz) eqn:Hm3; cbn;
    try discriminate; try reflexivity;
    rewrite ?compare_cont_Lt, ?compare_cont_Gt, ?compare_cont_Eq in *; subst; lia.
Qed.

(** [<] on numbers is transitive and irreflexive. *)
Lemma ltb_trans (a b c : float) :
  (a <? b) = true -> (b <? c) = true -> (a <? c) = true.
Proof.
  rewrite !FloatAxioms.ltb_spec. unfold SFltb.
  destruct (SFcompare (Prim2SF a) (Prim2SF b)) as [[| |] |] eqn:H1; try discriminate.
  destruct (SFcompare (Prim2SF b) (Prim2SF c)) as [[| |] |] eqn:H2; try discriminate.
  rewrite (SFcompare_Lt_trans _ _ _ H1 H2). reflexivity.
Qed.

Lemma ltb_irrefl (a : float) : (a <? a) = false.
Proof.
  rewrite FloatAxioms.ltb_spec. unfold SFltb.
  destruct (Prim2SF a) as [[|] | [|] | | [|] m e]; cbn; try reflexivity;
    rewrite Z.compare_refl, Pos.compare_cont_refl; reflexivity.
Qed.

(** Two numbers, the first not below the second: the second is at most
    the first. *)
Lemma not_ltb_leb (a b : float) :
  is_nan a = false -> is_nan b = false ->
  (a <? b) = false -> (b <=? a) = true.
Proof.
  unfold is_nan. rewrite !FloatAxioms.eqb_spec.
  rewrite FloatAxioms.ltb_spec, FloatAxioms.leb_spec. unfold SFltb, SFleb, SFeqb.
  destruct (Prim2SF a) as [sa | sa | | sa ma ea],
           (Prim2SF b) as [sb | sb | | sb mb eb]; cbn;
    try discriminate; try reflexivity;
    repeat match goal with
           | s : bool |- _ => destruct s
           end; cbn; try discriminate; try reflexivity;
    rewrite ?Z.compare_refl, ?Pos.compare_cont_refl; cbn;
    try discriminate; try reflexivity;
    intros _ _;
    destruct (Z.compare_spec ea eb), (Z.compare_spec eb ea);
    try discriminate; try reflexivity; try lia; subst;
    destruct (Pos.compare_cont Eq ma mb) eqn:Hm1,
             (Pos.compare_cont Eq mb ma) eqn:Hm2; cbn;
    try discriminate; try reflexivity;
    rewrite ?compare_cont_Lt, ?compare_cont_Gt, ?compare_cont_Eq in *; subst; lia.
Qed.

End NumberOrder.

Section DexScreener.
Import PriceService.
Local Open Scope float_scope.

Lemma bestPair_fold (others : list DexPair) :
  forall best seen,
    In best seen ->
    (forall p, In p seen -> (liquidity best <? liquidity p) = false) ->
    let chosen :=
      fold_left (fun best p => if liquidity best <? liquidity p then p else best)
                others best in
    In chosen (seen ++ others) /\
    forall p, In p (seen ++ others) -> (liquidity chosen <? liquidity p) = false.
Proof.
  induction others as [| x others IH]; intros best seen Hin Hmax; cbn [fold_left].
  - cbn zeta. rewrite app_nil_r. auto.
  - replace (seen ++ x :: others) with ((seen ++ [x]) ++ others)
      by (rewrite <- app_assoc; reflexivity).
    destruct (liquidity best <? liquidity x) eqn:Hcmp; apply IH.
    + apply in_or_app. right. left. reflexivity.
    + intros p Hp. apply in_app_or in Hp as [Hp | [<- | []]].
      * destruct (liquidity x <? liquidity p) eqn:Hlt; [| reflexivity].
        pose proof (ltb_trans _ _ _ Hcmp Hlt) as Habs.
        rewrite (Hmax p Hp) in Habs. discriminate.
      * apply ltb_irrefl.
    + apply in_or_app. left. exact Hin.
    + intros p Hp. apply in_app_or in Hp as [Hp | [<- | []]].
      * exact (Hmax p Hp).
      * exact Hcmp.
Qed.

(** The pair at the head of the sorted list is one of the pairs; when no
    liquidity is NaN it is the fold's, and no pair has more liquidity. *)
Lemma bestPair_listed W (first : DexPair) (others : list DexPair) :
  In (bestPair W first others) (first :: others).
Proof.
  unfold bestPair. destruct (consistentLiquidity (first :: others)).
  - apply (bestPair_fold others first [first]).
    + left. reflexivity.
    + intros p [<- | []]. apply ltb_irrefl.
  - destruct (nth_in_or_default
                (sortHead W (map liquidity (first :: others)))
                (first :: others) first) as [Hin | ->];
      [exact Hin | left; reflexivity].
Qed.

Lemma bestPair_greatest W (first : DexPair) (others : list DexPair) :
  (forall p, In p (first :: others) -> is_nan (liquidity p) = false) ->
  forall p, In p (first :: others) ->
            (liquidity p <=? liquidity (bestPair W first others)) = true.
Proof.
  intros Hnum p Hp.
  assert (consistentLiquidity (first :: others) = true) as Hcons.
  { unfold consistentLiquidity. apply orb_true_iff. left.
    apply forallb_forall. intros q Hq. rewrite (Hnum q Hq). reflexivity. }
  pose proof (bestPair_listed W first others) as Hin.
  unfold bestPair in *. rewrite Hcons in *.
  apply not_ltb_leb; [apply Hnum; exact Hin | apply Hnum; exact Hp |].
  apply (bestPair_fold others first [first]); [left; reflexivity | | exact Hp].
  intros q [<- | []]. apply ltb_irrefl.
Qed.

(** X16. The DexScreener fallback never throws and asks
    the service once.  A price it returns is the native price (or,
    without one, the USD price) of the pair at the head of the sorted
    list, which is one of the listed pairs, and is neither zero, NaN nor
    infinite.  When every liquidity is a number, no listed pair has more
    liquidity than that pair; a liquidity that is not a number leaves
    the choice to the sort of the engine.  A failed request, a status
    that is not ok and a list of pairs that is missing or empty give no
    price. *)
Theorem dexscreener_price :
  forall W m s,
    exists o,
      getPriceFromDexScreener W m s = (Ok o, logCall (DexScreenerTokens m) s) /\
      (forall p, o = Some p ->
         JS.truthy p = true /\ is_finite p = true /\
         exists res first others,
           dexScreener W m = Ok res /\ ok res = true /\
           pairs res = Ok (Some (first :: others)) /\
           p = pairPrice (bestPair W first others) /\
           In (bestPair W first others) (first :: others) /\
           ((forall other, In other (first :: others) ->
                           is_nan (liquidity other) = false) ->
            forall other, In other (first :: others) ->
              (liquidity other <=? liquidity (bestPair W first others))
              = true)) /\
      ((forall res, dexScreener W m = Ok res ->
          ok res = false \/ pairs res = Ok None \/ pairs res = Ok (Some [])
          \/ exists e, pairs res = Throw e) ->
       o = None).
Proof.
  intros W m s.
  unfold getPriceFromDexScreener, try_catch, bind, call, ret, lift, throw.
  destruct (dexScreener W m) as [res | e] eqn:Hdex.
  - destruct (ok res) eqn:Hok; cbn [negb].
    + destruct (pairs res) as [[[| first others] |] | e] eqn:Hpairs.
      * eexists. split; [reflexivity |]. split; [discriminate | reflexivity].
      * destruct (negb (JS.truthy (pairPrice (bestPair W first others)))
                  || negb (is_finite (pairPrice (bestPair W first others))))
          eqn:Hbad.
        -- eexists. split; [reflexivity |]. split; [discriminate | reflexivity].
        -- apply orb_false_iff in Hbad as [Ht Hf].
           apply negb_false_iff in Ht, Hf.
           eexists. split; [reflexivity |]. split.
           ++ intros p [= <-]. split; [exact Ht |]. split; [exact Hf |].
              exists res, first, others.
              split; [reflexivity |]. split; [exact Hok |].
              split; [exact Hpairs |]. split; [reflexivity |].
              split; [apply bestPair_listed | apply bestPair_greatest].
           ++ intros Hnone. destruct (Hnone res eq_refl)
                as [Hno | [Hno | [Hno | [e Hno]]]]; congruence.
      * eexists. split; [reflexivity |]. split; [discriminate | reflexivity].
      * eexists. split; [reflexivity |]. split; [discriminate | reflexivity].
    + destruct (status res =? 404)%Z;
        eexists; (split; [reflexivity |]); (split; [discriminate | reflexivity]).
  - eexists. split; [reflexivity |]. split; [discriminate | reflexivity].
Qed.

(** The theorem on two pairs, the second with more liquidity: the price
    is the one of the second pair. *)
Lemma dexscreener_price_witness :
  getPriceFromDexScreener Scenarios.listedWorld "Mint" Examples.emptyState
  = (Ok (Some 0.002), logCall (DexScreenerTokens "Mint") Examples.emptyState) /\
  JS.truthy 0.002 = true /\
  exists first others,
    pairPrice (bestPair Scenarios.listedWorld first others) = 0.002 /\
    liquidity (bestPair Scenarios.listedWorld first others) = 5000 /\
    forall other, In other (first :: others) ->
      (liquidity other <=? liquidity (bestPair Scenarios.listedWorld first others))
      = true.
Proof.
  destruct (dexscreener_price Scenarios.listedWorld "Mint"%string Examples.emptyState)
    as (o & Ho & Hsound & _).
  assert (o = Some 0.002) as -> by (vm_compute in Ho; congruence).
  split; [exact Ho |].
  destruct (Hsound _ eq_refl)
    as (Ht & _ & res & first & others & Hres & _ & Hpairs & Hp & _ & Hmax).
  split; [exact Ht |].
  exists first, others.
  vm_compute in Hres. injection Hres as <-.
  vm_compute in Hpairs. injection Hpairs as <- <-.
  split; [vm_compute; reflexivity |].
  split; [vm_compute; reflexivity |].
  apply Hmax. intros other [<- | [<- | []]]; vm_compute; reflexivity.
Defined.

End DexScreener.

Section ResolverUtilities.
Import PriceService.
Local Open Scope Z_scope.

Lemma fromSource_available k q :
  fromSource k q ->
  hasPrice (price q) = true /\ String.eqb (source q) "none" = false /\
  source q <> "none"%string /\ source q <> "skipped"%string.
Proof.
  intros (_ & Hp & _ & _ & Hsrc). split; [exact Hp |].
  destruct Hsrc as [(-> & _) | ([-> | [-> | ->]] & _)];
    (split; [reflexivity | split; discriminate]).
Qed.

(** X17. [hasPriceAvailable] throws for a mint that is not a public key.
    For any other mint, when every cached quote was built from a
    source, it answers yes exactly when the quote [getPrice] returns
    has a price, be it fresh, cached or marked stale, and no exactly
    when that quote has the source "none" or "skipped". *)
Theorem hasPriceAvailable_means_priced :
  forall W m s,
    (isPublicKey (rpc W) m = false ->
     exists message, hasPriceAvailable W m s = (Throw message, s)) /\
    (isPublicKey (rpc W) m = true -> cacheSound s ->
     exists q s' b,
       getPrice W m false s = (Ok q, s') /\
       hasPriceAvailable W m s = (Ok b, s') /\
       (b = true <-> price q <> None) /\
       (b = false <-> (source q = "none" \/ source q = "skipped")%string)).
Proof.
  intros W m s. split.
  - intros Hkey. unfold hasPriceAvailable, bind, getPrice. rewrite Hkey.
    eexists. reflexivity.
  - intros Hkey Hinv.
    destruct (getPrice_kinds W m false s Hkey) as (q & s' & H & Hsound).
    destruct (Hsound Hinv) as [_ Hkind].
    exists q, s'. eexists. split; [exact H |].
    unfold hasPriceAvailable, bind. rewrite H. split; [reflexivity |].
    assert ((hasPrice (price q) = true /\ String.eqb (source q) "none" = false /\
             source q <> "none"%string /\ source q <> "skipped"%string)
            \/ price q = None /\
               (source q = "none" \/ source q = "skipped")%string)
      as [(Hp & Hs & Hn1 & Hn2) | [Hnone Hsrc]].
    { destruct Hkind as [Hq | [(c & Hc & ->) | (_ & Hnone & _ & Hsrc)]]; auto.
      - left. exact (fromSource_available _ _ Hq).
      - left. exact (fromSource_available _ _ (Hinv _ _ Hc)). }
    + rewrite Hp, Hs. cbn. split.
      * split; [| reflexivity]. intros _ Hnone. rewrite Hnone in Hp. discriminate.
      * split; [discriminate | tauto].
    + rewrite Hnone. cbn. split; [split; [discriminate | congruence] | tauto].
Qed.

Lemma cacheSound_first_resolution : cacheSound (Examples.afterFailures 0).
Proof.
  destruct (getPrice_kinds (Examples.curveWorld Byte.x00)
              "Mint"%string false Examples.emptyState eq_refl)
    as (q & s' & H & Hsound).
  unfold Examples.afterFailures. rewrite H.
  exact (proj1 (Hsound cacheSound_empty)).
Qed.

(** The theorem on the stale quote of the examples: every source fails,
    and a price is still reported as available. *)
Lemma hasPriceAvailable_means_priced_witness :
  exists s', hasPriceAvailable Examples.deadWorld "Mint" (Examples.afterFailures 0)
             = (Ok true, s').
Proof.
  destruct (proj2 (hasPriceAvailable_means_priced Examples.deadWorld "Mint"%string
                     (Examples.afterFailures 0)) eq_refl)
    as (q & s' & b & Hq & Hb & Hyes & _).
  - exact cacheSound_first_resolution.
  - exists s'. rewrite Hb. f_equal. f_equal. apply Hyes.
    vm_compute in Hq. injection Hq as <- _. discriminate.
Defined.

(** X18. [clearCache] empties the price cache and the failure counters
    of the service but not the cache of the Jupiter service.  The call
    that follows, forced or not, reads the bonding curve of its mint
    first, and its answer is never the one of the failure backoff. *)
Theorem cleared_service_asks_again :
  forall W m ff s,
    let cleared := snd (clearCache s) in
    jupiterCache cleared = jupiterCache s /\
    calls cleared = calls s /\
    cacheSound cleared /\
    (isPublicKey (rpc W) m = true ->
     exists q added s',
       getPrice W m ff cleared = (Ok q, s') /\
       calls s'
       = calls s ++ GetAccountInfo (findBondingCurveAddress (rpc W) m) :: added /\
       q <> skippedQuote m (clock W (tick s))).
Proof.
  intros W m ff s cleared.
  split; [reflexivity |]. split; [reflexivity |]. split.
  - intros k q Hk. cbn in Hk. rewrite lookup_empty in Hk. discriminate.
  - intros Hkey. destruct (getPrice W m ff cleared) as [r s'] eqn:H.
    apply getPrice_cases in H
      as [(_ & (f & Hf & _) & _) | [(_ & (c & Hc & _) & _) | H]];
      [| | | exact Hkey].
    + cbn in Hf. rewrite lookup_empty in Hf. discriminate.
    + cbn in Hc. rewrite lookup_empty in Hc. discriminate.
    + destruct H as (s1 & _ & Hl1 & _ & _ & H).
      apply resolveFresh_cases in H as (pump & added & q & _ & Hcalls & -> & Hcase).
      exists q, added, s'. split; [reflexivity |].
      rewrite Hcalls, Hl1. split; [reflexivity |].
      destruct Hcase as [(p & _ & _ & -> & _) |
                         [(_ & _ & src & p & -> & Hsrc & _) |
                          (_ & _ & _ & [(c & Hc & ->) | (_ & ->)])]];
        discriminate.
Qed.

(** The theorem in the backoff of the examples, once the cache is
    cleared. *)
Lemma cleared_service_asks_again_witness :
  getPrice Examples.deadWorld "Mint" false (Examples.afterMisses 3)
  = (Ok (skippedQuote "Mint" 14000), nextTick (Examples.afterMisses 3)) /\
  exists q added s',
    getPrice Examples.deadWorld "Mint" false (snd (clearCache (Examples.afterMisses 3)))
    = (Ok q, s') /\
    calls s' = calls (Examples.afterMisses 3) ++ GetAccountInfo "curve:Mint" :: added.
Proof.
  split; [vm_compute; reflexivity |].
  destruct (proj2 (proj2 (proj2 (cleared_service_asks_again Examples.deadWorld
                                   "Mint"%string false (Examples.afterMisses 3))))
              eq_refl) as (q & added & s' & H & Hcalls & _).
  exists q, added, s'. split; assumption.
Defined.

End ResolverUtilities.

Section NotANumber.
Local Open Scope float_scope.

Lemma is_nan_SF (x : float) : is_nan x = true <-> Prim2SF x = S754_nan.
Proof.
  unfold is_nan. rewrite FloatAxioms.eqb_spec.
  destruct (Prim2SF x) as [[|] | [|] | | [|] m e]; cbn;
    rewrite ?Z.compare_refl, ?Pos.compare_cont_refl; cbn;
    split; congruence.
Qed.

(** The PnL percentage of a position whose entry price is NaN is NaN. *)
Lemma nan_entry_percentage (price entry : float) :
  is_nan entry = true -> is_nan ((price - entry) / entry * 100) = true.
Proof.
  rewrite !is_nan_SF. intros He.
  rewrite FloatAxioms.mul_spec, FloatAxioms.div_spec, FloatAxioms.sub_spec, He.
  destruct (Prim2SF price); reflexivity.
Qed.

(** No comparison with NaN holds. *)
Lemma nan_compares_false (x y : float) :
  is_nan x = true ->
  (x <=? y) = false /\ (y <=? x) = false /\ (x <? y) = false /\ (y <? x) = false.
Proof.
  rewrite is_nan_SF. intros Hx.
  rewrite !FloatAxioms.leb_spec, !FloatAxioms.ltb_spec, Hx.
  destruct (Prim2SF y); auto.
Qed.

End NotANumber.

Section CopyDecision.
Import CopyStrategy.
Local Open Scope Z_scope.

(** X19. [shouldCopy] approves a signal
    exactly when every check passes: the vote check (paper mode, or
    enough corroborating wallets), the rebuy guard when it is enabled,
    no cooldown text for the mint, no open position of the mint, fewer
    open positions than [MAX_POSITIONS], the three store commands
    answered and a copy amount is present.  The approval carries that
    amount, the confidence of the number of votes and the mode.  In
    particular nothing is approved when the store cannot be read. *)
Theorem shouldCopy_approves_exactly :
  forall cfg env R clk sig amount confidence votes wallets mode,
    shouldCopy cfg env R clk sig = Copy amount confidence votes wallets mode
    <->
    ((dryRun env = true \/ minWalletsToBuy cfg <= upvotes sig) /\
     (blockRebuys cfg = true ->
      isRebuySignal cfg R clk (mint sig) (walletAddress sig) = false) /\
     failing R (GET (mint sig)) = false /\
     failing R (SISMEMBER (mint sig)) = false /\
     failing R SCARD = false /\
     (copy_cooldown (store R) !! mint sig = None
      \/ copy_cooldown (store R) !! mint sig = Some ""%string) /\
     (mint sig ∉ open_positions (store R)) /\
     Z.of_nat (size (open_positions (store R))) < maxPositions env /\
     copyAmount sig = Some amount /\
     confidence = calculateConfidence (upvotes sig) /\
     votes = upvotes sig /\ wallets = buyers sig /\
     mode = (if dryRun env then "paper" else "live")%string).
Proof.
  intros cfg env R clk sig amount confidence votes wallets mode.
  unfold shouldCopy, shouldCopy_body, sismember, command.
  split.
  - intros H.
    destruct (negb (dryRun env) && (upvotes sig <? minWalletsToBuy cfg)) eqn:Hvotes;
      [discriminate |].
    assert (dryRun env = true \/ minWalletsToBuy cfg <= upvotes sig) as Hv.
    { apply andb_false_iff in Hvotes as [Hd | Hu].
      - left. destruct (dryRun env); [reflexivity | discriminate].
      - right. apply Z.ltb_ge. exact Hu. }
    split; [exact Hv |].
    destruct (blockRebuys cfg) eqn:Hblock; cbn [obind] in H.
    + destruct (isRebuySignal cfg R clk (mint sig) (walletAddress sig)) eqn:Hre;
        [discriminate |].
      split; [reflexivity |]. revert H.
      destruct (failing R (GET (mint sig))); [discriminate |]. cbn [obind].
      destruct (bool_decide _) eqn:Hcool; [discriminate |].
      apply bool_decide_eq_false_1 in Hcool.
      destruct (failing R (SISMEMBER (mint sig))); [discriminate |]. cbn [obind].
      destruct (bool_decide (mint sig ∈ _)) eqn:Hopen; [discriminate |].
      apply bool_decide_eq_false_1 in Hopen.
      destruct (failing R SCARD); [discriminate |]. cbn [obind].
      destruct (maxPositions env <=? _) eqn:Hmax; [discriminate |].
      apply Z.leb_gt in Hmax.
      destruct (copyAmount sig) as [a |]; [| discriminate].
      intros [= <- <- <- <- <-].
      repeat split; try reflexivity; try assumption.
      destruct (copy_cooldown (store R) !! mint sig) as [[| c text] |]; auto.
      exfalso. apply Hcool. split; discriminate.
    + split; [discriminate |]. revert H.
      destruct (failing R (GET (mint sig))); [discriminate |]. cbn [obind].
      destruct (bool_decide _) eqn:Hcool; [discriminate |].
      apply bool_decide_eq_false_1 in Hcool.
      destruct (failing R (SISMEMBER (mint sig))); [discriminate |]. cbn [obind].
      destruct (bool_decide (mint sig ∈ _)) eqn:Hopen; [discriminate |].
      apply bool_decide_eq_false_1 in Hopen.
      destruct (failing R SCARD); [discriminate |]. cbn [obind].
      destruct (maxPositions env <=? _) eqn:Hmax; [discriminate |].
      apply Z.leb_gt in Hmax.
      destruct (copyAmount sig) as [a |]; [| discriminate].
      intros [= <- <- <- <- <-].
      repeat split; try reflexivity; try assumption.
      destruct (copy_cooldown (store R) !! mint sig) as [[| c text] |]; auto.
      exfalso. apply Hcool. split; discriminate.
  - intros (Hv & Hre & Hget & Hsis & Hscard & Hcool & Hopen & Hmax & Ha & -> & -> & -> & ->).
    assert (negb (dryRun env) && (upvotes sig <? minWalletsToBuy cfg) = false) as ->.
    { destruct Hv as [-> | Hv]; [reflexivity |].
      apply andb_false_iff. right. apply Z.ltb_ge. exact Hv. }
    assert ((if blockRebuys cfg
             then Ok (isRebuySignal cfg R clk (mint sig) (walletAddress sig))
             else Ok false) = Ok false) as ->.
    { destruct (blockRebuys cfg); [rewrite Hre|]; reflexivity. }
    cbn [obind]. rewrite Hget, Hsis, Hscard. cbn [obind].
    rewrite bool_decide_eq_false_2
      by (intros [H1 H2]; destruct Hcool as [Hc | Hc]; congruence).
    rewrite bool_decide_eq_false_2 by exact Hopen.
    destruct (maxPositions env <=? _) eqn:Hle; [apply Z.leb_le in Hle; lia |].
    rewrite Ha. reflexivity.
Qed.


(** The theorem on the signal of the examples in a store without open
    position nor history. *)
Lemma shouldCopy_approves_exactly_witness :
  shouldCopy defaultConfig Examples.paper (Examples.online Scenarios.idleStore)
             Examples.newYear (Examples.signal 1)
  = Copy 0.1 30 1 [] "paper".
Proof.
  apply (proj2 (shouldCopy_approves_exactly defaultConfig Examples.paper
                  (Examples.online Scenarios.idleStore) Examples.newYear
                  (Examples.signal 1) 0.1 30 1 [] "paper"%string)).
  split; [left; reflexivity |]. split; [intros _; vm_compute; reflexivity |].
  split; [reflexivity |]. split; [reflexivity |]. split; [reflexivity |].
  split; [left; reflexivity |]. split; [apply not_elem_of_empty |].
  split; [vm_compute; reflexivity |]. repeat split; reflexivity.
Defined.

End CopyDecision.

Section ExitEdges.
Import CopyStrategy.
Local Open Scope float_scope.

(** X20. Without a position [shouldExit]
    answers [{ exit: false }].  For a position whose entry price cannot
    be read (NaN) no trigger on prices fires, whatever the current price
    and the thresholds: the decision is to hold, or an exit because the
    traders sold or the holding time ran out; and a position whose entry
    time cannot be read never exits on the holding time. *)
Theorem shouldExit_unreadable_position :
  (forall cfg R clk currentPrice,
     shouldExit cfg R clk None currentPrice = NoExit) /\
  (forall cfg R clk position currentPrice,
     is_nan (entryPrice position) = true ->
     match shouldExit cfg R clk (Some position) currentPrice with
     | Exit reason _ _ _ _ => reason = traders_sold \/ reason = max_hold_time
     | Holding _ _ _ _ => True
     | NoExit => False
     end) /\
  (forall cfg R clk position currentPrice,
     entryTime position = None ->
     match shouldExit cfg R clk (Some position) currentPrice with
     | Exit reason _ _ _ _ => reason <> max_hold_time
     | _ => True
     end).
Proof.
  split; [reflexivity |]. split.
  - intros cfg R clk position currentPrice Hnan. unfold shouldExit.
    pose proof (nan_entry_percentage currentPrice _ Hnan) as Hpnl.
    pose proof (nan_entry_percentage
                  (default (entryPrice position) (maxPrice position)) _ Hnan) as Hmax.
    destruct (nan_compares_false _ (takeProfitPercent cfg) Hpnl) as (_ & -> & _).
    destruct (nan_compares_false _ (- stopLoss cfg) Hpnl) as (-> & _).
    destruct (nan_compares_false _ 0 Hmax) as (_ & _ & _ & ->).
    rewrite !andb_false_r. cbn [andb].
    repeat match goal with
           | |- context [if ?b then _ else _] => destruct b
           end; auto.
  - intros cfg R clk position currentPrice Htime. unfold shouldExit.
    rewrite Htime.
    assert (forall x, (x <=? nan) = false) as Hnan
      by (intros x; apply (nan_compares_false nan x); reflexivity).
    rewrite Hnan, andb_false_r.
    repeat match goal with
           | |- context [if ?b then _ else _] => destruct b
           end; auto; discriminate.
Qed.

(** The theorem on a position without entry price whose price has
    fallen from 150 to 1. *)
Lemma shouldExit_unreadable_position_witness :
  shouldExit defaultConfig (Examples.online Examples.openStore) Examples.newYear
             (Some Scenarios.unpriced) 1
  = Holding nan nan 600 0 /\
  match shouldExit defaultConfig (Examples.online Examples.openStore)
          Examples.newYear (Some Scenarios.unpriced) 1 with
  | Exit reason _ _ _ _ => reason = traders_sold \/ reason = max_hold_time
  | Holding _ _ _ _ => True
  | NoExit => False
  end.
Proof.
  split; [vm_compute; reflexivity |].
  exact (proj1 (proj2 shouldExit_unreadable_position) defaultConfig
           (Examples.online Examples.openStore) Examples.newYear
           Scenarios.unpriced 1 eq_refl).
Defined.

End ExitEdges.

Section Confirmation.
Import Rpc.
Local Open Scope Z_scope.

Lemma afterCalls_nil s : afterCalls [] s = s.
Proof. destruct s. unfold afterCalls. cbn. rewrite app_nil_r. reflexivity. Qed.

Lemma afterCalls_cons c l s : afterCalls l (afterCalls [c] s) = afterCalls (c :: l) s.
Proof. unfold afterCalls. cbn. rewrite <- app_assoc. reflexivity. Qed.

Lemma local_poll W signature rest i s :
  PumpPortalExecutor.waitForConfirmation W signature (S rest) i s
  = if PumpPortalExecutor.settled W signature i
    then (Ok true, afterCalls [GetSignatureStatus signature] s)
    else PumpPortalExecutor.waitForConfirmation W signature rest (S i)
           (afterCalls [GetSignatureStatus signature] s).
Proof.
  cbn [PumpPortalExecutor.waitForConfirmation].
  unfold PumpPortalExecutor.settled, bind at 1, try_catch, bind, call, ret, throw.
  destruct (getSignatureStatus W signature i) as [[st |] | e]; try reflexivity.
  destruct (status_err st); [reflexivity |].
  destruct (PumpPortalExecutor.isConfirmed st); reflexivity.
Qed.

Lemma lightning_poll W signature rest i s :
  PumpPortalLightning.waitForConfirmation W signature (S rest) i s
  = if PumpPortalLightning.confirmedAt W signature i
    then (Ok true, afterCalls [GetSignatureStatus signature] s)
    else PumpPortalLightning.waitForConfirmation W signature rest (S i)
           (afterCalls [GetSignatureStatus signature] s).
Proof.
  cbn [PumpPortalLightning.waitForConfirmation].
  unfold PumpPortalLightning.confirmedAt, bind at 1, try_catch, bind, call, ret.
  destruct (getSignatureStatus W signature i) as [[st |] | e]; try reflexivity.
  destruct (PumpPortalExecutor.isConfirmed st); reflexivity.
Qed.

(** A polling loop that stops at the first poll that [good] accepts. *)
Lemma polling (good : nat -> bool) (signature : string)
  (wait : nat -> nat -> Eff State bool) :
  (forall i s, wait 0%nat i s = (Ok false, s)) ->
  (forall rest i s,
     wait (S rest) i s
     = if good i then (Ok true, afterCalls [GetSignatureStatus signature] s)
       else wait rest (S i) (afterCalls [GetSignatureStatus signature] s)) ->
  forall remaining i s,
    exists n,
      (n <= remaining)%nat /\
      wait remaining i s
      = (Ok (negb (n =? 0)%nat && good (i + n - 1)%nat),
         afterCalls (repeat (GetSignatureStatus signature) n) s) /\
      (forall j, (j < n - 1)%nat -> good (i + j)%nat = false) /\
      ((n < remaining)%nat -> (0 < n)%nat /\ good (i + n - 1)%nat = true) /\
      ((0 < remaining)%nat -> (0 < n)%nat).
Proof.
  intros Hstop Hstep. induction remaining as [| rest IH]; intros i s.
  - exists 0%nat. rewrite Hstop, afterCalls_nil. cbn.
    repeat split; intros; lia.
  - rewrite Hstep. destruct (good i) eqn:Hgood.
    + exists 1%nat. replace (i + 1 - 1)%nat with i by lia. rewrite Hgood.
      repeat split; intros; first [lia | reflexivity | assumption].
    + destruct (IH (S i) (afterCalls [GetSignatureStatus signature] s))
        as (n & Hn & Hrun & Hbad & Hgoodn & Hpos).
      destruct n as [| n].
      * (* no poll left after this one *)
        exists 1%nat. replace (i + 1 - 1)%nat with i by lia.
        rewrite Hrun, Hgood, afterCalls_nil. cbn.
        assert (rest = 0%nat) as -> by lia.
        repeat split; intros; lia.
      * exists (S (S n)). rewrite Hrun, afterCalls_cons.
        replace (S i + S n - 1)%nat with (i + S (S n) - 1)%nat by lia.
        split; [lia |]. split; [reflexivity |]. split; [| split].
        -- intros j Hj. destruct j as [| j]; [rewrite Nat.add_0_r; exact Hgood |].
           replace (i + S j)%nat with (S i + j)%nat by lia. apply Hbad. lia.
        -- intros Hlt. split; [lia |].
           replace (i + S (S n) - 1)%nat with (S i + S n - 1)%nat by lia.
           apply Hgoodn. lia.
        -- intros _. lia.
Qed.

(** The polls of the Local API executor. *)
Lemma local_polls W signature s :
  exists n,
    (1 <= n <= 30)%nat /\
    PumpPortalExecutor.waitForConfirmation W signature 30 0 s
    = (Ok (PumpPortalExecutor.settled W signature (n - 1)),
       afterCalls (repeat (GetSignatureStatus signature) n) s) /\
    (forall j, (j < n - 1)%nat -> PumpPortalExecutor.settled W signature j = false) /\
    ((n < 30)%nat -> PumpPortalExecutor.settled W signature (n - 1) = true).
Proof.
  destruct (polling (PumpPortalExecutor.settled W signature) signature
              (PumpPortalExecutor.waitForConfirmation W signature)
              ltac:(reflexivity) (local_poll W signature) 30%nat 0%nat s)
    as (n & Hn & Hrun & Hbad & Hgood & Hpos).
  specialize (Hpos ltac:(lia)). exists n. cbn [Nat.add] in *.
  split; [lia |]. split; [| split; [exact Hbad | intros Hlt; apply Hgood; lia]].
  rewrite Hrun. destruct n; [lia | reflexivity].
Qed.

(** The polls of the Lightning API executor. *)
Lemma lightning_polls W signature s :
  exists n,
    (1 <= n <= 30)%nat /\
    PumpPortalLightning.waitForConfirmation W signature 30 0 s
    = (Ok (PumpPortalLightning.confirmedAt W signature (n - 1)),
       afterCalls (repeat (GetSignatureStatus signature) n) s) /\
    (forall j, (j < n - 1)%nat ->
               PumpPortalLightning.confirmedAt W signature j = false) /\
    ((n < 30)%nat -> PumpPortalLightning.confirmedAt W signature (n - 1) = true).
Proof.
  destruct (polling (PumpPortalLightning.confirmedAt W signature) signature
              (PumpPortalLightning.waitForConfirmation W signature)
              ltac:(reflexivity) (lightning_poll W signature) 30%nat 0%nat s)
    as (n & Hn & Hrun & Hbad & Hgood & Hpos).
  specialize (Hpos ltac:(lia)). exists n. cbn [Nat.add] in *.
  split; [lia |]. split; [| split; [exact Hbad | intros Hlt; apply Hgood; lia]].
  rewrite Hrun. destruct n; [lia | reflexivity].
Qed.

(** X21. [waitForConfirmation] never throws and
    polls the status of the signature at least once and at most 30
    times.  It stops, answering true, at the first poll that shows the
    signature confirmed or finalized; after 30 polls without one it
    answers false.  In the Local API executor a status that carries an
    error does not stop the loop: it counts as a poll that shows nothing
    and the polling goes on. *)
Theorem waitForConfirmation_polls :
  forall W signature s,
    (exists n,
       (1 <= n <= 30)%nat /\
       PumpPortalExecutor.waitForConfirmation W signature 30 0 s
       = (Ok (PumpPortalExecutor.settled W signature (n - 1)),
          afterCalls (repeat (GetSignatureStatus signature) n) s) /\
       (forall j, (j < n - 1)%nat -> PumpPortalExecutor.settled W signature j = false) /\
       ((n < 30)%nat -> PumpPortalExecutor.settled W signature (n - 1) = true)) /\
    (exists n,
       (1 <= n <= 30)%nat /\
       PumpPortalLightning.waitForConfirmation W signature 30 0 s
       = (Ok (PumpPortalLightning.confirmedAt W signature (n - 1)),
          afterCalls (repeat (GetSignatureStatus signature) n) s) /\
       (forall j, (j < n - 1)%nat ->
                  PumpPortalLightning.confirmedAt W signature j = false) /\
       ((n < 30)%nat -> PumpPortalLightning.confirmedAt W signature (n - 1) = true)) /\
    (forall i st,
       getSignatureStatus W signature i = Ok (Some st) ->
       status_err st <> None ->
       PumpPortalExecutor.settled W signature i = false).
Proof.
  intros W signature s. split; [apply local_polls |].
  split; [apply lightning_polls |].
  intros i st Hst Herr. unfold PumpPortalExecutor.settled. rewrite Hst.
  destruct (status_err st); [reflexivity | contradiction].
Qed.

End Confirmation.

Section LocalOrders.
Import Rpc.
Local Open Scope float_scope.

Lemma getTxDetails_calls W ex signature s :
  exists details,
    PumpPortalExecutor.getTxDetails W ex signature s
    = (Ok details, afterCalls [GetTransaction signature] s).
Proof.
  unfold PumpPortalExecutor.getTxDetails, try_catch, bind, call, ret.
  destruct (getTransaction W signature) as [[t |] | e]; [| eauto | eauto].
  destruct (meta t) as [[[e |]] |]; eauto.
Qed.

(** The steps of [submit]: the request, then, for an answer with the
    status 200 whose body deserializes, the transaction, and, once it
    is sent, the polls and the reading of the transaction. *)
Lemma submit_calls W ex payload label s r s' :
  PumpPortalExecutor.submit W ex payload label s = (r, s') ->
  exists rest,
    calls s' = calls s ++ PostTradeLocal payload :: rest /\
    drawn s' = drawn s /\ tick s' = tick s /\
    (rest = [] /\ (exists message, r = Throw message)
     \/ exists response unsigned,
          postTradeLocal W payload = Ok response /\
          status response = 200%Z /\ body response = Some unsigned /\
          deserializes W unsigned = true /\
          (rest = [SendTransaction unsigned] /\
           (exists message, sendTransaction W unsigned = Throw message
                            /\ r = Throw message)
           \/ exists signature n details,
                sendTransaction W unsigned = Ok signature /\
                (1 <= n <= 30)%nat /\
                rest = SendTransaction unsigned
                       :: repeat (GetSignatureStatus signature) n
                       ++ [GetTransaction signature] /\
                r = Ok (signature, details))).
Proof.
  unfold PumpPortalExecutor.submit. unfold bind at 1, call at 1. intros H.
  destruct (postTradeLocal W payload) as [response | e] eqn:Hpost.
  - destruct (status response =? 200)%Z eqn:Hstatus.
    + apply Z.eqb_eq in Hstatus.
      destruct (body response) as [unsigned |] eqn:Hbody.
      * destruct (deserializes W unsigned) eqn:Hde; cbn [negb] in H.
        -- unfold bind at 1, call at 1 in H.
           destruct (sendTransaction W unsigned) as [signature | e] eqn:Hsend.
           ++ unfold bind at 1 in H.
              match type of H with
              | context [PumpPortalExecutor.waitForConfirmation W signature _ _ ?st] =>
                  destruct (local_polls W signature st)
                    as (n & Hn & Hwait & _)
              end.
              rewrite Hwait in H. unfold bind at 1 in H.
              match type of H with
              | context [PumpPortalExecutor.getTxDetails W ex signature ?st] =>
                  destruct (getTxDetails_calls W ex signature st) as [details Hd]
              end.
              rewrite Hd in H. injection H as <- <-.
              eexists. split; [cbn; rewrite <- !app_assoc; cbn; reflexivity |].
              split; [reflexivity |]. split; [reflexivity |]. right.
              exists response, unsigned. repeat split; try assumption.
              right. exists signature, n, details. auto.
           ++ injection H as <- <-.
              eexists. split; [cbn; rewrite <- !app_assoc; cbn; reflexivity |].
              split; [reflexivity |]. split; [reflexivity |]. right.
              exists response, unsigned. repeat split; try assumption.
              left. eauto.
        -- unfold throw in H. injection H as <- <-.
           exists []. cbn. repeat split. left. eauto.
      * unfold throw in H. injection H as <- <-.
        exists []. cbn. repeat split. left. eauto.
    + unfold throw in H. injection H as <- <-.
      exists []. cbn. repeat split. left. eauto.
  - injection H as <- <-. exists []. cbn. repeat split. left. eauto.
Qed.

(** A live order once [submit] has run: [after] is what the order does
    with the signature and the details. *)
Lemma liveOrder_of_submit W ex act mint request label s
  (after : string * PumpPortalExecutor.TxDetails -> Eff State ExecutionResult) :
  (forall sent details st,
     (exists message,
        after (sent, details) st = (Throw message, st))
     \/ (exists r,
           after (sent, details) st
           = (Ok r, {| calls := calls st; drawn := drawn st;
                       tick := S (tick st) |}) /\
           success r = true /\ error r = None /\
           signature r = Some sent /\
           timestamp r = Some (clock W (tick st)))) ->
  PumpPortalExecutor.liveOrder W act mint request s
    (try_catch
       (bind (PumpPortalExecutor.submit W ex request label) after)
       (fun message => ret (failure act mint message)) s).
Proof.
  intros Hafter. unfold try_catch, bind.
  destruct (PumpPortalExecutor.submit W ex request label s) as [r1 s1] eqn:Hs.
  apply submit_calls in Hs as (rest & Hcalls & Hdrawn & Htick & Hcase).
  destruct Hcase as [[-> [message ->]] |
                     (response & unsigned & Hpost & Hstatus & Hbody & Hde & Hcase)].
  - exists (failure act mint message), s1, []. cbn.
    repeat split; auto. left. split; [eauto | assumption].
  - destruct Hcase as [[-> (message & Hsend & ->)] |
                       (sent & n & details & Hsend & Hn & -> & ->)].
    + exists (failure act mint message), s1, [SendTransaction unsigned]. cbn.
      split; [reflexivity |]. split; [assumption |]. split; [assumption |].
      split; [left; split; [eauto | assumption] |].
      right. exists response, unsigned. repeat split; auto.
      left. repeat split; eauto.
    + destruct (Hafter sent details s1) as [[message Hrun] | (r & Hrun & Hok & Herr & Hsig & Hts)];
        rewrite Hrun.
      * exists (failure act mint message), s1. eexists. cbn.
        split; [reflexivity |]. split; [eassumption |]. split; [assumption |].
        split; [left; split; [eauto | assumption] |].
        right. exists response, unsigned. repeat split; auto.
        right. exists sent, n. repeat split; auto; try lia; discriminate.
      * eexists r, _, _. cbn.
        split; [reflexivity |]. split; [eassumption |]. split; [assumption |].
        split.
        { right. split; [assumption |]. split; [assumption |].
          split; [cbn; f_equal; assumption | rewrite Hts, Htick; reflexivity]. }
        right. exists response, unsigned. repeat split; auto.
        right. exists sent, n. repeat split; auto; lia.
Qed.

(** X22. Outside dry-run mode an order of the
    Local API executor never throws and posts one request: the buy or
    the sell of the mint, whose amount is, for a sell, always a
    percentage (the caller's, or "100%" in place of a number of
    tokens).  A transaction is sent only for an answer with the status
    200 whose body deserializes; once sent, its signature is polled 1 to
    30 times and the transaction is read back.  The answer is a success
    that carries the signature of the transaction sent, or the failure
    object, which carries an error and no signature even when a
    transaction has been sent. *)
Theorem local_live_order_steps :
  forall W ex mint slippage priorityFee s,
    PumpPortalExecutor.dryRun ex = false ->
    (forall solAmount,
       PumpPortalExecutor.liveOrder W "buy" mint
         (PumpPortalExecutor.buyRequest mint solAmount slippage priorityFee) s
         (PumpPortalExecutor.buyToken W ex mint solAmount slippage priorityFee s)) /\
    (forall amountTokens,
       isPercent
         (amount (PumpPortalExecutor.sellRequest mint amountTokens
                    slippage priorityFee)) = true /\
       PumpPortalExecutor.liveOrder W "sell" mint
         (PumpPortalExecutor.sellRequest mint amountTokens slippage priorityFee) s
         (PumpPortalExecutor.sellToken W ex mint amountTokens
            slippage priorityFee s)).
Proof.
  intros W ex mint slippage priorityFee s Hlive. split.
  - intros solAmount. unfold PumpPortalExecutor.buyToken. rewrite Hlive.
    apply liveOrder_of_submit. intros sent [reason | received sold sol] st.
    + left. eexists. reflexivity.
    + destruct (negb (JS.truthy received) || (received <=? 0)).
      * left. eexists. reflexivity.
      * right. eexists. split; [reflexivity |]. cbn. auto.
  - intros amountTokens. split.
    + unfold PumpPortalExecutor.sellRequest. cbn [amount].
      destruct (isPercent amountTokens) eqn:Hp; [exact Hp | reflexivity].
    + unfold PumpPortalExecutor.sellToken. rewrite Hlive.
      apply liveOrder_of_submit. intros sent [reason | received sold sol] st.
      * left. eexists. reflexivity.
      * destruct (negb (JS.truthy sold) || (sold <=? 0));
          [left; eexists; reflexivity |].
        destruct (negb (JS.truthy sol) || (sol <=? 0));
          [left; eexists; reflexivity |].
        right. eexists. split; [reflexivity |]. cbn. auto.
Qed.

(** A buy on a network that accepts the order and confirms it at the
    third poll. *)
Lemma local_live_order_steps_witness :
  PumpPortalExecutor.liveOrder Scenarios.localWorld "buy" "Mint"
    (PumpPortalExecutor.buyRequest "Mint" 0.1 None None) Examples.freshExecutor
    (PumpPortalExecutor.buyToken Scenarios.localWorld Scenarios.liveLocal
       "Mint" 0.1 None None Examples.freshExecutor).
Proof.
  exact (proj1 (local_live_order_steps Scenarios.localWorld Scenarios.liveLocal
                  "Mint"%string None None Examples.freshExecutor eq_refl) 0.1).
Defined.

(** The buy of [local_live_order_steps_witness] succeeds with the 1000
    tokens of the transaction. *)
Lemma local_success_means_movement_witness :
  exists r s' received,
    PumpPortalExecutor.buyToken Scenarios.localWorld Scenarios.liveLocal
      "Mint" 0.1 None None Examples.freshExecutor = (Ok r, s') /\
    success r = true /\
    tokensReceived r = Some received /\ (0 <? received) = true.
Proof.
  destruct (PumpPortalExecutor.buyToken Scenarios.localWorld Scenarios.liveLocal
              "Mint" 0.1 None None Examples.freshExecutor) as [[r | message] s']
    eqn:Hrun.
  - assert (Hok : success r = true).
    { vm_compute in Hrun. injection Hrun as <- _. reflexivity. }
    destruct (proj1 local_success_means_movement
                Scenarios.localWorld Scenarios.liveLocal "Mint"%string 0.1
                None None Examples.freshExecutor r s' eq_refl Hrun Hok)
      as (received & Hreceived & Hpos).
    exists r, s', received. auto.
  - vm_compute in Hrun. discriminate.
Defined.

End LocalOrders.

Section LightningOrders.
Import Rpc.
Local Open Scope float_scope.

Lemma lightning_getTxDetails_calls W ex sent s :
  exists details,
    PumpPortalLightning.getTxDetails W ex sent s
    = (Ok details, afterCalls [GetTransaction sent] s).
Proof.
  unfold PumpPortalLightning.getTxDetails, try_catch, bind, call, lift, ret.
  destruct (getTransaction W sent) as [tx | e]; [| eauto].
  destruct (PumpPortalLightning.parseTx ex tx); eauto.
Qed.

(** [send] makes the request and answers the signature of an accepted
    order; it throws for any other answer. *)
Lemma send_calls W request s :
  (exists sent,
     PumpPortalLightning.accepted W request sent /\
     PumpPortalLightning.send W request s
     = (Ok sent, afterCalls [PostTrade request] s))
  \/ ((forall sent, ~ PumpPortalLightning.accepted W request sent) /\
      exists message,
        PumpPortalLightning.send W request s
        = (Throw message, afterCalls [PostTrade request] s)).
Proof.
  unfold PumpPortalLightning.send, PumpPortalLightning.accepted, bind, call, throw, ret.
  destruct (postTrade W request) as [response | e].
  - destruct (lightning_status response =? 200)%Z eqn:Hstatus.
    + apply Z.eqb_eq in Hstatus.
      destruct (lightning_data response) as [d |] eqn:Hd.
      * destruct (data_signature d) as [sent |] eqn:Hsig.
        -- left. exists sent. split; [| reflexivity]. exists response, d. auto.
        -- right. split; [| eauto].
           intros sent (response' & d' & Hr & _ & Hd' & Hsig').
           injection Hr as <-. rewrite Hd in Hd'. injection Hd' as <-.
           congruence.
      * right. split; [| eauto].
        intros sent (response' & d' & Hr & _ & Hd' & _).
        injection Hr as <-. congruence.
    + right. split; [| eauto].
      intros sent (response' & d' & Hr & Hs & _).
      injection Hr as <-. apply Z.eqb_neq in Hstatus. contradiction.
  - right. split; [| eauto].
    intros sent (response' & d' & Hr & _). discriminate.
Qed.

Lemma accepted_unique W request sent sent' :
  PumpPortalLightning.accepted W request sent ->
  PumpPortalLightning.accepted W request sent' -> sent = sent'.
Proof.
  intros (r & d & Hr & _ & Hd & Hs) (r' & d' & Hr' & _ & Hd' & Hs').
  congruence.
Qed.

(** A live order once the request is made: [result] builds the answer
    from the signature, the details and the time. *)
Lemma liveOrder_of_send W ex act mint request s
  (result : string -> option PumpPortalLightning.TxDetails -> Z -> ExecutionResult) :
  (forall sent details now,
     success (result sent details now) = true /\
     error (result sent details now) = None /\
     signature (result sent details now) = Some sent /\
     timestamp (result sent details now) = Some now) ->
  PumpPortalLightning.liveOrder W request s
    (try_catch
       (bind (PumpPortalLightning.send W request) (fun sent =>
        bind (PumpPortalLightning.waitForConfirmation W sent 30 0) (fun _ =>
        bind (PumpPortalLightning.getTxDetails W ex sent) (fun tx =>
        bind (now_ms W) (fun now => ret (result sent tx now))))))
       (fun message => ret (failure act mint message)) s).
Proof.
  intros Hres. unfold try_catch. unfold bind at 1.
  destruct (send_calls W request s) as [(sent & Hacc & ->) | (Hno & message & ->)].
  - unfold bind at 1.
    destruct (lightning_polls W sent (afterCalls [PostTrade request] s))
      as (n & Hn & -> & _).
    unfold bind at 1.
    match goal with
    | |- context [PumpPortalLightning.getTxDetails W ex sent ?st] =>
        destruct (lightning_getTxDetails_calls W ex sent st) as [details ->]
    end.
    unfold bind, now_ms, ret. cbn.
    destruct (Hres sent details (clock W (tick s))) as (Hok & Herr & Hsig & Hts).
    eexists. eexists. split; [reflexivity |].
    split; [split; [eauto | intros _; exact Hok] |].
    split.
    + intros sent' Hacc'. rewrite (accepted_unique _ _ _ _ Hacc' Hacc).
      repeat split; auto. exists n. split; [lia |].
      rewrite <- !app_assoc. reflexivity.
    + rewrite Hok. discriminate.
  - cbn. eexists. eexists. split; [reflexivity |].
    split; [split; [discriminate | intros [sent Hacc]; destruct (Hno sent Hacc)] |].
    split.
    + intros sent Hacc. destruct (Hno sent Hacc).
    + intros _. repeat split. discriminate.
Qed.

(** X24. Outside dry-run mode an order of
    the Lightning API executor never throws and succeeds exactly when
    the endpoint answered its request with the status 200 and a
    signature: what the polls of the signature and the reading of the
    transaction show does not change the outcome.  A success carries
    that signature, after 1 to 30 polls and one reading of the
    transaction; a failure made the request alone and carries an error
    and no signature.  The amount of a sell goes into the request as the
    caller gave it. *)
Theorem lightning_success_iff_accepted :
  forall W ex mint slippage priorityFee s,
    PumpPortalLightning.dryRun ex = false ->
    (forall solAmount,
       PumpPortalLightning.liveOrder W
         (PumpPortalExecutor.buyRequest mint solAmount slippage priorityFee) s
         (PumpPortalLightning.buyToken W ex mint solAmount slippage priorityFee s)) /\
    (forall amountTokens,
       PumpPortalLightning.liveOrder W
         (PumpPortalLightning.sellRequest mint amountTokens slippage priorityFee) s
         (PumpPortalLightning.sellToken W ex mint amountTokens
            slippage priorityFee s)).
Proof.
  intros W ex mint slippage priorityFee s Hlive. split.
  - intros solAmount. unfold PumpPortalLightning.buyToken. rewrite Hlive.
    apply (liveOrder_of_send W ex "buy" mint _ s
             (fun sent tx now =>
                {| success := true; simulated := false; result_action := "buy";
                   result_mint := mint; signature := Some sent;
                   solSpent := Some solAmount;
                   tokensReceived :=
                     Some (JS.or_default
                             (match tx with
                              | Some d => PumpPortalLightning.parsed_tokensReceived d
                              | None => None
                              end) 0);
                   requestedTokens := None; tokensSold := None;
                   solReceived := None; timestamp := Some now;
                   error := None |})).
    intros sent details now. cbn. auto.
  - intros amountTokens. unfold PumpPortalLightning.sellToken. rewrite Hlive.
    apply (liveOrder_of_send W ex "sell" mint _ s
             (fun sent tx now =>
                {| success := true; simulated := false; result_action := "sell";
                   result_mint := mint; signature := Some sent;
                   solSpent := None; tokensReceived := None;
                   requestedTokens := None; tokensSold := Some amountTokens;
                   solReceived :=
                     Some (JS.or_default
                             (match tx with
                              | Some d => PumpPortalLightning.parsed_solReceived d
                              | None => None
                              end) 0);
                   timestamp := Some now; error := None |})).
    intros sent details now. cbn. auto.
Qed.

(** A sell of 1000 tokens on the network of the examples, where the
    endpoint answers with a signature that is never confirmed. *)
Lemma lightning_success_iff_accepted_witness :
  PumpPortalLightning.liveOrder (Examples.lightningWorld None)
    (PumpPortalLightning.sellRequest "Mint" (Num 1000) None None)
    Examples.freshExecutor
    (PumpPortalLightning.sellToken (Examples.lightningWorld None)
       Examples.liveExecutor "Mint" (Num 1000) None None Examples.freshExecutor).
Proof.
  exact (proj2 (lightning_success_iff_accepted (Examples.lightningWorld None)
                  Examples.liveExecutor "Mint"%string None None
                  Examples.freshExecutor eq_refl) (Num 1000)).
Defined.

End LightningOrders.

Section Graduation.
Import GraduationHandler.
Local Open Scope float_scope.

Ltac lookup_fields :=
  repeat first
    [ rewrite lookup_insert_eq
    | rewrite lookup_insert_ne by (first [discriminate | congruence]) ].

(** The two orders in which the handler writes its four fields give the
    same hash. *)
Lemma writeFields_priced (p t : string) (h : gmap string string) :
  writeFields [("executedDex", "Jupiter"); ("graduated", "true");
               ("graduationPrice", p); ("graduationTime", t)]%string h
  = marked p t h.
Proof.
  unfold writeFields, marked. cbn [fold_left fst snd].
  apply map_eq. intros k.
  destruct (decide (k = "graduated"%string)) as [-> | ?];
    [lookup_fields; reflexivity |].
  destruct (decide (k = "executedDex"%string)) as [-> | ?];
    [lookup_fields; reflexivity |].
  destruct (decide (k = "graduationPrice"%string)) as [-> | ?];
    [lookup_fields; reflexivity |].
  destruct (decide (k = "graduationTime"%string)) as [-> | ?];
    [lookup_fields; reflexivity |].
  lookup_fields. reflexivity.
Qed.

Lemma writeFields_unpriced (p t : string) (h : gmap string string) :
  writeFields [("graduated", "true"); ("graduationTime", t);
               ("executedDex", "Jupiter"); ("graduationPrice", p)]%string h
  = marked p t h.
Proof.
  unfold writeFields, marked. cbn [fold_left fst snd].
  apply map_eq. intros k.
  destruct (decide (k = "graduated"%string)) as [-> | ?];
    [lookup_fields; reflexivity |].
  destruct (decide (k = "executedDex"%string)) as [-> | ?];
    [lookup_fields; reflexivity |].
  destruct (decide (k = "graduationPrice"%string)) as [-> | ?];
    [lookup_fields; reflexivity |].
  destruct (decide (k = "graduationTime"%string)) as [-> | ?];
    [lookup_fields; reflexivity |].
  lookup_fields. reflexivity.
Qed.

(** A marked position keeps every field but the four, and is no longer
    eligible. *)
Lemma marked_fields (p t : string) (h : gmap string string) :
  marked p t h !! "graduated"%string = Some "true"%string /\
  marked p t h !! "executedDex"%string = Some "Jupiter"%string /\
  marked p t h !! "graduationPrice"%string = Some p /\
  marked p t h !! "graduationTime"%string = Some t /\
  (forall field,
     field <> "graduated"%string -> field <> "executedDex"%string ->
     field <> "graduationPrice"%string -> field <> "graduationTime"%string ->
     marked p t h !! field = h !! field).
Proof.
  unfold marked. repeat split; try (lookup_fields; reflexivity).
  intros field ? ? ? ?. lookup_fields. reflexivity.
Qed.

Lemma marked_not_eligible (p t : string) (h : gmap string string) :
  eligible (marked p t h) = false.
Proof.
  unfold eligible.
  destruct (marked_fields p t h) as (-> & _).
  rewrite (bool_decide_eq_true_2 _ eq_refl). cbn [negb].
  apply andb_false_r.
Qed.

Lemma hasGraduated_run W mint s :
  exists r s',
    hasGraduated W mint s = (Ok r, s') /\
    open_positions s' = open_positions s /\ hashes s' = hashes s /\
    (svc_hasGraduated (service W) = None ->
     svc_getPriceWithFallback (service W) = None ->
     r = Some notGraduated /\ s' = s).
Proof.
  unfold hasGraduated, try_catch, bind, ask, ret.
  destruct (svc_hasGraduated (service W)) as [m |].
  - destruct (m mint (asked s)); eexists; eexists;
      (split; [reflexivity |]); repeat split; discriminate.
  - destruct (svc_getPriceWithFallback (service W)) as [m |].
    + destruct (m mint (asked s)) as [[d |] | e]; eexists; eexists;
        (split; [reflexivity |]); repeat split; discriminate.
    + eexists; eexists. split; [reflexivity |]. auto.
Qed.

(** [getDEXPrice] never throws, leaves the store alone, and answers a
    price exactly when it is the truthy price of data it accepts. *)
Lemma getDEXPrice_run W mint s :
  exists r s',
    getDEXPrice W mint s = (Ok r, s') /\
    open_positions s' = open_positions s /\ hashes s' = hashes s /\
    tick s' = tick s /\
    (forall p,
       r = Some p <->
       JS.truthy p = true /\
       exists d, price d = Some p /\ dexData W mint (asked s) d).
Proof.
  unfold getDEXPrice, try_catch, bind, ask, ret, dexData.
  destruct (svc_getPriceFromDEX (service W)) as [m |].
  - assert (forall p d,
              (exists method,
                 Some m = Some method /\ method mint (asked s) = Ok (Some d))
              \/ (Some m = None /\
                  exists method,
                    svc_getPriceWithFallback (service W) = Some method /\
                    method mint (asked s) = Ok (Some d) /\ fromDex d = true) ->
              price d = Some p -> JS.truthy p = true ->
              m mint (asked s) = Ok (Some d) /\ hasPrice d = true) as Hinv.
    { intros p d [(m' & Hm' & Hans) | (Hno & _)] Hd Hp; [| discriminate].
      injection Hm' as <-. split; [exact Hans |].
      unfold hasPrice. rewrite Hd. exact Hp. }
    destruct (m mint (asked s)) as [[d |] | e] eqn:Hm; cbn.
    + destruct (hasPrice d) eqn:Hhas.
      * eexists; eexists. split; [reflexivity |]. repeat (split; [reflexivity |]).
        intros p. cbn. unfold hasPrice in Hhas.
        destruct (price d) as [q |] eqn:Hq; [| discriminate]. split.
        -- intros [= <-]. split; [exact Hhas |]. exists d.
           split; [exact Hq |]. left. eauto.
        -- intros (Hp & d' & Hd' & Hdex).
           destruct (Hinv p d' Hdex Hd' Hp) as [[= <-] _]. congruence.
      * eexists; eexists. split; [reflexivity |]. repeat (split; [reflexivity |]).
        intros p. split; [discriminate |].
        intros (Hp & d' & Hd' & Hdex).
        destruct (Hinv p d' Hdex Hd' Hp) as [[= <-] Hhas']. congruence.
    + eexists; eexists. split; [reflexivity |]. repeat (split; [reflexivity |]).
      intros p. split; [discriminate |].
      intros (Hp & d' & Hd' & Hdex).
      destruct (Hinv p d' Hdex Hd' Hp) as [[=] _].
    + eexists; eexists. split; [reflexivity |]. repeat (split; [reflexivity |]).
      intros p. split; [discriminate |].
      intros (Hp & d' & Hd' & Hdex).
      destruct (Hinv p d' Hdex Hd' Hp) as [[=] _].
  - destruct (svc_getPriceWithFallback (service W)) as [m |].
    + assert (forall p d,
                (exists method,
                   @None (string -> nat -> outcome (option PriceData))
                   = Some method /\
                   method mint (asked s) = Ok (Some d))
                \/ (@None (string -> nat -> outcome (option PriceData)) = None /\
                    exists method,
                      Some m = Some method /\
                      method mint (asked s) = Ok (Some d) /\ fromDex d = true) ->
                price d = Some p -> JS.truthy p = true ->
                m mint (asked s) = Ok (Some d) /\
                hasPrice d && fromDex d = true) as Hinv.
      { intros p d [(m' & Hm' & _) | (_ & m' & Hm' & Hans & Hdex)] Hd Hp;
          [discriminate |].
        injection Hm' as <-. split; [exact Hans |].
        unfold hasPrice. rewrite Hd, Hp, Hdex. reflexivity. }
      destruct (m mint (asked s)) as [[d |] | e] eqn:Hm; cbn.
      * destruct (hasPrice d && fromDex d) eqn:Hacc; cbn.
        -- apply andb_prop in Hacc as [Hhas Hdex]. rewrite Hhas.
           eexists; eexists. split; [reflexivity |].
           repeat (split; [reflexivity |]).
           intros p. cbn. unfold hasPrice in Hhas.
           destruct (price d) as [q |] eqn:Hq; [| discriminate]. split.
           ++ intros [= <-]. split; [exact Hhas |]. exists d.
              split; [exact Hq |]. right. split; [reflexivity |]. eauto.
           ++ intros (Hp & d' & Hd' & Hdex').
              destruct (Hinv p d' Hdex' Hd' Hp) as [[= <-] _]. congruence.
        -- eexists; eexists. split; [reflexivity |].
           repeat (split; [reflexivity |]).
           intros p. split; [discriminate |].
           intros (Hp & d' & Hd' & Hdex').
           destruct (Hinv p d' Hdex' Hd' Hp) as [[= <-] Hacc']. congruence.
      * eexists; eexists. split; [reflexivity |]. repeat (split; [reflexivity |]).
        intros p. split; [discriminate |].
        intros (Hp & d' & Hd' & Hdex').
        destruct (Hinv p d' Hdex' Hd' Hp) as [[=] _].
      * eexists; eexists. split; [reflexivity |]. repeat (split; [reflexivity |]).
        intros p. split; [discriminate |].
        intros (Hp & d' & Hd' & Hdex').
        destruct (Hinv p d' Hdex' Hd' Hp) as [[=] _].
    + cbn. eexists; eexists. split; [reflexivity |].
      repeat (split; [reflexivity |]).
      intros p. split; [discriminate |].
      intros (Hp & d' & Hd' & [(m' & Hm' & _) | (_ & m' & Hm' & _)]);
        discriminate.
Qed.

(** The alert never changes the store. *)
Lemma alert_run W mint s :
  exists r s',
    alert W mint s = (r, s') /\
    open_positions s' = open_positions s /\ hashes s' = hashes s /\
    tick s' = tick s.
Proof.
  unfold alert, bind, modify, lift, ret.
  destruct (telegramChat W); eexists; eexists; (split; [reflexivity |]); auto.
Qed.

(** The writing of the four fields and the alert that follows. *)
Lemma mark_run W mint (fields : Z -> list (string * string)) p s :
  writeFields (fields (clock W (tick s))) (stored s ("position:" ++ mint)%string)
  = marked (numberToString W p)
      (numberToString W (JS.ofZ (clock W (tick s))))
      (stored s ("position:" ++ mint)%string) ->
  exists s',
    try_catch
      (bind (now_ms W) (fun now =>
       bind (hset W ("position:" ++ mint)%string (fields now))
            (fun _ => alert W mint)))
      (fun _ => ret tt) s = (Ok tt, s') /\
    open_positions s' = open_positions s /\
    tick s' = S (tick s) /\
    hashes s'
    = (if failing W (HSET ("position:" ++ mint)%string) then hashes s
       else <[("position:" ++ mint)%string :=
               marked (numberToString W p)
                 (numberToString W (JS.ofZ (clock W (tick s))))
                 (stored s ("position:" ++ mint)%string)]> (hashes s)).
Proof.
  intros Hfields. unfold try_catch, bind at 1, now_ms. unfold bind, hset.
  cbn [hashes open_positions events asked tick].
  destruct (failing W (HSET ("position:" ++ mint)%string)).
  - eexists. split; [reflexivity |]. auto.
  - match goal with
    | |- context [alert W mint ?st] =>
        destruct (alert_run W mint st) as (r & s' & -> & Hop & Hh & Ht)
    end.
    cbn in Hop, Hh, Ht. unfold stored in Hfields.
    destruct r as [[] | e]; eexists; (split; [reflexivity |]);
      (split; [exact Hop |]); (split; [exact Ht |]);
      rewrite Hh, Hfields; unfold stored; reflexivity.
Qed.

Lemma try_catch_bind {S A B} (m : Eff S A) (k : A -> Eff S B) h s :
  try_catch (bind m k) h s
  = match m s with
    | (Ok a, s1) => try_catch (k a) h s1
    | (Throw e, s1) => h e s1
    end.
Proof. unfold try_catch, bind. destruct (m s) as [[a | e] s1]; reflexivity. Qed.

(** The handler of one position: it never throws and changes at most
    the hash of the position. *)
Lemma handle_run W mint position s :
  exists s' p,
    handleGraduatedPosition W mint position s = (Ok tt, s') /\
    open_positions s' = open_positions s /\
    tick s' = S (tick s) /\
    match fst (getDEXPrice W mint s) with
    | Ok (Some q) => p = q
    | _ => p = entryPriceOf W position
    end /\
    hashes s'
    = (if failing W (HSET ("position:" ++ mint)%string) then hashes s
       else <[("position:" ++ mint)%string :=
               marked (numberToString W p)
                 (numberToString W (JS.ofZ (clock W (tick s))))
                 (stored s ("position:" ++ mint)%string)]> (hashes s)).
Proof.
  unfold handleGraduatedPosition. rewrite try_catch_bind.
  destruct (getDEXPrice_run W mint s) as (r & s1 & -> & Hop & Hh & Ht & Hr).
  cbn [fst].
  assert (stored s1 ("position:" ++ mint)%string
          = stored s ("position:" ++ mint)%string) as Hst
    by (unfold stored; rewrite Hh; reflexivity).
  destruct r as [q |].
  - destruct (proj1 (Hr q) eq_refl) as [-> _].
    destruct (mark_run W mint
                (fun now =>
                   [("executedDex", "Jupiter"); ("graduated", "true");
                    ("graduationPrice", numberToString W q);
                    ("graduationTime", numberToString W (JS.ofZ now))]%string)
                q s1 (writeFields_priced _ _ _))
      as (s' & Hrun & Hop' & Ht' & Hh').
    rewrite Hrun.
    exists s', q. split; [reflexivity |]. split; [congruence |].
    split; [congruence |]. split; [reflexivity |].
    rewrite Hh', Hst, Hh, Ht. reflexivity.
  - destruct (mark_run W mint
                (fun now =>
                   [("graduated", "true");
                    ("graduationTime", numberToString W (JS.ofZ now));
                    ("executedDex", "Jupiter");
                    ("graduationPrice",
                     numberToString W (entryPriceOf W position))]%string)
                (entryPriceOf W position) s1 (writeFields_unpriced _ _ _))
      as (s' & Hrun & Hop' & Ht' & Hh').
    rewrite Hrun.
    exists s', (entryPriceOf W position). split; [reflexivity |].
    split; [congruence |]. split; [congruence |]. split; [reflexivity |].
    rewrite Hh', Hst, Hh, Ht. reflexivity.
Qed.

(** X25. [getDEXPrice] never throws and
    answers a price exactly when it is the truthy price of the data of
    [getPriceFromDEX], or, for a service without that method, of data
    of [getPriceWithFallback] that come from a DEX.
    [handleGraduatedPosition] never throws and leaves the set of open
    positions and every other hash as they are.  When the store accepts
    the write, the hash of the position gets [graduated] "true",
    [executedDex] "Jupiter", the time of the call and, as graduation
    price, the price [getDEXPrice] answers or, without one, the entry
    price of the position; every other field of the hash is kept.  When
    the store rejects the write nothing changes. *)
Theorem handleGraduatedPosition_marks :
  forall W mint position s,
    let key := ("position:" ++ mint)%string in
    (exists r s1,
       getDEXPrice W mint s = (Ok r, s1) /\ hashes s1 = hashes s /\
       forall p,
         r = Some p <->
         JS.truthy p = true /\
         exists d, price d = Some p /\ dexData W mint (asked s) d) /\
    (exists s' p,
       handleGraduatedPosition W mint position s = (Ok tt, s') /\
       open_positions s' = open_positions s /\
       match fst (getDEXPrice W mint s) with
       | Ok (Some q) => p = q
       | _ => p = entryPriceOf W position
       end /\
       (forall other, other <> key -> hashes s' !! other = hashes s !! other) /\
       (failing W (HSET key) = true -> hashes s' = hashes s) /\
       (failing W (HSET key) = false ->
        exists hash,
          hashes s' !! key = Some hash /\
          hash !! "graduated"%string = Some "true"%string /\
          hash !! "executedDex"%string = Some "Jupiter"%string /\
          hash !! "graduationPrice"%string = Some (numberToString W p) /\
          hash !! "graduationTime"%string
          = Some (numberToString W (JS.ofZ (clock W (tick s)))) /\
          forall field,
            field <> "graduated"%string -> field <> "executedDex"%string ->
            field <> "graduationPrice"%string ->
            field <> "graduationTime"%string ->
            hash !! field = stored s key !! field)).
Proof.
  intros W mint position s key. split.
  - destruct (getDEXPrice_run W mint s) as (r & s1 & Hrun & _ & Hh & _ & Hr).
    exists r, s1. auto.
  - destruct (handle_run W mint position s) as (s' & p & Hrun & Hop & _ & Hp & Hh).
    exists s', p. split; [exact Hrun |]. split; [exact Hop |].
    split; [exact Hp |]. fold key in Hh.
    split; [| split].
    + intros other Hother. rewrite Hh.
      destruct (failing W (HSET key)); [reflexivity |].
      apply lookup_insert_ne. congruence.
    + intros Hfail. rewrite Hh, Hfail. reflexivity.
    + intros Hfail. rewrite Hfail in Hh. eexists.
      split; [rewrite Hh; apply lookup_insert_eq |].
      apply marked_fields.
Qed.

(** The three tests of the loop pass exactly for an eligible position. *)
Lemma checkPosition_eligible W mint s :
  failing W (HGETALL ("position:" ++ mint)%string) = false ->
  checkPosition W mint s
  = if eligible (stored s ("position:" ++ mint)%string)
    then bind (hasGraduated W mint)
           (fun graduationStatus =>
              match graduationStatus with
              | None =>
                  throw "Cannot read properties of null (reading 'graduated')"
              | Some status =>
                  if graduated status
                  then handleGraduatedPosition W mint
                         (stored s ("position:" ++ mint)%string)
                  else ret tt
              end)
           (emit (Redis (HGETALL ("position:" ++ mint)%string)) s)
    else (Ok tt, emit (Redis (HGETALL ("position:" ++ mint)%string)) s).
Proof.
  intros Hfail. unfold checkPosition. unfold bind at 1, hgetall, redis.
  rewrite Hfail. unfold eligible. fold (stored s ("position:" ++ mint)%string).
  destruct (bool_decide (stored s ("position:" ++ mint)%string !! "strategy"%string
                         = Some "copy"%string)); [| reflexivity].
  cbn [negb andb].
  destruct (truthyText _ && negb _); [reflexivity |]. cbn [negb].
  destruct (bool_decide (stored s ("position:" ++ mint)%string !! "graduated"%string
                         = Some "true"%string)); reflexivity.
Qed.

Lemma marksOnly_refl s s' :
  open_positions s' = open_positions s -> hashes s' = hashes s ->
  marksOnly s s'.
Proof. intros Hop Hh. split; [exact Hop |]. intros key. left. congruence. Qed.

Lemma marksOnly_trans s1 s2 s3 :
  marksOnly s1 s2 -> marksOnly s2 s3 -> marksOnly s1 s3.
Proof.
  intros [Hop12 H12] [Hop23 H23]. split; [congruence |]. intros key.
  destruct (H23 key) as [Hsame | ((mint & Hkey & Hin) & Hel & p & t & Hnew)].
  - rewrite Hsame. apply H12.
  - destruct (H12 key) as [Hsame | (_ & _ & p' & t' & Hold)].
    + right. assert (stored s2 key = stored s1 key) as Hst
        by (unfold stored; rewrite Hsame; reflexivity).
      rewrite Hst in Hel, Hnew. split; [exists mint; split; congruence |].
      split; [exact Hel |]. eauto.
    + assert (stored s2 key = marked p' t' (stored s1 key)) as Hst
        by (unfold stored; rewrite Hold; reflexivity).
      rewrite Hst, marked_not_eligible in Hel. discriminate.
Qed.

(** The body of the loop changes at most the hash of its mint, and only
    by marking it. *)
Lemma checkPosition_run W mint s :
  In mint (open_positions s) ->
  exists r s', checkPosition W mint s = (r, s') /\ marksOnly s s'.
Proof.
  intros Hin.
  destruct (failing W (HGETALL ("position:" ++ mint)%string)) eqn:Hfail.
  - unfold checkPosition. unfold bind at 1, hgetall, redis. rewrite Hfail.
    eexists; eexists. split; [reflexivity |]. apply marksOnly_refl; reflexivity.
  - rewrite (checkPosition_eligible W mint s Hfail).
    destruct (eligible (stored s ("position:" ++ mint)%string)) eqn:Hel;
      [| eexists; eexists; split; [reflexivity |];
         apply marksOnly_refl; reflexivity].
    unfold bind.
    destruct (hasGraduated_run W mint
                (emit (Redis (HGETALL ("position:" ++ mint)%string)) s))
      as (r & s1 & -> & Hop & Hh & _).
    cbn in Hop, Hh.
    destruct r as [status |];
      [| eexists; eexists; split; [reflexivity |];
         apply marksOnly_refl; assumption].
    destruct (graduated status);
      [| eexists; eexists; split; [reflexivity |];
         apply marksOnly_refl; assumption].
    destruct (handle_run W mint (stored s ("position:" ++ mint)%string) s1)
      as (s' & p & -> & Hop' & _ & _ & Hh').
    eexists; eexists. split; [reflexivity |].
    split; [congruence |]. intros key. rewrite Hh'.
    destruct (failing W (HSET ("position:" ++ mint)%string));
      [left; congruence |].
    destruct (decide (key = ("position:" ++ mint)%string)) as [-> | Hne].
    + right. split; [eauto |]. split; [exact Hel |].
      rewrite lookup_insert_eq.
      assert (stored s1 ("position:" ++ mint)%string
              = stored s ("position:" ++ mint)%string) as ->
        by (unfold stored; rewrite Hh; reflexivity).
      eauto.
    + left. rewrite lookup_insert_ne by congruence. congruence.
Qed.

Lemma forEach_run W mints :
  forall s,
    (forall mint, In mint mints -> In mint (open_positions s)) ->
    exists r s', forEach W mints s = (r, s') /\ marksOnly s s'.
Proof.
  induction mints as [| mint rest IH]; intros s Hin; cbn [forEach].
  - eexists; eexists. split; [reflexivity |]. apply marksOnly_refl; reflexivity.
  - unfold bind.
    destruct (checkPosition_run W mint s (Hin mint (or_introl eq_refl)))
      as (r & s1 & -> & Hm).
    destruct r as [[] | e]; [| eauto].
    destruct (IH s1) as (r' & s' & -> & Hm').
    { intros m Hm0. rewrite (proj1 Hm). apply Hin. right. exact Hm0. }
    eexists; eexists. split; [reflexivity |].
    exact (marksOnly_trans _ _ _ Hm Hm').
Qed.

Lemma monitorPass_run W s :
  exists s', monitorPass W s = (Ok tt, s') /\ marksOnly s s'.
Proof.
  unfold monitorPass. rewrite try_catch_bind. unfold smembers, redis.
  destruct (failing W SMEMBERS).
  - eexists. split; [reflexivity |]. apply marksOnly_refl; reflexivity.
  - rewrite try_catch_bind.
    destruct (forEach_run W (open_positions s) (emit (Redis SMEMBERS) s))
      as (r & s1 & -> & Hop & Hh); [auto |].
    destruct r as [[] | e]; eexists; (split; [reflexivity |]);
      (split; [exact Hop | exact Hh]).
Qed.

Lemma monitorOpenPositions_run W turns :
  forall s,
    exists s', monitorOpenPositions W turns s = (Ok tt, s') /\ marksOnly s s'.
Proof.
  induction turns as [| n IH]; intros s; cbn [monitorOpenPositions].
  - eexists. split; [reflexivity |]. apply marksOnly_refl; reflexivity.
  - unfold bind. destruct (monitorPass_run W s) as (s1 & -> & Hm).
    destruct (IH s1) as (s' & -> & Hm').
    eexists. split; [reflexivity |]. exact (marksOnly_trans _ _ _ Hm Hm').
Qed.

(** X26. However many turns the
    loop of [monitorOpenPositions] makes, whatever the price service and
    the store answer, it does not throw, the set of open positions is
    the same, and every hash of the store is as it was or is the marked
    hash of an open position that was eligible: one of the copy
    strategy, bought on Pump.fun or without venue, and not marked.  A
    marked hash is not eligible, so that a position is marked at most
    once, and it keeps every field but the four of the mark. *)
Theorem monitor_marks_eligible_positions_once :
  forall W,
    (forall turns s,
       exists s',
         monitorOpenPositions W turns s = (Ok tt, s') /\ marksOnly s s') /\
    (forall graduationPrice graduationTime position,
       eligible (marked graduationPrice graduationTime position) = false /\
       forall field,
         field <> "graduated"%string -> field <> "executedDex"%string ->
         field <> "graduationPrice"%string ->
         field <> "graduationTime"%string ->
         marked graduationPrice graduationTime position !! field
         = position !! field).
Proof.
  intros W. split.
  - intros turns s. apply monitorOpenPositions_run.
  - intros p t h. split; [apply marked_not_eligible |]. apply marked_fields.
Qed.

Lemma idle_refl s : idle s s.
Proof.
  repeat split. exists []. rewrite app_nil_r. auto.
Qed.

Lemma idle_emit s s' e :
  idle s s' -> quiet e = true -> idle s (emit e s').
Proof.
  intros (Hop & Hh & Ha & Ht & l & Hl & Hq) He.
  repeat split; try assumption.
  exists (l ++ [e]). cbn. rewrite Hl, <- app_assoc. split; [reflexivity |].
  rewrite forallb_app, Hq. cbn. rewrite He. reflexivity.
Qed.

Lemma idle_trans s1 s2 s3 : idle s1 s2 -> idle s2 s3 -> idle s1 s3.
Proof.
  intros (Hop & Hh & Ha & Ht & l & Hl & Hq) (Hop' & Hh' & Ha' & Ht' & l' & Hl' & Hq').
  repeat split; try congruence.
  exists (l ++ l'). rewrite Hl', Hl, <- app_assoc. split; [reflexivity |].
  rewrite forallb_app, Hq, Hq'. reflexivity.
Qed.

Lemma checkPosition_idle W mint s :
  svc_hasGraduated (service W) = None ->
  svc_getPriceWithFallback (service W) = None ->
  exists r s', checkPosition W mint s = (r, s') /\ idle s s'.
Proof.
  intros Hno1 Hno2.
  destruct (failing W (HGETALL ("position:" ++ mint)%string)) eqn:Hfail.
  - unfold checkPosition. unfold bind at 1, hgetall, redis. rewrite Hfail.
    eexists; eexists. split; [reflexivity |].
    apply idle_emit; [apply idle_refl | reflexivity].
  - rewrite (checkPosition_eligible W mint s Hfail).
    destruct (eligible (stored s ("position:" ++ mint)%string));
      [| eexists; eexists; split; [reflexivity |];
         apply idle_emit; [apply idle_refl | reflexivity]].
    unfold bind.
    destruct (hasGraduated_run W mint
                (emit (Redis (HGETALL ("position:" ++ mint)%string)) s))
      as (r & s1 & -> & _ & _ & Hr).
    destruct (Hr Hno1 Hno2) as [-> ->]. cbn.
    eexists; eexists. split; [reflexivity |].
    apply idle_emit; [apply idle_refl | reflexivity].
Qed.

Lemma forEach_idle W mints :
  svc_hasGraduated (service W) = None ->
  svc_getPriceWithFallback (service W) = None ->
  forall s, exists r s', forEach W mints s = (r, s') /\ idle s s'.
Proof.
  intros Hno1 Hno2.
  induction mints as [| mint rest IH]; intros s; cbn [forEach].
  - eexists; eexists. split; [reflexivity |]. apply idle_refl.
  - unfold bind.
    destruct (checkPosition_idle W mint s Hno1 Hno2) as (r & s1 & -> & Hi).
    destruct r as [[] | e]; [| eauto].
    destruct (IH s1) as (r' & s' & -> & Hi').
    eexists; eexists. split; [reflexivity |]. exact (idle_trans _ _ _ Hi Hi').
Qed.

Lemma monitorPass_idle W s :
  svc_hasGraduated (service W) = None ->
  svc_getPriceWithFallback (service W) = None ->
  exists s', monitorPass W s = (Ok tt, s') /\ idle s s'.
Proof.
  intros Hno1 Hno2.
  unfold monitorPass. rewrite try_catch_bind. unfold smembers, redis.
  destruct (failing W SMEMBERS).
  - eexists. split; [reflexivity |]. unfold sleep, modify.
    apply idle_emit; [| reflexivity].
    apply idle_emit; [apply idle_refl | reflexivity].
  - rewrite try_catch_bind.
    destruct (forEach_idle W (open_positions s) Hno1 Hno2
                (emit (Redis SMEMBERS) s)) as (r & s1 & -> & Hi).
    assert (idle s s1) as Hi'.
    { eapply idle_trans; [| exact Hi].
      apply idle_emit; [apply idle_refl | reflexivity]. }
    destruct r as [[] | e]; eexists; (split; [reflexivity |]);
      (apply idle_emit; [exact Hi' | reflexivity]).
Qed.

(** X27. For a price service that has
    neither [hasGraduated] nor [getPriceWithFallback], as the one
    [getPriceService] gives, [hasGraduated] of the handler answers
    [{ graduated: false }] for every mint without any call, and the loop
    of [monitorOpenPositions] never marks a position: after any number
    of turns the store is as it was, the price service was never called
    and no alert was sent; only store commands and waits happened. *)
Theorem marking_needs_service_methods :
  forall W,
    svc_hasGraduated (service W) = None ->
    svc_getPriceWithFallback (service W) = None ->
    (forall mint s, hasGraduated W mint s = (Ok (Some notGraduated), s)) /\
    (forall turns s,
       exists s', monitorOpenPositions W turns s = (Ok tt, s') /\ idle s s').
Proof.
  intros W Hno1 Hno2. split.
  - intros mint s.
    destruct (hasGraduated_run W mint s) as (r & s' & -> & _ & _ & Hr).
    destruct (Hr Hno1 Hno2) as [-> ->]. reflexivity.
  - induction turns as [| n IH]; intros s; cbn [monitorOpenPositions].
    + eexists. split; [reflexivity |]. apply idle_refl.
    + unfold bind. destruct (monitorPass_idle W s Hno1 Hno2) as (s1 & -> & Hi).
      destruct (IH s1) as (s' & -> & Hi').
      eexists. split; [reflexivity |]. exact (idle_trans _ _ _ Hi Hi').
Qed.

(** Three turns of the handler of the repository over a store with one
    eligible position. *)
Lemma marking_needs_service_methods_witness :
  exists s',
    monitorOpenPositions Scenarios.shippedHandler 3 Scenarios.copyPositionStore
    = (Ok tt, s') /\
    idle Scenarios.copyPositionStore s'.
Proof.
  exact (proj2 (marking_needs_service_methods Scenarios.shippedHandler
                  eq_refl eq_refl) 3%nat Scenarios.copyPositionStore).
Defined.

End Graduation.

Section JupiterSwap.
Import JupiterExecutor.
Local Open Scope float_scope.

Lemma jupiter_afterCalls_nil s : afterCalls [] s = s.
Proof. destruct s. unfold afterCalls. cbn. rewrite app_nil_r. reflexivity. Qed.

Lemma jupiter_afterCalls_app l1 l2 s :
  afterCalls l2 (afterCalls l1 s) = afterCalls (l1 ++ l2) s.
Proof. unfold afterCalls. cbn. rewrite <- app_assoc. reflexivity. Qed.

Lemma getTokenDecimals_run W mint s :
  getTokenDecimals W mint s
  = (Ok (decimalsOf W mint), afterCalls (decimalsCalls W mint) s).
Proof.
  unfold getTokenDecimals, decimalsOf, decimalsCalls, try_catch, bind, call,
    throw, ret.
  destruct (isPublicKey W mint); cbn [negb].
  - destruct (getParsedAccountInfo W mint) as [[d |] | e]; reflexivity.
  - rewrite jupiter_afterCalls_nil. reflexivity.
Qed.

Lemma jupiter_poll W sig rest i s :
  waitForConfirmation W sig (S rest) i s
  = if confirmedAt W sig i
    then (Ok true, afterCalls [GetSignatureStatus sig] s)
    else waitForConfirmation W sig rest (S i)
           (afterCalls [GetSignatureStatus sig] s).
Proof.
  cbn [waitForConfirmation].
  unfold confirmedAt, bind at 1, try_catch, bind, call, ret.
  destruct (getSignatureStatus W sig i) as [[st |] | e]; try reflexivity.
  destruct (PumpPortalExecutor.isConfirmed st); reflexivity.
Qed.

(** The loop polls until a poll shows the signature confirmed, at most
    [remaining] times. *)
Lemma jupiter_polling W sig :
  forall remaining i s,
    exists n,
      (n <= remaining)%nat /\
      ((0 < remaining)%nat -> (0 < n)%nat) /\
      exists confirmed,
        waitForConfirmation W sig remaining i s
        = (Ok confirmed, afterCalls (repeat (GetSignatureStatus sig) n) s).
Proof.
  induction remaining as [| rest IH]; intros i s.
  - exists 0%nat. split; [lia |]. split; [lia |]. exists false.
    cbn. rewrite jupiter_afterCalls_nil. reflexivity.
  - rewrite jupiter_poll. destruct (confirmedAt W sig i).
    + exists 1%nat. split; [lia |]. split; [lia |]. exists true. reflexivity.
    + destruct (IH (S i) (afterCalls [GetSignatureStatus sig] s))
        as (n & Hn & _ & confirmed & Hrun).
      exists (S n). split; [lia |]. split; [lia |]. exists confirmed.
      rewrite Hrun, jupiter_afterCalls_app. reflexivity.
Qed.

Lemma parseSwapTx_run W ex sig s :
  parseSwapTx W ex sig s
  = (Ok (walletDelta W ex sig), afterCalls [GetTransaction sig] s).
Proof.
  unfold parseSwapTx, walletDelta, try_catch, bind, call, throw, ret.
  destruct (getTransaction W sig) as [[t |] | e]; try reflexivity.
  destruct (Rpc.meta t) as [[e pretb posttb pre post] |]; [| reflexivity].
  cbn [Rpc.preBalances Rpc.postBalances].
  unfold PumpPortalExecutor.solDeltaOf.
  destruct (0 <=? PumpPortalExecutor.walletIndexOf (walletPubkey ex) t)%Z;
    destruct pre, post; reflexivity.
Qed.

Lemma jupiter_randomBytes_state W n :
  forall s,
    exists bytes,
      randomBytes W n s
      = (Ok bytes, {| calls := calls s; drawn := (drawn s + n)%nat;
                      tick := tick s |}).
Proof.
  induction n as [| n IH]; intros s; cbn [randomBytes].
  - exists []. unfold ret. rewrite Nat.add_0_r. destruct s; reflexivity.
  - unfold bind at 1, math_random. unfold bind at 1.
    destruct (IH {| calls := calls s; drawn := S (drawn s); tick := tick s |})
      as [bytes ->].
    eexists. unfold ret. cbn. rewrite Nat.add_succ_r. reflexivity.
Qed.

(** The quote of a valid amount. *)
Lemma getSwapQuote_run W mint amount bps s :
  validAmount amount = true ->
  getSwapQuote W mint amount bps s
  = match JS.floor (amount * power10 W (decimalsOf W mint)) with
    | None =>
        (Throw "The number cannot be converted to a BigInt",
         afterCalls (decimalsCalls W mint) s)
    | Some units =>
        let s1 := afterCalls (decimalsCalls W mint ++ [GetQuote mint units bps]) s in
        match getQuote W mint units bps with
        | Ok (Some response) =>
            match outAmount response with
            | Some out =>
                (Ok {| quote_decimals := decimalsOf W mint;
                       quote_baseUnits := units;
                       quote_expectedSOL := JS.ofZ out / 1e9;
                       quoteResponse := response |}, s1)
            | None => (Throw "Quote: Jupiter did not return outAmount", s1)
            end
        | Ok None => (Throw "Quote: Jupiter did not return outAmount", s1)
        | Throw e => (Throw e, s1)
        end
    end.
Proof.
  intros Hvalid. unfold validAmount in Hvalid.
  apply andb_prop in Hvalid as [Ht Hle].
  unfold getSwapQuote. rewrite Ht.
  destruct (amount <=? 0); [discriminate |]. cbn [negb orb].
  unfold bind at 1. rewrite getTokenDecimals_run.
  destruct (JS.floor (amount * power10 W (decimalsOf W mint))) as [units |];
    [| reflexivity].
  unfold bind, call, throw, ret. cbn zeta.
  rewrite <- jupiter_afterCalls_app.
  destruct (getQuote W mint units bps) as [[response |] | e]; try reflexivity.
  destruct (outAmount response); reflexivity.
Qed.

Ltac no_swap :=
  let u := fresh "u" in
  let q := fresh "q" in
  let o := fresh "o" in
  let t := fresh "t" in
  let g := fresh "g" in
  intros (u & q & o & t & g & ? & ? & ? & ? & ? & ? & ?); congruence.

Ltac failed_swap :=
  eexists; eexists; split; [reflexivity |];
  split; [split; [discriminate | no_swap] |];
  split; [intros ? ? ? ? ? (? & ? & ? & ? & ? & ? & ?); congruence |];
  intros _; eexists; split; [reflexivity |]; split; reflexivity.

(** X28. [swapToken] of the Jupiter executor never
    throws.  In dry-run mode it makes no network call and answers a
    success with 0 SOL for any amount, valid or not.  Outside dry-run
    mode an amount that is zero, negative or NaN is refused before any
    call.  Otherwise the swap succeeds exactly when every step up to the
    sending went through: the base units are
    [floor(amount * 10 ** decimals)], with the decimals of the mint or 6
    when they cannot be read.  The success does not depend on the polls
    of the signature (1 to 30): it reports the quoted SOL as expected
    and, as received, the change of the balance of the wallet in the
    transaction, 0 when it cannot be read. *)
Theorem jupiter_swap_steps :
  forall W ex mint uiTokenAmount slippageBps s,
    (dryRun ex = true ->
     exists sig,
       swapToken W ex mint uiTokenAmount slippageBps s
       = (Ok {| success := true; simulated := true; result_mint := mint;
                signature := Some sig; decimals := None;
                tokensSold := Some uiTokenAmount; baseUnits := None;
                expectedSOL := Some 0; solReceived := Some 0;
                timestamp := None; error := None |},
          {| calls := calls s; drawn := (drawn s + 64)%nat;
             tick := tick s |})) /\
    (dryRun ex = false ->
     (validAmount uiTokenAmount = false ->
      swapToken W ex mint uiTokenAmount slippageBps s
      = (Ok (failure mint "Invalid token amount for quote"), s)) /\
     exists r s',
       swapToken W ex mint uiTokenAmount slippageBps s = (Ok r, s') /\
       (success r = true <->
        exists units response out unsigned sent,
          swapSent W mint uiTokenAmount slippageBps
            units response out unsigned sent) /\
       (forall units response out unsigned sent,
          swapSent W mint uiTokenAmount slippageBps
            units response out unsigned sent ->
          r = {| success := true; simulated := false; result_mint := mint;
                 signature := Some sent;
                 decimals := Some (decimalsOf W mint);
                 tokensSold := Some uiTokenAmount;
                 baseUnits := Some units;
                 expectedSOL := Some (JS.ofZ out / 1e9);
                 solReceived := Some (walletDelta W ex sent);
                 timestamp := Some (clock W (tick s)); error := None |} /\
          exists n,
            (1 <= n <= 30)%nat /\
            s' = {| calls :=
                      calls s ++ decimalsCalls W mint
                      ++ [GetQuote mint units slippageBps; PostSwap response;
                          SendTransaction unsigned]
                      ++ repeat (GetSignatureStatus sent) n
                      ++ [GetTransaction sent];
                    drawn := drawn s; tick := S (tick s) |}) /\
       (success r = false ->
        exists message,
          r = failure mint message /\ drawn s' = drawn s /\ tick s' = tick s)).
Proof.
  intros W ex mint amount bps s. split.
  - intros Hdry. unfold swapToken. rewrite Hdry.
    destruct (jupiter_randomBytes_state W 64 s) as [bytes Hb].
    exists (PumpPortalLightning.bs58encode bytes).
    unfold try_catch, fakeSignature, bind. rewrite Hb. reflexivity.
  - intros Hlive.
    assert (validAmount amount = false ->
            swapToken W ex mint amount bps s
            = (Ok (failure mint "Invalid token amount for quote"), s)) as Hinvalid.
    { intros Hinv. unfold swapToken. rewrite Hlive, try_catch_bind.
      unfold getSwapQuote.
      assert (negb (JS.truthy amount) || (amount <=? 0) = true) as ->.
      { unfold validAmount in Hinv.
        destruct (JS.truthy amount), (amount <=? 0); auto. }
      reflexivity. }
    split; [exact Hinvalid |].
    destruct (validAmount amount) eqn:Hv.
    2: { rewrite (Hinvalid eq_refl). failed_swap. }
    unfold swapToken. rewrite Hlive, try_catch_bind.
    rewrite (getSwapQuote_run W mint amount bps s Hv).
    destruct (JS.floor (amount * power10 W (decimalsOf W mint)))
      as [units |] eqn:Hfloor; [| failed_swap].
    cbn zeta.
    destruct (getQuote W mint units bps) as [[response |] | e] eqn:Hquote;
      [| failed_swap | failed_swap].
    destruct (outAmount response) as [out |] eqn:Hout; [| failed_swap].
    rewrite try_catch_bind. unfold call at 1.
    cbn [quoteResponse quote_decimals quote_baseUnits quote_expectedSOL].
    destruct (postSwap W response) as [[[[unsigned |]] |] | e] eqn:Hswap;
      [| failed_swap | failed_swap | failed_swap].
    destruct (deserializes W unsigned) eqn:Hde; cbn [negb];
      [| failed_swap].
    rewrite try_catch_bind. unfold call at 1.
    destruct (sendTransaction W unsigned) as [sent | e] eqn:Hsend;
      [| failed_swap].
    rewrite try_catch_bind.
    match goal with
    | |- context [waitForConfirmation W sent 30 0 ?st] =>
        destruct (jupiter_polling W sent 30 0 st)
          as (n & Hn & Hpos & confirmed & ->)
    end.
    rewrite try_catch_bind, parseSwapTx_run.
    unfold try_catch, bind, now_ms, ret.
    eexists; eexists. split; [reflexivity |].
    split; [split; [intros _; exists units, response, out, unsigned, sent;
                    repeat split; assumption | reflexivity] |].
    split; [| discriminate].
    intros u q o t g (_ & Hf' & Hq' & Ho' & Hp' & Hd' & Hs').
    assert (u = units) as -> by congruence.
    assert (q = response) as -> by congruence.
    assert (o = out) as -> by congruence.
    assert (t = unsigned) as -> by congruence.
    assert (g = sent) as -> by congruence.
    split; [reflexivity |]. exists n. split; [lia |].
    unfold afterCalls. cbn. rewrite <- !app_assoc. reflexivity.
Qed.

(** A live swap of 1000 tokens on a network where the signature is
    never confirmed and the transaction only costs its fee: a success
    that reports less than nothing received. *)
Lemma jupiter_swap_steps_witness :
  exists r s',
    swapToken Scenarios.jupiterWorld Scenarios.liveJupiter "Mint" 1000 500
      Scenarios.freshJupiter = (Ok r, s') /\
    success r = true /\
    baseUnits r = Some 1000000000%Z /\
    expectedSOL r = Some 0.5 /\
    (exists received, solReceived r = Some received /\ (received <? 0) = true) /\
    List.length (calls s') = 35%nat.
Proof.
  destruct (proj2 (jupiter_swap_steps Scenarios.jupiterWorld Scenarios.liveJupiter
                     "Mint"%string 1000 500 Scenarios.freshJupiter) eq_refl)
    as (_ & r & s' & Hrun & Hok & Hsent & _).
  assert (swapSent Scenarios.jupiterWorld "Mint" 1000 500 1000000000
            {| outAmount := Some 500000000%Z |} 500000000 [Byte.x01] "Sig")
    as Hswap.
  { repeat split; vm_compute; reflexivity. }
  destruct (Hsent _ _ _ _ _ Hswap) as (Hr & n & Hn & Hs).
  exists r, s'. split; [exact Hrun |].
  split; [apply Hok; eauto 10 |].
  rewrite Hr. cbn [baseUnits expectedSOL solReceived].
  split; [reflexivity |]. split; [vm_compute; reflexivity |].
  split; [eexists; split; [reflexivity | vm_compute; reflexivity] |].
  vm_compute in Hrun. injection Hrun as _ <-. reflexivity.
Defined.

End JupiterSwap.

Section Cleanup.
Import Server.
Local Open Scope Z_scope.

Lemma difference_nil (X : gset string) : X = X ∖ list_to_set [].
Proof. rewrite list_to_set_nil, difference_empty_L. reflexivity. Qed.

(** The loop removes members of the list whose position is stale, each
    once, and nothing else; when it ends without error it has removed
    all of them and counted them. *)
Lemma cleanLoop_run W mints :
  NoDup mints ->
  forall cleaned s,
    exists r s' removed,
      cleanLoop W mints cleaned s = (r, s') /\
      hashes s' = hashes s /\
      open_positions s' = open_positions s ∖ list_to_set removed /\
      NoDup removed /\
      (forall mint,
         mint ∈ removed -> mint ∈ mints /\ stale (positionOf s mint) = true) /\
      (forall count,
         r = Ok count ->
         count = cleaned + Z.of_nat (length removed) /\
         forall mint,
           mint ∈ mints -> stale (positionOf s mint) = true -> mint ∈ removed).
Proof.
  induction mints as [| mint rest IH]; intros Hnodup cleaned s.
  - exists (Ok cleaned), s, []. cbn.
    split; [reflexivity |]. split; [reflexivity |].
    split; [apply difference_nil |].
      split; [constructor |].
    split; [intros m Hm; inversion Hm |].
    intros count [= <-]. split; [lia |]. intros m Hm. inversion Hm.
  - apply NoDup_cons in Hnodup as [Hnotin Hnodup].
    cbn [cleanLoop]. unfold bind at 1, hgetall, command.
    destruct (failing W (HGETALL ("position:" ++ mint))).
    { eexists; exists s, []. split; [reflexivity |]. split; [reflexivity |].
      split; [apply difference_nil |].
      split; [constructor |].
      split; [intros m Hm; inversion Hm |]. discriminate. }
    cbn [fst snd]. fold (positionOf s mint).
    destruct (stale (positionOf s mint)) eqn:Hstale.
    + unfold bind at 1, srem, command.
      destruct (failing W (SREM mint)).
      { eexists; exists s, []. split; [reflexivity |]. split; [reflexivity |].
        split; [apply difference_nil |].
      split; [constructor |].
        split; [intros m Hm; inversion Hm |]. discriminate. }
      cbn [fst snd].
      destruct (IH Hnodup (cleaned + 1)
                  {| open_positions := open_positions s ∖ {[mint]};
                     hashes := hashes s |})
        as (r & s' & removed & -> & Hh & Hop & Hnd & Hrem & Hdone).
      cbn in Hh, Hop.
      exists r, s', (mint :: removed).
      split; [reflexivity |]. split; [exact Hh |].
      split; [rewrite Hop, list_to_set_cons, difference_difference_l_L; reflexivity |].
      split; [constructor; [| exact Hnd]; intros Hin;
              apply Hnotin; apply (Hrem mint Hin) |].
      split.
      * intros m Hm. apply elem_of_cons in Hm as [-> | Hm].
        -- split; [left | exact Hstale].
        -- destruct (Hrem m Hm) as [Hin Hst]. split; [right; exact Hin | exact Hst].
      * intros count Hcount. destruct (Hdone count Hcount) as [-> Hall].
        split; [cbn [length]; lia |].
        intros m Hm Hst. apply elem_of_cons in Hm as [-> | Hm]; [left |].
        right. apply Hall; assumption.
    + destruct (IH Hnodup cleaned s)
        as (r & s' & removed & -> & Hh & Hop & Hnd & Hrem & Hdone).
      exists r, s', removed.
      split; [reflexivity |]. split; [exact Hh |]. split; [exact Hop |].
      split; [exact Hnd |]. split.
      * intros m Hm. destruct (Hrem m Hm) as [Hin Hst].
        split; [right; exact Hin | exact Hst].
      * intros count Hcount. destruct (Hdone count Hcount) as [-> Hall].
        split; [reflexivity |].
        intros m Hm Hst. apply elem_of_cons in Hm as [-> | Hm];
          [congruence | apply Hall; assumption].
Qed.

Lemma cleanLoop_total W :
  (forall c, failing W c = false) ->
  forall mints cleaned s,
    exists count s', cleanLoop W mints cleaned s = (Ok count, s').
Proof.
  intros Hno. induction mints as [| mint rest IH]; intros cleaned s.
  - eexists; eexists. reflexivity.
  - cbn [cleanLoop]. unfold bind at 1, hgetall, command. rewrite Hno.
    cbn [fst snd]. destruct (stale _); [| apply IH].
    unfold bind, srem, command. rewrite Hno. cbn [fst snd]. apply IH.
Qed.

(** X29. The cleanup endpoint always answers
    and never touches a hash.  Whatever the store rejects, it removes
    from [open_positions] only members whose position hash is missing,
    empty or closed: a position with a hash that is not closed stays.
    When it answers with a success, no such member is left, [remaining]
    is the size of the set afterwards and [cleaned + remaining] is the
    size it had; it does so whenever the store rejects no command.
    Without a connection it answers that the store is not available and
    changes nothing. *)
Theorem cleanup_removes_stale_only :
  forall W s,
    exists r s',
      cleanup W s = (Ok r, s') /\
      hashes s' = hashes s /\
      (forall mint, mint ∈ open_positions s' -> mint ∈ open_positions s) /\
      (forall mint,
         mint ∈ open_positions s -> stale (positionOf s mint) = false ->
         mint ∈ open_positions s') /\
      (forall cleaned remaining,
         r = Cleaned cleaned remaining ->
         (forall mint,
            mint ∈ open_positions s' -> stale (positionOf s mint) = false) /\
         remaining = Z.of_nat (size (open_positions s')) /\
         cleaned + remaining = Z.of_nat (size (open_positions s))) /\
      (connected W = false -> r = NotAvailable /\ s' = s) /\
      (connected W = true -> (forall c, failing W c = false) ->
       exists cleaned remaining, r = Cleaned cleaned remaining).
Proof.
  intros W s. unfold cleanup.
  destruct (connected W) eqn:Hconn; cbn [negb].
  2: { exists NotAvailable, s. split; [reflexivity |].
       repeat split; auto; discriminate. }
  unfold try_catch. unfold bind at 1, smembers, command.
  destruct (failing W SMEMBERS) eqn:Hmembers.
  { eexists; exists s. split; [reflexivity |].
    repeat split; auto; try discriminate.
    intros _ Hall. rewrite Hall in Hmembers. discriminate. }
  cbn [fst snd]. unfold bind at 1.
  destruct (cleanLoop_run W (elements (open_positions s))
              (NoDup_elements _) 0 s)
    as (r & s' & removed & Hrun & Hh & Hop & Hnd & Hrem & Hdone).
  rewrite Hrun.
  assert (forall mint, mint ∈ open_positions s' -> mint ∈ open_positions s)
    as Hsub.
  { intros m. rewrite Hop, elem_of_difference. tauto. }
  assert (forall mint,
            mint ∈ open_positions s -> stale (positionOf s mint) = false ->
            mint ∈ open_positions s') as Hkeep.
  { intros m Hm Hlive. rewrite Hop, elem_of_difference. split; [exact Hm |].
    rewrite elem_of_list_to_set. intros Hin.
    destruct (Hrem m Hin) as [_ Hst]. congruence. }
  destruct r as [count | e].
  - destruct (Hdone count eq_refl) as [-> Hall].
    unfold bind, scard, command, ret.
    destruct (failing W SCARD) eqn:Hcard.
    { eexists; exists s'. split; [reflexivity |].
      repeat split; auto; try discriminate.
      intros _ Hno. rewrite Hno in Hcard. discriminate. }
    cbn [fst snd].
    eexists; exists s'. split; [reflexivity |]. split; [exact Hh |].
    split; [exact Hsub |]. split; [exact Hkeep |].
    split; [| split; [discriminate | eauto]].
    intros cleaned remaining [= <- <-].
    split; [| split; [reflexivity |]].
    + intros m Hm. destruct (stale (positionOf s m)) eqn:Hst; [| reflexivity].
      exfalso. rewrite Hop, elem_of_difference, elem_of_list_to_set in Hm.
      destruct Hm as [Hm Hnot]. apply Hnot, Hall; [| exact Hst].
      apply elem_of_elements. exact Hm.
    + assert (list_to_set removed ⊆ open_positions s) as Hincl.
      { intros m Hm. apply elem_of_list_to_set in Hm.
        apply elem_of_elements. apply (Hrem m Hm). }
      rewrite Hop, (size_difference _ _ Hincl).
      pose proof (subseteq_size _ _ Hincl) as Hle.
      rewrite (size_list_to_set removed Hnd) in *. lia.
  - eexists; exists s'. split; [reflexivity |]. split; [exact Hh |].
    split; [exact Hsub |]. split; [exact Hkeep |].
    split; [discriminate |]. split; [discriminate |].
    intros _ Hno. exfalso.
    destruct (cleanLoop_total W Hno (elements (open_positions s)) 0 s)
      as (count & s1 & Htotal).
    congruence.
Qed.

End Cleanup.

Section ServiceSwap.
Import JupiterPriceService.
Local Open Scope float_scope.

Lemma service_afterCalls_app l1 l2 s :
  afterCalls l2 (afterCalls l1 s) = afterCalls (l1 ++ l2) s.
Proof. unfold afterCalls. cbn. rewrite <- app_assoc. reflexivity. Qed.

Lemma service_fetch_step {A} c (answer : nat -> outcome (option A)) rest i s :
  fetchWithRetry c answer (S rest) i s
  = match answer i with
    | Ok a => (Ok a, afterCalls [c] s)
    | Throw e =>
        if (rest =? 0)%nat then (Throw e, afterCalls [c] s)
        else fetchWithRetry c answer rest (S i) (afterCalls [c] s)
    end.
Proof.
  cbn [fetchWithRetry]. unfold try_catch, call, throw.
  destruct (answer i); [reflexivity |].
  destruct (rest =? 0)%nat; reflexivity.
Qed.

(** The attempts of [fetchWithRetry] from attempt [i] on. *)
Lemma service_fetch_from {A} c (answer : nat -> outcome (option A)) remaining :
  forall i s,
    exists k,
      (1 <= k <= S remaining)%nat /\
      fetchWithRetry c answer (S remaining) i s
      = (answer (i + k - 1)%nat, afterCalls (repeat c k) s) /\
      (forall j, (j < k - 1)%nat -> exists e, answer (i + j)%nat = Throw e) /\
      ((k < S remaining)%nat -> exists a, answer (i + k - 1)%nat = Ok a).
Proof.
  induction remaining as [| rest IH]; intros i s; rewrite service_fetch_step.
  - exists 1%nat. split; [lia |]. replace (i + 1 - 1)%nat with i by lia.
    split; [destruct (answer i); reflexivity |].
    split; [intros j Hj; lia | intros Hk; lia].
  - destruct (answer i) as [a | e] eqn:Hfirst.
    + exists 1%nat. split; [lia |]. replace (i + 1 - 1)%nat with i by lia.
      rewrite Hfirst. split; [reflexivity |].
      split; [intros j Hj; lia | eauto].
    + cbn [Nat.eqb].
      destruct (IH (S i) (afterCalls [c] s)) as (k & Hk & Hrun & Hthrows & Hok).
      exists (S k). split; [lia |].
      replace (i + S k - 1)%nat with (S i + k - 1)%nat by lia.
      split; [rewrite Hrun, service_afterCalls_app; reflexivity |]. split.
      * intros j Hj. destruct j as [| j].
        -- rewrite Nat.add_0_r. eauto.
        -- replace (i + S j)%nat with (S i + j)%nat by lia. apply Hthrows. lia.
      * intros Hlt. apply Hok. lia.
Qed.

(** The three attempts: the request ends at an attempt that answers, or
    fails for good after the third. *)
Lemma service_fetch {A} c (answer : nat -> outcome (option A)) s :
  exists k,
    (1 <= k <= 3)%nat /\
    fetchWithRetry c answer 3 0 s
    = (answer (k - 1)%nat, afterCalls (repeat c k) s) /\
    (forall j, (j < k - 1)%nat -> exists e, answer j = Throw e) /\
    (forall a, answer (k - 1)%nat = Ok a -> answeredAt answer k a) /\
    (forall e, answer (k - 1)%nat = Throw e ->
               forall k' a, ~ answeredAt answer k' a).
Proof.
  destruct (service_fetch_from c answer 2 0 s) as (k & Hk & Hrun & Hthrows & Hok).
  cbn [Nat.add] in *. exists k. split; [exact Hk |]. split; [exact Hrun |].
  split; [exact Hthrows |]. split.
  - intros a Ha. split; [exact Hk |]. split; [exact Hthrows | exact Ha].
  - intros e He k' a (Hk' & Hthrows' & Ha').
    assert (k = 3%nat) as ->.
    { destruct (Nat.lt_ge_cases k 3%nat) as [Hlt | Hge]; [| lia].
      destruct (Hok Hlt) as [a0 Ha0]. congruence. }
    destruct (Nat.eq_dec k' 3%nat) as [-> | Hne]; [congruence |].
    destruct (Hthrows (k' - 1)%nat ltac:(cbn; lia)) as [e' He']. congruence.
Qed.

(** At most one attempt is the one that answers. *)
Lemma answeredAt_unique {A} (answer : nat -> outcome (option A)) k k' a a' :
  answeredAt answer k a -> answeredAt answer k' a' -> k = k' /\ a = a'.
Proof.
  intros (Hk & Hthrows & Ha) (Hk' & Hthrows' & Ha').
  assert (k = k') as <-.
  { destruct (Nat.lt_trichotomy k k') as [Hlt | [Heq | Hgt]]; [| exact Heq |].
    - destruct (Hthrows' (k - 1)%nat ltac:(lia)) as [e He]. congruence.
    - destruct (Hthrows (k' - 1)%nat ltac:(lia)) as [e He]. congruence. }
  split; [reflexivity | congruence].
Qed.

(** X30. [swapToken] of the Jupiter price
    service never throws.  It asks for the quote of [floor(tokenAmount)]
    and then for the swap, each up to three times, and succeeds exactly
    when the quote carries an [outAmount], the swap answer carries a
    transaction that deserializes and the node takes the transaction.
    It then stops: the signature is not polled and the transaction is
    not read back, and the SOL it reports as received is the quoted
    amount, [outAmount / 1e9], the same number as the expected SOL.  A
    failure carries the message of the error and no signature. *)
Theorem service_swap_reports_the_quote :
  forall W mint tokenAmount slippageBps s,
    exists r s',
      swapToken W mint tokenAmount slippageBps s = (Ok r, s') /\
      (success r = true <->
       exists k j quote out unsigned sent,
         swapSent W mint tokenAmount slippageBps k j quote out unsigned sent) /\
      (forall k j quote out unsigned sent,
         swapSent W mint tokenAmount slippageBps k j quote out unsigned sent ->
         r = {| success := true; signature := Some sent;
                solReceived := Some (JS.ofZ out / 1e9);
                expectedSOL := Some (JS.ofZ out / 1e9);
                result_priceImpact := priceImpact quote;
                result_tokenAmount := Some tokenAmount;
                error := None |} /\
         s' = afterCalls
                (repeat (FetchQuote mint (JS.floor tokenAmount) slippageBps) k
                 ++ repeat (FetchSwap quote) j
                 ++ [SendTransaction unsigned]) s) /\
      (success r = false -> exists message, r = failure message).
Proof.
  intros W mint tokenAmount bps s. unfold swapToken. cbn zeta.
  rewrite try_catch_bind.
  destruct (service_fetch (FetchQuote mint (JS.floor tokenAmount) bps)
              (fetchQuote W mint (JS.floor tokenAmount) bps) s)
    as (k & Hk & -> & _ & Hans & Hfail).
  assert (forall r s',
            (forall k' j q o t g,
               ~ swapSent W mint tokenAmount bps k' j q o t g) ->
            exists r0 s0,
              (Ok (failure r), s') = (Ok r0, s0) /\
              (success r0 = true <->
               exists k j quote out unsigned sent,
                 swapSent W mint tokenAmount bps k j quote out unsigned sent) /\
              (forall k j quote out unsigned sent,
                 swapSent W mint tokenAmount bps k j quote out unsigned sent ->
                 r0 = {| success := true; signature := Some sent;
                         solReceived := Some (JS.ofZ out / 1e9);
                         expectedSOL := Some (JS.ofZ out / 1e9);
                         result_priceImpact := priceImpact quote;
                         result_tokenAmount := Some tokenAmount;
                         error := None |} /\
                 s0 = afterCalls
                        (repeat (FetchQuote mint (JS.floor tokenAmount) bps) k
                         ++ repeat (FetchSwap quote) j
                         ++ [SendTransaction unsigned]) s) /\
              (success r0 = false -> exists message, r0 = failure message))
    as Hfailed.
  { intros message s' Hno. eexists; eexists. split; [reflexivity |].
    split; [split; [discriminate |] |].
    - intros (k' & j & q & o & t & g & Hsent). destruct (Hno _ _ _ _ _ _ Hsent).
    - split; [intros k' j q o t g Hsent; destruct (Hno _ _ _ _ _ _ Hsent) |].
      intros _. eexists. reflexivity. }
  destruct (fetchQuote W mint (JS.floor tokenAmount) bps (k - 1))
    as [[quote |] | e] eqn:Hquote.
  2: { apply Hfailed. intros k' j q o t g (Hq' & _).
       destruct (answeredAt_unique _ _ _ _ _ (Hans _ eq_refl) Hq') as [_ [=]]. }
  2: { apply Hfailed. intros k' j q o t g (Hq' & _).
       exact (Hfail e eq_refl _ _ Hq'). }
  pose proof (Hans _ eq_refl) as Hq.
  destruct (outAmount quote) as [out |] eqn:Hout.
  2: { apply Hfailed. intros k' j q o t g (Hq' & Ho' & _).
       destruct (answeredAt_unique _ _ _ _ _ Hq Hq') as [_ [= <-]]. congruence. }
  rewrite try_catch_bind.
  match goal with
  | |- context [fetchWithRetry (FetchSwap quote) (fetchSwap W quote) 3 0 ?st] =>
      destruct (service_fetch (FetchSwap quote) (fetchSwap W quote) st)
        as (j & Hj & -> & _ & Hans' & Hfail')
  end.
  destruct (fetchSwap W quote (j - 1)) as [[[[unsigned |]] |] | e] eqn:Hswap.
  2: { apply Hfailed. intros k' j' q o t g (Hq' & _ & Hs' & _).
       destruct (answeredAt_unique _ _ _ _ _ Hq Hq') as [_ [= <-]].
       destruct (answeredAt_unique _ _ _ _ _ (Hans' _ eq_refl) Hs') as [_ [=]]. }
  2: { apply Hfailed. intros k' j' q o t g (Hq' & _ & Hs' & _).
       destruct (answeredAt_unique _ _ _ _ _ Hq Hq') as [_ [= <-]].
       destruct (answeredAt_unique _ _ _ _ _ (Hans' _ eq_refl) Hs') as [_ [=]]. }
  2: { apply Hfailed. intros k' j' q o t g (Hq' & _ & Hs' & _).
       destruct (answeredAt_unique _ _ _ _ _ Hq Hq') as [_ [= <-]].
       exact (Hfail' e eq_refl _ _ Hs'). }
  pose proof (Hans' _ eq_refl) as Hs.
  cbn [swapTransaction].
  destruct (deserializes W unsigned) eqn:Hde; cbn [negb].
  2: { apply Hfailed. intros k' j' q o t g (Hq' & _ & Hs' & Hd' & _).
       destruct (answeredAt_unique _ _ _ _ _ Hq Hq') as [_ [= <-]].
       destruct (answeredAt_unique _ _ _ _ _ Hs Hs') as [_ [= <-]].
       congruence. }
  rewrite try_catch_bind. unfold call at 1.
  destruct (sendTransaction W unsigned) as [sent | e] eqn:Hsend.
  2: { apply Hfailed. intros k' j' q o t g (Hq' & _ & Hs' & _ & Hg').
       destruct (answeredAt_unique _ _ _ _ _ Hq Hq') as [_ [= <-]].
       destruct (answeredAt_unique _ _ _ _ _ Hs Hs') as [_ [= <-]].
       congruence. }
  unfold try_catch, ret.
  eexists; eexists. split; [reflexivity |].
  split; [split; [intros _; exists k, j, quote, out, unsigned, sent;
                  repeat split; solve [assumption | apply Hq | apply Hs]
                 | reflexivity] |].
  split; [| discriminate].
  intros k' j' q o t g (Hq' & Ho' & Hs' & _ & Hg').
  destruct (answeredAt_unique _ _ _ _ _ Hq Hq') as [<- [= <-]].
  destruct (answeredAt_unique _ _ _ _ _ Hs Hs') as [<- [= <-]].
  assert (o = out) as -> by congruence.
  assert (g = sent) as -> by congruence.
  split; [reflexivity |].
  unfold afterCalls. cbn. rewrite <- !app_assoc. reflexivity.
Qed.

(** A swap of 1000 tokens whose first quote request fails: the quote is
    asked twice, the swap once, the transaction is sent, and the result
    reports the quoted half SOL as received. *)
Lemma service_swap_reports_the_quote_witness :
  exists r s',
    swapToken Scenarios.retryWorld "Mint" 1000 500 {| calls := [] |}
    = (Ok r, s') /\
    success r = true /\
    solReceived r = Some 0.5 /\
    calls s'
    = [FetchQuote "Mint" (Some 1000%Z) 500; FetchQuote "Mint" (Some 1000%Z) 500;
       FetchSwap {| outAmount := Some 500000000%Z; priceImpact := None |};
       SendTransaction [Byte.x01]].
Proof.
  destruct (service_swap_reports_the_quote Scenarios.retryWorld "Mint"%string
              1000 500 {| calls := [] |})
    as (r & s' & Hrun & Hok & Hsent & _).
  assert (swapSent Scenarios.retryWorld "Mint" 1000 500 2 1
            {| outAmount := Some 500000000%Z; priceImpact := None |}
            500000000 [Byte.x01] "Sig") as Hswap.
  { split; [| split; [reflexivity |]; split; [| split; reflexivity]].
    - split; [lia |]. split; [| reflexivity].
      intros j Hj. assert (j = 0%nat) as -> by lia. eexists. reflexivity.
    - split; [lia |]. split; [| reflexivity]. intros j Hj. lia. }
  destruct (Hsent _ _ _ _ _ _ Hswap) as [Hr Hs].
  exists r, s'. split; [exact Hrun |].
  split; [apply Hok; eauto 10 |].
  rewrite Hr, Hs. split; [vm_compute; reflexivity |].
  vm_compute. reflexivity.
Defined.

End ServiceSwap.
